(* ===== verification/_CoqProject ===== *)
-Q . S2P
Prelude.v
GoErrors.v
GoTime.v
GoFloat.v
Backoff.v
Proto.v
Frame.v
Handshake.v
Grant.v
Proc.v
MuxStream.v
MuxSession.v
FlowControl.v
Pipe.v
MuxHandshake.v
Registry.v
Bridge.v
Policy.v
Db.v
Storage.v
StoreOpen.v
StorageInv.v
Enrollment.v
ControlPlane.v
NetAddr.v
Duration.v
Agent.v
Transport.v
E2ee.v
Relay.v
RelayRun.v
HttpApi.v
Keystore.v
PeerIdentity.v
Operator.v
OperatorSession.v
AgentLoop.v
Admin.v
HumanBytes.v
Deployment.v
ServerCert.v
SarServer.v
ControlServer.v
EndToEnd.v
CommandLine.v
WinSvc.v
SvcManager.v
SarAgent.v
NetWatch.v
Logging.v
