(* ===== verification/Prelude.v ===== *)
(** * secure-access-relay

    A verification of the Go program under [src/].  Operators reach TCP
    services on enrolled devices through a relay.  A control plane decides who
    may reach what and signs short-lived grants; the relay carries streams
    between operators and agents; the agent on the device verifies every grant
    by itself before it dials a local service.

    ** Parts, and the files that model them

    Shared: Prelude.v (machine integers, bytes, generic lemmas, tactics, hint
    databases), GoErrors.v (error values, [errors.Is]), GoTime.v ([time.Time]
    and [time.Duration] with their saturating [Sub]), Proc.v (concurrent code as
    trees of atomic actions; interleavings; invariant and rely-guarantee rules).

    Wire protocol ([internal/proto]): Proto.v (limits, close reasons), Frame.v
    (frame.go, codec.go: header, [Reader], [Writer]), Handshake.v (handshake.go),
    Grant.v (grant.go: canonical encoding, [Sign], [DecodeGrant], [Verify]).

    Multiplexer ([internal/mux]): MuxStream.v (the critical sections of
    stream.go), MuxSession.v (session.go: the stream table, [dispatch],
    [handleOpen], [Open], [AcceptStream], [Close], the read and keepalive loops,
    and [Read], [Write], [Close], [Reset] of a stream, with streams and channels
    in a heap because the table, the callers and the accept queue share them),
    MuxHandshake.v ([Dial], [Accept], [Admit], [Refuse]), FlowControl.v (both
    ends of a stream with the frames and the credit in flight between them),
    Pipe.v (the bounded byte queue a stream promises to be).

    Relay ([internal/relay], [internal/bridge]): Registry.v (Module Sessions:
    sessions/registry.go; Module Live: authorization/authorization.go), Bridge.v
    (bridge.go: two copying goroutines, one budget), Relay.v (relay.go: [serve],
    [serveAgent], [serveOperator], [joinStream], [TerminateGrants], sharing the
    registers and the database), RelayRun.v ([Run], [Shutdown] and the life of
    every agent's handler, as steps on the server).

    Connections ([internal/transport], [internal/e2ee]): Transport.v (the TLS
    configurations, what a handshake under them means, deadlines and closing),
    E2ee.v (the inner session between operator and agent, and a stream as the
    connection it runs over).

    Control plane ([internal/control], [internal/storage], [internal/ca]):
    Policy.v (policy.go, load.go), Duration.v (the durations of policy and
    resource files: [time.ParseDuration] and [Duration.String]), Db.v (tables,
    statements and transactions; every statement may fail), Storage.v (every
    operation of the store, and the migrations), StorageInv.v (what is always
    true of the tables), Enrollment.v (ca.go's identities and [Sign];
    enrollment.go, code.go), ControlPlane.v (audit.go; Module Login: login.go;
    Module Grants: grants.go), HttpApi.v (the handlers of httpapi),
    ControlServer.v (a request from its TLS connection through route and
    decoding to its handler), StoreOpen.v (store.go: opening the database),
    EndToEnd.v (control plane, agent and inner session put together: from a
    decision to a connection).

    Agent ([internal/agent], [internal/e2ee]): NetAddr.v (the parts of Go's
    [net] that [ValidateTarget] uses, and [ValidateTarget]), Agent.v
    (resources.go, [verifyPeer] and [finish] of e2ee.go, [handleStream]),
    AgentLoop.v ([Run], [session], [renewIfDue], [watchForRenewal]), GoFloat.v
    and Backoff.v ([internal/backoff], with the float64 arithmetic of its
    ceiling), NetWatch.v ([internal/netwatch]), Logging.v ([internal/logging]:
    the logger that mirrors records to the Windows event log).

    Peers ([internal/keystore], [internal/identity], [internal/operator],
    [cmd/sarctl]): Keystore.v (files, one system call at a time, and key
    storage), PeerIdentity.v (identity.go, renew.go), Operator.v (forward.go,
    grant.go: a forwarder whose connections share one session and one grant
    cache), OperatorSession.v (session.go and sarctl's commands).

    Server start and administration ([cmd/sar-server]): Deployment.v
    ([openDeployment], [openIssuer], [loadRules], ca.go's [Create] and [Load]),
    ServerCert.v (ca.go's server certificates, and what a client's check of the
    host name makes of them), SarServer.v ([run], [cmdRun] with the servers it
    starts, the routes), Admin.v (admin.go, and [token], [revoke], [list] of
    main.go), HumanBytes.v (the byte counts of the audit report).

    Windows service ([internal/winsvc], [cmd/sar-agent]): CommandLine.v (quoting
    a command line, and how Go splits it and reads options from it), WinSvc.v
    (the callbacks of winsvc_windows.go), SvcManager.v (manager_windows.go),
    SarAgent.v (main.go and service.go of sar-agent).

    ** How code became definitions

    Unsigned integers are [Z] with their wrap-around written out ([uwrap]);
    strings and byte slices are lists of bytes.  A fallible function returns
    [res], an error is a value of [error].  Sequential code on the database is
    in the monad [dbM] of Db.v.  Code that other goroutines interleave with is a
    [proc]: one action per critical section, frame write or channel operation.
    Files are a finite map changed by one system call at a time, each of which
    may fail, and a process may be killed between any two.  Readings of the
    clock, random bytes and what the network, a peer or the service control
    manager answers are arguments.  Libraries that are not part of the repository
    are classes whose laws are their documented behaviour ([Ed25519], [X509],
    [Base64], [Keyring], [PeerCrypto], [SessionCodec], [AuthorityCrypto],
    [ChainVerify], [ServerSigner], [JSONString], [RequestJSON], [Sqlite]); each
    theorem that assumes laws has a witness at a concrete instance.

    ** What the theorems show

    - The whole.  Whatever the relay does, an agent connects somebody to a local
      service only if the control plane decided so, for that operator, device
      and resource and within the rule's lifetime (C1); and whoever should get
      through does, by way of the relay (C2).
    - Authorization, step by step.  The policy allows exactly what a rule names
      ([Policy.Evaluate_allowed_iff]); the issuer signs only what the policy
      allowed and only together with its record (C9), and what it signs decodes
      and verifies (C8); an HTTP grant request is answered only for the
      certificate's own live session ([HttpApi.handleGrant_spec]); [Verify]
      accepts exactly the signed, current, right-device grants (C7); the relay's listener lets nobody in
      without a verified certificate (C6) and forwards only verified grants of
      the authenticated operator for the device asked for (C4); the agent
      accepts the inner session from the operator of the grant alone (C5) and
      dials nothing unless all of its own checks passed (C3), within the byte
      (C18, [Agent.handleStream_budget]) and time (C19) limits, to literal
      loopback addresses from its own allowlist
      ([NetAddr.ValidateTarget_literal], [Agent.LoadAllowlist_spec]); on the
      other side the operator's forwarder sends local traffic only to the device
      it was configured for, over a stream opened with a grant it checked (C15).
    - The control plane from outside.  Whatever anybody sends to it, a request
      changes nothing, or spends a token of its own, or changes what belongs to
      the identity whose certificate the connection proved (C10); its certificate
      is good for its names and its time (C26).
    - Revocation.  Revoked grants stay revoked (C28), by scope exactly
      ([Storage.RevokeGrantsWhere_exact]), ending a session revokes its grants
      ([ControlPlane.End_spec]), the administrator's [revoke] shuts an identity
      and its grants out (C22), the relay refuses them from then on (C20), and
      terminates exactly the streams registered under them
      ([Registry.Live.Terminate_exact]).
    - Enrollment and identities.  A token an administrator prints can be
      redeemed (C23), once (C21); the enrolling peer sends it only to the pinned
      authority (C25); enrollment and verification say exactly whose certificate
      is current ([Enrollment.Enroll_success], [Enrollment.VerifyEnrolled_spec]);
      renewal keeps the old certificate working until the new one is used
      ([Enrollment.Renew_overlap]), and wherever it is interrupted the peer never
      loads a key with somebody else's certificate (C24); the credentials an
      agent runs with always belong together (C34); a key file is replaced whole
      or not at all (C27).
    - Storage and configuration.  The tables are always well formed (C14), the
      audit trail only grows (C29), the refusals an administrator asks for are
      exactly those in it ([Admin.denials_exact]), migrations apply exactly what
      is missing ([Storage.migrate_spec]), opening a database touches that file
      alone and leaves no handle behind when it fails ([StoreOpen.Open_spec]), a
      deployment that has been opened opens again with the same authority and signing key
      ([Deployment.openDeployment_stable]), and a duration written to a file is
      the one read from it (C32).
    - Wire.  Frames round-trip through any connection (C35), oversized and
      hostile input is refused ([Frame.ReadFrame_oversized]), a grant has one
      encoding (C36), the two ends of a handshake agree
      ([MuxHandshake.handshake_agreement], [E2ee.e2ee_agreement]).
    - Multiplexer.  The session invariant holds in every interleaving (C11), a
      stream is a bounded pipe (C12), a conforming peer never violates the window
      (C16), a blocked writer is always unblocked (C17), [Write] terminates
      ([MuxSession.Stream_Write_terminates]).
    - Running.  Shutting the relay down comes to rest with every session closed
      (C13); delays double up to their limit, in float64
      ([Backoff.failures_bounded]), and so do the redials of the agent and of the
      operator ([AgentLoop.Run_paced], [Operator.dials_paced]); a change of the
      network is signalled exactly when there was one (C33); the service control
      manager is told the truth about how a service ended (C30), its handles are
      all closed and stopping is bounded ([SvcManager.management_sound]), a
      service runs with the options it was installed with (C31), and the event
      log mirrors what it should and never costs a line of the JSON log
      ([Logging.event_log_mirrors]).
    - Where the code falls short of what it means to do: C37 (a renewal that is
      interrupted can cost the identity), C38 (a revocation can miss a stream
      being joined), C39 (the deadline of the inner handshake does not end it),
      C40 (the server never reports that it failed), and, outside that list,
      [ControlPlane.grant_after_session_end], [Grant.Sign_undecodable],
      [MuxSession.close_race_orphans_stream], [HttpApi.handleLogout_fault],
      [AgentLoop.concurrent_renewals_mix], [AgentLoop.renewal_drops_grant_key],
      [OperatorSession.cmdLogout_spec], [Deployment.first_openings_mix],
      [RelayRun.shutdown_loses_disconnections],
      [SarServer.requests_outlive_store], [Duration.negative_max_ttl],
      [CommandLine.quoting_incomplete], [WinSvc.service_misreports],
      [StoreOpen.Open_fragment], [StoreOpen.Open_query] and
      [HumanBytes.humanBytes_carry].

    ** Fuel

    [take_loop] (Bridge.v) is the compare-and-swap loop of the budget: it is
    given more attempts than the budget has bytes, and each failed attempt means
    the other direction took at least one byte, so it never runs out
    ([take_loop_guarded]).  [Write_loop] (MuxSession.v) gets one round per byte,
    and a round sends at least one
    ([MuxSession.Stream_Write_terminates]).  [readLoop] needs one
    iteration per byte the connection still delivers at most ([readLoop_ends]);
    [ReadFrames] is used with one more than the number of frames written.  The
    fuel of [hex_digits] is the number of bits of the integer and that of
    [trim_front] the number of bytes of the string.  [split_args] (CommandLine.v)
    gets one round per byte and consumes at least one ([split_args_fuel]);
    [stop_loop] (SvcManager.v) one poll more than fits before its deadline
    ([stop_loop_ends]); [parse_loop] (Duration.v) one round per byte of the text,
    and each round consumes at least one ([parse_loop_fuel]); [fmtInt_loop] twenty
    rounds, the decimal digits of a 64-bit integer.

    ** Not modelled, and why

    The TLS, X.509, SQLite and JSON libraries, DPAPI, the service control manager,
    the Windows registry and the operating system's files are represented by what
    the program relies on.  Sockets are the outcomes of their calls.  The log
    lines of the modelled handlers (what a logger does with a line is in
    Logging.v), the text that commands print, and accessors are left out.
    Whether a waiting goroutine is woken is not modelled: a goroutine is enabled
    when the condition it re-checks holds.  The theorems of EndToEnd.v take that
    nobody forges a signature as a hypothesis on the bytes presented ([genuine]): what a forger
    can compute is outside a model of the code.  The layout of the printed
    tables, the usage texts and the package of the test fixture carry no
    decision of the program. *)

From Stdlib Require Export ZArith Lia.
From Stdlib Require Export Init.Byte.
From Stdlib Require Import Strings.Byte.
From stdpp Require Export base tactics option list gmap strings.

Global Open Scope Z_scope.

(** ** Machine integers

    A Go unsigned integer of width [n] is a [Z] in [0, 2^n); a conversion or an
    arithmetic operation of that type is followed by [uwrap n].  A signed
    64-bit integer is a [Z] in [-2^63, 2^63). *)

Definition uwrap (n z : Z) : Z := z mod 2 ^ n.

Definition swrap64 (z : Z) : Z := (z + 2 ^ 63) mod 2 ^ 64 - 2 ^ 63.

Definition max_u32 : Z := 2 ^ 32 - 1.

(** Length of a Go slice, as an [int]. *)
Definition zlen {A} (l : list A) : Z := Z.of_nat (length l).

(** Length of a Go string, in bytes. *)
Definition slen (s : string) : Z := Z.of_nat (String.length s).

(** ** Bytes *)

Definition byte_to_Z (b : byte) : Z := Z.of_N (Byte.to_N b).

Definition byte_of_Z (z : Z) : byte :=
  default Byte.x00 (Byte.of_N (Z.to_N (uwrap 8 z))).

(** [\[\]byte(s)] and [string(b)]. *)
Definition bytes_of_string (s : string) : list byte := String.list_byte_of_string s.

Definition string_of_bytes (b : list byte) : string := String.string_of_list_byte b.

(** Big-endian encoding of the low [n] bytes, as [binary.BigEndian.PutUint*]
    writes them, and its inverse, as [binary.BigEndian.Uint*] reads them. *)
Fixpoint be_enc (n : nat) (z : Z) : list byte :=
  match n with
  | O => []
  | S m => byte_of_Z (z / 256 ^ Z.of_nat m) :: be_enc m z
  end.

Fixpoint be_dec (l : list byte) : Z :=
  match l with
  | [] => 0
  | b :: l' => byte_to_Z b * 256 ^ zlen l' + be_dec l'
  end.

#[global] Instance byte_eq_decision : EqDecision byte := Byte.byte_eq_dec.

(** ** Results: a value or an error *)

Inductive result (E A : Type) : Type :=
| Ok (a : A)
| Err (e : E).
Arguments Ok {E A} _.
Arguments Err {E A} _.

#[global] Instance result_ret (E : Type) : MRet (result E) := fun A a => Ok a.

#[global] Instance result_bind (E : Type) : MBind (result E) :=
  fun A B f m => match m with Ok a => f a | Err e => Err e end.

#[global] Instance result_eq_dec {E A} `{EqDecision E, EqDecision A} :
  EqDecision (result E A).
Proof. solve_decision. Defined.

Definition is_ok {E A} (r : result E A) : bool :=
  match r with Ok _ => true | Err _ => false end.

(** ** Automation *)

Create HintDb sar.
Create Rewrite HintDb sar_len.

(** Case analysis on every match of a hypothesis or of the goal, keeping the
    equations, and closing the contradictory branches. *)
Ltac cases_in H :=
  repeat (case_match; simplify_eq/=; try done).

Ltac cases := repeat (case_match; simplify_eq/=; try done).

(** Unfold the bind of the result monad in the goal and the hypotheses. *)
Ltac monad := unfold mbind, result_bind, mret, result_ret in *.

(** [lia] over goals with [/] and [mod] by constants. *)
Ltac zlia := Z.div_mod_to_equations; lia.

(** Resolve the outermost [if] of an equation by arithmetic. *)
Ltac if_false :=
  match goal with
  | |- (if ?b then _ else _) = _ => replace b with false by lia; cbv iota
  end.

Ltac if_true :=
  match goal with
  | |- (if ?b then _ else _) = _ => replace b with true by lia; cbv iota
  end.

(** Split the outermost [if] of a hypothesis, dropping the branches that are
    contradictory. *)
Ltac if_split H :=
  match type of H with
  | (if ?b then _ else _) = _ =>
      let E := fresh "E" in destruct b eqn:E; try discriminate H
  end.

(** ** Generic lemmas: integers *)

Lemma uwrap_range n z : 0 <= n -> 0 <= uwrap n z < 2 ^ n.
Proof. intros. apply Z.mod_pos_bound. lia. Qed.

Lemma uwrap_id n z : 0 <= z < 2 ^ n -> uwrap n z = z.
Proof. apply Z.mod_small. Qed.

Lemma swrap64_id z : - 2 ^ 63 <= z < 2 ^ 63 -> swrap64 z = z.
Proof. unfold swrap64. intros. rewrite Z.mod_small; lia. Qed.

Lemma swrap64_range z : - 2 ^ 63 <= swrap64 z < 2 ^ 63.
Proof.
  unfold swrap64. pose proof (Z.mod_pos_bound (z + 2 ^ 63) (2 ^ 64)). lia.
Qed.

Lemma swrap64_uwrap z : swrap64 (uwrap 64 z) = swrap64 z.
Proof.
  unfold swrap64, uwrap. f_equal.
  rewrite <- Zplus_mod_idemp_l, Zmod_mod, Zplus_mod_idemp_l. done.
Qed.

Lemma uwrap_swrap64 z : uwrap 64 (swrap64 z) = uwrap 64 z.
Proof.
  unfold swrap64, uwrap.
  rewrite Zminus_mod_idemp_l. f_equal. lia.
Qed.

Lemma swrap64_swrap64_sub z k : swrap64 (swrap64 (z + k) - k) = swrap64 z.
Proof.
  unfold swrap64. f_equal.
  replace ((z + k + 2 ^ 63) mod 2 ^ 64 - 2 ^ 63 - k + 2 ^ 63)
    with ((z + k + 2 ^ 63) mod 2 ^ 64 - k) by lia.
  rewrite Zminus_mod_idemp_l. f_equal. lia.
Qed.

(** ** Generic lemmas: results *)

Lemma bind_Ok {E A B} (m : result E A) (k : A -> result E B) b :
  (m ≫= k) = Ok b <-> exists a, m = Ok a /\ k a = Ok b.
Proof.
  destruct m; simpl; split; [eauto | | done | by intros (? & ? & ?)].
  intros (? & [= <-] & ?). done.
Qed.

(** ** Generic lemmas: lists and strings *)

Lemma zlen_nonneg {A} (l : list A) : 0 <= zlen l.
Proof. unfold zlen. lia. Qed.

Lemma zlen_app {A} (l k : list A) : zlen (l ++ k) = zlen l + zlen k.
Proof. unfold zlen. rewrite length_app. lia. Qed.

Lemma zlen_cons {A} (x : A) l : zlen (x :: l) = 1 + zlen l.
Proof. unfold zlen. simpl. lia. Qed.

Lemma zlen_nil {A} : zlen ([] : list A) = 0.
Proof. done. Qed.

Lemma zlen_take {A} n (l : list A) : zlen (take n l) = Z.min (Z.of_nat n) (zlen l).
Proof. unfold zlen. rewrite length_take. lia. Qed.

Lemma zlen_drop {A} n (l : list A) : zlen (drop n l) = Z.max 0 (zlen l - Z.of_nat n).
Proof. unfold zlen. rewrite length_drop. lia. Qed.

Lemma slen_nonneg s : 0 <= slen s.
Proof. unfold slen. lia. Qed.

Lemma zlen_zero {A} (l : list A) : zlen l = 0 -> l = [].
Proof. destruct l; unfold zlen; simpl; [done | lia]. Qed.

Lemma string_of_bytes_of_string s : string_of_bytes (bytes_of_string s) = s.
Proof. apply String.string_of_list_byte_of_string. Qed.

Lemma bytes_of_string_of_bytes b : bytes_of_string (string_of_bytes b) = b.
Proof. apply String.list_byte_of_string_of_list_byte. Qed.

Lemma length_bytes_of_string s : length (bytes_of_string s) = String.length s.
Proof.
  unfold bytes_of_string, String.list_byte_of_string.
  rewrite length_map. induction s as [|a s IH]; simpl; [done | by rewrite IH].
Qed.

Lemma zlen_bytes_of_string s : zlen (bytes_of_string s) = slen s.
Proof. unfold zlen, slen. by rewrite length_bytes_of_string. Qed.

Lemma slen_string_of_bytes b : slen (string_of_bytes b) = zlen b.
Proof. by rewrite <- zlen_bytes_of_string, bytes_of_string_of_bytes. Qed.

Lemma bytes_of_string_inj s t : bytes_of_string s = bytes_of_string t -> s = t.
Proof.
  intros H. rewrite <- (string_of_bytes_of_string s), H.
  apply string_of_bytes_of_string.
Qed.

(** ** Generic lemmas: bytes and big-endian integers *)

Lemma byte_to_Z_range b : 0 <= byte_to_Z b < 256.
Proof.
  unfold byte_to_Z. pose proof (Byte.to_N_bounded b). lia.
Qed.

Lemma byte_to_of_Z z : byte_to_Z (byte_of_Z z) = uwrap 8 z.
Proof.
  unfold byte_to_Z, byte_of_Z.
  pose proof (uwrap_range 8 z ltac:(lia)) as Hr.
  destruct (Byte.of_N (Z.to_N (uwrap 8 z))) as [b|] eqn:E; simpl.
  - apply Byte.to_of_N in E. lia.
  - apply Byte.of_N_None_iff in E. lia.
Qed.

Lemma byte_of_to_Z b : byte_of_Z (byte_to_Z b) = b.
Proof.
  unfold byte_of_Z. rewrite uwrap_id by apply byte_to_Z_range.
  unfold byte_to_Z. rewrite N2Z.id, Byte.of_to_N. done.
Qed.

Lemma byte_to_Z_inj b c : byte_to_Z b = byte_to_Z c -> b = c.
Proof. intros H. by rewrite <- (byte_of_to_Z b), H, byte_of_to_Z. Qed.

Lemma length_be_enc n z : length (be_enc n z) = n.
Proof. induction n; simpl; auto. Qed.

Lemma zlen_be_enc n z : zlen (be_enc n z) = Z.of_nat n.
Proof. unfold zlen. by rewrite length_be_enc. Qed.

Lemma zlen_be_enc_2 z : zlen (be_enc 2 z) = 2.
Proof. apply zlen_be_enc. Qed.

Lemma zlen_be_enc_4 z : zlen (be_enc 4 z) = 4.
Proof. apply zlen_be_enc. Qed.

Lemma zlen_be_enc_8 z : zlen (be_enc 8 z) = 8.
Proof. apply zlen_be_enc. Qed.

Lemma be_dec_range l : 0 <= be_dec l < 256 ^ zlen l.
Proof.
  induction l as [|b l IH]; simpl; [done|].
  rewrite zlen_cons, Z.pow_add_r by (unfold zlen; lia).
  pose proof (byte_to_Z_range b). nia.
Qed.

Lemma be_dec_enc n z : be_dec (be_enc n z) = z mod 256 ^ Z.of_nat n.
Proof.
  induction n as [|n IH]; simpl be_enc; simpl be_dec.
  - by rewrite Z.mod_1_r.
  - rewrite byte_to_of_Z, IH, zlen_be_enc. unfold uwrap.
    change (2 ^ 8) with 256.
    rewrite Nat2Z.inj_succ, Z.pow_succ_r by lia.
    rewrite (Z.mul_comm 256), Z.rem_mul_r by lia. lia.
Qed.

Lemma be_enc_mod_pow n z c :
  be_enc n (c * 256 ^ Z.of_nat n + z) = be_enc n z.
Proof.
  revert c. induction n as [|n IH]; intros c; simpl; [done|].
  rewrite Nat2Z.inj_succ, Z.pow_succ_r by lia.
  replace (c * (256 * 256 ^ Z.of_nat n) + z)
    with ((c * 256) * 256 ^ Z.of_nat n + z) by lia.
  f_equal; [|apply IH].
  rewrite Z.div_add_l by lia.
  unfold byte_of_Z, uwrap. change (2 ^ 8) with 256.
  by rewrite Z.add_comm, Z.mod_add by lia.
Qed.

Lemma be_enc_dec l : be_enc (length l) (be_dec l) = l.
Proof.
  induction l as [|b l IH]; simpl; [done|].
  pose proof (be_dec_range l).
  rewrite Z.div_add_l, Z.div_small by (unfold zlen in *; lia).
  rewrite Z.add_0_r, byte_of_to_Z. f_equal.
  unfold zlen. by rewrite be_enc_mod_pow.
Qed.

Lemma be_dec_single b : be_dec [b] = byte_to_Z b.
Proof. simpl. rewrite zlen_nil. lia. Qed.

Lemma be_enc_dec_len n l : length l = n -> be_enc n (be_dec l) = l.
Proof. intros <-. apply be_enc_dec. Qed.

#[export] Hint Rewrite @zlen_app @zlen_cons @zlen_nil @zlen_take @zlen_drop
  zlen_bytes_of_string slen_string_of_bytes zlen_be_enc_2 zlen_be_enc_4 zlen_be_enc_8
  @length_app
  length_be_enc length_bytes_of_string : sar_len.

#[export] Hint Resolve zlen_nonneg slen_nonneg byte_to_Z_range be_dec_range : sar.

(** Normalise lengths, then [lia]. *)
Ltac len := autorewrite with sar_len in *; unfold zlen, slen in *; lia.

#[global] Arguments be_enc : simpl never.
#[global] Arguments be_dec : simpl never.
#[global] Arguments byte_of_Z : simpl never.
#[global] Arguments byte_to_Z : simpl never.
#[global] Arguments uwrap : simpl never.
#[global] Arguments swrap64 : simpl never.
#[global] Arguments zlen : simpl never.
#[global] Arguments slen : simpl never.
#[global] Arguments bytes_of_string : simpl never.
#[global] Arguments string_of_bytes : simpl never.
#[global] Opaque be_enc be_dec.
