(* ===== verification/GoErrors.v ===== *)
(** * Errors

    Go error values as the repository uses them: sentinels declared with
    [errors.New], wrapped with [fmt.Errorf("...%w")], tested with [errors.Is]
    and, for the multiplexer's [fatalError], with [errors.As].  The formatted
    part of a message is not kept, only its constant text. *)

From S2P Require Import Prelude.

(** Every sentinel error the modelled packages declare or test for. *)
Inductive sentinel :=
(* io, context *)
| IoEOF
| IoUnexpectedEOF
| IoErrShortWrite
| CtxCanceled
| CtxDeadlineExceeded
(* internal/proto/frame.go *)
| ErrFrameTooLarge
| ErrMalformedFrame
| ErrUnsupportedVersion
(* internal/proto/grant.go *)
| ErrGrantMalformed
| ErrGrantVersion
| ErrGrantSignature
| ErrGrantExpired
| ErrGrantNotYetValid
| ErrGrantDeviceMismatch
| ErrGrantTTLTooLong
(* internal/mux *)
| ErrStreamClosed
| ErrSessionClosed
| ErrTooManyStreams
| ErrStreamRefused
(* internal/bridge *)
| ErrBudgetExhausted
(* internal/relay/sessions *)
| ErrNoAgent
(* internal/agent, internal/operator *)
| ErrTargetNotLoopback
| ErrResourceUnknown
| ErrListenNotLoopback
(* internal/storage *)
| ErrTokenUnknown
| ErrTokenConsumed
| ErrTokenExpired
| ErrRevoked
| ErrNotEnrolled
| ErrSessionUnknown
| ErrSessionExpired
| ErrSessionRevoked
| ErrGrantUnknown
| ErrSchemaTooNew
| ErrRetentionUnbounded
(* internal/ca, internal/control, internal/e2ee *)
| ErrNoIdentity
| ErrInvalidCSR
| ErrBadCode
| ErrDenied
| ErrPeerIdentity
| ErrHandshake
(* os, internal/keystore, internal/identity, internal/operator *)
| OsErrNotExist
| ErrKeyNotFound
| ErrIdentityNotEnrolled
| ErrNoSession
(* internal/winsvc *)
| ErrUnsupported
| ErrNotInstalled
| ErrAlreadyInstalled
| ErrAccessDenied.

#[global] Instance sentinel_eq_dec : EqDecision sentinel.
Proof. solve_decision. Defined.

Inductive error :=
| ESentinel (s : sentinel)
| EMsg (msg : string)                       (* errors.New, or Errorf without %w *)
| EWrap (msg : string) (e : error)          (* fmt.Errorf("...: %w", e) *)
| EWrap2 (e1 e2 : error)                    (* fmt.Errorf("%w: %w", e1, e2) *)
| EFatal (reason : string) (e : error).     (* mux.fatalError *)

#[global] Instance error_eq_dec : EqDecision error.
Proof. solve_decision. Defined.

(** [errors.Is(err, target)] for a sentinel target. *)
Fixpoint errors_Is (e : error) (target : sentinel) : bool :=
  match e with
  | ESentinel s => bool_decide (s = target)
  | EMsg _ => false
  | EWrap _ e' => errors_Is e' target
  | EWrap2 e1 e2 => errors_Is e1 target || errors_Is e2 target
  | EFatal _ e' => errors_Is e' target
  end.

(** [errors.As(err, &fe)] for [*fatalError]: the reason of the outermost one. *)
Fixpoint errors_As_fatal (e : error) : option string :=
  match e with
  | ESentinel _ | EMsg _ => None
  | EWrap _ e' => errors_As_fatal e'
  | EWrap2 e1 e2 => match errors_As_fatal e1 with Some r => Some r | None => errors_As_fatal e2 end
  | EFatal r _ => Some r
  end.

Abbreviation wrap s msg := (EWrap msg (ESentinel s)).

Abbreviation res := (result error).
