(* ===== verification/GoTime.v ===== *)
(** * Time

    Go's [time.Time] and [time.Duration].  A [time] is the number of
    nanoseconds since Go's zero time (January 1, year 1, UTC): its whole
    seconds are the [int64] Go stores, so a value is well formed when they are
    in the [int64] range.  Comparisons, [Sub] and [IsZero] are then those of
    the integer.  Monotonic clock readings are not represented: every call of
    [time.Now] is an argument of the operation that makes it. *)

From S2P Require Import Prelude.

Abbreviation time := Z (only parsing).
Abbreviation duration := Z (only parsing).

(** Nanoseconds. *)
Definition Millisecond : duration := 1000000.
Definition Second : duration := 1000 * Millisecond.
Definition Minute : duration := 60 * Second.
Definition Hour : duration := 60 * Minute.

(** Seconds from year 1 to the Unix epoch ([unixToInternal]). *)
Definition unixToInternal : Z := 62135596800.

Definition time_wf (t : time) : Prop := - 2 ^ 63 <= t / Second < 2 ^ 63.

Definition IsZero (t : time) : bool := t =? 0.

(** [time.Unix(sec, 0)]: the internal seconds wrap as [int64]. *)
Definition Unix (sec : Z) : time := swrap64 (sec + unixToInternal) * Second.

(** [t.Unix()]. *)
Definition unixSeconds (t : time) : Z := swrap64 (t / Second - unixToInternal).

(** [t.Truncate(time.Second)]. *)
Definition TruncateSecond (t : time) : time := t - t mod Second.

(** [t.Add(d)]: the seconds saturate at the [int64] bounds. *)
Definition Add (t : time) (d : duration) : time :=
  let s := (t + d) / Second in
  if s >? 2 ^ 63 - 1 then (2 ^ 63 - 1) * Second + (t + d) mod Second
  else if s <? - (2 ^ 63 - 1) then - (2 ^ 63 - 1) * Second + (t + d) mod Second
  else t + d.

(** [t.Sub(u)]: saturates at the [int64] bounds of a duration. *)
Definition Sub (t u : time) : duration :=
  Z.max (- 2 ^ 63) (Z.min (2 ^ 63 - 1) (t - u)).

Definition Before (t u : time) : bool := t <? u.

Definition After (t u : time) : bool := t >? u.

(** ** Lemmas *)

Lemma Second_pos : 0 < Second.
Proof. done. Qed.

Lemma Unix_wf s : time_wf (Unix s).
Proof.
  unfold time_wf, Unix. rewrite Z.div_mul by done. apply swrap64_range.
Qed.

Lemma unixSeconds_Unix s : - 2 ^ 63 <= s < 2 ^ 63 -> unixSeconds (Unix s) = s.
Proof.
  intros H. unfold unixSeconds, Unix. rewrite Z.div_mul by done.
  rewrite swrap64_swrap64_sub. by apply swrap64_id.
Qed.

Lemma Unix_unixSeconds t :
  time_wf t -> Unix (unixSeconds t) = TruncateSecond t.
Proof.
  unfold time_wf, Unix, unixSeconds, TruncateSecond. intros H.
  replace (t / Second - unixToInternal) with (t / Second + - unixToInternal) by lia.
  pose proof (swrap64_swrap64_sub (t / Second) (- unixToInternal)) as E.
  replace (swrap64 (t / Second + - unixToInternal) - - unixToInternal)
    with (swrap64 (t / Second + - unixToInternal) + unixToInternal) in E by lia.
  rewrite E, swrap64_id by done.
  rewrite (Z.div_mod t Second) at 2 by done. lia.
Qed.

Lemma TruncateSecond_spec t : TruncateSecond t = t / Second * Second.
Proof.
  unfold TruncateSecond. rewrite (Z.div_mod t Second) at 1 by done. lia.
Qed.

Lemma TruncateSecond_idem t :
  TruncateSecond (TruncateSecond t) = TruncateSecond t.
Proof.
  rewrite !TruncateSecond_spec, Z.div_mul by done. done.
Qed.

Lemma TruncateSecond_wf t : time_wf t -> time_wf (TruncateSecond t).
Proof.
  unfold time_wf. rewrite TruncateSecond_spec, Z.div_mul by done. done.
Qed.

Lemma TruncateSecond_le t : t - Second < TruncateSecond t <= t.
Proof.
  unfold TruncateSecond. pose proof (Z.mod_pos_bound t Second Second_pos). lia.
Qed.

Lemma TruncateSecond_mono t u : t <= u -> TruncateSecond t <= TruncateSecond u.
Proof.
  intros. rewrite !TruncateSecond_spec.
  apply Z.mul_le_mono_nonneg_r; [done|]. by apply Z.div_le_mono.
Qed.

(** Away from the ends of the representable range [Add] is exact. *)
Lemma Add_exact t d :
  - (2 ^ 63 - 1) * Second <= t + d < (2 ^ 63 - 1) * Second ->
  Add t d = t + d.
Proof.
  intros H. unfold Add.
  assert ((t + d) / Second < 2 ^ 63 - 1)
    by (apply Z.div_lt_upper_bound; [done | lia]).
  assert (- (2 ^ 63 - 1) <= (t + d) / Second)
    by (apply Z.div_le_lower_bound; [done | lia]).
  cases; lia.
Qed.

(** Saturation never moves an in-range sum past a bound on the other side. *)
Lemma Sub_le t u d : - 2 ^ 63 <= d < 2 ^ 63 - 1 -> (Sub t u <= d <-> t - u <= d).
Proof. unfold Sub. lia. Qed.

(** A time read from a clock whose year is between 1 and 200 billion: far from
    the ends of the range in which [Add] saturates. *)
Definition clock_ok (t : time) : Prop := 0 <= t < 2 ^ 62 * Second.

Lemma clock_ok_wf t : clock_ok t -> time_wf t.
Proof.
  unfold clock_ok, time_wf. intros [H1 H2]. split.
  - pose proof (Z.div_pos t Second H1 Second_pos). lia.
  - apply Z.div_lt_upper_bound; [done|]. unfold Second, Millisecond in *. lia.
Qed.

Lemma Add_clock t d :
  clock_ok t -> - 2 ^ 61 * Second <= d < 2 ^ 61 * Second -> Add t d = t + d.
Proof.
  unfold clock_ok. intros. apply Add_exact. unfold Second, Millisecond in *. lia.
Qed.
