(* ===== verification/GoFloat.v ===== *)
(** * float64

    The arithmetic of Go's [float64] where the repository computes with it: the
    ceiling of a retry delay, and durations in seconds.  It is the IEEE 754
    specification of the Rocq library ([SpecFloat], with 53 bits of precision);
    [math.Pow], [math.Frexp] and [math.Ldexp] are Go's algorithms for the
    arguments that occur, a positive base and a positive integral exponent. *)

From Stdlib Require Import Floats.SpecFloat.
From S2P Require Import Prelude GoErrors GoTime.

(** ** float64 *)

Abbreviation float := spec_float.

Definition f_prec : Z := 53.
Definition f_emax : Z := 1024.

Definition f_mul (x y : float) : float := SFmul f_prec f_emax x y.
Definition f_add (x y : float) : float := SFadd f_prec f_emax x y.

Definition f_div (x y : float) : float := SFdiv f_prec f_emax x y.

(** [float64(z)] for an integer. *)
Definition f_of_Z (z : Z) : float := binary_normalize f_prec f_emax z 0 false.

(** Comparisons are false on NaN. *)
Definition f_ltb (x y : float) : bool := SFltb x y.
Definition f_geb (x y : float) : bool := SFleb y x.

Definition f_leb (x y : float) : bool := SFleb x y.

Definition f_one : float := f_of_Z 1.
Definition f_two : float := f_of_Z 2.
Definition f_half : float := S754_finite false (2 ^ 52) (-53).

(** [int64(x)]: truncated towards zero; what the hardware does with a value
    outside the range is not specified, and [None] here. *)
Definition f_to_int64 (x : float) : option Z :=
  let in_range z := if (- 2 ^ 63 <=? z) && (z <? 2 ^ 63) then Some z else None in
  match x with
  | S754_zero _ => Some 0
  | S754_finite s m e =>
      let v := if 0 <=? e then Z.pos m * 2 ^ e else Z.pos m / 2 ^ (- e) in
      in_range (if s then - v else v)
  | _ => None
  end.

(** [d.Seconds()]: whole seconds and a fraction, added in floating point. *)
Definition Seconds (d : duration) : float :=
  f_add (f_of_Z (Z.quot d Second)) (f_div (f_of_Z (Z.rem d Second)) (f_of_Z 1000000000)).

(** [math.Frexp] of a finite number: a fraction in [1/2, 1) and the exponent. *)
Definition Frexp (m : positive) (e : Z) : float * Z :=
  let d := Z.pos (digits2_pos m) in
  (binary_normalize f_prec f_emax (Z.pos m) (- d) false, e + d).

(** [math.Ldexp]. *)
Definition Ldexp (x : float) (exp : Z) : float :=
  match x with
  | S754_finite s m e => binary_round f_prec f_emax s m (e + exp)
  | _ => x
  end.

(** The loop of [math.Pow] over the bits of the exponent, with its escape when
    the running exponent is about to overflow. *)
Fixpoint pow_loop (i : positive) (a1 : float) (ae : Z) (x1 : float) (xe : Z) : float * Z :=
  if (xe <? - 4096) || (4096 <? xe) then (a1, ae + xe)
  else
    let square := f_mul x1 x1 in
    let '(x1', xe') := if f_ltb square f_half then (f_add square square, 2 * xe - 1) else (square, 2 * xe) in
    match i with
    | xH => (f_mul a1 x1, ae + xe)
    | xI i' => pow_loop i' (f_mul a1 x1) (ae + xe) x1' xe'
    | xO i' => pow_loop i' a1 ae x1' xe'
    end.

(** [math.Pow(x, float64(n))] for [n > 0]. *)
Definition Pow (x : float) (n : positive) : float :=
  if SFeqb x f_one then f_one
  else if (n =? 1)%positive then x
  else
    match x with
    | S754_nan => S754_nan
    | S754_infinity _ => S754_infinity false
    | S754_zero _ => S754_zero false
    | S754_finite _ m e =>
        if 2 ^ 63 <=? Z.pos n then (if f_ltb x f_one then S754_zero false else S754_infinity false)
        else
          let '(x1, xe) := Frexp m e in
          let '(a1, ae) := pow_loop n f_one 0 x1 xe in
          Ldexp a1 ae
    end.

(** ** Exact arithmetic on powers of two

    A positive number is normalised when its significand has 53 bits; the
    products of the retry ceiling with the default factor only ever multiply a
    normalised number by a power of two. *)

Definition normal (m : positive) : Prop := 2 ^ 52 <= Z.pos m < 2 ^ 53.

Definition fin_or_inf (m : positive) (e : Z) : float :=
  if e <=? 971 then S754_finite false m e else S754_infinity false.

Lemma digits2_log2 (p : positive) : Z.pos (digits2_pos p) = Z.log2 (Z.pos p) + 1.
Proof.
  assert (digits2_pos p = Pos.size p) as -> by (induction p as [p IH|p IH|]; cbn; congruence).
  destruct p; cbn; lia.
Qed.

Lemma digits2_bounds (p : positive) :
  2 ^ (Z.pos (digits2_pos p) - 1) <= Z.pos p < 2 ^ Z.pos (digits2_pos p).
Proof.
  rewrite digits2_log2. replace (Z.log2 (Z.pos p) + 1 - 1) with (Z.log2 (Z.pos p)) by lia.
  rewrite Z.add_1_r. apply Z.log2_spec. lia.
Qed.

Lemma digits2_unique (p : positive) (d : Z) :
  0 < d -> 2 ^ (d - 1) <= Z.pos p < 2 ^ d -> Z.pos (digits2_pos p) = d.
Proof.
  intros Hd H. rewrite digits2_log2.
  rewrite (Z.log2_unique (Z.pos p) (d - 1)); [lia|lia|].
  replace (Z.succ (d - 1)) with d by lia. exact H.
Qed.

Lemma digits2_normal (m : positive) : normal m -> Z.pos (digits2_pos m) = 53.
Proof. intros H. apply digits2_unique; [lia|exact H]. Qed.

Lemma fexp_normal (e : Z) : -1074 <= e -> fexp f_prec f_emax (53 + e) = e.
Proof. unfold fexp, emin, f_prec, f_emax. lia. Qed.

Lemma shr_fexp_normal (m : positive) (e : Z) :
  normal m -> -1074 <= e ->
  shr_fexp f_prec f_emax (Z.pos m) e loc_Exact = (Build_shr_record (Z.pos m) false false, e).
Proof.
  intros Hm He. unfold shr_fexp. cbn [Zdigits2]. rewrite (digits2_normal m Hm), fexp_normal by exact He.
  by rewrite Z.sub_diag.
Qed.

Lemma shr_fexp_double (m : positive) (e : Z) :
  normal m -> -1074 <= e + 52 ->
  shr_fexp f_prec f_emax (Z.pos (2 ^ 52 * m)) e loc_Exact = (Build_shr_record (Z.pos m) false false, e + 52).
Proof.
  intros Hm He. unfold shr_fexp. cbn [Zdigits2].
  rewrite (digits2_unique (2 ^ 52 * m) 105).
  - replace (105 + e) with (53 + (e + 52)) by lia. rewrite fexp_normal by exact He.
    replace (e + 52 - e) with 52 by lia. reflexivity.
  - lia.
  - unfold normal in Hm. rewrite Pos2Z.inj_mul, Pos2Z.inj_pow. lia.
Qed.

Lemma binary_round_aux_of (z : Z) (m : positive) (e e' : Z) :
  normal m -> -1074 <= e' ->
  shr_fexp f_prec f_emax z e loc_Exact = (Build_shr_record (Z.pos m) false false, e') ->
  binary_round_aux f_prec f_emax false z e loc_Exact = fin_or_inf m e'.
Proof.
  intros Hm He Hs. unfold binary_round_aux. rewrite Hs. cbn [loc_of_shr_record shr_m round_nearest_even].
  rewrite shr_fexp_normal by assumption. reflexivity.
Qed.

Lemma binary_round_normal (m : positive) (e : Z) :
  normal m -> -1074 <= e -> binary_round f_prec f_emax false m e = fin_or_inf m e.
Proof.
  intros Hm He. unfold binary_round. rewrite (digits2_normal m Hm), fexp_normal by exact He.
  unfold shl_align. rewrite Z.sub_diag. apply binary_round_aux_of; auto using shr_fexp_normal.
Qed.

Lemma normal_two52 : normal (2 ^ 52).
Proof. split; vm_compute; congruence. Qed.

Lemma f_mul_pow2 (m : positive) (e f : Z) :
  normal m -> -1074 <= e + f + 52 ->
  f_mul (S754_finite false m e) (S754_finite false (2 ^ 52) f) = fin_or_inf m (e + f + 52).
Proof.
  intros Hm He. unfold f_mul, SFmul. cbn [xorb]. rewrite Pos.mul_comm.
  apply binary_round_aux_of; auto using shr_fexp_double.
Qed.

Lemma iter_xO (p q : positive) : Z.pos (Pos.iter xO p q) = Z.pos p * 2 ^ Z.pos q.
Proof.
  induction q as [|q IH] using Pos.peano_ind; [cbn; lia|].
  rewrite Pos.iter_succ, Pos2Z.inj_succ, Z.pow_succ_r by lia. lia.
Qed.

Lemma f_of_Z_normal (p : positive) :
  Z.pos p < 2 ^ 53 ->
  exists m, normal m /\ Z.pos m = Z.pos p * 2 ^ (53 - Z.pos (digits2_pos p)) /\
    f_of_Z (Z.pos p) = S754_finite false m (Z.pos (digits2_pos p) - 53) /\ Z.pos (digits2_pos p) <= 53.
Proof.
  intros Hp. pose proof (digits2_bounds p) as Hd. set (d := Z.pos (digits2_pos p)) in *.
  assert (Hd0 : 0 < d) by (subst d; lia).
  assert (Hd53 : d <= 53).
  { destruct (Z.le_gt_cases d 53) as [|Hgt]; [assumption|].
    assert (2 ^ 53 <= 2 ^ (d - 1)) by (apply Z.pow_le_mono_r; lia). lia. }
  assert (Hn : 2 ^ 52 <= Z.pos p * 2 ^ (53 - d) < 2 ^ 53).
  { assert (2 ^ 52 = 2 ^ (d - 1) * 2 ^ (53 - d)) as -> by (rewrite <- Z.pow_add_r by lia; f_equal; lia).
    assert (2 ^ 53 = 2 ^ d * 2 ^ (53 - d)) as -> by (rewrite <- Z.pow_add_r by lia; f_equal; lia).
    assert (0 < 2 ^ (53 - d)) by (apply Z.pow_pos_nonneg; lia). nia. }
  exists (Z.to_pos (Z.pos p * 2 ^ (53 - d))).
  assert (Hm : normal (Z.to_pos (Z.pos p * 2 ^ (53 - d)))) by (unfold normal; rewrite Z2Pos.id; lia).
  split_and!; [exact Hm|rewrite Z2Pos.id; lia| |exact Hd53].
  unfold f_of_Z, binary_normalize, binary_round. fold d.
  assert (shl_align p 0 (fexp f_prec f_emax (d + 0)) = (Z.to_pos (Z.pos p * 2 ^ (53 - d)), d - 53)) as ->.
  { assert (fexp f_prec f_emax (d + 0) = d - 53) as -> by (unfold fexp, emin, f_prec, f_emax; lia).
    unfold shl_align. rewrite Z.sub_0_r. destruct (d - 53) as [|q|q] eqn:E; [|lia|].
    - assert (d = 53) as -> by lia. f_equal. cbn. lia.
    - f_equal. apply Pos2Z.inj. rewrite Z2Pos.id by lia.
      assert (53 - d = Z.pos q) as -> by lia. rewrite iter_xO. reflexivity. }
  rewrite (binary_round_aux_of _ (Z.to_pos (Z.pos p * 2 ^ (53 - d))) _ (d - 53)); [|exact Hm|lia|apply shr_fexp_normal; [exact Hm|lia]].
  unfold fin_or_inf. destruct (Z.leb_spec (d - 53) 971); [reflexivity|lia].
Qed.

(** ** [math.Pow] of two *)

Lemma pow_loop_two (i : positive) : forall j c v,
  0 <= c <= j -> j <= 12 -> 0 <= v ->
  exists c' v', pow_loop i (S754_finite false (2 ^ 52) (-52 - c)) (v + c) f_half (2 ^ j + 1)
                = (S754_finite false (2 ^ 52) (-52 - c'), v' + c') /\ 0 <= c' <= 13 /\
    (v' = v + Z.pos i * 2 ^ j \/ (1023 < v' /\ 1023 < v + Z.pos i * 2 ^ j)).
Proof.
  assert (Hmul : forall c, 0 <= c <= 12 ->
    f_mul (S754_finite false (2 ^ 52) (-52 - c)) f_half = S754_finite false (2 ^ 52) (-52 - (c + 1))).
  { intros c Hc. unfold f_half. rewrite f_mul_pow2 by (auto using normal_two52; lia).
    unfold fin_or_inf. destruct (Z.leb_spec (-52 - c + -53 + 52) 971); [f_equal; lia|lia]. }
  assert (Hsq : f_ltb (f_mul f_half f_half) f_half = true) by (vm_compute; reflexivity).
  assert (Hadd : f_add (f_mul f_half f_half) (f_mul f_half f_half) = f_half) by (vm_compute; reflexivity).
  assert (Hstep : forall j, 0 <= j -> 2 * (2 ^ j + 1) - 1 = 2 ^ (j + 1) + 1) by (intros; rewrite Z.pow_add_r; lia).
  assert (Hesc : forall i j c v, 0 <= c <= j -> j <= 12 -> 0 <= v ->
    ((2 ^ j + 1 <? - 4096) || (4096 <? 2 ^ j + 1))%bool = true ->
    exists c' v', (S754_finite false (2 ^ 52) (-52 - c), v + c + (2 ^ j + 1))
                = (S754_finite false (2 ^ 52) (-52 - c'), v' + c') /\ 0 <= c' <= 13 /\
    (v' = v + Z.pos i * 2 ^ j \/ (1023 < v' /\ 1023 < v + Z.pos i * 2 ^ j))).
  { intros i' j c v Hc Hj Hv He. assert (0 < 2 ^ j) by (apply Z.pow_pos_nonneg; lia).
    exists c, (v + (2 ^ j + 1)). split; [f_equal; lia|]. split; [lia|]. right. nia. }
  induction i as [i IH|i IH|]; intros j c v Hc Hj Hv; cbn [pow_loop];
    (destruct ((2 ^ j + 1 <? - 4096) || (4096 <? 2 ^ j + 1))%bool eqn:He; [by apply Hesc|]);
    assert (0 < 2 ^ j) by (apply Z.pow_pos_nonneg; lia);
    (assert (j < 12) by (destruct (Z.eq_dec j 12) as [->|]; [vm_compute in He; discriminate|lia]));
    rewrite ?Hsq, ?Hadd, ?Hstep, ?Hmul by lia.
  - destruct (IH (j + 1) (c + 1) (v + 2 ^ j)) as (c' & v' & E & Hc' & Hv'); [lia|lia|lia|].
    exists c', v'. split; [rewrite <- E; f_equal; lia|]. split; [exact Hc'|].
    rewrite Z.pow_add_r in Hv' by lia. destruct Hv' as [->|[]]; [left|right]; nia.
  - destruct (IH (j + 1) c v) as (c' & v' & E & Hc' & Hv'); [lia|lia|lia|].
    exists c', v'. split; [exact E|]. split; [exact Hc'|].
    rewrite Z.pow_add_r in Hv' by lia. destruct Hv' as [->|[]]; [left|right]; nia.
  - exists (c + 1), (v + 2 ^ j). split; [f_equal; lia|]. split; [lia|]. left. lia.
Qed.

Lemma fin_or_inf_high (m : positive) (e : Z) : 971 < e -> fin_or_inf m e = S754_infinity false.
Proof. intros H. unfold fin_or_inf. by destruct (Z.leb_spec e 971); [lia|]. Qed.

Lemma Pow_two (n : positive) : Pow f_two n = fin_or_inf (2 ^ 52) (Z.pos n - 52).
Proof.
  unfold Pow. change (SFeqb f_two f_one) with false. cbv iota.
  destruct (Pos.eqb_spec n 1) as [->|Hn]; [reflexivity|].
  change f_two with (S754_finite false (2 ^ 52) (-51)). cbv iota.
  destruct (Z.leb_spec (2 ^ 63) (Z.pos n)) as [Hbig|_].
  { change (f_ltb (S754_finite false (2 ^ 52) (-51)) f_one) with false. cbv iota.
    rewrite fin_or_inf_high; [reflexivity|]. change (2 ^ 63) with 9223372036854775808 in Hbig. lia. }
  change (Frexp (2 ^ 52) (-51)) with (f_half, 2). cbv iota beta.
  destruct (pow_loop_two n 0 0 0) as (c & v & E & Hc & Hv); [lia|lia|lia|].
  change (2 ^ 0 + 1) with 2 in E. change (S754_finite false (2 ^ 52) (-52 - 0)) with f_one in E. change (0 + 0) with 0 in E.
  rewrite E. cbn [Ldexp]. rewrite binary_round_normal; [|apply normal_two52|lia].
  replace (-52 - c + (v + c)) with (v - 52) by lia.
  change (2 ^ 0) with 1 in Hv. destruct Hv as [->|[]]; [f_equal; lia|].
  by rewrite !fin_or_inf_high by lia.
Qed.

(** ** Products that fit in 53 bits are exact *)

Lemma shr_1_double (m : Z) :
  0 <= m -> shr_1 (Build_shr_record (2 * m) false false) = Build_shr_record m false false.
Proof. intros H. destruct m as [|p|p]; [done..|lia]. Qed.

Lemma shr_exact (m : Z) (q : positive) :
  0 <= m -> SpecFloat.iter_pos shr_1 q (Build_shr_record (m * 2 ^ Z.pos q) false false) = Build_shr_record m false false.
Proof.
  assert (Hit : forall (f : shr_record -> shr_record) p x, SpecFloat.iter_pos f p x = Pos.iter f x p)
    by (intros f p; induction p as [p IH|p IH|]; intros x; cbn; rewrite ?IH, <- ?Pos.iter_swap; done).
  rewrite Hit. intros Hm. revert m Hm. induction q as [|q IH] using Pos.peano_ind; intros m Hm.
  - cbn [Pos.iter]. rewrite Z.mul_comm. by apply shr_1_double.
  - rewrite Pos.iter_succ_r, Pos2Z.inj_succ, Z.pow_succ_r by lia.
    replace (m * (2 * 2 ^ Z.pos q)) with (2 * (m * 2 ^ Z.pos q)) by lia.
    rewrite shr_1_double by (assert (0 < 2 ^ Z.pos q) by (apply Z.pow_pos_nonneg; lia); nia). by apply IH.
Qed.

(** Two scaled significands whose product is [p], scaled. *)
Lemma shr_fexp_exact (p : positive) (k e : Z) :
  Z.pos p < 2 ^ 53 -> 0 <= k -> 53 < Z.pos (digits2_pos p) + k -> -1000 <= k + e ->
  exists m, normal m /\ Z.pos m = Z.pos p * 2 ^ (53 - Z.pos (digits2_pos p)) /\
  shr_fexp f_prec f_emax (Z.pos p * 2 ^ k) e loc_Exact
  = (Build_shr_record (Z.pos m) false false, k + e + Z.pos (digits2_pos p) - 53).
Proof.
  intros Hp Hk Hs He. destruct (f_of_Z_normal p Hp) as (m & Hm & Em & _ & Hd). exists m. split_and!; [done..|].
  pose proof (digits2_bounds p) as Hb. set (d := Z.pos (digits2_pos p)) in *.
  assert (0 < d) by (subst d; lia). assert (0 < 2 ^ k) by (apply Z.pow_pos_nonneg; lia).
  unfold shr_fexp. destruct (Z.pos p * 2 ^ k) as [|z|z] eqn:Ez; [lia| |lia]. cbn [Zdigits2].
  assert (Z.pos (digits2_pos z) = d + k) as ->.
  { apply digits2_unique; [lia|]. rewrite <- Ez. replace (d + k - 1) with (d - 1 + k) by lia.
    rewrite !Z.pow_add_r by lia. nia. }
  assert (fexp f_prec f_emax (d + k + e) - e = d + k - 53) as ->
    by (unfold fexp, emin, f_prec, f_emax; lia).
  unfold shr. destruct (d + k - 53) as [|q|q] eqn:Eq; [lia| |lia].
  assert (Z.pos z = Z.pos m * 2 ^ Z.pos q) as ->.
  { rewrite <- Ez, Em, <- Eq, <- Z.mul_assoc, <- Z.pow_add_r by lia. do 2 f_equal. lia. }
  cbn [shr_record_of_loc]. rewrite shr_exact by lia. f_equal. lia.
Qed.

Lemma f_mul_exact (a b : positive) :
  Z.pos a * Z.pos b < 2 ^ 53 ->
  f_to_int64 (f_mul (f_of_Z (Z.pos a)) (f_of_Z (Z.pos b))) = Some (Z.pos a * Z.pos b).
Proof.
  intros H. destruct (f_of_Z_normal a) as (ma & _ & Ema & -> & Hda); [nia|].
  destruct (f_of_Z_normal b) as (mb & _ & Emb & -> & Hdb); [nia|].
  set (da := Z.pos (digits2_pos a)) in *. set (db := Z.pos (digits2_pos b)) in *.
  assert (0 < da /\ 0 < db) by (subst da db; lia).
  assert (Hpa : Z.pos (ma * mb) = Z.pos (a * b) * 2 ^ (106 - da - db)).
  { rewrite !Pos2Z.inj_mul, Ema, Emb. replace (106 - da - db) with ((53 - da) + (53 - db)) by lia.
    rewrite Z.pow_add_r by lia. lia. }
  assert (Hsum : da + db <= Z.pos (digits2_pos (a * b)) + 1).
  { pose proof (digits2_bounds a). pose proof (digits2_bounds b). pose proof (digits2_bounds (a * b)) as Hb.
    fold da in H1. fold db in H2.
    assert (2 ^ (da - 1 + (db - 1)) < 2 ^ Z.pos (digits2_pos (a * b))) as Hlt%Z.pow_lt_mono_r_iff by
      (rewrite ?Z.pow_add_r by lia; nia); lia. }
  destruct (shr_fexp_exact (a * b) (106 - da - db) (da - 53 + (db - 53))) as (m & Hm & Em & Hsh); [lia..|].
  rewrite <- Hpa in Hsh. set (dab := Z.pos (digits2_pos (a * b))) in *.
  replace (106 - da - db + (da - 53 + (db - 53)) + dab - 53) with (dab - 53) in Hsh by lia.
  assert (Hdab : dab <= 53) by (destruct (f_of_Z_normal (a * b)) as (? & _ & _ & _ & ?); [lia|done]).
  unfold f_mul, SFmul. cbn [xorb]. rewrite (binary_round_aux_of _ m _ (dab - 53)); [|done|subst dab; lia|exact Hsh].
  unfold fin_or_inf. replace (dab - 53 <=? 971) with true by lia. unfold f_to_int64.
  assert (Hv : (if 0 <=? dab - 53 then Z.pos m * 2 ^ (dab - 53) else Z.pos m / 2 ^ (- (dab - 53))) = Z.pos (a * b)).
  { rewrite Em. destruct (Z.leb_spec 0 (dab - 53)).
    - replace (53 - dab) with 0 by lia. replace (dab - 53) with 0 by lia. lia.
    - replace (- (dab - 53)) with (53 - dab) by lia. rewrite Z.div_mul; [done|]. apply Z.pow_nonzero; lia. }
  rewrite Hv. rewrite Pos2Z.inj_mul in *. destruct (Z.leb_spec (- 2 ^ 63) (Z.pos a * Z.pos b)), (Z.ltb_spec (Z.pos a * Z.pos b) (2 ^ 63)); [done|lia..].
Qed.

(** ** Dividing by a power of two is exact *)

Lemma shr_fexp_twice (m : positive) (e : Z) :
  normal m -> -1074 <= e + 1 ->
  shr_fexp f_prec f_emax (2 * Z.pos m) e loc_Exact = (Build_shr_record (Z.pos m) false false, e + 1).
Proof.
  intros Hm He. unfold shr_fexp. change (2 * Z.pos m) with (Z.pos (2 * m)). cbn [Zdigits2].
  rewrite (digits2_unique (2 * m) 54); [|lia|unfold normal in Hm; lia].
  replace (54 + e) with (53 + (e + 1)) by lia. rewrite fexp_normal by exact He.
  replace (e + 1 - e) with 1 by lia. reflexivity.
Qed.

Lemma f_div_pow2 (m : positive) (e f : Z) :
  normal m -> -1074 <= e - f - 53 ->
  f_div (S754_finite false m e) (S754_finite false (2 ^ 52) f) = fin_or_inf m (e - f - 52).
Proof.
  intros Hm He. unfold f_div, SFdiv, SFdiv_core_binary. cbv zeta. cbn [Zdigits2 xorb].
  rewrite (digits2_normal m Hm), (digits2_normal _ normal_two52).
  assert (Z.min (fexp f_prec f_emax (53 + e - (53 + f))) (e - f) = e - f - 53) as ->
    by (unfold fexp, emin, f_prec, f_emax; lia).
  replace (e - f - (e - f - 53)) with 53 by lia. cbv iota.
  assert (Z.div_eucl (Z.shiftl (Z.pos m) 53) (Z.pos (2 ^ 52)) = (2 * Z.pos m, 0)) as ->.
  { rewrite Z.shiftl_mul_pow2 by lia.
    pose proof (Z.div_mod (Z.pos m * 2 ^ 53) (Z.pos (2 ^ 52)) ltac:(done)) as E. unfold Z.div, Z.modulo in E.
    pose proof (Z.mod_pos_bound (Z.pos m * 2 ^ 53) (Z.pos (2 ^ 52)) ltac:(done)) as E'. unfold Z.modulo in E'.
    destruct (Z.div_eucl _ _) as [q r]. change (Z.pos (2 ^ 52)) with 4503599627370496 in *. f_equal; lia. }
  replace (e - f - 52) with (e - f - 53 + 1) by lia. apply binary_round_aux_of; [done|lia|].
  apply shr_fexp_twice; [done|lia].
Qed.

(** A scaled significand against a smaller one. *)
Lemma f_ltb_scaled (m p : positive) (e f : Z) :
  (p <= m)%positive -> f_ltb (S754_finite false m e) (S754_finite false p f) = (e <? f).
Proof.
  intros Hm. unfold f_ltb, SFltb, SFcompare, Z.ltb. destruct (e ?= f); [|done..].
  change (Pos.compare_cont Eq m p) with (m ?= p)%positive. destruct (Pos.compare_spec m p); [done|lia|done].
Qed.

Lemma f_ltb_pow2 (m : positive) (e f : Z) :
  normal m -> f_ltb (S754_finite false m e) (S754_finite false (2 ^ 52) f) = (e <? f).
Proof. intros [Hm _]. apply f_ltb_scaled. apply Pos2Z.pos_le_pos in Hm. exact Hm. Qed.
