(* ===== verification/Backoff.v ===== *)
(** * Pacing retries

    [src/internal/backoff/backoff.go]: delays with full jitter under a ceiling
    that doubles up to a maximum.  The ceiling is computed in [float64], as in
    the source; what the random generator draws is an argument. *)

From Stdlib Require Import Floats.SpecFloat.
From S2P Require Import Prelude GoErrors GoTime GoFloat.

(** ** backoff.go *)

Definition DefaultInitial : duration := 500 * Millisecond.
Definition DefaultMax : duration := 30 * Second.
Definition DefaultFactor : float := f_two.

Record Policy := mkPolicy {
  pl_Initial : duration;
  pl_Max : duration;
  pl_Factor : float
}.

Definition withDefaults (p : Policy) : Policy :=
  let initial := if pl_Initial p <=? 0 then DefaultInitial else pl_Initial p in
  let max := if pl_Max p <=? 0 then DefaultMax else pl_Max p in
  let factor := if f_leb (pl_Factor p) f_one then DefaultFactor else pl_Factor p in
  mkPolicy (if initial >? max then max else initial) max factor.

Record State := mkState {
  policy : Policy;
  attempt : Z
}.

Definition New (p : Policy) : State := mkState (withDefaults p) 0.

Definition ceiling (s : State) : option duration :=
  match attempt s with
  | Z.pos n =>
      let grown := f_mul (f_of_Z (pl_Initial (policy s))) (Pow (pl_Factor (policy s)) n) in
      if f_geb grown (f_of_Z (pl_Max (policy s))) || match grown with S754_infinity false => true | _ => false end
      then Some (pl_Max (policy s))
      else f_to_int64 grown
  | _ => Some (pl_Initial (policy s))
  end.

Definition Reset (s : State) : State := mkState (policy s) 0.

(** [Next]; [Int64N n] is [rand.Int64N(n)], which panics ([None]) unless [n] is
    positive. *)
Definition Next (Int64N : Z -> option Z) (s : State) : option duration * State :=
  let s' := mkState (policy s) (attempt s + 1) in
  match ceiling s with
  | None => (None, s')
  | Some c => if c <=? 0 then (Some 0, s') else (Int64N (swrap64 (c + 1)), s')
  end.

(** ** Specification *)

(** The intended ceiling, over the integers. *)
Definition ideal_ceiling (initial max n : Z) : Z := Z.min (initial * 2 ^ n) max.

(** ** The ceiling is the integer one *)

Section Ceiling.
Context (i M : positive) (HM : Z.pos M < 2 ^ 53) (Hi : Z.pos i < 2 ^ 53).

Lemma f_geb_grown (n : positive) :
  f_geb (f_mul (f_of_Z (Z.pos i)) (Pow f_two n)) (f_of_Z (Z.pos M)) = (Z.pos M <=? Z.pos i * 2 ^ Z.pos n).
Proof.
  destruct (f_of_Z_normal i Hi) as (mi & Hmi & Ei & -> & Hdi).
  destruct (f_of_Z_normal M HM) as (mM & HmM & EM & -> & HdM).
  pose proof (digits2_bounds i) as Bi. pose proof (digits2_bounds M) as BM.
  set (di := Z.pos (digits2_pos i)) in *. set (dM := Z.pos (digits2_pos M)) in *.
  assert (Hhigh : dM < di + Z.pos n -> Z.pos M <= Z.pos i * 2 ^ Z.pos n).
  { intros H. assert (2 ^ dM <= 2 ^ (di - 1) * 2 ^ Z.pos n).
    { rewrite <- Z.pow_add_r by lia. apply Z.pow_le_mono_r; lia. }
    assert (0 < 2 ^ Z.pos n) by (apply Z.pow_pos_nonneg; lia). nia. }
  rewrite Pow_two. unfold fin_or_inf at 1.
  destruct (Z.leb_spec (Z.pos n - 52) 971) as [Hn|Hn].
  2:{ cbn. symmetry. apply Z.leb_le, Hhigh. lia. }
  rewrite f_mul_pow2 by (auto; lia). unfold fin_or_inf.
  replace (di - 53 + (Z.pos n - 52) + 52) with (di + Z.pos n - 53) by lia.
  destruct (Z.leb_spec (di + Z.pos n - 53) 971) as [He|He].
  2:{ cbn. symmetry. apply Z.leb_le, Hhigh. lia. }
  unfold f_geb, SFleb, SFcompare. destruct (Z.compare_spec (dM - 53) (di + Z.pos n - 53)) as [E|L|G].
  - change (Pos.compare_cont Eq mM mi) with (Pos.compare mM mi).
    assert (Z.pos mi = Z.pos i * 2 ^ Z.pos n * 2 ^ (53 - dM)) as Eq2.
    { rewrite Ei, <- Z.mul_assoc, <- Z.pow_add_r by lia. do 2 f_equal. lia. }
    change (Pos.compare mM mi) with (Z.compare (Z.pos mM) (Z.pos mi)). rewrite EM, Eq2.
    assert (0 < 2 ^ (53 - dM)) by (apply Z.pow_pos_nonneg; lia).
    rewrite <- Zmult_compare_compat_r by lia. by destruct (Z.leb_spec (Z.pos M) (Z.pos i * 2 ^ Z.pos n)) as [L|L];
      destruct (Z.compare_spec (Z.pos M) (Z.pos i * 2 ^ Z.pos n)) as [C|C|C]; try lia.
  - symmetry. apply Z.leb_le, Hhigh. lia.
  - symmetry. apply Z.leb_gt. assert (2 ^ di * 2 ^ Z.pos n <= 2 ^ (dM - 1)).
    { rewrite <- Z.pow_add_r by lia. apply Z.pow_le_mono_r; lia. }
    assert (0 < 2 ^ Z.pos n) by (apply Z.pow_pos_nonneg; lia). nia.
Qed.

Lemma f_to_int64_grown (n : positive) :
  Z.pos i * 2 ^ Z.pos n < Z.pos M ->
  f_to_int64 (f_mul (f_of_Z (Z.pos i)) (Pow f_two n)) = Some (Z.pos i * 2 ^ Z.pos n).
Proof.
  intros Hlt. destruct (f_of_Z_normal i Hi) as (mi & Hmi & Ei & -> & Hdi).
  pose proof (digits2_bounds i) as Bi. set (di := Z.pos (digits2_pos i)) in *.
  assert (0 < 2 ^ Z.pos n) by (apply Z.pow_pos_nonneg; lia).
  assert (Hd : di + Z.pos n <= 53).
  { destruct (Z.le_gt_cases (di + Z.pos n) 53) as [|G]; [assumption|].
    assert (2 ^ 53 <= 2 ^ (di - 1) * 2 ^ Z.pos n); [|nia].
    rewrite <- Z.pow_add_r by lia. apply Z.pow_le_mono_r; lia. }
  rewrite Pow_two. unfold fin_or_inf at 1. destruct (Z.leb_spec (Z.pos n - 52) 971); [|lia].
  rewrite f_mul_pow2 by (auto; lia). unfold fin_or_inf.
  replace (di - 53 + (Z.pos n - 52) + 52) with (di + Z.pos n - 53) by lia.
  destruct (Z.leb_spec (di + Z.pos n - 53) 971); [|lia].
  cbn [f_to_int64].
  assert ((if 0 <=? di + Z.pos n - 53 then Z.pos mi * 2 ^ (di + Z.pos n - 53)
           else Z.pos mi / 2 ^ (- (di + Z.pos n - 53))) = Z.pos i * 2 ^ Z.pos n) as ->.
  { replace (53 - di) with (Z.pos n + (53 - di - Z.pos n)) in Ei by lia. rewrite Z.pow_add_r in Ei by lia.
    destruct (Z.leb_spec 0 (di + Z.pos n - 53)).
    - replace (di + Z.pos n - 53) with 0 by lia. replace (53 - di - Z.pos n) with 0 in Ei by lia. lia.
    - replace (- (di + Z.pos n - 53)) with (53 - di - Z.pos n) by lia.
      rewrite Ei, Z.mul_assoc. apply Z.div_mul. apply Z.pow_nonzero; lia. }
  destruct (Z.leb_spec (- 2 ^ 63) (Z.pos i * 2 ^ Z.pos n)); [|lia].
  destruct (Z.ltb_spec (Z.pos i * 2 ^ Z.pos n) (2 ^ 63)); [reflexivity|lia].
Qed.
End Ceiling.

(** The policies the callers use: the factor left unset, or set to two. *)
Definition doubling (p : Policy) : Prop := f_leb (pl_Factor p) f_one = true \/ pl_Factor p = f_two.

Lemma withDefaults_factor (p : Policy) : doubling p -> pl_Factor (withDefaults p) = f_two.
Proof.
  intros [H|H]; unfold withDefaults; cbn [pl_Factor]; rewrite H; reflexivity.
Qed.

Lemma withDefaults_range (p : Policy) :
  pl_Max p < 2 ^ 53 -> 0 < pl_Initial (withDefaults p) <= pl_Max (withDefaults p) /\ pl_Max (withDefaults p) < 2 ^ 53.
Proof.
  intros H. unfold withDefaults. cbn [pl_Initial pl_Max]. unfold DefaultInitial, DefaultMax, Second, Millisecond.
  rewrite Z.gtb_ltb. destruct (Z.leb_spec (pl_Initial p) 0), (Z.leb_spec (pl_Max p) 0);
    match goal with |- context [if ?a <? ?b then _ else _] => destruct (Z.ltb_spec a b) end; lia.
Qed.

Lemma ceiling_of (initial max n : Z) :
  0 < initial <= max -> max < 2 ^ 53 -> 0 <= n ->
  ceiling (mkState (mkPolicy initial max f_two) n) = Some (ideal_ceiling initial max n).
Proof.
  intros Hi HM Hn. unfold ceiling, ideal_ceiling. cbn [attempt policy pl_Initial pl_Max pl_Factor].
  destruct n as [|n|]; [f_equal; cbn; lia| |lia].
  destruct initial as [|i|], max as [|M|]; try lia.
  rewrite f_geb_grown by lia.
  destruct (Z.leb_spec (Z.pos M) (Z.pos i * 2 ^ Z.pos n)) as [L|L]; cbn [orb]; [f_equal; lia|].
  rewrite (f_to_int64_grown i M) by lia. rewrite Z.min_l by lia.
  assert (Hf := f_to_int64_grown i M ltac:(lia) ltac:(lia) n L).
  destruct (f_mul (f_of_Z (Z.pos i)) (Pow f_two n)) as [|[]| |]; reflexivity || discriminate Hf.
Qed.

(** [k] consecutive failures: the delays drawn, and the state after them. *)
Fixpoint failures (Int64N : nat -> Z -> option Z) (k : nat) (s : State) : list (option duration) * State :=
  match k with
  | O => ([], s)
  | S k' => let '(d, s1) := Next (Int64N k') s in
            let '(ds, s2) := failures Int64N k' s1 in (d :: ds, s2)
  end.

(** What [rand.Int64N] promises: a value below a positive bound. *)
Definition Int64N_law (Int64N : nat -> Z -> option Z) : Prop :=
  forall k n, 0 < n -> exists r, Int64N k n = Some r /\ 0 <= r < n.

Lemma Next_of (Int64N : nat -> Z -> option Z) (k : nat) (p : Policy) (n : Z) :
  Int64N_law Int64N -> pl_Max p < 2 ^ 53 -> doubling p -> 0 <= n ->
  exists d, Next (Int64N k) (mkState (withDefaults p) n) = (Some d, mkState (withDefaults p) (n + 1)) /\
    0 <= d <= ideal_ceiling (pl_Initial (withDefaults p)) (pl_Max (withDefaults p)) n.
Proof.
  intros Hr HM Hf Hn. pose proof (withDefaults_range p HM) as [Hi HM'].
  pose proof (withDefaults_factor p Hf) as F. destruct (withDefaults p) as [initial max factor]. cbn in *. subst factor.
  unfold Next. rewrite ceiling_of by assumption.
  assert (0 < 2 ^ n) by (apply Z.pow_pos_nonneg; lia).
  assert (Hc : 0 < ideal_ceiling initial max n <= max) by (unfold ideal_ceiling; nia).
  destruct (Z.leb_spec (ideal_ceiling initial max n) 0); [lia|].
  rewrite swrap64_id by lia.
  destruct (Hr k (ideal_ceiling initial max n + 1)) as (r & -> & Hr'); [lia|].
  exists r. split; [reflexivity|lia].
Qed.

(** The delay never exceeds its doubling ceiling, however long the outage:
    for every policy with the default factor (its other fields set or not) and a
    maximum below [2^53] nanoseconds, the [n]-th of any number of consecutive
    failures draws a delay between zero and [min (Initial * 2^n) Max] exactly, as
    integers: the [float64] arithmetic of [ceiling], the overflow of
    [math.Pow] to infinity included, never rounds, never goes negative and never
    makes [rand.Int64N] panic; and [Reset] starts the sequence again. *)
Theorem failures_bounded (Int64N : nat -> Z -> option Z) (p : Policy) (k : nat)
  (Hrand : Int64N_law Int64N) (Hmax : pl_Max p < 2 ^ 53) (Hfactor : doubling p) :
  let '(ds, s) := failures Int64N k (New p) in
  attempt s = Z.of_nat k /\ Reset s = New p /\ length ds = k /\
  ceiling s = Some (ideal_ceiling (pl_Initial (withDefaults p)) (pl_Max (withDefaults p)) (Z.of_nat k)) /\
  forall (n : nat) d, ds !! n = Some d ->
    exists delay, d = Some delay /\
      0 <= delay <= ideal_ceiling (pl_Initial (withDefaults p)) (pl_Max (withDefaults p)) (Z.of_nat n).
Proof.
  assert (Hceil : forall n, 0 <= n -> ceiling (mkState (withDefaults p) n) =
    Some (ideal_ceiling (pl_Initial (withDefaults p)) (pl_Max (withDefaults p)) n)).
  { intros n Hn. pose proof (withDefaults_range p Hmax) as []. pose proof (withDefaults_factor p Hfactor) as F.
    destruct (withDefaults p) as [a b c]. cbn in *. subst c. by apply ceiling_of. }
  assert (Hrun : forall k a, 0 <= a ->
    exists ds, failures Int64N k (mkState (withDefaults p) a) = (ds, mkState (withDefaults p) (a + Z.of_nat k)) /\
      length ds = k /\ forall (n : nat) d, ds !! n = Some d -> exists delay, d = Some delay /\
        0 <= delay <= ideal_ceiling (pl_Initial (withDefaults p)) (pl_Max (withDefaults p)) (a + Z.of_nat n)).
  { clear k. induction k as [|k IH]; intros a Ha; cbn [failures].
    - exists []. rewrite Z.add_0_r. split_and!; [done|done|by intros ? ? ?].
    - destruct (Next_of Int64N k p a Hrand Hmax Hfactor Ha) as (d & -> & Hd).
      destruct (IH (a + 1)) as (ds & -> & Hlen & Hds); [lia|].
      exists (Some d :: ds). split; [do 2 f_equal; lia|]. split; [cbn; lia|].
      intros [|n] d' E; cbn in E.
      + simplify_eq. exists d. rewrite Z.add_0_r. done.
      + replace (a + Z.of_nat (S n)) with (a + 1 + Z.of_nat n) by lia. by apply Hds. }
  unfold New. destruct (Hrun k 0) as (ds & -> & Hlen & Hds); [lia|].
  cbn [Z.add]. split_and!; [done|done|done|apply Hceil; lia|exact Hds].
Qed.

Lemma failures_bounded_witness :
  (let '(ds, s) := failures (fun _ n => if 0 <? n then Some (n - 1) else None) 7 (New (mkPolicy 0 0 (S754_zero false))) in
   ds = [Some (500 * Millisecond); Some (1 * Second); Some (2 * Second); Some (4 * Second); Some (8 * Second);
         Some (16 * Second); Some (30 * Second)] /\ attempt s = 7) /\
  exists d, ceiling (snd (failures (fun _ n => if 0 <? n then Some (n - 1) else None) 2000
                           (New (mkPolicy 0 0 (S754_zero false))))) = Some d /\ d = 30 * Second.
Proof.
  split; [vm_compute; done|].
  pose proof (failures_bounded (fun _ n => if 0 <? n then Some (n - 1) else None) (mkPolicy 0 0 (S754_zero false)) 2000) as H.
  destruct (failures _ 2000 _) as [ds s]. cbn [snd].
  destruct H as (_ & _ & _ & Hc & _).
  - intros k n Hn. exists (n - 1). destruct (Z.ltb_spec 0 n); [split; [reflexivity|lia]|lia].
  - cbn. lia.
  - left. reflexivity.
  - rewrite Hc. exists (30 * Second). split; vm_compute; reflexivity.
Defined.
