(* ===== verification/Proto.v ===== *)
(** * Protocol constants

    [src/internal/proto/limits.go] and [src/internal/proto/reason.go]: the hard
    limits, the timeouts and the reason codes of the wire protocol. *)

From S2P Require Import Prelude GoTime.

(** ** limits.go *)

Definition MaxFramePayload : Z := 64 * 1024.
Definition MaxStreamsPerConnection : Z := 16.
Definition InitialWindow : Z := 256 * 1024.

Definition HandshakeTimeout : duration := 10 * Second.
Definition IdleTimeout : duration := 60 * Second.
Definition DialTimeout : duration := 5 * Second.

(** ** reason.go: [type Reason string] *)

Abbreviation reason := string (only parsing).

Definition ReasonOK : reason := "ok".
Definition ReasonGrantInvalidSignature : reason := "grant_invalid_signature".
Definition ReasonGrantExpired : reason := "grant_expired".
Definition ReasonGrantNotYetValid : reason := "grant_not_yet_valid".
Definition ReasonGrantDeviceMismatch : reason := "grant_device_mismatch".
Definition ReasonGrantRevoked : reason := "grant_revoked".
Definition ReasonResourceUnknown : reason := "resource_unknown".
Definition ReasonResourceTargetNotLoopback : reason := "resource_target_not_loopback".
Definition ReasonPolicyDenied : reason := "policy_denied".
Definition ReasonLimitStreamsExceeded : reason := "limit_streams_exceeded".
Definition ReasonLimitBytesExceeded : reason := "limit_bytes_exceeded".
Definition ReasonLimitFrameTooLarge : reason := "limit_frame_too_large".
Definition ReasonTargetConnectionRefused : reason := "target_connection_refused".
Definition ReasonTargetTimeout : reason := "target_timeout".
Definition ReasonProtocolVersionUnsupported : reason := "protocol_version_unsupported".
Definition ReasonProtocolMalformedFrame : reason := "protocol_malformed_frame".
Definition ReasonFlowControlViolation : reason := "flow_control_violation".
Definition ReasonAuthFailed : reason := "auth_failed".
Definition ReasonSessionReplaced : reason := "session_replaced".
Definition ReasonIdleTimeout : reason := "idle_timeout".
Definition ReasonShutdown : reason := "shutdown".
Definition ReasonNoAgent : reason := "no_agent".
