(* ===== verification/Frame.v ===== *)
(** * Frames

    [src/internal/proto/frame.go] and [src/internal/proto/codec.go]: the frame
    header, its encoder and decoder, the [Reader] that decodes frames from a
    connection and the [Writer] that encodes them onto one.

    A connection's read side is the bytes it will still deliver followed by how
    it ends ([io.EOF], or an error such as a reset or a deadline).  A write side
    accepts bytes until its room is used up and then fails, which is the
    [io.Writer] contract for a short write. *)

From S2P Require Import Prelude GoErrors GoTime Proto.

(** ** frame.go *)

Definition Version : Z := 1.
Definition HeaderSize : nat := 10.

(** [type Type uint8]. *)
Abbreviation ftype := Z (only parsing).

Definition TypeHello : ftype := 0x01.
Definition TypeHelloAck : ftype := 0x02.
Definition TypeAuth : ftype := 0x03.
Definition TypeAuthOK : ftype := 0x04.
Definition TypeOpenStream : ftype := 0x10.
Definition TypeStreamOK : ftype := 0x11.
Definition TypeStreamData : ftype := 0x12.
Definition TypeStreamWindow : ftype := 0x13.
Definition TypeCloseStream : ftype := 0x14.
Definition TypePing : ftype := 0x20.
Definition TypePong : ftype := 0x21.
Definition TypeError : ftype := 0x7F.

(** [fmt.Sprintf] of [%02x] on a byte. *)
Definition hex_digit (n : Z) : string :=
  nth (Z.to_nat n) ["0"; "1"; "2"; "3"; "4"; "5"; "6"; "7"; "8"; "9"; "a"; "b"; "c"; "d"; "e"; "f"] "".

Definition hex2 (n : Z) : string := hex_digit (n / 16) ++ hex_digit (n mod 16).

(** [Type.String]. *)
Definition Type_String (t : ftype) : string :=
  if t =? TypeHello then "HELLO"
  else if t =? TypeHelloAck then "HELLO_ACK"
  else if t =? TypeAuth then "AUTH"
  else if t =? TypeAuthOK then "AUTH_OK"
  else if t =? TypeOpenStream then "OPEN_STREAM"
  else if t =? TypeStreamOK then "STREAM_OK"
  else if t =? TypeStreamData then "STREAM_DATA"
  else if t =? TypeStreamWindow then "STREAM_WINDOW"
  else if t =? TypeCloseStream then "CLOSE_STREAM"
  else if t =? TypePing then "PING"
  else if t =? TypePong then "PONG"
  else if t =? TypeError then "ERROR"
  else "UNKNOWN(0x" ++ hex2 t ++ ")".

Definition known (t : ftype) : bool :=
  (t =? TypeHello) || (t =? TypeHelloAck) || (t =? TypeAuth) || (t =? TypeAuthOK)
  || (t =? TypeOpenStream) || (t =? TypeStreamOK) || (t =? TypeStreamData)
  || (t =? TypeStreamWindow) || (t =? TypeCloseStream) || (t =? TypePing)
  || (t =? TypePong) || (t =? TypeError).

Record Frame := mkFrame {
  f_type : ftype;
  f_stream : Z;            (* uint32 *)
  f_payload : list byte
}.

#[global] Instance Frame_eq_dec : EqDecision Frame.
Proof. solve_decision. Defined.

(** [ReasonFor(err)]; [None] is a nil error. *)
Definition ReasonFor (err : option error) : reason :=
  match err with
  | None => ReasonOK
  | Some e =>
      if errors_Is e ErrFrameTooLarge then ReasonLimitFrameTooLarge
      else if errors_Is e ErrUnsupportedVersion then ReasonProtocolVersionUnsupported
      else if errors_Is e ErrMalformedFrame then ReasonProtocolMalformedFrame
      else ReasonShutdown
  end.

(** The ten bytes [encodeHeader] leaves in [dst]. *)
Definition encodeHeader (t : ftype) (streamID len : Z) : list byte :=
  byte_of_Z Version :: byte_of_Z t :: be_enc 4 streamID ++ be_enc 4 len.

(** [decodeHeader(src, max)] for a [src] of at least [HeaderSize] bytes; a
    shorter one panics in Go and never occurs: [ReadFrame] passes exactly ten. *)
Definition decodeHeader (src : list byte) (max : Z) : res (ftype * Z * Z) :=
  match src with
  | v :: ty :: rest =>
      if negb (byte_to_Z v =? Version) then
        Err (wrap ErrUnsupportedVersion "got, want")
      else
        let t := byte_to_Z ty in
        if negb (known t) then Err (wrap ErrMalformedFrame "unknown type")
        else
          let streamID := be_dec (take 4 rest) in
          let len := be_dec (take 4 (drop 4 rest)) in
          if len >? max then Err (wrap ErrFrameTooLarge "declared, max")
          else Ok (t, streamID, len)
  | _ => Err (EMsg "index out of range")
  end.

(** ** codec.go: Reader *)

Record Reader := mkReader {
  r_in : list byte;     (* what the connection will still deliver *)
  r_end : error;        (* how it ends after that *)
  r_max : Z             (* uint32 *)
}.

(** [io.ReadFull(r.br, buf)] for a buffer of [n] bytes: the bytes, or the error,
    and what is left of the connection.  [io.EOF] is reported only when no byte
    was read; a partial read that ends at EOF is [io.ErrUnexpectedEOF]. *)
Definition ReadFull (n : nat) (r : Reader) : res (list byte) * Reader :=
  if (n <=? length (r_in r))%nat then
    (Ok (take n (r_in r)), mkReader (drop n (r_in r)) (r_end r) (r_max r))
  else
    let rest := mkReader [] (r_end r) (r_max r) in
    if bool_decide (r_end r = ESentinel IoEOF) && negb (zlen (r_in r) =? 0) then
      (Err (ESentinel IoUnexpectedEOF), rest)
    else (Err (r_end r), rest).

Definition ReadFrame (r : Reader) : res Frame * Reader :=
  match ReadFull HeaderSize r with
  | (Err e, r1) => (Err e, r1)
  | (Ok header, r1) =>
      match decodeHeader header (r_max r) with
      | Err e => (Err e, r1)
      | Ok (t, streamID, len) =>
          if len =? 0 then (Ok (mkFrame t streamID []), r1)
          else
            match ReadFull (Z.to_nat len) r1 with
            | (Ok payload, r2) => (Ok (mkFrame t streamID payload), r2)
            | (Err e, r2) =>
                if bool_decide (e = ESentinel IoEOF)
                   || bool_decide (e = ESentinel IoUnexpectedEOF)
                then (Err (wrap ErrMalformedFrame "truncated payload"), r2)
                else (Err e, r2)
            end
      end
  end.

(** ** codec.go: Writer *)

Record Writer := mkWriter {
  w_out : list byte;            (* bytes handed to the connection so far *)
  w_room : option nat;          (* bytes it still accepts; [None]: no failure *)
  w_max : Z                     (* uint32 *)
}.

(** [w.w.Write(b)]. *)
Definition ConnWrite (b : list byte) (w : Writer) : res unit * Writer :=
  match w_room w with
  | None => (Ok tt, mkWriter (w_out w ++ b) None (w_max w))
  | Some room =>
      if (length b <=? room)%nat then
        (Ok tt, mkWriter (w_out w ++ b) (Some (room - length b)%nat) (w_max w))
      else
        (Err (EMsg "connection write failed"),
         mkWriter (w_out w ++ take room b) (Some O) (w_max w))
  end.

Definition WriteFrame (t : ftype) (streamID : Z) (payload : list byte) (w : Writer)
    : res unit * Writer :=
  if uwrap 32 (zlen payload) >? w_max w then
    (Err (wrap ErrFrameTooLarge "payload, max"), w)
  else
    match ConnWrite (encodeHeader t streamID (uwrap 32 (zlen payload))) w with
    | (Err e, w1) => (Err (EWrap "write frame header" e), w1)
    | (Ok _, w1) =>
        if zlen payload >? 0 then
          match ConnWrite payload w1 with
          | (Err e, w2) => (Err (EWrap "write frame payload" e), w2)
          | (Ok _, w2) => (Ok tt, w2)
          end
        else (Ok tt, w1)
    end.

Definition WriteClose (streamID : Z) (r : reason) (w : Writer) : res unit * Writer :=
  WriteFrame TypeCloseStream streamID (bytes_of_string r) w.

Definition WriteError (r : reason) (w : Writer) : res unit * Writer :=
  WriteFrame TypeError 0 (bytes_of_string r) w.

(** ** Specification

    The bytes of one frame on the wire, as docs/protocol.md lays them out, and
    the frames a peer with limit [max] may exchange. *)

Definition frame_bytes (f : Frame) : list byte :=
  encodeHeader (f_type f) (f_stream f) (zlen (f_payload f)) ++ f_payload f.

Definition frame_ok (max : Z) (f : Frame) : Prop :=
  known (f_type f) = true /\ 0 <= f_stream f < 2 ^ 32 /\ zlen (f_payload f) <= max.

(** Write a list of frames, stopping at the first error. *)
Fixpoint WriteFrames (fs : list Frame) (w : Writer) : res unit * Writer :=
  match fs with
  | [] => (Ok tt, w)
  | f :: fs' =>
      match WriteFrame (f_type f) (f_stream f) (f_payload f) w with
      | (Ok _, w1) => WriteFrames fs' w1
      | (Err e, w1) => (Err e, w1)
      end
  end.

(** Read frames until an error, at most [fuel] of them. *)
Fixpoint ReadFrames (fuel : nat) (r : Reader) : list Frame * option error :=
  match fuel with
  | O => ([], None)
  | S fuel' =>
      match ReadFrame r with
      | (Err e, _) => ([], Some e)
      | (Ok f, r1) =>
          let '(fs, e) := ReadFrames fuel' r1 in (f :: fs, e)
      end
  end.

(** ** Lemmas *)

Lemma length_encodeHeader t s n : length (encodeHeader t s n) = HeaderSize.
Proof. unfold encodeHeader. by rewrite !length_cons, length_app, !length_be_enc. Qed.

Lemma known_u8 t : known t = true -> 0 <= t < 256.
Proof. unfold known, TypeHello, TypeHelloAck, TypeAuth, TypeAuthOK, TypeOpenStream,
  TypeStreamOK, TypeStreamData, TypeStreamWindow, TypeCloseStream, TypePing,
  TypePong, TypeError. lia. Qed.

(** A log line tells every type byte apart, known or not, and shows whether it is
    known. *)
Lemma Type_String_inj t u : 0 <= t < 256 -> 0 <= u < 256 -> Type_String t = Type_String u -> t = u.
Proof.
  assert (NoDup (Type_String <$> seqZ 0 256)) as Hn by (apply (bool_decide_unpack (NoDup (Type_String <$> seqZ 0 256))); vm_compute; exact I).
  assert (forall z, 0 <= z < 256 -> (Type_String <$> seqZ 0 256) !! Z.to_nat z = Some (Type_String z)) as Hl.
  { intros z Hz. rewrite list_lookup_fmap, (proj2 (lookup_seqZ 0 256 (Z.to_nat z) z)) by lia. done. }
  intros Ht Hu E. pose proof (Hl t Ht) as H1. pose proof (Hl u Hu) as H2. rewrite <- E in H2.
  pose proof (NoDup_lookup _ _ _ _ Hn H1 H2). lia.
Qed.

Lemma Type_String_known t : known t = false -> exists h, Type_String t = ("UNKNOWN(0x" ++ h ++ ")")%string.
Proof.
  unfold known. rewrite !orb_false_iff. intros H. unfold Type_String. decompose [and] H.
  repeat match goal with Hx : (_ =? _) = false |- _ => rewrite Hx; clear Hx end. eauto.
Qed.

Lemma be_enc_4_dec z : 0 <= z < 2 ^ 32 -> be_dec (be_enc 4 z) = z.
Proof. intros. rewrite be_dec_enc. apply Z.mod_small. lia. Qed.

Lemma decode_encodeHeader t s n max rest :
  known t = true -> 0 <= s < 2 ^ 32 -> 0 <= n < 2 ^ 32 -> n <= max ->
  decodeHeader (encodeHeader t s n ++ rest) max = Ok (t, s, n).
Proof.
  intros Ht Hs Hn Hmax. pose proof (known_u8 t Ht).
  unfold decodeHeader, encodeHeader. rewrite <- !app_comm_cons. cbv beta iota zeta.
  rewrite !byte_to_of_Z, (uwrap_id 8 t) by lia.
  change (uwrap 8 Version =? Version) with true. simpl negb. rewrite Ht. simpl negb.
  rewrite <- app_assoc.
  rewrite take_app_length' by (by rewrite length_be_enc).
  rewrite drop_app_length' by (by rewrite length_be_enc).
  rewrite take_app_length' by (by rewrite length_be_enc).
  rewrite !be_enc_4_dec by lia.
  case_match; [lia | done].
Qed.

Lemma decodeHeader_oversized t s n max :
  known t = true -> 0 <= s < 2 ^ 32 -> 0 <= n < 2 ^ 32 -> max < n ->
  decodeHeader (encodeHeader t s n) max = Err (wrap ErrFrameTooLarge "declared, max").
Proof.
  intros Ht Hs Hn Hmax. pose proof (known_u8 t Ht).
  unfold decodeHeader, encodeHeader. cbv beta iota zeta.
  rewrite !byte_to_of_Z, (uwrap_id 8 t) by lia.
  change (uwrap 8 Version =? Version) with true. simpl negb. rewrite Ht. simpl negb.
  rewrite drop_app_length' by (by rewrite length_be_enc).
  rewrite (take_ge (be_enc 4 n)) by (by rewrite length_be_enc).
  rewrite be_enc_4_dec by lia.
  case_match; [done | lia].
Qed.

(** A successful decode determines the ten header bytes. *)
Lemma decodeHeader_inv src max t s n :
  length src = HeaderSize -> decodeHeader src max = Ok (t, s, n) ->
  src = encodeHeader t s n /\ known t = true /\ 0 <= s < 2 ^ 32
  /\ 0 <= n < 2 ^ 32 /\ n <= max.
Proof.
  intros Hlen. unfold decodeHeader, encodeHeader.
  destruct src as [|v [|ty rest]]; try done. unfold HeaderSize in Hlen. simpl in Hlen.
  destruct (byte_to_Z v =? Version) eqn:Hv; simpl; [|done].
  destruct (known (byte_to_Z ty)) eqn:Hk; simpl; [|done].
  destruct (_ >? max) eqn:Hm; [done|]. intros [= <- <- <-].
  assert (length (take 4 rest) = 4%nat /\ length (take 4 (drop 4 rest)) = 4%nat)
    as [L1 L2] by (rewrite !length_take, length_drop; lia).
  pose proof (be_dec_range (take 4 rest)) as R1.
  pose proof (be_dec_range (take 4 (drop 4 rest))) as R2.
  unfold zlen in R1, R2. rewrite L1 in R1. rewrite L2 in R2.
  rewrite byte_of_to_Z, !be_enc_dec_len by done.
  assert (v = byte_of_Z Version) as <-
    by (apply byte_to_Z_inj; rewrite byte_to_of_Z; change (uwrap 8 Version) with Version; lia).
  replace (take 4 rest ++ take 4 (drop 4 rest)) with rest; [repeat split; try done; lia|].
  rewrite <- (take_drop 4 rest) at 1. f_equal.
  rewrite take_ge; [done|]. rewrite length_drop. lia.
Qed.

#[global] Opaque encodeHeader.

Lemma ReadFull_app n l rest e max :
  length l = n -> ReadFull n (mkReader (l ++ rest) e max) = (Ok l, mkReader rest e max).
Proof.
  intros <-. unfold ReadFull. simpl r_in. simpl r_end. simpl r_max.
  destruct (Nat.leb_spec (length l) (length (l ++ rest))) as [_|L];
    [|rewrite length_app in L; lia].
  by rewrite take_app_length, drop_app_length.
Qed.

Lemma ReadFull_Ok_inv n r l r' :
  ReadFull n r = (Ok l, r') ->
  length l = n /\ r_in r = l ++ r_in r' /\ r_end r' = r_end r /\ r_max r' = r_max r.
Proof.
  unfold ReadFull. destruct (Nat.leb_spec n (length (r_in r))) as [L|L];
    [|destruct (_ && _); done].
  intros [= <- <-]. simpl. rewrite length_take, take_drop. repeat split; lia.
Qed.

(** Reading the encoding of a well-formed frame returns it and leaves exactly
    the bytes that follow. *)
Lemma ReadFrame_frame_bytes f rest e max :
  frame_ok max f -> max < 2 ^ 32 ->
  ReadFrame (mkReader (frame_bytes f ++ rest) e max) = (Ok f, mkReader rest e max).
Proof.
  intros (Hk & Hs & Hl) Hmax. unfold ReadFrame, frame_bytes.
  rewrite <- app_assoc, ReadFull_app by apply length_encodeHeader. simpl r_max.
  pose proof (zlen_nonneg (f_payload f)).
  pose proof (decode_encodeHeader (f_type f) (f_stream f) (zlen (f_payload f)) max []) as D.
  rewrite app_nil_r in D. rewrite D by (done || lia). clear D.
  case_match eqn:Hz.
  - apply Z.eqb_eq, zlen_zero in Hz. destruct f as [t s p]. simpl in *. by subst p.
  - rewrite ReadFull_app by (unfold zlen; lia). by destruct f.
Qed.

(** Conversely, whatever [ReadFrame] accepts is a well-formed frame, and the
    bytes it consumed are that frame's only encoding. *)
Lemma ReadFrame_Ok_inv r f r' :
  ReadFrame r = (Ok f, r') ->
  frame_ok (r_max r) f /\ r_in r = frame_bytes f ++ r_in r'
  /\ r_end r' = r_end r /\ r_max r' = r_max r.
Proof.
  unfold ReadFrame. destruct (ReadFull HeaderSize r) as [[h|e] r1] eqn:E1; [|done].
  apply ReadFull_Ok_inv in E1 as (Lh & In1 & End1 & Max1).
  destruct (decodeHeader h (r_max r)) as [[[t s] n]|e] eqn:E2; [|done].
  apply decodeHeader_inv in E2 as (-> & Hk & Hs & Hn & Hm); [|done].
  unfold frame_ok, frame_bytes.
  case_match eqn:Hz.
  - intros [= <- <-]. simpl. apply Z.eqb_eq in Hz as ->.
    rewrite app_nil_r. repeat split; auto; unfold zlen; simpl; lia.
  - destruct (ReadFull (Z.to_nat n) r1) as [[p|e] r2] eqn:E3; [|case_match; done].
    intros [= <- <-]. apply ReadFull_Ok_inv in E3 as (Lp & In2 & End2 & Max2). simpl.
    assert (zlen p = n) as -> by (unfold zlen; lia).
    rewrite In1, In2, app_assoc, End2, Max2. auto.
Qed.

Lemma ConnWrite_out b w r w' :
  ConnWrite b w = (r, w') ->
  exists k, w_out w' = w_out w ++ take k b
  /\ (is_ok r = true -> take k b = b) /\ w_max w' = w_max w.
Proof.
  unfold ConnWrite. intros H.
  destruct (w_room w) as [room|]; [case_match|]; simplify_eq/=.
  - exists (length b). by rewrite firstn_all.
  - exists room. done.
  - exists (length b). by rewrite firstn_all.
Qed.

(** What a [WriteFrame] puts on the connection is a prefix of the frame's
    encoding, the whole of it when it succeeds, and nothing when the payload is
    over the limit. *)
Lemma WriteFrame_out t s p w r w' :
  zlen p < 2 ^ 32 -> WriteFrame t s p w = (r, w') ->
  exists k, w_out w' = w_out w ++ take k (frame_bytes (mkFrame t s p))
  /\ (is_ok r = true ->
      take k (frame_bytes (mkFrame t s p)) = frame_bytes (mkFrame t s p)
      /\ zlen p <= w_max w)
  /\ w_max w' = w_max w.
Proof.
  intros Hp. unfold WriteFrame.
  rewrite (uwrap_id 32 (zlen p)) by (pose proof (zlen_nonneg p); lia).
  case_match eqn:Hm. { intros [= <- <-]. exists O. by rewrite app_nil_r. }
  unfold frame_bytes. simpl f_type. simpl f_stream. simpl f_payload.
  destruct (ConnWrite (encodeHeader t s (zlen p)) w) as [[u|e] w1] eqn:E1;
    apply ConnWrite_out in E1 as (k1 & O1 & T1 & M1).
  2: { intros [= <- <-]. simpl.
       exists (k1 `min` length (encodeHeader t s (zlen p)))%nat.
       rewrite take_app_le by lia. split; [|done].
       destruct (decide (k1 <= length (encodeHeader t s (zlen p)))%nat) as [L|L].
       - by rewrite Nat.min_l by lia.
       - rewrite Nat.min_r, firstn_all by lia. rewrite O1, take_ge by lia. done. }
  rewrite T1 in O1 by done. case_match eqn:Hz.
  - destruct (ConnWrite p w1) as [[u2|e] w2] eqn:E2;
      apply ConnWrite_out in E2 as (k2 & O2 & T2 & M2);
      intros [= <- <-]; exists (length (encodeHeader t s (zlen p)) + k2)%nat;
      rewrite take_app_add, O2, O1, <- app_assoc; (split; [done|]); (split; [|congruence]);
      simpl; intros; rewrite ?T2 by done; try done. split; [done | lia].
  - intros [= <- <-]. exists (length (encodeHeader t s (zlen p))).
    assert (p = []) as -> by (apply zlen_zero; pose proof (zlen_nonneg p); lia).
    rewrite app_nil_r, firstn_all. repeat split; auto. lia.
Qed.

Lemma WriteFrames_Ok fs w w' :
  Forall (fun f => zlen (f_payload f) < 2 ^ 32) fs ->
  WriteFrames fs w = (Ok tt, w') ->
  w_out w' = w_out w ++ concat (frame_bytes <$> fs)
  /\ Forall (fun f => zlen (f_payload f) <= w_max w) fs.
Proof.
  intros Hf. revert w. induction Hf as [|f fs Hlt Hf IH]; intros w; simpl.
  - intros [= <-]. by rewrite app_nil_r.
  - destruct (WriteFrame _ _ _ w) as [[u|e] w1] eqn:E; [|done].
    apply WriteFrame_out in E as (k & O & T & M); [|done].
    destruct (T eq_refl) as [T1 T2]. rewrite T1 in O.
    intros [H1 H2]%IH. rewrite M in H2.
    destruct f as [t s p]. simpl in *. rewrite H1, O, app_assoc. auto.
Qed.

Lemma ReadFrames_S n r :
  ReadFrames (S n) r =
  match ReadFrame r with
  | (Err e, _) => ([], Some e)
  | (Ok f, r1) => let '(fs, e) := ReadFrames n r1 in (f :: fs, e)
  end.
Proof. done. Qed.

Lemma ReadFrames_frame_bytes fs e max :
  Forall (frame_ok max) fs -> max < 2 ^ 32 ->
  ReadFrames (S (length fs)) (mkReader (concat (frame_bytes <$> fs)) e max)
  = (fs, Some e).
Proof.
  intros Hf Hmax. induction Hf as [|f fs Hok Hf IH].
  - simpl. unfold ReadFrame, ReadFull. simpl.
    by rewrite andb_false_r.
  - rewrite ReadFrames_S.
    change (concat (frame_bytes <$> f :: fs))
      with (frame_bytes f ++ concat (frame_bytes <$> fs)).
    rewrite ReadFrame_frame_bytes by done. rewrite length_cons. by rewrite IH.
Qed.

(** ** Properties *)

(** C35.  Any list of well-formed frames that a [Writer] accepts onto a
    connection is read back by a [Reader] of the same limit exactly as it was
    written, in order and frame by frame, and the reader then reports how the
    connection ended (an orderly [io.EOF] included).  Frame boundaries survive
    the byte stream. *)
Theorem write_read_frames fs w w' e max :
  Forall (frame_ok max) fs -> max < 2 ^ 32 -> w_out w = [] ->
  WriteFrames fs w = (Ok tt, w') ->
  ReadFrames (S (length fs)) (mkReader (w_out w') e max) = (fs, Some e).
Proof.
  intros Hok Hmax Hw H. apply WriteFrames_Ok in H as [H _].
  - rewrite H, Hw. by apply ReadFrames_frame_bytes.
  - eapply Forall_impl; [exact Hok|]. intros f (_ & _ & ?). lia.
Qed.

Lemma write_read_frames_witness :
  let fs := [mkFrame TypeOpenStream 1 [x61; x62]; mkFrame TypePing 0 []] in
  let w := mkWriter [] None MaxFramePayload in
  ReadFrames 3 (mkReader (w_out (WriteFrames fs w).2) (ESentinel IoEOF) MaxFramePayload)
  = (fs, Some (ESentinel IoEOF)).
Proof.
  intros fs w.
  apply (write_read_frames fs w (WriteFrames fs w).2 (ESentinel IoEOF) MaxFramePayload).
  - unfold fs. repeat constructor; vm_compute; congruence.
  - done.
  - done.
  - vm_compute. reflexivity.
Defined.

(** Hostile input: whenever [ReadFrame] accepts something, from any byte
    stream whatever, the frame has a known type and a payload within the
    reader's limit, and the bytes consumed are exactly that frame's encoding:
    nothing is skipped, over-read or resynchronised. *)
Theorem ReadFrame_accepts r f r' :
  ReadFrame r = (Ok f, r') ->
  known (f_type f) = true /\ zlen (f_payload f) <= r_max r
  /\ 0 <= f_stream f < 2 ^ 32
  /\ r_in r = encodeHeader (f_type f) (f_stream f) (zlen (f_payload f))
              ++ f_payload f ++ r_in r'.
Proof.
  intros H. apply ReadFrame_Ok_inv in H as ((? & ? & ?) & E & _).
  unfold frame_bytes in E. rewrite <- app_assoc in E. auto.
Qed.

Lemma ReadFrame_accepts_witness :
  known TypePong = true /\ zlen [x01] <= 5.
Proof.
  edestruct (ReadFrame_accepts
    (mkReader [x01; x21; x00; x00; x00; x00; x00; x00; x00; x01; x01; xff] (ESentinel IoEOF) 5)
    (mkFrame TypePong 0 [x01]) (mkReader [xff] (ESentinel IoEOF) 5)) as (H1 & H2 & _).
  { vm_compute. reflexivity. }
  split; [exact H1 | exact H2].
Defined.

(** A header that declares more than the limit is refused before anything
    of the payload is read: the error is the frame-size sentinel, it maps to
    the reason code [limit_frame_too_large], and only the ten header bytes have
    left the connection, whatever length was declared. *)
Theorem ReadFrame_oversized t s n rest e max :
  known t = true -> 0 <= s < 2 ^ 32 -> 0 <= n < 2 ^ 32 -> max < n ->
  exists err,
    ReadFrame (mkReader (encodeHeader t s n ++ rest) e max) = (Err err, mkReader rest e max)
    /\ errors_Is err ErrFrameTooLarge = true
    /\ ReasonFor (Some err) = ReasonLimitFrameTooLarge.
Proof.
  intros Hk Hs Hn Hm. exists (wrap ErrFrameTooLarge "declared, max").
  split; [|done]. unfold ReadFrame.
  rewrite ReadFull_app by apply length_encodeHeader. simpl r_max.
  by rewrite decodeHeader_oversized.
Qed.

Lemma ReadFrame_oversized_witness :
  exists err,
    ReadFrame (mkReader (encodeHeader TypeStreamData 7 65537 ++ []) (ESentinel IoEOF) MaxFramePayload)
    = (Err err, mkReader [] (ESentinel IoEOF) MaxFramePayload)
    /\ errors_Is err ErrFrameTooLarge = true
    /\ ReasonFor (Some err) = ReasonLimitFrameTooLarge.
Proof. apply ReadFrame_oversized; vm_compute; intuition congruence. Defined.

(** A connection that ends inside a frame is never mistaken for an orderly
    close: cutting the encoding of a frame with a payload anywhere after its
    header is a malformed frame, and the peer is told so. *)
Theorem ReadFrame_truncated f k max :
  frame_ok max f -> max < 2 ^ 32 -> (k < length (f_payload f))%nat ->
  exists err r',
    ReadFrame (mkReader (take (HeaderSize + k) (frame_bytes f)) (ESentinel IoEOF) max)
    = (Err err, r')
    /\ ReasonFor (Some err) = ReasonProtocolMalformedFrame.
Proof.
  intros (Hk & Hs & Hl) Hmax Hlen.
  exists (wrap ErrMalformedFrame "truncated payload"), (mkReader [] (ESentinel IoEOF) max).
  split; [|done]. unfold frame_bytes, ReadFrame.
  rewrite (take_app_add' _ _ HeaderSize) by (by rewrite length_encodeHeader).
  rewrite ReadFull_app by apply length_encodeHeader. simpl r_max.
  pose proof (decode_encodeHeader (f_type f) (f_stream f) (zlen (f_payload f)) max []) as D.
  rewrite app_nil_r in D. rewrite D by (done || len). clear D.
  destruct (zlen (f_payload f) =? 0) eqn:Hz; [len|].
  unfold ReadFull. simpl r_in. simpl r_end. simpl r_max.
  destruct (Nat.leb_spec (Z.to_nat (zlen (f_payload f))) (length (take k (f_payload f)))) as [L|L].
  - rewrite length_take in L. unfold zlen in L. lia.
  - destruct (_ && _) eqn:Hb; done.
Qed.

Lemma ReadFrame_truncated_witness :
  exists err r',
    ReadFrame (mkReader (take (HeaderSize + 1) (frame_bytes (mkFrame TypeStreamData 2 [x01; x02])))
                 (ESentinel IoEOF) 10) = (Err err, r')
    /\ ReasonFor (Some err) = ReasonProtocolMalformedFrame.
Proof.
  apply ReadFrame_truncated; [|done|simpl; lia].
  repeat split; vm_compute; congruence.
Defined.

(** A [Writer] never emits a frame its limit forbids, and whatever the
    connection does the bytes it has received from one [WriteFrame] are a prefix
    of that frame's encoding: the whole of it on success, none of it when the
    payload is refused. *)
Theorem WriteFrame_prefix t s p w r w' :
  zlen p < 2 ^ 32 -> WriteFrame t s p w = (r, w') ->
  exists sent, w_out w' = w_out w ++ sent
  /\ sent `prefix_of` frame_bytes (mkFrame t s p)
  /\ (is_ok r = true -> sent = frame_bytes (mkFrame t s p) /\ zlen p <= w_max w)
  /\ (w_max w < zlen p -> sent = [] /\ exists e, r = Err e /\ errors_Is e ErrFrameTooLarge = true).
Proof.
  intros Hp H. destruct (WriteFrame_out t s p w r w' Hp H) as (k & O & T & _).
  exists (take k (frame_bytes (mkFrame t s p))). split; [done|].
  split; [apply prefix_take|]. split; [exact T|]. intros Hm.
  unfold WriteFrame in H.
  rewrite (uwrap_id 32 (zlen p)) in H by (pose proof (zlen_nonneg p); lia).
  destruct (zlen p >? w_max w) eqn:E; [|lia]. simplify_eq/=. split; [|eauto].
  apply (f_equal length) in O. rewrite length_app in O. apply nil_length_inv. lia.
Qed.

Lemma WriteFrame_prefix_witness :
  exists sent,
    w_out (WriteFrame TypePing 0 [x01] (mkWriter [] (Some 4%nat) 10)).2 = [] ++ sent
    /\ sent `prefix_of` frame_bytes (mkFrame TypePing 0 [x01])
    /\ (is_ok (WriteFrame TypePing 0 [x01] (mkWriter [] (Some 4%nat) 10)).1 = true ->
        sent = frame_bytes (mkFrame TypePing 0 [x01]) /\ zlen [x01] <= 10)
    /\ (10 < zlen [x01] -> sent = [] /\ exists e,
        (WriteFrame TypePing 0 [x01] (mkWriter [] (Some 4%nat) 10)).1 = Err e
        /\ errors_Is e ErrFrameTooLarge = true).
Proof.
  apply (WriteFrame_prefix TypePing 0 [x01] (mkWriter [] (Some 4%nat) 10)).
  - done.
  - vm_compute. reflexivity.
Defined.
