(* ===== verification/Handshake.v ===== *)
(** * Handshake and flow-control payloads

    [src/internal/proto/handshake.go]: HELLO, HELLO_ACK, AUTH, AUTH_OK and
    STREAM_WINDOW payloads, and the length-prefixed strings they share with the
    grant encoding. *)

From S2P Require Import Prelude GoErrors GoTime Proto Frame.

(** [type Role uint8]. *)
Definition RoleAgent : Z := 1.
Definition RoleOperator : Z := 2.

Definition role_known (r : Z) : bool := (r =? RoleAgent) || (r =? RoleOperator).

Definition MaxIdentityLen : Z := 128.

Record Hello := mkHello {
  MinVersion : Z;    (* uint8 *)
  MaxVersion : Z;    (* uint8 *)
  HelloRole : Z      (* Role *)
}.

Definition helloSize : nat := 4.

Definition Hello_Encode (h : Hello) : list byte :=
  [byte_of_Z (MinVersion h); byte_of_Z (MaxVersion h); byte_of_Z (HelloRole h); byte_of_Z 0].

Definition DecodeHello (b : list byte) : res Hello :=
  match b with
  | [b0; b1; b2; _] =>
      let h := mkHello (byte_to_Z b0) (byte_to_Z b1) (byte_to_Z b2) in
      if MinVersion h >? MaxVersion h then
        Err (wrap ErrMalformedFrame "hello version range is inverted")
      else if negb (role_known (HelloRole h)) then
        Err (wrap ErrMalformedFrame "unknown role")
      else Ok h
  | _ => Err (wrap ErrMalformedFrame "hello payload size")
  end.

Record HelloAck := mkHelloAck {
  ack_Version : Z;            (* uint8 *)
  ack_MaxFramePayload : Z;    (* uint32 *)
  ack_InitialWindow : Z;      (* uint32 *)
  ack_MaxStreams : Z          (* uint32 *)
}.

Definition helloAckSize : nat := 13.

Definition HelloAck_Encode (a : HelloAck) : list byte :=
  byte_of_Z (ack_Version a) :: be_enc 4 (ack_MaxFramePayload a)
  ++ be_enc 4 (ack_InitialWindow a) ++ be_enc 4 (ack_MaxStreams a).

Definition DecodeHelloAck (b : list byte) : res HelloAck :=
  if negb (length b =? helloAckSize)%nat then
    Err (wrap ErrMalformedFrame "hello_ack payload size")
  else
    let a := mkHelloAck (be_dec (take 1 b)) (be_dec (take 4 (drop 1 b)))
               (be_dec (take 4 (drop 5 b))) (be_dec (take 4 (drop 9 b))) in
    if (ack_MaxFramePayload a =? 0) || (ack_MaxFramePayload a >? MaxFramePayload) then
      Err (wrap ErrMalformedFrame "announced frame size")
    else if ack_InitialWindow a =? 0 then
      Err (wrap ErrMalformedFrame "announced a zero initial window")
    else if ack_MaxStreams a =? 0 then
      Err (wrap ErrMalformedFrame "announced a zero stream limit")
    else Ok a.

(** [appendString(dst, s)]: the length prefix is [uint16(len(s))]. *)
Definition appendString (dst : list byte) (s : string) : list byte :=
  dst ++ be_enc 2 (uwrap 16 (slen s)) ++ bytes_of_string s.

(** [takeString(b)]: the string and the remainder. *)
Definition takeString (b : list byte) : res (string * list byte) :=
  if zlen b <? 2 then Err (wrap ErrMalformedFrame "truncated length prefix")
  else
    let n := be_dec (take 2 b) in
    if n >? MaxIdentityLen then Err (wrap ErrMalformedFrame "string length exceeds")
    else if zlen b <? 2 + n then Err (wrap ErrMalformedFrame "declared bytes, have")
    else Ok (string_of_bytes (take (Z.to_nat n) (drop 2 b)), drop (2 + Z.to_nat n) b).

Record Auth := mkAuth {
  auth_DeviceID : string;
  auth_UserID : string;
  auth_Resource : string
}.

#[global] Instance Auth_eq_dec : EqDecision Auth.
Proof. solve_decision. Defined.

Definition Auth_Encode (a : Auth) : list byte :=
  appendString (appendString (appendString [] (auth_DeviceID a)) (auth_UserID a))
    (auth_Resource a).

(** [fmt.Errorf("auth device_id: %w", err)] and its siblings. *)
Definition errWrap {A} (msg : string) (r : res A) : res A :=
  match r with Ok a => Ok a | Err e => Err (EWrap msg e) end.

Definition DecodeAuth (b : list byte) : res Auth :=
  '(dev, b1) ← errWrap "auth device_id" (takeString b);
  '(usr, b2) ← errWrap "auth user_id" (takeString b1);
  '(rsc, b3) ← errWrap "auth resource" (takeString b2);
  if negb (zlen b3 =? 0) then Err (wrap ErrMalformedFrame "trailing bytes after auth")
  else Ok (mkAuth dev usr rsc).

(** [type AuthOK struct] carries one field. *)
Definition AuthOK_Encode (sessionID : string) : list byte := appendString [] sessionID.

Definition DecodeAuthOK (b : list byte) : res string :=
  '(id, rest) ← errWrap "auth_ok session_id" (takeString b);
  if negb (zlen rest =? 0) then Err (wrap ErrMalformedFrame "trailing bytes after auth_ok")
  else Ok id.

Definition EncodeWindow (credit : Z) : list byte := be_enc 4 credit.

Definition DecodeWindow (b : list byte) : res Z :=
  if negb (length b =? 4)%nat then Err (wrap ErrMalformedFrame "window payload size")
  else
    let credit := be_dec b in
    if credit =? 0 then Err (wrap ErrMalformedFrame "zero window credit")
    else Ok credit.

(** ** Lemmas *)

Lemma appendString_app dst s : appendString dst s = dst ++ appendString [] s.
Proof. done. Qed.

Lemma appendString_length dst s : zlen (appendString dst s) = zlen dst + 2 + slen s.
Proof. unfold appendString. autorewrite with sar_len. lia. Qed.

Lemma takeString_append s rest :
  slen s <= MaxIdentityLen -> takeString (appendString [] s ++ rest) = Ok (s, rest).
Proof.
  unfold MaxIdentityLen. intros Hs. pose proof (slen_nonneg s).
  unfold takeString, appendString. rewrite app_nil_l, <- app_assoc.
  rewrite (uwrap_id 16) by lia.
  rewrite take_app_length' by (by rewrite length_be_enc).
  rewrite be_dec_enc, Z.mod_small by lia.
  unfold MaxIdentityLen. autorewrite with sar_len.
  pose proof (zlen_nonneg rest).
  do 3 if_false. do 2 f_equal.
  - rewrite drop_app_length' by (by rewrite length_be_enc).
    rewrite take_app_length' by (rewrite length_bytes_of_string; unfold slen; lia).
    apply string_of_bytes_of_string.
  - rewrite (drop_app_add' _ _ 2) by (by rewrite length_be_enc).
    rewrite drop_app_length' by (rewrite length_bytes_of_string; unfold slen; lia). done.
Qed.

(** What [takeString] returns is within the cap and was really there. *)
Lemma takeString_inv b s rest :
  takeString b = Ok (s, rest) ->
  b = appendString [] s ++ rest /\ slen s <= MaxIdentityLen.
Proof.
  unfold takeString. intros H.
  do 3 if_split H. injection H as <- <-.
  set (n := be_dec (take 2 b)) in *.
  assert (length (take 2 b) = 2%nat) as L by (rewrite length_take; unfold zlen in *; lia).
  pose proof (be_dec_range (take 2 b)) as R. unfold zlen in R. rewrite L in R. fold n in R. change (256 ^ Z.of_nat 2) with 65536 in R.
  unfold appendString, MaxIdentityLen in *. autorewrite with sar_len.
  rewrite bytes_of_string_of_bytes, app_nil_l, uwrap_id by lia.
  assert (Z.min (Z.of_nat (Z.to_nat n)) (Z.max 0 (zlen b - Z.of_nat 2)) = n) as ->
    by (change (Z.of_nat 2) with 2; lia).
  split; [|lia]. unfold n at 1. rewrite be_enc_dec_len by done.
  rewrite <- app_assoc. rewrite <- (take_drop 2 b) at 1. f_equal.
  rewrite <- (take_drop (Z.to_nat n) (drop 2 b)) at 1. f_equal.
  rewrite drop_drop. done.
Qed.

Lemma takeString_err b e : takeString b = Err e -> errors_Is e ErrMalformedFrame = true.
Proof. unfold takeString. intros. cases. Qed.

Lemma be_dec_take_range n l : (n <= length l)%nat -> 0 <= be_dec (take n l) < 256 ^ Z.of_nat n.
Proof.
  intros. pose proof (be_dec_range (take n l)) as R.
  unfold zlen in R. by rewrite length_take, Nat.min_l in R.
Qed.

Lemma be_enc_dec_take n l : (n <= length l)%nat -> be_enc n (be_dec (take n l)) = take n l.
Proof. intros. apply be_enc_dec_len. rewrite length_take. lia. Qed.

(** A length-prefixed string at the front of a buffer, decoded inside a larger
    decoder: one step of [DecodeAuth], [DecodeAuthOK] and [DecodeGrant]. *)
Lemma errWrap_Ok {A} msg (r : res A) a : errWrap msg r = Ok a <-> r = Ok a.
Proof. destruct r; simpl; naive_solver. Qed.

Lemma takeString_iff b s rest :
  takeString b = Ok (s, rest)
  <-> b = appendString [] s ++ rest /\ slen s <= MaxIdentityLen.
Proof.
  split; [apply takeString_inv|]. intros [-> H]. by apply takeString_append.
Qed.

Lemma DecodeAuthOK_iff b id :
  DecodeAuthOK b = Ok id <-> b = AuthOK_Encode id /\ slen id <= MaxIdentityLen.
Proof.
  unfold DecodeAuthOK, AuthOK_Encode. rewrite bind_Ok. split.
  - intros ([s rest] & H & K). apply errWrap_Ok, takeString_iff in H as [-> H].
    destruct (zlen rest =? 0) eqn:Hz; simpl in K; [|done]. simplify_eq.
    apply Z.eqb_eq, zlen_zero in Hz as ->. by rewrite app_nil_r.
  - intros [-> H]. exists (id, []). rewrite errWrap_Ok, takeString_iff, app_nil_r. done.
Qed.

Lemma DecodeWindow_iff b c :
  DecodeWindow b = Ok c <-> b = EncodeWindow c /\ 0 < c < 2 ^ 32.
Proof.
  unfold DecodeWindow, EncodeWindow. split.
  - intros H. destruct (length b =? 4)%nat eqn:L; simpl in H; [|done].
    apply Nat.eqb_eq in L. if_split H. injection H as <-.
    rewrite be_enc_dec_len by done. pose proof (be_dec_range b) as R.
    unfold zlen in R. rewrite L in R. change (256 ^ Z.of_nat 4) with (2 ^ 32) in R.
    split; [done | lia].
  - intros [-> H]. rewrite length_be_enc. simpl negb. cbv iota.
    rewrite be_enc_4_dec by lia. by if_false.
Qed.

Lemma DecodeAuth_Ok b a :
  DecodeAuth b = Ok a
  <-> b = Auth_Encode a /\ slen (auth_DeviceID a) <= MaxIdentityLen
      /\ slen (auth_UserID a) <= MaxIdentityLen /\ slen (auth_Resource a) <= MaxIdentityLen.
Proof.
  unfold DecodeAuth, Auth_Encode. rewrite bind_Ok. split.
  - intros ([d b1] & H1 & K). apply errWrap_Ok, takeString_iff in H1 as [-> H1].
    apply bind_Ok in K as ([u b2] & H2 & K). apply errWrap_Ok, takeString_iff in H2 as [-> H2].
    apply bind_Ok in K as ([r b3] & H3 & K). apply errWrap_Ok, takeString_iff in H3 as [-> H3].
    destruct (zlen b3 =? 0) eqn:Hz; simpl in K; [|done]. simplify_eq/=.
    apply Z.eqb_eq, zlen_zero in Hz as ->.
    rewrite (appendString_app (appendString _ u)), (appendString_app (appendString [] d) u).
    by rewrite app_nil_r, <- app_assoc.
  - destruct a as [d u r]. simpl. intros (-> & H1 & H2 & H3).
    rewrite (appendString_app (appendString _ u)), (appendString_app (appendString [] d) u).
    rewrite <- app_assoc.
    eexists (d, _). rewrite errWrap_Ok, takeString_iff. split; [done|].
    apply bind_Ok. eexists (u, _). rewrite errWrap_Ok, takeString_iff. split; [done|].
    apply bind_Ok. exists (r, []). rewrite errWrap_Ok, takeString_iff, app_nil_r. done.
Qed.

Lemma DecodeHelloAck_Ok b a :
  DecodeHelloAck b = Ok a
  <-> b = HelloAck_Encode a /\ 0 <= ack_Version a < 256
      /\ 0 < ack_MaxFramePayload a <= MaxFramePayload
      /\ 0 < ack_InitialWindow a < 2 ^ 32 /\ 0 < ack_MaxStreams a < 2 ^ 32.
Proof.
  unfold DecodeHelloAck, HelloAck_Encode, helloAckSize. split.
  - intros H. destruct (length b =? 13)%nat eqn:L; simpl negb in H; cbv iota zeta in H; [|done].
    apply Nat.eqb_eq in L. do 3 if_split H. injection H as <-.
    cbn [ack_Version ack_MaxFramePayload ack_InitialWindow ack_MaxStreams] in *.
    pose proof (be_dec_take_range 1 b) as R0.
    pose proof (be_dec_take_range 4 (drop 1 b)) as R1.
    pose proof (be_dec_take_range 4 (drop 5 b)) as R2.
    pose proof (be_dec_take_range 4 (drop 9 b)) as R3.
    rewrite length_drop in R1, R2, R3. change (256 ^ Z.of_nat 1) with 256 in R0.
    change (256 ^ Z.of_nat 4) with (2 ^ 32) in R1, R2, R3.
    rewrite !be_enc_dec_take by (rewrite length_drop; lia).
    split; [|lia].
    destruct b as [|b0 b']; [done|]. simpl length in L. simpl drop. simpl take.
    f_equal. { apply byte_to_Z_inj. rewrite byte_to_of_Z, take_0, be_dec_single.
               symmetry. apply uwrap_id, byte_to_Z_range. }
    rewrite <- (take_drop 4 b') at 1. f_equal.
    rewrite <- (take_drop 4 (drop 4 b')) at 1. rewrite drop_drop. f_equal.
    rewrite take_ge; [done|]. rewrite length_drop. lia.
  - intros (-> & Hv & Hf & Hw & Hs). unfold MaxFramePayload in *.
    rewrite length_cons, !length_app, !length_be_enc. simpl negb. cbv iota zeta.
    rewrite app_comm_cons.
    set (l := byte_of_Z (ack_Version a) :: be_enc 4 (ack_MaxFramePayload a)).
    assert (be_dec (take 1 (l ++ be_enc 4 (ack_InitialWindow a) ++ be_enc 4 (ack_MaxStreams a)))
            = ack_Version a) as ->.
    { unfold l. simpl. change (take 0 ?x) with (@nil byte).
      rewrite be_dec_single, byte_to_of_Z. by rewrite uwrap_id. }
    assert (take 4 (drop 1 (l ++ be_enc 4 (ack_InitialWindow a) ++ be_enc 4 (ack_MaxStreams a)))
            = be_enc 4 (ack_MaxFramePayload a)) as ->.
    { unfold l. rewrite <- app_comm_cons. simpl drop. rewrite drop_0.
      by rewrite take_app_length' by (by rewrite length_be_enc). }
    rewrite (drop_app_length' l _ 5) by (unfold l; by rewrite length_cons, length_be_enc).
    rewrite take_app_length' by (by rewrite length_be_enc).
    rewrite app_assoc, (drop_app_length' (l ++ _) _ 9)
      by (unfold l; by rewrite length_app, length_cons, !length_be_enc).
    rewrite take_ge by (by rewrite length_be_enc).
    rewrite !be_enc_4_dec by lia. simpl. do 3 if_false. by destruct a.
Qed.

Lemma DecodeHello_Ok b h :
  DecodeHello b = Ok h
  <-> (exists reserved, b = take 3 (Hello_Encode h) ++ [reserved])
      /\ 0 <= MinVersion h <= MaxVersion h /\ MaxVersion h < 256
      /\ (HelloRole h = RoleAgent \/ HelloRole h = RoleOperator).
Proof.
  unfold DecodeHello, Hello_Encode, role_known, RoleAgent, RoleOperator. split.
  - intros H. destruct b as [|b0 [|b1 [|b2 [|b3 [|]]]]]; try done.
    pose proof (byte_to_Z_range b0). pose proof (byte_to_Z_range b1).
    cbv zeta in H. simpl in H. do 2 if_split H. injection H as <-. simpl.
    rewrite !byte_of_to_Z. split; [by exists b3|]. lia.
  - intros ([r ->] & H1 & H2 & H3). simpl.
    rewrite !byte_to_of_Z, !uwrap_id by (change (2 ^ 8) with 256; lia).
    do 2 if_false. by destruct h.
Qed.

(** ** Properties *)

(** AUTH has exactly one encoding per claim: a payload decodes to [a] if and
    only if it is [a]'s own encoding and every field is at most 128 bytes.  So
    encoding and decoding are inverse on representable claims, trailing or
    missing bytes are refused, and no over-long identity is ever accepted. *)
Theorem DecodeAuth_iff b a :
  DecodeAuth b = Ok a
  <-> b = Auth_Encode a /\ slen (auth_DeviceID a) <= MaxIdentityLen
      /\ slen (auth_UserID a) <= MaxIdentityLen /\ slen (auth_Resource a) <= MaxIdentityLen.
Proof. apply DecodeAuth_Ok. Qed.

(** HELLO_ACK: a payload decodes to [a] if and only if it is [a]'s encoding
    and the announced limits are usable: a frame size in 1..64 KiB, a non-zero
    window and a non-zero stream limit, all within their 32-bit fields.  No
    other limits ever take effect. *)
Theorem DecodeHelloAck_iff b a :
  DecodeHelloAck b = Ok a
  <-> b = HelloAck_Encode a /\ 0 <= ack_Version a < 256
      /\ 0 < ack_MaxFramePayload a <= MaxFramePayload
      /\ 0 < ack_InitialWindow a < 2 ^ 32 /\ 0 < ack_MaxStreams a < 2 ^ 32.
Proof. apply DecodeHelloAck_Ok. Qed.

(** HELLO: a payload decodes to [h] if and only if its first three bytes are
    those of [h]'s encoding, the version range is not inverted and the role is
    one of the two defined.  The fourth byte, which [Encode] documents as
    reserved and required to be zero, is accepted whatever its value. *)
Theorem DecodeHello_iff b h :
  DecodeHello b = Ok h
  <-> (exists reserved, b = take 3 (Hello_Encode h) ++ [reserved])
      /\ 0 <= MinVersion h <= MaxVersion h /\ MaxVersion h < 256
      /\ (HelloRole h = RoleAgent \/ HelloRole h = RoleOperator).
Proof. apply DecodeHello_Ok. Qed.
