(* ===== verification/Grant.v ===== *)
(** * Grants

    [src/internal/proto/grant.go]: the signed, short-lived authorization to
    reach one resource on one device, its canonical encoding, its signature and
    its verification.

    Ed25519 is a parameter: an interface of three operations ([Ed25519]) with
    the two facts of its documentation the code relies on ([Ed25519Laws]).
    Unforgeability is not assumed anywhere; the theorems say which bytes a
    signature was checked against. *)

From S2P Require Import Prelude GoErrors GoTime Proto Frame Handshake.

Class Ed25519 := {
  ed_public : list byte -> list byte;                            (* private -> public key *)
  ed_sign : list byte -> list byte -> list byte;                 (* key, message *)
  ed_verify : list byte -> list byte -> list byte -> bool        (* public, message, signature *)
}.

Definition SignatureSize : nat := 64.

Class Ed25519Laws (E : Ed25519) := {
  ed_sign_length k m : length (ed_sign k m) = SignatureSize;
  ed_sign_verify k m : ed_verify (ed_public k) m (ed_sign k m) = true
}.

Definition GrantVersion : Z := 1.
Definition MaxGrantTTL : duration := 30 * Minute.
Definition ClockSkewTolerance : duration := 30 * Second.

Record Grant := mkGrant {
  g_Version : Z;              (* uint8 *)
  g_KeyID : string;
  g_GrantID : string;
  g_OrgID : string;
  g_UserID : string;
  g_DeviceID : string;
  g_ResourceID : string;
  g_IssuedAt : time;
  g_ExpiresAt : time;
  g_MaxBytes : Z              (* uint64 *)
}.

#[global] Instance Grant_eq_dec : EqDecision Grant.
Proof. solve_decision. Defined.

(** [SignedGrant] embeds a [Grant]. *)
Record SignedGrant := mkSigned {
  sg_grant :> Grant;
  sg_Signature : list byte
}.

#[global] Instance SignedGrant_eq_dec : EqDecision SignedGrant.
Proof. solve_decision. Defined.

Definition ReasonForGrant (err : option error) : reason :=
  match err with
  | None => ReasonOK
  | Some e =>
      if errors_Is e ErrGrantExpired then ReasonGrantExpired
      else if errors_Is e ErrGrantNotYetValid then ReasonGrantNotYetValid
      else if errors_Is e ErrGrantDeviceMismatch then ReasonGrantDeviceMismatch
      else if errors_Is e ErrGrantSignature || errors_Is e ErrGrantVersion
              || errors_Is e ErrGrantMalformed || errors_Is e ErrGrantTTLTooLong
      then ReasonGrantInvalidSignature
      else ReasonGrantInvalidSignature
  end.

Definition canonical (g : Grant) : list byte :=
  let b := [byte_of_Z (g_Version g)] in
  let b := appendString b (g_KeyID g) in
  let b := appendString b (g_GrantID g) in
  let b := appendString b (g_OrgID g) in
  let b := appendString b (g_UserID g) in
  let b := appendString b (g_DeviceID g) in
  let b := appendString b (g_ResourceID g) in
  let b := b ++ be_enc 8 (uwrap 64 (unixSeconds (g_IssuedAt g))) in
  let b := b ++ be_enc 8 (uwrap 64 (unixSeconds (g_ExpiresAt g))) in
  b ++ be_enc 8 (g_MaxBytes g).

(** [DecodeGrant]'s [fmt.Errorf("%w: %v", ErrGrantMalformed, err)]: the inner
    error is formatted, not wrapped. *)
Definition takeGrantField (b : list byte) : res (string * list byte) :=
  match takeString b with
  | Ok x => Ok x
  | Err _ => Err (wrap ErrGrantMalformed "field")
  end.

Definition DecodeGrant (b : list byte) : res SignedGrant :=
  if (length b <? SignatureSize + 1)%nat then
    Err (wrap ErrGrantMalformed "too short to be a grant")
  else
    let body := take (length b - SignatureSize) b in
    let sig := drop (length b - SignatureSize) b in
    match body with
    | [] => Err (EMsg "index out of range")
    | v :: rest =>
        if negb (byte_to_Z v =? GrantVersion) then Err (wrap ErrGrantVersion "")
        else
          '(keyID, rest) ← takeGrantField rest;
          '(grantID, rest) ← takeGrantField rest;
          '(orgID, rest) ← takeGrantField rest;
          '(userID, rest) ← takeGrantField rest;
          '(deviceID, rest) ← takeGrantField rest;
          '(resourceID, rest) ← takeGrantField rest;
          if negb (length rest =? 24)%nat then
            Err (wrap ErrGrantMalformed "trailing bytes after grant fields")
          else
            let issued := Unix (swrap64 (be_dec (take 8 rest))) in
            let expires := Unix (swrap64 (be_dec (take 8 (drop 8 rest)))) in
            let maxBytes := be_dec (take 8 (drop 16 rest)) in
            Ok (mkSigned (mkGrant (byte_to_Z v) keyID grantID orgID userID deviceID
                            resourceID issued expires maxBytes) sig)
    end.

Definition Encode (s : SignedGrant) : list byte := canonical s ++ sg_Signature s.

Definition Remaining (s : SignedGrant) (now : time) : duration :=
  let d := Sub (g_ExpiresAt s) now in
  if d <? 0 then 0 else d.

Section WithEd25519.
Context `{Ed25519}.

Definition Sign (g : Grant) (key : list byte) : res SignedGrant :=
  let version := if g_Version g =? 0 then GrantVersion else g_Version g in
  if negb (version =? GrantVersion) then Err (wrap ErrGrantVersion "")
  else if Sub (g_ExpiresAt g) (g_IssuedAt g) >? MaxGrantTTL then
    Err (wrap ErrGrantTTLTooLong "exceeds")
  else if bool_decide (g_DeviceID g = "") || bool_decide (g_ResourceID g = "")
          || bool_decide (g_GrantID g = "") then
    Err (wrap ErrGrantMalformed "device, resource, and grant id are all required")
  else
    let g' := mkGrant version (g_KeyID g) (g_GrantID g) (g_OrgID g) (g_UserID g)
                (g_DeviceID g) (g_ResourceID g) (TruncateSecond (g_IssuedAt g))
                (TruncateSecond (g_ExpiresAt g)) (g_MaxBytes g) in
    Ok (mkSigned g' (ed_sign key (canonical g'))).

Definition Verify (s : SignedGrant) (pub : list byte) (now : time) (deviceID : string)
    : res unit :=
  if negb (g_Version s =? GrantVersion) then Err (wrap ErrGrantVersion "")
  else if negb (length (sg_Signature s) =? SignatureSize)%nat then
    Err (wrap ErrGrantSignature "signature size")
  else if negb (ed_verify pub (canonical s) (sg_Signature s)) then
    Err (ESentinel ErrGrantSignature)
  else if Sub (g_ExpiresAt s) (g_IssuedAt s) >? MaxGrantTTL then
    Err (wrap ErrGrantTTLTooLong "exceeds")
  else if Before (Add now ClockSkewTolerance) (g_IssuedAt s) then
    Err (wrap ErrGrantNotYetValid "valid from")
  else if After (Add now (- ClockSkewTolerance)) (g_ExpiresAt s) then
    Err (wrap ErrGrantExpired "expired at")
  else if negb (bool_decide (deviceID = "")) && negb (bool_decide (g_DeviceID s = deviceID)) then
    Err (wrap ErrGrantDeviceMismatch "grant names, this device is")
  else Ok tt.

End WithEd25519.

(** A toy signature scheme satisfying the laws, for the witnesses: the
    "signature" is the message and key read as a number, modulo 256^64. *)
Definition toy_sign (k m : list byte) : list byte := be_enc 64 (be_dec (m ++ k)).

Definition toy_ed : Ed25519 := {|
  ed_public k := k;
  ed_sign := toy_sign;
  ed_verify p m s := bool_decide (s = toy_sign p m)
|}.

Definition toy_ed_laws : Ed25519Laws toy_ed.
Proof.
  split; intros; simpl.
  - apply length_be_enc.
  - by apply bool_decide_eq_true.
Defined.

(** ** Specification

    What a grant must satisfy to be representable on the wire, and the window
    in which a verified grant is usable. *)

Definition grant_fields_ok (g : Grant) : Prop :=
  slen (g_KeyID g) <= MaxIdentityLen /\ slen (g_GrantID g) <= MaxIdentityLen
  /\ slen (g_OrgID g) <= MaxIdentityLen /\ slen (g_UserID g) <= MaxIdentityLen
  /\ slen (g_DeviceID g) <= MaxIdentityLen /\ slen (g_ResourceID g) <= MaxIdentityLen.

(** A time the wire can carry: whole seconds, in range. *)
Definition wire_time (t : time) : Prop := time_wf t /\ TruncateSecond t = t.

Definition grant_wire_ok (s : SignedGrant) : Prop :=
  g_Version s = GrantVersion /\ grant_fields_ok s
  /\ wire_time (g_IssuedAt s) /\ wire_time (g_ExpiresAt s)
  /\ 0 <= g_MaxBytes s < 2 ^ 64 /\ length (sg_Signature s) = SignatureSize.

(** ** Lemmas *)

Lemma takeGrantField_iff b s rest :
  takeGrantField b = Ok (s, rest)
  <-> b = appendString [] s ++ rest /\ slen s <= MaxIdentityLen.
Proof.
  rewrite <- takeString_iff. unfold takeGrantField.
  destruct (takeString b) as [[]|]; naive_solver.
Qed.

Lemma takeGrantField_append s rest :
  slen s <= MaxIdentityLen -> takeGrantField (appendString [] s ++ rest) = Ok (s, rest).
Proof. intros. by apply takeGrantField_iff. Qed.

(** The canonical bytes as the concatenation the decoder takes apart. *)
Definition grant_tail (issued expires maxBytes : Z) : list byte :=
  be_enc 8 issued ++ be_enc 8 expires ++ be_enc 8 maxBytes.

Lemma canonical_app g :
  canonical g =
  byte_of_Z (g_Version g) :: appendString [] (g_KeyID g) ++ appendString [] (g_GrantID g)
  ++ appendString [] (g_OrgID g) ++ appendString [] (g_UserID g)
  ++ appendString [] (g_DeviceID g) ++ appendString [] (g_ResourceID g)
  ++ grant_tail (uwrap 64 (unixSeconds (g_IssuedAt g)))
       (uwrap 64 (unixSeconds (g_ExpiresAt g))) (g_MaxBytes g).
Proof.
  unfold canonical, appendString, grant_tail. rewrite !app_nil_l.
  by rewrite <- !app_assoc.
Qed.

Lemma canonical_nonempty g : (0 < length (canonical g))%nat.
Proof. rewrite canonical_app. simpl. lia. Qed.

Lemma length_grant_tail a b c : length (grant_tail a b c) = 24%nat.
Proof. unfold grant_tail. by rewrite !length_app, !length_be_enc. Qed.

Lemma grant_tail_split a b c :
  take 8 (grant_tail a b c) = be_enc 8 a
  /\ take 8 (drop 8 (grant_tail a b c)) = be_enc 8 b
  /\ take 8 (drop 16 (grant_tail a b c)) = be_enc 8 c.
Proof.
  unfold grant_tail. split_and!.
  - by rewrite take_app_length' by (by rewrite length_be_enc).
  - rewrite drop_app_length' by (by rewrite length_be_enc).
    by rewrite take_app_length' by (by rewrite length_be_enc).
  - rewrite app_assoc, drop_app_length' by (by rewrite length_app, !length_be_enc).
    by rewrite take_ge by (by rewrite length_be_enc).
Qed.

Lemma grant_tail_inv l :
  length l = 24%nat ->
  l = grant_tail (be_dec (take 8 l)) (be_dec (take 8 (drop 8 l))) (be_dec (take 8 (drop 16 l))).
Proof.
  intros L. unfold grant_tail. rewrite !be_enc_dec_take by (rewrite ?length_drop; lia).
  rewrite (take_ge (drop 16 l)) by (rewrite length_drop; lia).
  rewrite <- (take_drop 8 l) at 1. f_equal.
  rewrite <- (take_drop 8 (drop 8 l)) at 1. by rewrite drop_drop.
Qed.

Lemma be_dec_8_range l n : (n <= length l)%nat -> n = 8%nat -> 0 <= be_dec (take n l) < 2 ^ 64.
Proof. intros L ->. by apply (be_dec_take_range 8). Qed.

(** A wire timestamp and its encoding determine each other. *)
Lemma wire_time_decode z :
  0 <= z < 2 ^ 64 ->
  wire_time (Unix (swrap64 z)) /\ uwrap 64 (unixSeconds (Unix (swrap64 z))) = z.
Proof.
  intros H. split; [split; [apply Unix_wf|]|].
  - rewrite TruncateSecond_spec. unfold Unix. by rewrite Z.div_mul by done.
  - rewrite unixSeconds_Unix by apply swrap64_range.
    rewrite uwrap_swrap64. by apply uwrap_id.
Qed.

Lemma wire_time_encode t :
  wire_time t -> Unix (swrap64 (be_dec (be_enc 8 (uwrap 64 (unixSeconds t))))) = t.
Proof.
  intros [Hwf Ht]. rewrite be_dec_enc.
  change (256 ^ Z.of_nat 8) with (2 ^ 64).
  rewrite (Z.mod_small (uwrap 64 _)) by (apply uwrap_range; lia).
  rewrite swrap64_uwrap.
  rewrite (swrap64_id (unixSeconds t)) by (unfold unixSeconds; apply swrap64_range).
  by rewrite Unix_unixSeconds.
Qed.

Lemma DecodeGrant_Encode s : grant_wire_ok s -> DecodeGrant (Encode s) = Ok s.
Proof.
  destruct s as [g sig]. intros (Hv & (H1 & H2 & H3 & H4 & H5 & H6) & Hi & He & Hm & Hs).
  simpl in *. unfold DecodeGrant, Encode. simpl sg_grant. simpl sg_Signature.
  pose proof (canonical_nonempty g) as Hne.
  rewrite length_app, Hs.
  destruct (Nat.ltb_spec (length (canonical g) + SignatureSize) (SignatureSize + 1)) as [L|_]; [lia|].
  rewrite Nat.add_sub, take_app_length, drop_app_length, canonical_app.
  rewrite byte_to_of_Z, Hv. change (uwrap 8 GrantVersion) with GrantVersion.
  rewrite Z.eqb_refl. cbn [negb]. cbv iota.
  do 6 (rewrite takeGrantField_append by assumption; cbn [mbind result_bind]; cbv iota beta).
  rewrite length_grant_tail. cbn [Nat.eqb negb]. cbv iota zeta.
  destruct (grant_tail_split (uwrap 64 (unixSeconds (g_IssuedAt g)))
    (uwrap 64 (unixSeconds (g_ExpiresAt g))) (g_MaxBytes g)) as (-> & -> & ->).
  rewrite !wire_time_encode by done. rewrite be_dec_enc, Z.mod_small by done.
  rewrite <- Hv. by destruct g.
Qed.

Lemma DecodeGrant_inv b s : DecodeGrant b = Ok s -> b = Encode s /\ grant_wire_ok s.
Proof.
  unfold DecodeGrant. destruct (Nat.ltb_spec (length b) (SignatureSize + 1)) as [|L]; [done|].
  set (n := (length b - SignatureSize)%nat). cbv zeta.
  assert (length (drop n b) = SignatureSize) as Ls
    by (rewrite length_drop; unfold n, SignatureSize in *; lia).
  destruct (take n b) as [|v r0] eqn:Eb; [done|].
  destruct (byte_to_Z v =? GrantVersion) eqn:Ev; cbn [negb]; cbv iota; [|done].
  intros K.
  apply bind_Ok in K as ([f1 r1] & (-> & ?)%takeGrantField_iff & K).
  apply bind_Ok in K as ([f2 r2] & (-> & ?)%takeGrantField_iff & K).
  apply bind_Ok in K as ([f3 r3] & (-> & ?)%takeGrantField_iff & K).
  apply bind_Ok in K as ([f4 r4] & (-> & ?)%takeGrantField_iff & K).
  apply bind_Ok in K as ([f5 r5] & (-> & ?)%takeGrantField_iff & K).
  apply bind_Ok in K as ([f6 r6] & (-> & ?)%takeGrantField_iff & K).
  destruct (Nat.eqb_spec (length r6) 24) as [L24|]; cbn [negb] in K; cbv iota zeta in K; [|done].
  injection K as <-. apply Z.eqb_eq in Ev.
  pose proof (be_dec_8_range r6 8) as R1.
  pose proof (be_dec_8_range (drop 8 r6) 8) as R2. rewrite length_drop in R2.
  pose proof (be_dec_8_range (drop 16 r6) 8) as R3. rewrite length_drop in R3.
  destruct (wire_time_decode (be_dec (take 8 r6))) as [W1 U1]; [lia|].
  destruct (wire_time_decode (be_dec (take 8 (drop 8 r6)))) as [W2 U2]; [lia|].
  split.
  - unfold Encode. rewrite canonical_app. simpl. rewrite U1, U2.
    rewrite <- grant_tail_inv by done. rewrite Ev at 1.
    assert (v = byte_of_Z GrantVersion) as <- by (by rewrite <- Ev, byte_of_to_Z).
    rewrite <- (take_drop n b) at 1. by rewrite Eb.
  - unfold grant_wire_ok, grant_fields_ok. cbn.
    pose proof (R3 ltac:(lia) eq_refl). split_and!; tauto.
Qed.

Lemma takeString_long s rest :
  MaxIdentityLen < slen s < 65536 ->
  takeString (appendString [] s ++ rest)
  = Err (wrap ErrMalformedFrame "string length exceeds").
Proof.
  intros Hs. unfold takeString, appendString. rewrite app_nil_l, <- app_assoc.
  rewrite (uwrap_id 16) by (unfold MaxIdentityLen in *; lia).
  rewrite take_app_length' by (by rewrite length_be_enc).
  rewrite be_dec_enc, Z.mod_small by (change (256 ^ Z.of_nat 2) with 65536; unfold MaxIdentityLen in *; lia).
  autorewrite with sar_len. pose proof (zlen_nonneg rest).
  unfold MaxIdentityLen in *. if_false. by if_true.
Qed.

Lemma takeGrantField_long s rest :
  MaxIdentityLen < slen s < 65536 ->
  takeGrantField (appendString [] s ++ rest) = Err (wrap ErrGrantMalformed "field").
Proof. intros. unfold takeGrantField. by rewrite takeString_long. Qed.

Section Theorems.
Context `{Ed25519}.

(** Acceptance, as the conjunction of what is checked. *)
Lemma Verify_Ok_iff (s : SignedGrant) pub now dev :
  clock_ok now ->
  Verify s pub now dev = Ok tt
  <-> g_Version s = GrantVersion /\ length (sg_Signature s) = SignatureSize
      /\ ed_verify pub (canonical s) (sg_Signature s) = true
      /\ g_ExpiresAt s - g_IssuedAt s <= MaxGrantTTL
      /\ g_IssuedAt s - ClockSkewTolerance <= now <= g_ExpiresAt s + ClockSkewTolerance
      /\ (dev = "" \/ g_DeviceID s = dev).
Proof.
  intros Hc. unfold Verify, Before, After.
  rewrite !Add_clock by (done || (unfold ClockSkewTolerance, Second, Millisecond; lia)).
  pose proof (Sub_le (g_ExpiresAt s) (g_IssuedAt s) MaxGrantTTL ltac:(done)) as HS.
  split.
  - intros K.
    destruct (g_Version s =? GrantVersion) eqn:E1; cbn [negb] in K; [|done].
    destruct (Nat.eqb_spec (length (sg_Signature s)) SignatureSize); cbn [negb] in K; [|done].
    destruct (ed_verify _ _ _) eqn:E3; cbn [negb] in K; [|done].
    do 3 if_split K.
    destruct (bool_decide_reflect (dev = "")), (bool_decide_reflect (g_DeviceID s = dev));
      cbn [negb andb] in K; try done; split_and!; auto; lia.
  - intros (E1 & E2 & E3 & E4 & E5 & E6).
    rewrite E1, E2, E3, Z.eqb_refl, Nat.eqb_refl. cbn [negb]. do 3 if_false.
    destruct (bool_decide_reflect (dev = "")), (bool_decide_reflect (g_DeviceID s = dev));
      cbn [negb andb]; naive_solver.
Qed.

Lemma TruncateSecond_diff t u k : t - u <= k * Second -> TruncateSecond t - TruncateSecond u <= k * Second.
Proof.
  rewrite !TruncateSecond_spec. unfold Second, Millisecond. intros. zlia.
Qed.

Lemma Sign_Ok_inv g key s :
  Sign g key = Ok s ->
  s = mkSigned (mkGrant GrantVersion (g_KeyID g) (g_GrantID g) (g_OrgID g) (g_UserID g)
        (g_DeviceID g) (g_ResourceID g) (TruncateSecond (g_IssuedAt g))
        (TruncateSecond (g_ExpiresAt g)) (g_MaxBytes g)) (sg_Signature s)
  /\ sg_Signature s = ed_sign key (canonical s)
  /\ g_ExpiresAt g - g_IssuedAt g <= MaxGrantTTL
  /\ g_DeviceID g <> "" /\ g_ResourceID g <> "" /\ g_GrantID g <> "".
Proof.
  unfold Sign. intros K. cbv zeta in K.
  destruct (_ =? GrantVersion) eqn:E1 in K; cbn [negb] in K; [|done].
  if_split K. if_split K. injection K as <-. cbn.
  apply Z.eqb_eq in E1. rewrite E1.
  pose proof (Sub_le (g_ExpiresAt g) (g_IssuedAt g) MaxGrantTTL ltac:(done)) as HS.
  rewrite !orb_false_iff, !bool_decide_eq_false in *.
  split_and!; try tauto. apply HS. lia.
Qed.

Lemma Sign_ok g key :
  g_Version g = 0 -> g_ExpiresAt g - g_IssuedAt g <= MaxGrantTTL ->
  g_DeviceID g <> "" -> g_ResourceID g <> "" -> g_GrantID g <> "" ->
  exists s, Sign g key = Ok s /\ g_GrantID s = g_GrantID g.
Proof.
  intros Hv Ht H1 H2 H3. unfold Sign. rewrite Hv. cbn [Z.eqb]. cbv zeta. cbn [negb].
  pose proof (Sub_le (g_ExpiresAt g) (g_IssuedAt g) MaxGrantTTL ltac:(done)) as HS.
  replace (Sub _ _ >? MaxGrantTTL) with false by lia.
  rewrite !bool_decide_eq_false_2 by done. cbn. eauto.
Qed.

(** ** Properties *)

(** C36.  One encoding per grant: bytes decode to a signed grant [s] if and only
    if they are [s]'s own encoding and [s] is representable (version 1, six
    identifiers of at most 128 bytes, whole-second times, a 64-byte signature).
    Hence two different byte strings never decode to the same grant and
    trailing, missing or re-ordered bytes are refused. *)
Theorem DecodeGrant_iff b s :
  DecodeGrant b = Ok s <-> b = Encode s /\ grant_wire_ok s.
Proof.
  split; [apply DecodeGrant_inv|]. intros [-> ?]. by apply DecodeGrant_Encode.
Qed.

(** What is acted on is what was signed: if received bytes decode to [s]
    and [s] passes verification, the signature that was checked is over exactly
    the received bytes less their last 64, with those 64 as the signature,
    although [Verify] re-encodes the grant. *)
Theorem verified_bytes b s pub now dev :
  DecodeGrant b = Ok s -> Verify s pub now dev = Ok tt ->
  ed_verify pub (take (length b - SignatureSize) b) (drop (length b - SignatureSize) b) = true.
Proof.
  intros (-> & _ & _ & _ & _ & _ & Hs)%DecodeGrant_inv HV.
  unfold Verify in HV. do 2 if_split HV.
  destruct (ed_verify _ _ _) eqn:E3 in HV; [|done].
  unfold Encode. rewrite length_app, Hs, Nat.add_sub.
  by rewrite take_app_length, drop_app_length.
Qed.

(** C7.  [Verify] accepts, at a time [now] of a sane clock, exactly the grants
    with the current version, a valid 64-byte signature over their canonical
    bytes, a lifetime within the 30-minute ceiling, [now] within the lifetime
    widened by 30 seconds at both ends, and the verifier's device (an empty
    device identifier skips that one check). *)
Theorem Verify_accepts_iff (s : SignedGrant) pub now dev :
  clock_ok now ->
  Verify s pub now dev = Ok tt
  <-> g_Version s = GrantVersion /\ length (sg_Signature s) = SignatureSize
      /\ ed_verify pub (canonical s) (sg_Signature s) = true
      /\ g_ExpiresAt s - g_IssuedAt s <= MaxGrantTTL
      /\ g_IssuedAt s - ClockSkewTolerance <= now <= g_ExpiresAt s + ClockSkewTolerance
      /\ (dev = "" \/ g_DeviceID s = dev).
Proof. apply Verify_Ok_iff. Qed.

(** Expiry bounds access whatever the issuer signed: any two moments at
    which one and the same grant is accepted, by any verifiers, are at most
    thirty-one minutes apart (the TTL ceiling plus the skew at both ends). *)
Theorem Verify_window (s : SignedGrant) pub1 pub2 now1 now2 dev1 dev2 :
  clock_ok now1 -> clock_ok now2 ->
  Verify s pub1 now1 dev1 = Ok tt -> Verify s pub2 now2 dev2 = Ok tt ->
  now2 - now1 <= 31 * Minute.
Proof.
  intros H1 H2 (_ & _ & _ & ? & ? & _)%Verify_Ok_iff (_ & _ & _ & ? & ? & _)%Verify_Ok_iff; auto.
  unfold MaxGrantTTL, ClockSkewTolerance, Minute in *. lia.
Qed.

(** Nothing in a grant is looked at before its signature: when the signature
    does not verify, the answer is the signature error and its reason code,
    independently of the clock, of the device and of every other field. *)
Theorem Verify_signature_first (s : SignedGrant) pub now dev :
  g_Version s = GrantVersion ->
  ed_verify pub (canonical s) (sg_Signature s) = false ->
  exists e, Verify s pub now dev = Err e /\ errors_Is e ErrGrantSignature = true
  /\ ReasonForGrant (Some e) = ReasonGrantInvalidSignature.
Proof.
  intros Hv Hs. unfold Verify. rewrite Hv, Hs, Z.eqb_refl. cbn [negb]. cbv iota.
  destruct (length (sg_Signature s) =? SignatureSize)%nat; cbn [negb]; eauto.
Qed.

Context {EL : Ed25519Laws _}.

Lemma Sign_round_trip g key s now :
  Sign g key = Ok s -> grant_fields_ok g ->
  clock_ok (g_IssuedAt g) -> clock_ok (g_ExpiresAt g) -> 0 <= g_MaxBytes g < 2 ^ 64 ->
  clock_ok now ->
  TruncateSecond (g_IssuedAt g) - ClockSkewTolerance <= now
    <= TruncateSecond (g_ExpiresAt g) + ClockSkewTolerance ->
  DecodeGrant (Encode s) = Ok s /\ Verify s (ed_public key) now (g_DeviceID g) = Ok tt.
Proof.
  intros HS Hf Hi He Hm Hc Hn.
  apply Sign_Ok_inv in HS as (Es & Esig & Httl & _).
  assert (length (sg_Signature s) = SignatureSize) as Hl by (rewrite Esig; apply ed_sign_length).
  assert (ed_verify (ed_public key) (canonical s) (sg_Signature s) = true) as Hv
    by (rewrite Esig; apply ed_sign_verify).
  split.
  - apply DecodeGrant_Encode. rewrite Es.
    unfold grant_wire_ok, grant_fields_ok, wire_time in *. cbn.
    split_and!; try tauto; try apply TruncateSecond_idem;
      apply TruncateSecond_wf; by apply clock_ok_wf.
  - apply Verify_Ok_iff; [done|]. split_and!; try done; try (rewrite Es; cbn; tauto).
    rewrite Es. cbn. apply (TruncateSecond_diff _ _ 1800). exact Httl.
Qed.

(** C8.  The authorization round trip: a grant that [Sign] produces from fields
    the wire can carry survives [Encode] and [DecodeGrant] unchanged and is
    accepted by the holder of the matching public key, for the device it names,
    at every moment from 30 seconds before its (truncated) issue to 30 seconds
    after its (truncated) expiry. *)
Theorem Sign_Encode_Decode_Verify g key s now :
  Sign g key = Ok s -> grant_fields_ok g ->
  clock_ok (g_IssuedAt g) -> clock_ok (g_ExpiresAt g) -> 0 <= g_MaxBytes g < 2 ^ 64 ->
  clock_ok now ->
  TruncateSecond (g_IssuedAt g) - ClockSkewTolerance <= now
    <= TruncateSecond (g_ExpiresAt g) + ClockSkewTolerance ->
  DecodeGrant (Encode s) = Ok s /\ Verify s (ed_public key) now (g_DeviceID g) = Ok tt.
Proof. apply Sign_round_trip. Qed.

(** [Sign] and [DecodeGrant] disagree about identifier lengths: a grant whose
    resource identifier is longer than 128 bytes is signed without complaint,
    but its own encoding is then refused as malformed by every decoder, so the
    issuer hands out (and records) a grant nobody can use. *)
Theorem Sign_undecodable g key s :
  Sign g key = Ok s ->
  slen (g_KeyID g) <= MaxIdentityLen -> slen (g_GrantID g) <= MaxIdentityLen ->
  slen (g_OrgID g) <= MaxIdentityLen -> slen (g_UserID g) <= MaxIdentityLen ->
  slen (g_DeviceID g) <= MaxIdentityLen -> MaxIdentityLen < slen (g_ResourceID g) < 65536 ->
  exists e, DecodeGrant (Encode s) = Err e /\ errors_Is e ErrGrantMalformed = true.
Proof.
  intros (Es & Esig & _)%Sign_Ok_inv H1 H2 H3 H4 H5 H6.
  assert (length (sg_Signature s) = SignatureSize) as Hl by (rewrite Esig; apply ed_sign_length).
  exists (wrap ErrGrantMalformed "field"). split; [|done].
  unfold DecodeGrant, Encode. pose proof (canonical_nonempty s) as Hne.
  rewrite length_app, Hl.
  destruct (Nat.ltb_spec (length (canonical s) + SignatureSize) (SignatureSize + 1)) as [L|_]; [lia|].
  rewrite Nat.add_sub, take_app_length, drop_app_length, canonical_app, Es.
  cbn [g_Version g_KeyID g_GrantID g_OrgID g_UserID g_DeviceID g_ResourceID sg_grant].
  rewrite byte_to_of_Z. change (uwrap 8 GrantVersion) with GrantVersion.
  rewrite Z.eqb_refl. cbn [negb]. cbv iota.
  do 5 (rewrite takeGrantField_append by assumption; cbn [mbind result_bind]; cbv iota beta).
  rewrite takeGrantField_long; done.
Qed.

End Theorems.

(** ** Witnesses *)

Definition demo_key : list byte := [x07; x2a].

Definition demo_grant : Grant :=
  mkGrant 0 "k1" "grn_1" "org" "usr_maria" "dev_panel_01" "res_diag"
    (Unix 1700000000) (Unix 1700001200) 0.

Definition demo_signed : SignedGrant :=
  match @Sign toy_ed demo_grant demo_key with Ok s => s | Err _ => mkSigned demo_grant [] end.

Definition demo_now : time := Unix 1700000600.

(** A grant for a resource whose identifier has 130 bytes. *)
Definition long_grant : Grant :=
  mkGrant 0 "k1" "grn_1" "org" "usr_maria" "dev_panel_01"
    (string_of_bytes (replicate 130 x61)) (Unix 1700000000) (Unix 1700001200) 0.

Definition long_signed : SignedGrant :=
  match @Sign toy_ed long_grant demo_key with Ok s => s | Err _ => mkSigned long_grant [] end.

Lemma verified_bytes_witness :
  @ed_verify toy_ed (@ed_public toy_ed demo_key) (take (length (Encode demo_signed) - SignatureSize) (Encode demo_signed))
    (drop (length (Encode demo_signed) - SignatureSize) (Encode demo_signed)) = true.
Proof.
  apply (@verified_bytes toy_ed _ demo_signed _ demo_now "dev_panel_01"); vm_compute; reflexivity.
Defined.

Lemma Verify_accepts_iff_witness :
  @Verify toy_ed demo_signed (@ed_public toy_ed demo_key) demo_now "dev_panel_01" = Ok tt.
Proof.
  apply (@Verify_accepts_iff toy_ed demo_signed (@ed_public toy_ed demo_key) demo_now "dev_panel_01");
    vm_compute; intuition congruence.
Defined.

Lemma Verify_window_witness : Unix 1700000601 - demo_now <= 31 * Minute.
Proof.
  apply (@Verify_window toy_ed demo_signed (@ed_public toy_ed demo_key) (@ed_public toy_ed demo_key) demo_now (Unix 1700000601)
           "dev_panel_01" ""); vm_compute; intuition congruence.
Defined.

Lemma Verify_signature_first_witness :
  exists e, @Verify toy_ed demo_signed [x00] demo_now "other" = Err e
  /\ errors_Is e ErrGrantSignature = true
  /\ ReasonForGrant (Some e) = ReasonGrantInvalidSignature.
Proof. apply (@Verify_signature_first toy_ed); vm_compute; reflexivity. Defined.

Lemma Sign_Encode_Decode_Verify_witness :
  DecodeGrant (Encode demo_signed) = Ok demo_signed
  /\ @Verify toy_ed demo_signed (@ed_public toy_ed demo_key) demo_now (g_DeviceID demo_grant) = Ok tt.
Proof.
  apply (@Sign_Encode_Decode_Verify toy_ed toy_ed_laws demo_grant demo_key demo_signed demo_now);
    vm_compute; intuition congruence.
Defined.

Lemma Sign_undecodable_witness :
  exists e, DecodeGrant (Encode long_signed) = Err e /\ errors_Is e ErrGrantMalformed = true.
Proof.
  apply (@Sign_undecodable toy_ed toy_ed_laws long_grant demo_key long_signed);
    vm_compute; intuition congruence.
Defined.
