(* ===== verification/Proc.v ===== *)
(** * Goroutines

    Code that runs concurrently with other code on shared state is written as a
    [proc]: a tree of atomic actions.  One action is one critical section (the
    code between a [Lock] and its [Unlock]), one frame handed to the connection,
    or one channel operation; an action that is not enabled ([None]) blocks.
    The same definition then has two readings: [run], the handler executed with
    nothing in between, and [pool_step], any interleaving of any number of
    running handlers at the granularity of those actions.

    Blocking is modelled by its condition: a goroutine that waits on a condition
    variable or a channel is enabled when the condition it re-checks holds.
    Whether a sleeping goroutine is woken is not modelled. *)

From S2P Require Import Prelude.

Inductive proc (S A : Type) : Type :=
| Ret (a : A)
| Act (f : S -> option (S * proc S A)).
Arguments Ret {S A} _.
Arguments Act {S A} _.

Fixpoint proc_bind {S A B : Type} (p : proc S A) (k : A -> proc S B) : proc S B :=
  match p with
  | Ret a => k a
  | Act f =>
      Act (fun s =>
        match f s with
        | Some (s', p') => Some (s', proc_bind p' k)
        | None => None
        end)
  end.

Declare Scope proc_scope.
Delimit Scope proc_scope with proc.
Notation "'do' x <- p ; k" := (proc_bind p (fun x => k))
  (at level 10, x pattern, p at level 100, k at level 200,
   format "'[v' 'do'  x  <-  p ; '/' k ']'") : proc_scope.
Open Scope proc_scope.

(** An action that always succeeds, one that may block, and one without result. *)
Definition act {S A : Type} (f : S -> A * S) : proc S A :=
  Act (fun s => let '(a, s') := f s in Some (s', Ret a)).

Definition await {S A : Type} (f : S -> option (A * S)) : proc S A :=
  Act (fun s => match f s with Some (a, s') => Some (s', Ret a) | None => None end).

Definition modify {S : Type} (f : S -> S) : proc S unit := act (fun s => (tt, f s)).

Definition gets {S A : Type} (f : S -> A) : proc S A := act (fun s => (f s, s)).

(** Run to completion with nothing in between; [None] when it blocks. *)
Fixpoint run {S A : Type} (p : proc S A) (s : S) : option (A * S) :=
  match p with
  | Ret a => Some (a, s)
  | Act f =>
      match f s with
      | Some (s', p') => run p' s'
      | None => None
      end
  end.

(** One step of a pool of running handlers: one of them executes its next
    action, or a new one of the kinds [spawn] allows is started. *)
Inductive pool_step {S : Type} (spawn : proc S unit -> Prop)
  : S * list (proc S unit) -> S * list (proc S unit) -> Prop :=
| pool_act s ps i f s' p' :
    ps !! i = Some (Act f) -> f s = Some (s', p') ->
    pool_step spawn (s, ps) (s', <[i := p']> ps)
| pool_spawn s ps p :
    spawn p -> pool_step spawn (s, ps) (s, ps ++ [p]).

(** Code that works on a part of the state only. *)
Fixpoint embed {S T A : Type} (get : T -> S) (set : S -> T -> T) (p : proc S A) : proc T A :=
  match p with
  | Ret a => Ret a
  | Act f =>
      Act (fun t =>
        match f (get t) with
        | Some (s', p') => Some (set s' t, embed get set p')
        | None => None
        end)
  end.

(** Running alone, [p] always comes to an end. *)
Definition total {S A : Type} (p : proc S A) : Prop := forall s, exists a s', run p s = Some (a, s').

(** Execute a given schedule: each entry names the handler that moves. *)
Fixpoint sched {S : Type} (order : list nat) (s : S) (ps : list (proc S unit))
    : option (S * list (proc S unit)) :=
  match order with
  | [] => Some (s, ps)
  | i :: order' =>
      match ps !! i with
      | Some (Act f) =>
          match f s with
          | Some (s', p') => sched order' s' (<[i := p']> ps)
          | None => None
          end
      | _ => None
      end
  end.

(** The states [p] passes through when it runs alone from [s], the first and the
    last included: where a process that is killed may leave things. *)
Fixpoint visited {S A : Type} (p : proc S A) (s : S) : list S :=
  s :: match p with
       | Ret _ => []
       | Act f =>
           match f s with
           | Some (s', p') => visited p' s'
           | None => []
           end
       end.

(** ** Invariants of interleaved handlers *)

(** Every action of [p], whenever it is executed in a state satisfying [I],
    leaves a state satisfying [I]. *)
Fixpoint keeps {S A : Type} (I : S -> Prop) (p : proc S A) : Prop :=
  match p with
  | Ret _ => True
  | Act f =>
      forall s, I s ->
        match f s with
        | Some (s', p') => I s' /\ keeps I p'
        | None => True
        end
  end.

(** Whatever other handlers do in between, as long as they keep [I], the value
    [p] returns (when it does) satisfies [Q]. *)
Fixpoint returns {S A : Type} (I : S -> Prop) (Q : A -> Prop) (p : proc S A) : Prop :=
  match p with
  | Ret a => Q a
  | Act f =>
      forall s, I s ->
        match f s with
        | Some (s', p') => returns I Q p'
        | None => True
        end
  end.

(** ** Lemmas *)

Lemma run_bind {S A B} (p : proc S A) (k : A -> proc S B) s :
  run (proc_bind p k) s = match run p s with Some (a, s') => run (k a) s' | None => None end.
Proof.
  revert p s. fix IH 1. intros [a|f] s; simpl; [done|].
  destruct (f s) as [[s' p']|]; [apply IH | done].
Qed.

Lemma run_act {S A} (f : S -> A * S) s : run (act f) s = Some (f s).
Proof. simpl. by destruct (f s). Qed.

Lemma run_await {S A} (f : S -> option (A * S)) s : run (await f) s = f s.
Proof. simpl. by destruct (f s) as [[]|]. Qed.

Lemma run_modify {S} (f : S -> S) s : run (modify f) s = Some (tt, f s).
Proof. done. Qed.

Lemma run_gets {S A} (f : S -> A) s : run (gets f) s = Some (f s, s).
Proof. done. Qed.

Lemma run_embed {S T A} (get : T -> S) (set : S -> T -> T) (p : proc S A) t :
  (forall s t, get (set s t) = s) -> (forall s s' t, set s' (set s t) = set s' t) -> (forall t, set (get t) t = t) ->
  run (embed get set p) t = match run p (get t) with Some (a, s') => Some (a, set s' t) | None => None end.
Proof.
  intros H1 H2 H3. revert p t. fix IH 1. intros [a|f] t; simpl; [clear IH; by rewrite H3|].
  destruct (f (get t)) as [[s' p']|]; [|clear IH; done]. rewrite (IH p' (set s' t)). clear IH.
  rewrite H1. destruct (run p' s') as [[a s2]|]; [by rewrite H2 | done].
Qed.

Lemma total_ret {S A} (a : A) : total (Ret a : proc S A).
Proof. intros s. by exists a, s. Qed.

Lemma total_bind {S A B} (p : proc S A) (k : A -> proc S B) :
  total p -> (forall a, total (k a)) -> total (proc_bind p k).
Proof. intros Hp Hk s. rewrite run_bind. destruct (Hp s) as (a & s' & ->). apply Hk. Qed.

Lemma total_act {S A} (f : S -> A * S) : total (act f).
Proof. intros s. rewrite run_act. destruct (f s) as [a s']. by exists a, s'. Qed.

Lemma sched_steps {S} spawn order (s : S) ps y :
  sched order s ps = Some y -> rtc (pool_step spawn) (s, ps) y.
Proof.
  revert s ps. induction order as [|i order IH]; intros s ps; cbn; [by intros [= <-]|].
  destruct (ps !! i) as [[|f]|] eqn:Ei; try done. destruct (f s) as [[s' p']|] eqn:Ef; [|done].
  intros H. eapply rtc_l; [by eapply pool_act|]. by apply IH.
Qed.

Lemma spawn_steps {S} (spawn : proc S unit -> Prop) s qs ps :
  Forall spawn qs -> rtc (pool_step spawn) (s, ps) (s, ps ++ qs).
Proof.
  revert ps. induction qs as [|q qs IH]; intros ps Hq; [by rewrite app_nil_r|].
  inversion_clear Hq. eapply rtc_l; [by apply pool_spawn|].
  change (q :: qs) with ([q] ++ qs). rewrite app_assoc. by apply IH.
Qed.

Lemma visited_refl {S A} (p : proc S A) s : s ∈ visited p s.
Proof. destruct p; left. Qed.

Lemma visited_bind_l {S A B} (p : proc S A) (k : A -> proc S B) s s' :
  s' ∈ visited p s -> s' ∈ visited (proc_bind p k) s.
Proof.
  revert p s. fix IH 1. intros [a|f] s H; simpl in *.
  - clear IH. apply list_elem_of_singleton in H as ->. apply visited_refl.
  - apply elem_of_cons in H. destruct H as [E|H]; [clear IH; subst; left|]. right.
    destruct (f s) as [[s1 p']|]; [exact (IH p' s1 H) | clear IH; by apply elem_of_nil in H].
Qed.

Lemma visited_bind_r {S A B} (p : proc S A) (k : A -> proc S B) s a s1 s' :
  run p s = Some (a, s1) -> s' ∈ visited (k a) s1 -> s' ∈ visited (proc_bind p k) s.
Proof.
  revert p s. fix IH 1. intros [b|f] s Hr H; simpl in *.
  - clear IH. by injection Hr as -> ->.
  - right. destruct (f s) as [[s2 p']|]; [exact (IH p' s2 Hr H) | clear IH; done].
Qed.

Section Keeps.
Context {S : Type} (I : S -> Prop).

Lemma keeps_ret {A} (a : A) : keeps I (Ret a : proc S A).
Proof. done. Qed.

Lemma keeps_bind {A B} (p : proc S A) (k : A -> proc S B) :
  keeps I p -> (forall a, keeps I (k a)) -> keeps I (proc_bind p k).
Proof.
  intros Hp Hk. revert p Hp. fix IH 1.
  intros [a|f] Hp; simpl in *; [apply Hk|]. intros s Hs. specialize (Hp s Hs).
  destruct (f s) as [[s' p']|]; [|clear IH; done]. destruct Hp as [H1 Hp'].
  split; [exact H1 | exact (IH p' Hp')].
Qed.

Lemma keeps_act {A} (f : S -> A * S) : (forall s, I s -> I (f s).2) -> keeps I (act f).
Proof. intros H s Hs. specialize (H s Hs). by destruct (f s). Qed.

(** What an action returned is known in what follows. *)
Lemma keeps_act_bind {A B} (f : S -> A * S) (k : A -> proc S B) :
  (forall s, I s -> I (f s).2 /\ keeps I (k (f s).1)) -> keeps I (proc_bind (act f) k).
Proof. intros H s Hs. specialize (H s Hs). simpl. by destruct (f s). Qed.

Lemma keeps_await {A} (f : S -> option (A * S)) :
  (forall s a s', I s -> f s = Some (a, s') -> I s') -> keeps I (await f).
Proof. intros H s Hs. destruct (f s) as [[a s']|] eqn:E; [|done]. split; [by eapply H | done]. Qed.

Lemma keeps_modify (f : S -> S) : (forall s, I s -> I (f s)) -> keeps I (modify f).
Proof. intros H. by apply keeps_act. Qed.

Lemma keeps_gets {A} (f : S -> A) : keeps I (gets f).
Proof. by apply keeps_act. Qed.

Lemma keeps_if {A} (b : bool) (p q : proc S A) :
  keeps I p -> keeps I q -> keeps I (if b then p else q).
Proof. by destruct b. Qed.

(** A handler that keeps the invariant at every action keeps it when run alone. *)
Lemma keeps_run {A} (p : proc S A) s a s' :
  keeps I p -> I s -> run p s = Some (a, s') -> I s'.
Proof.
  revert p s. fix IH 1. intros [b|f] s Hp Hs; simpl in *; [clear IH; congruence|].
  specialize (Hp s Hs). destruct (f s) as [[s1 p']|]; [|clear IH; done].
  destruct Hp as [H1 Hp']. exact (IH p' s1 Hp' H1).
Qed.

(** A pool of such handlers keeps it under every interleaving. *)
Lemma keeps_pool spawn s ps s' ps' :
  (forall p, spawn p -> keeps I p) ->
  rtc (pool_step spawn) (s, ps) (s', ps') ->
  I s -> Forall (keeps I) ps -> I s' /\ Forall (keeps I) ps'.
Proof.
  intros Hsp Hr. remember (s, ps) as x eqn:Ex. remember (s', ps') as y eqn:Ey.
  revert s ps Ex. induction Hr as [z|x y z Hxy Hyz IH]; intros s ps ->.
  - by injection Ey as -> ->.
  - intros Hs Hps. inversion Hxy as [? ? i f s1 p1 Hi Hf E1 E2|? ? p Hp E1 E2]; subst.
    + pose proof (Forall_lookup_1 _ _ _ _ Hps Hi s Hs) as Hk. rewrite Hf in Hk.
      destruct Hk as [H1 H2]. eapply (IH eq_refl); [done | done|].
      by apply Forall_insert.
    + eapply (IH eq_refl); [done | done|]. apply Forall_app. auto.
Qed.
End Keeps.

(** A handler that waits for what the others never bring about waits for ever. *)
Lemma blocked_pool {S} (I : S -> Prop) spawn f s ps s' ps' :
  (forall s, I s -> f s = None) -> (forall p, spawn p -> keeps I p) ->
  rtc (pool_step spawn) (s, Act f :: ps) (s', ps') ->
  I s -> Forall (keeps I) ps -> I s' /\ exists ps1, ps' = Act f :: ps1.
Proof.
  intros Hf Hsp Hr HI Hps.
  assert (Hk : keeps I (Act f)) by (intros x Hx; by rewrite (Hf x Hx)).
  assert (HK : I s' /\ Forall (keeps I) ps') by (eapply keeps_pool; eauto).
  split; [apply HK|]. clear HK. remember (s, Act f :: ps) as x eqn:Ex. remember (s', ps') as y eqn:Ey.
  revert s ps Ex HI Hps. induction Hr as [z|x y z Hxy Hyz IH]; intros s ps -> HI Hps.
  { injection Ey as <- <-. eauto. }
  inversion Hxy as [? ? i g s1 p1 Hi Hg E1 E2|? ? p Hp E1 E2]; subst.
  - destruct i as [|i]; cbn in Hi; [injection Hi as <-; by rewrite Hf in Hg|].
    pose proof (Forall_lookup_1 _ _ _ _ Hps Hi s HI) as Hk'. rewrite Hg in Hk'. destruct Hk' as [H1 H2].
    eapply (IH eq_refl _ _ eq_refl); [done|]. by apply Forall_insert.
  - eapply (IH eq_refl _ _ eq_refl); [done|]. apply Forall_app. auto.
Qed.

Section Returns.
Context {S : Type} (I : S -> Prop).

Lemma returns_bind {A B} (R : A -> Prop) (Q : B -> Prop) (p : proc S A) (k : A -> proc S B) :
  returns I R p -> (forall a, R a -> returns I Q (k a)) -> returns I Q (proc_bind p k).
Proof.
  intros Hp Hk. revert p Hp. fix IH 1.
  intros [a|f] Hp; simpl in *; [exact (Hk a Hp)|]. intros s Hs. specialize (Hp s Hs).
  destruct (f s) as [[s' p']|]; [exact (IH p' Hp) | clear IH; done].
Qed.

Lemma returns_await {A} (Q : A -> Prop) (f : S -> option (A * S)) :
  (forall s a s', I s -> f s = Some (a, s') -> Q a) -> returns I Q (await f).
Proof. intros H s Hs. destruct (f s) as [[a s']|] eqn:E; [|done]. by eapply H. Qed.

(** What code on a part returns is known in what follows. *)
Lemma keeps_embed {P A B} (get : S -> P) (set : P -> S -> S) (Q : A -> Prop) (p : proc P A) (k : A -> proc S B) :
  (forall x s, I s -> I (set x s)) -> returns (fun _ => True) Q p -> (forall a, Q a -> keeps I (k a)) ->
  keeps I (proc_bind (embed get set p) k).
Proof.
  intros HI Hp Hk. revert p Hp. fix IH 1. intros [a|f] Hp; simpl in *; [exact (Hk a Hp)|].
  intros s Hs. specialize (Hp (get s) Logic.I).
  destruct (f (get s)) as [[x p']|]; [|clear IH; done].
  split; [exact (HI x s Hs) | exact (IH p' Hp)].
Qed.

Lemma returns_any {A} (p : proc S A) : returns I (fun _ => True) p.
Proof.
  revert p. fix IH 1. intros [a|f]; simpl; [clear IH; done|]. intros s _.
  destruct (f s) as [[s' p']|]; [exact (IH p') | clear IH; done].
Qed.
End Returns.

(** ** Two handlers, by rely and guarantee

    [guarded I R G Q p s]: started in [s], each action of [p] keeps [I] and
    changes the state only as [G] allows, provided everything that happens in
    between keeps [I] and changes the state only as [R] allows; when it returns
    [a] in [s'], [Q a s'] holds. *)

Section Guarded.
Context {S : Type} (I : S -> Prop) (R G : S -> S -> Prop).

Fixpoint guarded {A : Type} (Q : A -> S -> Prop) (p : proc S A) (s0 : S) : Prop :=
  match p with
  | Ret a => Q a s0
  | Act f =>
      forall s, R s0 s -> I s ->
        match f s with
        | Some (s', p') => I s' /\ G s s' /\ guarded Q p' s'
        | None => True
        end
  end.

Context `{!PreOrder R}.

Lemma guarded_bind {A B} (Q' : A -> S -> Prop) (Q : B -> S -> Prop) (p : proc S A)
    (k : A -> proc S B) s0 :
  guarded Q' p s0 -> (forall a s, Q' a s -> guarded Q (k a) s) -> guarded Q (proc_bind p k) s0.
Proof.
  intros Hp Hk. revert p s0 Hp. fix IH 1.
  intros [a|f] s0 Hp; simpl in *; [exact (Hk a s0 Hp)|]. intros s HR HI. specialize (Hp s HR HI).
  destruct (f s) as [[s' p']|]; [|clear IH; done]. destruct Hp as (H1 & H2 & H3).
  split; [exact H1|]. split; [exact H2 | exact (IH p' s' H3)].
Qed.

Lemma guarded_act {A} (Q : A -> S -> Prop) (f : S -> A * S) s0 :
  (forall s, R s0 s -> I s -> I (f s).2 /\ G s (f s).2 /\ Q (f s).1 (f s).2) ->
  guarded Q (act f) s0.
Proof. intros H s HR HI. specialize (H s HR HI). by destruct (f s). Qed.

Lemma guarded_weaken {A} (Q Q' : A -> S -> Prop) p s0 :
  guarded Q p s0 -> (forall a s, Q a s -> Q' a s) -> guarded Q' p s0.
Proof.
  intros Hp HQ. revert p s0 Hp. fix IH 1. intros [a|f] s0 Hp; simpl in *; [exact (HQ a s0 Hp)|].
  intros s HR HI. specialize (Hp s HR HI). destruct (f s) as [[s' p']|]; [|clear IH; done].
  destruct Hp as (H1 & H2 & H3). split; [exact H1|]. split; [exact H2 | exact (IH p' s' H3)].
Qed.

Lemma guarded_rely {A} (Q : A -> S -> Prop) p s0 s1 :
  (forall a s s', Q a s -> R s s' -> Q a s') -> R s0 s1 -> guarded Q p s0 -> guarded Q p s1.
Proof.
  intros HQ HR. destruct p as [a|f]; simpl; [intros; by eapply HQ|].
  intros Hp s HR'. apply Hp. by trans s1.
Qed.
End Guarded.

(** Every action of [p] changes the state only as [G] allows. *)
Fixpoint guarantees {S A : Type} (G : S -> S -> Prop) (p : proc S A) : Prop :=
  match p with
  | Ret _ => True
  | Act f => forall s, match f s with Some (s', p') => G s s' /\ guarantees G p' | None => True end
  end.

Lemma guarantees_bind {S A B} (G : S -> S -> Prop) (p : proc S A) (k : A -> proc S B) :
  guarantees G p -> (forall a, guarantees G (k a)) -> guarantees G (proc_bind p k).
Proof.
  intros Hp Hk. revert p Hp. fix IH 1. intros [a|f] Hp; simpl in *; [exact (Hk a)|]. intros s. specialize (Hp s).
  destruct (f s) as [[s' p']|]; [|clear IH; done]. destruct Hp as [H1 H2]. split; [exact H1|exact (IH p' H2)].
Qed.

Lemma guarantees_act {S A} (G : S -> S -> Prop) (f : S -> A * S) : (forall s, G s (f s).2) -> guarantees G (act f).
Proof. intros H s. specialize (H s). simpl. by destruct (f s). Qed.

Lemma guarantees_await {S A} (G : S -> S -> Prop) (f : S -> option (A * S)) :
  (forall s a s', f s = Some (a, s') -> G s s') -> guarantees G (await f).
Proof. intros H s. simpl. destruct (f s) as [[a s']|] eqn:E; [|done]. split; [by eapply H|done]. Qed.

(** One handler among any number of others that only do what it relies on. *)
Lemma guarded_pool {S} (I : S -> Prop) (R G : S -> S -> Prop) (Q : unit -> S -> Prop) `{!PreOrder R} spawn p ps s s' ps' :
  (forall a x y, Q a x -> R x y -> Q a y) -> (forall x y, R x y -> I x -> I y) -> (forall q, spawn q -> guarantees R q) ->
  I s -> guarded I R G Q p s -> Forall (guarantees R) ps ->
  rtc (pool_step spawn) (s, p :: ps) (s', ps') ->
  I s' /\ exists p' ps1, ps' = p' :: ps1 /\ guarded I R G Q p' s'.
Proof.
  intros HQ HR Hsp HI Hp Hps Hr. remember (s, p :: ps) as x eqn:Ex. remember (s', ps') as y eqn:Ey.
  revert s p ps Ex HI Hp Hps. induction Hr as [z|x y z Hxy Hyz IH]; intros s p ps -> HI Hp Hps.
  { injection Ey as <- <-. eauto. }
  inversion Hxy as [? ? i f s1 p1 Hi Hf E1 E2|? ? q Hq E1 E2]; subst.
  - destruct i as [|i]; cbn in Hi.
    + injection Hi as ->. specialize (Hp s ltac:(done) HI). rewrite Hf in Hp. destruct Hp as (H1 & _ & Hp).
      by eapply (IH eq_refl _ _ _ eq_refl).
    + pose proof (Forall_lookup_1 _ _ _ _ Hps Hi s) as Hg. rewrite Hf in Hg. destruct Hg as [H1 H2].
      eapply (IH eq_refl _ _ _ eq_refl); [by eapply HR|by eapply guarded_rely|]. by apply Forall_insert.
  - eapply (IH eq_refl _ _ _ eq_refl); [done|done|]. apply Forall_app. auto.
Qed.

(** ** One handler running alone

    [alone I Q p s]: run from [s] with nothing in between, every state [p]
    passes through satisfies [I], and it ends as [Q] says. *)

Definition alone {S A : Type} (I : S -> Prop) (Q : A -> S -> Prop) (p : proc S A) (s : S) : Prop :=
  guarded I eq (fun _ _ => True) Q p s.

Section Alone.
Context {S : Type} (I : S -> Prop).

Lemma alone_ret {A} (Q : A -> S -> Prop) a s : Q a s -> alone I Q (Ret a) s.
Proof. done. Qed.

Lemma alone_bind {A B} (R : A -> S -> Prop) (Q : B -> S -> Prop) (p : proc S A) (k : A -> proc S B) s :
  alone I R p s -> (forall a s', R a s' -> alone I Q (k a) s') -> alone I Q (proc_bind p k) s.
Proof. apply guarded_bind. Qed.

Lemma alone_act {A} (Q : A -> S -> Prop) (f : S -> A * S) s :
  I (f s).2 -> Q (f s).1 (f s).2 -> alone I Q (act f) s.
Proof. intros H1 H2. apply guarded_act. by intros ? <- _. Qed.

Lemma alone_weaken {A} (Q Q' : A -> S -> Prop) (p : proc S A) s :
  alone I Q p s -> (forall a s', Q a s' -> Q' a s') -> alone I Q' p s.
Proof. intros H HQ. eapply guarded_weaken; [exact H | exact HQ]. Qed.

(** A weaker invariant. *)
Lemma alone_mono (J : S -> Prop) {A} (Q : A -> S -> Prop) (p : proc S A) s :
  (forall x, J x -> I x) -> J s -> alone J Q p s -> alone I Q p s.
Proof.
  intros HJ. revert p s. fix IH 1. intros [a|f] s Hs Hp; simpl in *; [exact Hp|].
  intros s0 E _. specialize (Hp s0 E). assert (J s0) as H0 by (clear IH; congruence).
  specialize (Hp H0). destruct (f s0) as [[s1 p']|]; [|clear IH; done].
  destruct Hp as (H1 & H2 & H3). split; [exact (HJ s1 H1)|]. split; [exact H2 | exact (IH p' s1 H1 H3)].
Qed.

Lemma alone_sound {A} (Q : A -> S -> Prop) (p : proc S A) s :
  I s -> alone I Q p s ->
  Forall I (visited p s) /\ forall a s', run p s = Some (a, s') -> Q a s'.
Proof.
  revert p s. fix IH 1. intros [a|f] s Hs Hp; simpl in *.
  - clear IH. split; [by constructor|]. by intros ? ? [= <- <-].
  - specialize (Hp s eq_refl Hs). destruct (f s) as [[s1 p']|].
    + destruct Hp as (H1 & _ & H3). destruct (IH p' s1 H1 H3) as [H4 H5]. clear IH.
      split; [by constructor | exact H5].
    + clear IH. split; [by constructor | done].
Qed.
End Alone.

(** Two handlers each of which only does what the other relies on. *)
Lemma guarded_pair {S} (I : S -> Prop) (R1 G1 R2 G2 : S -> S -> Prop) (Q1 Q2 : unit -> S -> Prop)
    `{!PreOrder R1, !PreOrder R2} p q s s' ps' :
  (forall x y, G1 x y -> R2 x y) -> (forall x y, G2 x y -> R1 x y) ->
  (forall a x y, Q1 a x -> R1 x y -> Q1 a y) -> (forall a x y, Q2 a x -> R2 x y -> Q2 a y) ->
  I s -> guarded I R1 G1 Q1 p s -> guarded I R2 G2 Q2 q s ->
  rtc (pool_step (fun _ => False)) (s, [p; q]) (s', ps') ->
  I s' /\ exists p' q', ps' = [p'; q'] /\ guarded I R1 G1 Q1 p' s' /\ guarded I R2 G2 Q2 q' s'.
Proof.
  intros HG1 HG2 HQ1 HQ2 HI Hp Hq Hr.
  remember (s, [p; q]) as x eqn:Ex. remember (s', ps') as y eqn:Ey.
  revert s p q Ex HI Hp Hq. induction Hr as [z|x y z Hxy Hyz IH]; intros s p q -> HI Hp Hq.
  { injection Ey as <- <-. eauto 10. }
  inversion Hxy as [? ? i f s1 p1 Hi Hf E1 E2|? ? ? []]; subst.
  destruct i as [|[|i]]; cbn in Hi; [| |done]; injection Hi as ->; cbn in Hyz.
  - specialize (Hp s ltac:(done) HI). rewrite Hf in Hp. destruct Hp as (H1 & H2 & H3).
    eapply (IH eq_refl); [done | done | done|].
    eapply guarded_rely; [done | done | by apply HG1 | done].
  - specialize (Hq s ltac:(done) HI). rewrite Hf in Hq. destruct Hq as (H1 & H2 & H3).
    eapply (IH eq_refl); [done | done | | done].
    eapply guarded_rely; [done | done | by apply HG2 | done].
Qed.

#[export] Hint Resolve keeps_ret keeps_gets : sar.

(** Decompose a [keeps] goal along the program's structure. *)
Ltac keeps_step :=
  match goal with
  | |- keeps _ (Ret _) => apply keeps_ret
  | |- keeps _ (gets _) => apply keeps_gets
  | |- keeps _ (proc_bind _ _) => apply keeps_bind; [|intros ?]
  | |- keeps _ (if _ then _ else _) => apply keeps_if
  | |- keeps _ (match ?x with _ => _ end) => destruct x
  end.

(** Decompose a [total] goal along the program's structure. *)
Ltac total_step :=
  match goal with
  | |- total (Ret _) => apply total_ret
  | |- total (act _) => apply total_act
  | |- total (proc_bind _ _) => apply total_bind; [|intros ?]
  | |- total (match ?x with _ => _ end) => destruct x
  end.

#[global] Arguments act : simpl never.
#[global] Arguments await : simpl never.
