(* ===== verification/MuxStream.v ===== *)
(** * Streams of the multiplexer

    [src/internal/mux/stream.go]: the state of one stream and its critical
    sections (the code each method executes while it holds [Stream.mu]).  The
    methods themselves, which send frames between and after those sections, are
    in MuxSession.v. *)

From S2P Require Import Prelude GoErrors Proto.

(** The fields of [Stream] other than its session, mutex and condition
    variables. *)
Record Stream := mkStream {
  st_id : Z;                    (* uint32 *)
  st_buf : list byte;
  st_recvWindow : Z;            (* uint32 *)
  st_sendWindow : Z;            (* uint32 *)
  st_pendingCredit : Z;         (* uint32 *)
  st_openPayload : list byte;
  st_localClosed : bool;
  st_remoteClosed : bool;
  st_resetReason : reason;
  st_reset : bool
}.

#[global] Instance Stream_eq_dec : EqDecision Stream.
Proof. solve_decision. Defined.

Definition newStream (id window : Z) : Stream :=
  mkStream id [] window window 0 [] false false "" false.

(** Field updates. *)
Definition set_buf (b : list byte) (st : Stream) : Stream :=
  mkStream (st_id st) b (st_recvWindow st) (st_sendWindow st) (st_pendingCredit st)
    (st_openPayload st) (st_localClosed st) (st_remoteClosed st) (st_resetReason st) (st_reset st).

Definition set_recv (w : Z) (st : Stream) : Stream :=
  mkStream (st_id st) (st_buf st) w (st_sendWindow st) (st_pendingCredit st)
    (st_openPayload st) (st_localClosed st) (st_remoteClosed st) (st_resetReason st) (st_reset st).

Definition set_send (w : Z) (st : Stream) : Stream :=
  mkStream (st_id st) (st_buf st) (st_recvWindow st) w (st_pendingCredit st)
    (st_openPayload st) (st_localClosed st) (st_remoteClosed st) (st_resetReason st) (st_reset st).

Definition set_credit (c : Z) (st : Stream) : Stream :=
  mkStream (st_id st) (st_buf st) (st_recvWindow st) (st_sendWindow st) c
    (st_openPayload st) (st_localClosed st) (st_remoteClosed st) (st_resetReason st) (st_reset st).

Definition set_payload (b : list byte) (st : Stream) : Stream :=
  mkStream (st_id st) (st_buf st) (st_recvWindow st) (st_sendWindow st) (st_pendingCredit st)
    b (st_localClosed st) (st_remoteClosed st) (st_resetReason st) (st_reset st).

Definition set_closed (l r : bool) (st : Stream) : Stream :=
  mkStream (st_id st) (st_buf st) (st_recvWindow st) (st_sendWindow st) (st_pendingCredit st)
    (st_openPayload st) l r (st_resetReason st) (st_reset st).

Definition set_reset (r : reason) (st : Stream) : Stream :=
  mkStream (st_id st) (st_buf st) (st_recvWindow st) (st_sendWindow st) (st_pendingCredit st)
    (st_openPayload st) (st_localClosed st) (st_remoteClosed st) r true.

(** [Read], up to the point where it unlocks: it waits, fails, or takes bytes
    and the credit to return. *)
Inductive read_outcome :=
| ReadWait
| ReadFail (e : error)
| ReadTake (data : list byte) (credit : Z) (st : Stream).

Definition read_locked (creditThreshold : Z) (n : nat) (st : Stream) : read_outcome :=
  match st_buf st with
  | [] =>
      if st_reset st then ReadFail (wrap ErrStreamClosed (st_resetReason st))
      else if st_remoteClosed st then ReadFail (ESentinel IoEOF)
      else ReadWait
  | _ =>
      let data := take n (st_buf st) in
      let k := uwrap 32 (zlen data) in
      let st := set_buf (drop n (st_buf st)) st in
      let st := set_recv (uwrap 32 (st_recvWindow st + k)) st in
      let st := set_credit (uwrap 32 (st_pendingCredit st + k)) st in
      if st_pendingCredit st >=? creditThreshold
      then ReadTake data (st_pendingCredit st) (set_credit 0 st)
      else ReadTake data 0 st
  end.

(** One round of [Write]'s outer loop up to its unlock: it waits, fails, or
    reserves credit for the next [n] bytes of the [rem] that are left. *)
Inductive write_outcome :=
| WriteWait
| WriteFail (e : error)
| WriteChunk (n : Z) (st : Stream).

Definition write_locked (maxFrame : Z) (rem : Z) (st : Stream) : write_outcome :=
  if st_reset st then WriteFail (wrap ErrStreamClosed (st_resetReason st))
  else if st_localClosed st then WriteFail (ESentinel ErrStreamClosed)
  else if negb (st_sendWindow st >? 0) then WriteWait
  else
    let n := rem in
    let n := if uwrap 32 n >? st_sendWindow st then st_sendWindow st else n in
    let n := if uwrap 32 n >? maxFrame then maxFrame else n in
    WriteChunk n (set_send (uwrap 32 (st_sendWindow st - uwrap 32 n)) st).

(** [closeWith]'s critical section; [None]: nothing to do. *)
Definition close_locked (st : Stream) : option Stream :=
  if st_localClosed st || st_reset st then None
  else Some (set_closed true (st_remoteClosed st) st).

(** [Reset]'s critical section; [None]: nothing to do. *)
Definition reset_locked (r : reason) (st : Stream) : option Stream :=
  if st_reset st then None
  else Some (set_buf [] (set_closed true true (set_reset r st))).

Definition deliver (b : list byte) (st : Stream) : res Stream :=
  if st_reset st || st_remoteClosed st then Ok st
  else if uwrap 32 (zlen b) >? st_recvWindow st then
    Err (EMsg "peer sent bytes beyond the window remaining")
  else
    let st := set_recv (uwrap 32 (st_recvWindow st - uwrap 32 (zlen b))) st in
    Ok (set_buf (st_buf st ++ b) st).

Definition grantCredit (n : Z) (st : Stream) : Stream :=
  if st_sendWindow st >? max_u32 - n then set_send max_u32 st
  else set_send (uwrap 32 (st_sendWindow st + n)) st.

Definition remoteClose (r : reason) (st : Stream) : Stream :=
  if st_remoteClosed st || st_reset st then st
  else
    let st := set_closed (st_localClosed st) true st in
    if negb (bool_decide (r = ReasonOK)) && negb (bool_decide (r = ""))
    then set_buf [] (set_reset r st)
    else st.

Definition kill (r : reason) (st : Stream) : Stream :=
  if st_reset st then st else set_closed true true (set_reset r st).

Definition finished (st : Stream) : bool :=
  st_reset st || (st_localClosed st && st_remoteClosed st).

(** ** The invariant of a stream

    The bytes buffered and the window still granted to the peer never add up to
    more than the negotiated window, whatever the peer sends; every counter
    stays in its 32 bits. *)

Record stream_wf (window : Z) (st : Stream) : Prop := {
  wf_recv : 0 <= st_recvWindow st;
  wf_bound : st_recvWindow st + zlen (st_buf st) <= window;
  wf_send : 0 <= st_sendWindow st < 2 ^ 32;
  wf_credit : 0 <= st_pendingCredit st < 2 ^ 32;
  wf_reset : st_reset st = true -> st_remoteClosed st = true
}.

(** ** Lemmas *)

Section Invariant.
Context (window : Z) (Hw : 0 < window < 2 ^ 32).

Ltac wf_tac :=
  match goal with
  | H : stream_wf _ _ |- _ => destruct H
  end; split; cbn -[zlen] in *; rewrite ?zlen_nil; auto; try lia; try congruence.

Lemma newStream_wf id : stream_wf window (newStream id window).
Proof. split; cbn -[zlen]; rewrite ?zlen_nil; lia || congruence. Qed.

Lemma set_payload_wf b st : stream_wf window st -> stream_wf window (set_payload b st).
Proof. intros H. wf_tac. Qed.

Lemma read_locked_wf th n st data c st' :
  stream_wf window st -> read_locked th n st = ReadTake data c st' ->
  stream_wf window st' /\ 0 <= c < 2 ^ 32.
Proof.
  intros H. unfold read_locked. destruct (st_buf st) as [|b buf] eqn:E.
  { cases. }
  rewrite <- E. clear b buf E. set (buf := st_buf st). cbv zeta.
  assert (zlen (take n buf) + zlen (drop n buf) = zlen buf) as Hl
    by (rewrite <- zlen_app; f_equal; apply take_drop).
  pose proof (zlen_nonneg (take n buf)). pose proof (zlen_nonneg (drop n buf)).
  pose proof (wf_bound _ _ H) as Hb. pose proof (wf_recv _ _ H). fold buf in Hb.
  rewrite (uwrap_id 32 (zlen (take n buf))) by lia.
  assert (stream_wf window (set_credit (uwrap 32 (st_pendingCredit st + zlen (take n buf)))
    (set_recv (st_recvWindow st + zlen (take n buf)) (set_buf (drop n buf) st)))) as Hwf.
  { pose proof (uwrap_range 32 (st_pendingCredit st + zlen (take n buf))). wf_tac. }
  cbn [st_recvWindow set_buf]. rewrite (uwrap_id 32 (st_recvWindow st + _)) by lia. cbn [st_pendingCredit set_recv set_buf].
  pose proof (wf_credit _ _ Hwf) as Hc. cbn [st_pendingCredit set_credit] in *.
  destruct (_ >=? th); intros [= <- <- <-]; (split; [|lia]); [|done].
  destruct Hwf. split; cbn in *; auto; lia.
Qed.

Lemma write_locked_wf mf rem st n st' :
  stream_wf window st -> write_locked mf rem st = WriteChunk n st' -> stream_wf window st'.
Proof.
  intros H. unfold write_locked. destruct (st_reset st) eqn:?; [done|].
  destruct (st_localClosed st); [done|]. destruct (negb _); [done|]. cbv zeta.
  intros [= _ <-].
  match goal with |- context [uwrap 32 (?a - ?b)] => pose proof (uwrap_range 32 (a - b)) end.
  wf_tac.
Qed.

Lemma close_locked_wf st st' :
  stream_wf window st -> close_locked st = Some st' -> stream_wf window st'.
Proof. intros H. unfold close_locked. destruct (_ || _); [done|]. intros [= <-]. wf_tac. Qed.

Lemma reset_locked_wf r st st' :
  stream_wf window st -> reset_locked r st = Some st' -> stream_wf window st'.
Proof.
  intros H. unfold reset_locked. destruct (st_reset st); [done|]. intros [= <-].
  pose proof (zlen_nonneg (st_buf st)). wf_tac.
Qed.

Lemma deliver_wf b st st' :
  stream_wf window st -> zlen b < 2 ^ 32 -> deliver b st = Ok st' -> stream_wf window st'.
Proof.
  intros H Hb. unfold deliver. destruct (_ || _); [by intros [= <-]|].
  pose proof (zlen_nonneg b). rewrite (uwrap_id 32 (zlen b)) by lia.
  destruct (Z.gtb_spec (zlen b) (st_recvWindow st)); [done|]. intros [= <-].
  pose proof (wf_bound _ _ H). pose proof (zlen_nonneg (st_buf st)).
  rewrite (uwrap_id 32) by lia. destruct H; split; cbn -[zlen] in *; rewrite ?zlen_app; auto; lia.
Qed.

Lemma grantCredit_wf n st :
  0 <= n < 2 ^ 32 -> stream_wf window st -> stream_wf window (grantCredit n st).
Proof.
  intros Hn H. unfold grantCredit, max_u32.
  pose proof (uwrap_range 32 (st_sendWindow st + n)). destruct (_ >? _); wf_tac.
Qed.

Lemma remoteClose_wf r st : stream_wf window st -> stream_wf window (remoteClose r st).
Proof.
  intros H. pose proof (zlen_nonneg (st_buf st)).
  unfold remoteClose. destruct (_ || _); [done|]. cbv zeta. destruct (_ && _); wf_tac.
Qed.

Lemma kill_wf r st : stream_wf window st -> stream_wf window (kill r st).
Proof. intros H. unfold kill. destruct (st_reset st) eqn:?; [done|]. wf_tac. Qed.
End Invariant.

(** The critical sections leave the identifier alone. *)
Lemma read_locked_id th n st data c st' :
  read_locked th n st = ReadTake data c st' -> st_id st' = st_id st.
Proof.
  unfold read_locked. destruct (st_buf st); [cases|]. cbv zeta.
  destruct (_ >=? _); by intros [= _ _ <-].
Qed.

Lemma write_locked_id mf rem st n st' :
  write_locked mf rem st = WriteChunk n st' -> st_id st' = st_id st.
Proof. unfold write_locked. cases; by intros [= _ <-]. Qed.

Lemma close_locked_id st st' : close_locked st = Some st' -> st_id st' = st_id st.
Proof. unfold close_locked. destruct (_ || _); [done|]. by intros [= <-]. Qed.

Lemma reset_locked_id r st st' : reset_locked r st = Some st' -> st_id st' = st_id st.
Proof. unfold reset_locked. destruct (st_reset st); [done|]. by intros [= <-]. Qed.

Lemma deliver_id b st st' : deliver b st = Ok st' -> st_id st' = st_id st.
Proof. unfold deliver. destruct (_ || _); [|destruct (_ >? _); [done|]]; by intros [= <-]. Qed.

Lemma grantCredit_id n st : st_id (grantCredit n st) = st_id st.
Proof. unfold grantCredit. by destruct (_ >? _). Qed.

Lemma remoteClose_id r st : st_id (remoteClose r st) = st_id st.
Proof. unfold remoteClose. destruct (_ || _); [done|]. by destruct (_ && _). Qed.

Lemma kill_id r st : st_id (kill r st) = st_id st.
Proof. unfold kill. by destruct (st_reset st). Qed.

Lemma kill_reset r st : st_reset (kill r st) = true.
Proof. unfold kill. by destruct (st_reset st) eqn:?. Qed.

#[export] Hint Resolve newStream_wf set_payload_wf read_locked_wf write_locked_wf close_locked_wf
  reset_locked_wf deliver_wf grantCredit_wf remoteClose_wf kill_wf : sar.
#[export] Hint Resolve read_locked_id write_locked_id close_locked_id reset_locked_id deliver_id
  grantCredit_id remoteClose_id kill_id : sar.

(** ** Properties *)

(** Data is never truncated or reordered by a graceful end: [Read] returns
    end-of-file only when the peer has closed and nothing is left in the
    buffer, and otherwise hands out exactly the front of the buffer, at most as
    many bytes as asked for and at least one. *)
Theorem read_locked_spec th (n : nat) st :
  (0 < n)%nat ->
  match read_locked th n st with
  | ReadWait => st_buf st = [] /\ st_remoteClosed st = false /\ st_reset st = false
  | ReadFail e =>
      st_buf st = [] /\ (st_reset st = true \/ st_remoteClosed st = true)
      /\ (errors_Is e IoEOF = true <-> st_reset st = false)
  | ReadTake data credit st' =>
      data <> [] /\ (length data <= n)%nat /\ st_buf st = data ++ st_buf st'
  end.
Proof.
  intros Hn. unfold read_locked. destruct (st_buf st) as [|b buf].
  { destruct (st_reset st); [split_and!; auto; naive_solver|].
    destruct (st_remoteClosed st); split_and!; auto. done. }
  assert (take n (b :: buf) <> []) by (destruct n; [lia | done]).
  assert (length (take n (b :: buf)) <= n)%nat by (rewrite length_take; lia).
  cbv zeta. destruct (_ >=? _); split_and!; auto; symmetry; apply take_drop.
Qed.

Lemma read_locked_spec_witness :
  [x01; x02; x03] = [x01; x02] ++ [x03].
Proof.
  pose proof (read_locked_spec 10 2 (set_buf [x01; x02; x03] (newStream 1 8)) ltac:(lia)) as H.
  vm_compute in H. exact (proj2 (proj2 H)).
Defined.

(** Returned credit saturates: whatever a peer grants, the send window never
    wraps, never decreases and never exceeds 2^32 - 1. *)
Theorem grantCredit_saturates n st :
  0 <= n < 2 ^ 32 -> 0 <= st_sendWindow st < 2 ^ 32 ->
  st_sendWindow (grantCredit n st) = Z.min max_u32 (st_sendWindow st + n).
Proof.
  intros Hn Hs. unfold grantCredit, max_u32.
  destruct (Z.gtb_spec (st_sendWindow st) (2 ^ 32 - 1 - n)); cbn; [lia|].
  rewrite uwrap_id; lia.
Qed.

Lemma grantCredit_saturates_witness :
  st_sendWindow (grantCredit (2 ^ 32 - 1) (newStream 1 256)) = 2 ^ 32 - 1.
Proof. rewrite grantCredit_saturates; [reflexivity | lia | vm_compute; split; congruence]. Defined.
