(* ===== verification/MuxSession.v ===== *)
(** * Sessions of the multiplexer

    [src/internal/mux/session.go] and the methods of [stream.go] that send
    frames: many streams over one framed connection, shared by the read loop,
    the keepalive loop and any number of callers.

    Streams and acknowledgement channels are shared objects, so the session
    state holds a heap: [s_heap] maps addresses to streams and [s_chans] maps
    addresses to the one-slot channels of [Open].  [s_streams], [s_pending] and
    [s_acceptCh] hold addresses.  Every method is a [proc] (Proc.v) whose
    actions are its critical sections, its frame writes and its channel
    operations.  [conn.R.ReadFrame] is an input of [readLoop_iter]; the choice
    of a ready [select] branch and the outcome of a context are the [wake]
    argument of [Open] and [AcceptStream]. *)

From S2P Require Import Prelude GoErrors GoTime Proto Frame Handshake Proc MuxStream.

(** [sync.Once]: a second caller waits until the first has returned. *)
Inductive once := OnceNew | OnceRunning | OnceDone.

Record Session := mkSession {
  s_maxFrame : Z;                    (* uint32 *)
  s_window : Z;                      (* uint32 *)
  s_maxStreams : Z;                  (* uint32 *)
  s_creditThreshold : Z;             (* uint32 *)
  s_isClient : bool;
  s_streams : gmap Z nat;            (* map[uint32]*Stream *)
  s_nextID : Z;                      (* uint32 *)
  s_pending : gmap Z nat;            (* map[uint32]chan proto.Reason *)
  s_acceptCh : list nat;             (* chan *Stream, capacity s_maxStreams *)
  s_once : once;
  s_done : bool;                     (* done is closed *)
  s_err : option error;
  s_lastRecv : time;
  s_W : Writer;                      (* conn.W *)
  s_heap : gmap nat Stream;
  s_chans : gmap nat (option reason);
  s_fresh : nat                      (* next unused address *)
}.

Definition newSession (conn : Writer) (isClient : bool) (ack : HelloAck) (now : time) : Session :=
  let threshold := ack_InitialWindow ack / 2 in
  mkSession (ack_MaxFramePayload ack) (ack_InitialWindow ack) (ack_MaxStreams ack)
    (if threshold =? 0 then 1 else threshold) isClient ∅ (if isClient then 1 else 2) ∅ []
    OnceNew false None now conn ∅ ∅ O.

(** Field updates. *)
Definition with_tables (streams : gmap Z nat) (pending : gmap Z nat) (s : Session) : Session :=
  mkSession (s_maxFrame s) (s_window s) (s_maxStreams s) (s_creditThreshold s) (s_isClient s)
    streams (s_nextID s) pending (s_acceptCh s) (s_once s) (s_done s) (s_err s)
    (s_lastRecv s) (s_W s) (s_heap s) (s_chans s) (s_fresh s).

Definition with_heap (h : gmap nat Stream) (s : Session) : Session :=
  mkSession (s_maxFrame s) (s_window s) (s_maxStreams s) (s_creditThreshold s) (s_isClient s)
    (s_streams s) (s_nextID s) (s_pending s) (s_acceptCh s) (s_once s) (s_done s) (s_err s)
    (s_lastRecv s) (s_W s) h (s_chans s) (s_fresh s).

Definition with_chans (c : gmap nat (option reason)) (s : Session) : Session :=
  mkSession (s_maxFrame s) (s_window s) (s_maxStreams s) (s_creditThreshold s) (s_isClient s)
    (s_streams s) (s_nextID s) (s_pending s) (s_acceptCh s) (s_once s) (s_done s) (s_err s)
    (s_lastRecv s) (s_W s) (s_heap s) c (s_fresh s).

Definition with_accept (q : list nat) (s : Session) : Session :=
  mkSession (s_maxFrame s) (s_window s) (s_maxStreams s) (s_creditThreshold s) (s_isClient s)
    (s_streams s) (s_nextID s) (s_pending s) q (s_once s) (s_done s) (s_err s)
    (s_lastRecv s) (s_W s) (s_heap s) (s_chans s) (s_fresh s).

Definition with_end (o : once) (done : bool) (e : option error) (s : Session) : Session :=
  mkSession (s_maxFrame s) (s_window s) (s_maxStreams s) (s_creditThreshold s) (s_isClient s)
    (s_streams s) (s_nextID s) (s_pending s) (s_acceptCh s) o done e
    (s_lastRecv s) (s_W s) (s_heap s) (s_chans s) (s_fresh s).

Definition with_conn (t : time) (w : Writer) (s : Session) : Session :=
  mkSession (s_maxFrame s) (s_window s) (s_maxStreams s) (s_creditThreshold s) (s_isClient s)
    (s_streams s) (s_nextID s) (s_pending s) (s_acceptCh s) (s_once s) (s_done s) (s_err s)
    t w (s_heap s) (s_chans s) (s_fresh s).

Definition with_next (id : Z) (f : nat) (s : Session) : Session :=
  mkSession (s_maxFrame s) (s_window s) (s_maxStreams s) (s_creditThreshold s) (s_isClient s)
    (s_streams s) id (s_pending s) (s_acceptCh s) (s_once s) (s_done s) (s_err s)
    (s_lastRecv s) (s_W s) (s_heap s) (s_chans s) f.

Abbreviation M := (proc Session).

(** ** The connection *)

Definition conn_WriteFrame (t : ftype) (id : Z) (payload : list byte) : M (res unit) :=
  act (fun s => let '(r, w) := WriteFrame t id payload (s_W s) in
                (r, with_conn (s_lastRecv s) w s)).

Definition conn_WriteClose (id : Z) (r : reason) : M (res unit) :=
  act (fun s => let '(x, w) := WriteClose id r (s_W s) in
                (x, with_conn (s_lastRecv s) w s)).

Definition conn_WriteError (r : reason) : M (res unit) :=
  act (fun s => let '(x, w) := WriteError r (s_W s) in
                (x, with_conn (s_lastRecv s) w s)).

(** [conn.Close()]: nothing more can be written. *)
Definition conn_Close : M unit :=
  modify (fun s => with_conn (s_lastRecv s) (mkWriter (w_out (s_W s)) (Some O) (w_max (s_W s))) s).

(** ** Session state *)

Definition isClosed : M bool := gets s_done.

Definition Err_of (s : Session) : option error :=
  match s_err s with
  | None => if s_done s then Some (ESentinel ErrSessionClosed) else None
  | Some e => Some e
  end.

Definition Session_Err : M (option error) := gets Err_of.

Definition StreamCount : M Z := gets (fun s => Z.of_nat (size (s_streams s))).

Definition setErr (e : error) : M unit :=
  modify (fun s => match s_err s with
                   | None => with_end (s_once s) (s_done s) (Some e) s
                   | Some _ => s
                   end).

Definition lookup_stream (id : Z) : M (option nat) := gets (fun s => s_streams s !! id).

Definition retire (id : Z) : M unit :=
  modify (fun s => with_tables (delete id (s_streams s)) (delete id (s_pending s)) s).

Definition finished_at (p : nat) (s : Session) : bool :=
  match s_heap s !! p with Some st => finished st | None => false end.

Definition id_at (p : nat) (s : Session) : Z :=
  match s_heap s !! p with Some st => st_id st | None => 0 end.

Definition retireIfDone (p : nat) : M unit :=
  do x <- gets (fun s => (finished_at p s, id_at p s));
  if x.1 then retire x.2 else Ret tt.

(** A critical section of the stream at [p]. *)
Definition on_stream (p : nat) (f : Stream -> Stream) : M unit :=
  modify (fun s => with_heap (alter f p (s_heap s)) s).

(** A non-blocking send on a one-slot channel. *)
Definition chan_offer (c : nat) (r : reason) : M unit :=
  modify (fun s => match s_chans s !! c with
                   | Some None => with_chans (<[c := Some r]> (s_chans s)) s
                   | _ => s
                   end).

Definition completeOpen (id : Z) (r : reason) : M unit :=
  do ch <- act (fun s => match s_pending s !! id with
                     | Some c => (Some c, with_tables (s_streams s) (delete id (s_pending s)) s)
                     | None => (None, s)
                     end);
  match ch with
  | Some c => chan_offer c r
  | None => Ret tt
  end.

(** ** Ending a session *)

Fixpoint forM {A} (l : list A) (f : A -> M unit) : M unit :=
  match l with
  | [] => Ret tt
  | x :: l' => do _ <- f x; forM l' f
  end.

(** The part [Close] and [shutdown] share: empty the tables, kill the streams
    and answer the opens that were in them, close [done] and the connection.
    [sync.Once] is released when the closure returns. *)
Definition end_session (r : reason) : M unit :=
  do old <- act (fun s => ((s_streams s, s_pending s), with_tables ∅ ∅ s));
  do _ <- forM (map_to_list old.1).*2 (fun p => on_stream p (kill r));
  do _ <- forM (map_to_list old.2).*2 (fun c => chan_offer c r);
  do _ <- modify (fun s => with_end (s_once s) true (s_err s) s);
  do _ <- conn_Close;
  modify (fun s => with_end OnceDone (s_done s) (s_err s) s).

(** [closeOnce.Do(f)]. *)
Definition once_do (f : M unit) : M unit :=
  do first <- await (fun s => match s_once s with
                          | OnceNew => Some (true, with_end OnceRunning (s_done s) (s_err s) s)
                          | OnceRunning => None
                          | OnceDone => Some (false, s)
                          end);
  if (first : bool) then f else Ret tt.

Definition Session_Close (r : reason) : M unit :=
  once_do (
    do _ <- setErr (wrap ErrSessionClosed r);
    do _ <- conn_WriteError r;
    end_session r).

Definition shutdown (r : reason) : M unit := once_do (end_session r).

(** ** Frame-sending helpers *)

Definition opt_err (o : option error) : res unit :=
  match o with Some e => Err e | None => Ok tt end.

Definition sendData (id : Z) (b : list byte) : M (res unit) :=
  do closed <- isClosed;
  if (closed : bool) then (do e <- Session_Err; Ret (opt_err e))
  else conn_WriteFrame TypeStreamData id b.

Definition sendClose (id : Z) (r : reason) : M (res unit) :=
  do closed <- isClosed;
  if (closed : bool) then Ret (Ok tt) else conn_WriteClose id r.

Definition sendWindowUpdate (id credit : Z) : M (res unit) :=
  do closed <- isClosed;
  if (closed : bool) then (do e <- Session_Err; Ret (opt_err e))
  else conn_WriteFrame TypeStreamWindow id (EncodeWindow credit).

(** ** Stream methods *)

Definition Stream_Read (p : nat) (n : nat) : M (list byte * option error) :=
  if (n =? 0)%nat then Ret ([], None)
  else
    do r <- await (fun s =>
          match s_heap s !! p with
          | None => None
          | Some st =>
              match read_locked (s_creditThreshold s) n st with
              | ReadWait => None
              | ReadFail e => Some (inl e, s)
              | ReadTake data credit st' =>
                  Some (inr (st_id st, data, credit), with_heap (<[p := st']> (s_heap s)) s)
              end
          end);
    match r with
    | inl e => Ret ([], Some e)
    | inr (id, data, credit) =>
        if credit >? 0 then (do _ <- sendWindowUpdate id credit; Ret (data, None))
        else Ret (data, None)
    end.

(** [Write(b)] from offset [written]; [None] when [fuel] rounds were not
    enough, otherwise the count and the error. *)
Fixpoint Write_loop (fuel : nat) (p : nat) (b : list byte) (written : Z)
    : M (option (Z * option error)) :=
  if negb (written <? zlen b) then Ret (Some (written, None))
  else
    match fuel with
    | O => Ret None
    | S fuel' =>
        do r <- await (fun s =>
              match s_heap s !! p with
              | None => None
              | Some st =>
                  match write_locked (s_maxFrame s) (zlen b - written) st with
                  | WriteWait => None
                  | WriteFail e => Some (inl e, s)
                  | WriteChunk n st' =>
                      Some (inr (st_id st, n), with_heap (<[p := st']> (s_heap s)) s)
                  end
              end);
        match r with
        | inl e => Ret (Some (written, Some e))
        | inr (id, n) =>
            do x <- sendData id (take (Z.to_nat n) (drop (Z.to_nat written) b));
            match x with
            | Err e => Ret (Some (written, Some e))
            | Ok _ => Write_loop fuel' p b (written + n)
            end
        end
    end.

Definition Stream_Write (p : nat) (b : list byte) : M (option (Z * option error)) :=
  Write_loop (length b) p b 0.

Definition closeWith (p : nat) (r : reason) : M (res unit) :=
  do go <- act (fun s =>
         match s_heap s !! p with
         | None => (None, s)
         | Some st =>
             match close_locked st with
             | None => (None, s)
             | Some st' => (Some (st_id st), with_heap (<[p := st']> (s_heap s)) s)
             end
         end);
  match go with
  | None => Ret (Ok tt)
  | Some id =>
      do err <- sendClose id r;
      do _ <- retireIfDone p;
      Ret err
  end.

Definition Stream_Close (p : nat) : M (res unit) := closeWith p ReasonOK.

Definition Stream_Reset (p : nat) (r : reason) : M (res unit) :=
  do go <- act (fun s =>
         match s_heap s !! p with
         | None => (None, s)
         | Some st =>
             match reset_locked r st with
             | None => (None, s)
             | Some st' => (Some (st_id st), with_heap (<[p := st']> (s_heap s)) s)
             end
         end);
  match go with
  | None => Ret (Ok tt)
  | Some id =>
      do err <- sendClose id r;
      do _ <- retire id;
      Ret err
  end.

(** ** Opening and accepting *)

(** Which branch of a [select] is taken; the context's carries its error. *)
Inductive wake := WakeReady | WakeContext (e : error) | WakeDone.

Definition Open (payload : list byte) (w : wake) : M (res nat) :=
  do start <- act (fun s =>
    if s_done s then (Err (Err_of s), s)
    else if uwrap 32 (Z.of_nat (size (s_streams s))) >=? s_maxStreams s then
      (Err (Some (wrap ErrTooManyStreams "streams open")), s)
    else
      let id := s_nextID s in
      let p := s_fresh s in
      let c := S p in
      let s1 := with_next (uwrap 32 (id + 2)) (S c) s in
      let s2 := with_heap (<[p := newStream id (s_window s)]> (s_heap s)) s1 in
      let s3 := with_chans (<[c := None]> (s_chans s)) s2 in
      (Ok (id, p, c), with_tables (<[id := p]> (s_streams s)) (<[id := c]> (s_pending s)) s3));
  match start with
  | Err e => Ret (Err (default (ESentinel ErrSessionClosed) e))
  | Ok (id, p, c) =>
      do x <- conn_WriteFrame TypeOpenStream id payload;
      match x with
      | Err e => do _ <- retire id; Ret (Err (EWrap "send open_stream" e))
      | Ok _ =>
          match w with
          | WakeReady =>
              do r <- await (fun s => match s_chans s !! c with
                                  | Some (Some r) => Some (r, with_chans (<[c := None]> (s_chans s)) s)
                                  | _ => None
                                  end);
              if negb (bool_decide (r = ReasonOK)) then
                do _ <- retire id; Ret (Err (wrap ErrStreamRefused r))
              else Ret (Ok p)
          | WakeContext e => do _ <- retire id; Ret (Err e)
          | WakeDone =>
              do e <- await (fun s => if s_done s then Some (Err_of s, s) else None);
              Ret (Err (default (ESentinel ErrSessionClosed) e))
          end
      end
  end.

Definition AcceptStream (w : wake) : M (res nat) :=
  match w with
  | WakeReady =>
      do p <- await (fun s => match s_acceptCh s with
                          | p :: q => Some (p, with_accept q s)
                          | [] => None
                          end);
      Ret (Ok p)
  | WakeContext e => Ret (Err e)
  | WakeDone =>
      do e <- await (fun s => if s_done s then Some (Err_of s, s) else None);
      Ret (Err (default (ESentinel ErrSessionClosed) e))
  end.

(** ** Dispatch; a returned error is fatal to the session *)

Inductive open_decision := OpenFatal (e : error) | OpenRefuse | OpenTake (p : nat).

Definition handleOpen (id : Z) (payload : list byte) : M (option error) :=
  do d <- act (fun s =>
    match s_streams s !! id with
    | Some _ => (OpenFatal (wrap ErrMalformedFrame "peer reopened live stream"), s)
    | None =>
        if eqb (id mod 2 =? 1) (s_isClient s) then
          (OpenFatal (wrap ErrMalformedFrame "peer opened stream with the wrong parity"), s)
        else if uwrap 32 (Z.of_nat (size (s_streams s))) >=? s_maxStreams s then (OpenRefuse, s)
        else
          let p := s_fresh s in
          let st := newStream id (s_window s) in
          let st := if zlen payload >? 0 then set_payload payload st else st in
          let s1 := with_next (s_nextID s) (S p) s in
          let s2 := with_heap (<[p := st]> (s_heap s)) s1 in
          (OpenTake p, with_tables (<[id := p]> (s_streams s)) (s_pending s) s2)
    end);
  match d with
  | OpenFatal e => Ret (Some e)
  | OpenRefuse =>
      do x <- conn_WriteClose id ReasonLimitStreamsExceeded;
      Ret (match x with Ok _ => None | Err e => Some e end)
  | OpenTake p =>
      do x <- conn_WriteFrame TypeStreamOK id [];
      match x with
      | Err e => Ret (Some e)
      | Ok _ =>
          do queued <- act (fun s => if zlen (s_acceptCh s) <? s_maxStreams s
                                 then (true, with_accept (s_acceptCh s ++ [p]) s)
                                 else (false, s));
          if (queued : bool) then Ret None
          else
            do _ <- retire id;
            do y <- conn_WriteClose id ReasonLimitStreamsExceeded;
            Ret (match y with Ok _ => None | Err e => Some e end)
      end
  end.

Definition dispatch (f : Frame) : M (option error) :=
  let t := f_type f in
  if t =? TypeOpenStream then handleOpen (f_stream f) (f_payload f)
  else if t =? TypeStreamOK then
    do _ <- completeOpen (f_stream f) ReasonOK; Ret None
  else if t =? TypeStreamData then
    do o <- lookup_stream (f_stream f);
    match o with
    | None => Ret None
    | Some p =>
        do r <- act (fun s =>
              match s_heap s !! p with
              | None => (Ok tt, s)
              | Some st =>
                  match deliver (f_payload f) st with
                  | Ok st' => (Ok tt, with_heap (<[p := st']> (s_heap s)) s)
                  | Err e => (Err e, s)
                  end
              end);
        Ret (match r with Ok _ => None | Err e => Some (EFatal ReasonFlowControlViolation e) end)
    end
  else if t =? TypeStreamWindow then
    match DecodeWindow (f_payload f) with
    | Err e => Ret (Some e)
    | Ok credit =>
        do o <- lookup_stream (f_stream f);
        match o with
        | None => Ret None
        | Some p => do _ <- on_stream p (grantCredit credit); Ret None
        end
    end
  else if t =? TypeCloseStream then
    let r := string_of_bytes (f_payload f) in
    let r := if bool_decide (r = "") then ReasonOK else r in
    do _ <- completeOpen (f_stream f) r;
    do o <- lookup_stream (f_stream f);
    match o with
    | None => Ret None
    | Some p =>
        do _ <- on_stream p (remoteClose r);
        do _ <- retireIfDone p;
        Ret None
    end
  else if t =? TypePing then
    do x <- conn_WriteFrame TypePong 0 (f_payload f);
    Ret (match x with Ok _ => None | Err e => Some e end)
  else if t =? TypePong then Ret None
  else if t =? TypeError then
    let r := string_of_bytes (f_payload f) in
    do _ <- setErr (wrap ErrSessionClosed r);
    do _ <- shutdown r;
    Ret None
  else if (t =? TypeHello) || (t =? TypeHelloAck) || (t =? TypeAuth) || (t =? TypeAuthOK) then
    Ret (Some (wrap ErrMalformedFrame "after handshake"))
  else Ret (Some (wrap ErrMalformedFrame "unexpected")).

(** ** The loops *)

(** One iteration of [readLoop], on what [conn.R.ReadFrame] returned at [now];
    [true]: go on. *)
Definition readLoop_iter (inp : res Frame) (now : time) : M bool :=
  match inp with
  | Err e =>
      do _ <- setErr (if errors_Is e IoEOF then ESentinel ErrSessionClosed else e);
      do _ <- shutdown (ReasonFor (Some e));
      Ret false
  | Ok f =>
      do maxFrame <- act (fun s => (s_maxFrame s, with_conn now (s_W s) s));
      if uwrap 32 (zlen (f_payload f)) >? maxFrame then
        do _ <- setErr (wrap ErrFrameTooLarge "frame exceeds negotiated");
        do _ <- shutdown ReasonLimitFrameTooLarge;
        Ret false
      else
        do err <- dispatch f;
        match err with
        | Some e =>
            do _ <- setErr e;
            do _ <- shutdown (default ReasonProtocolMalformedFrame (errors_As_fatal e));
            Ret false
        | None => Ret true
        end
  end.

(** [readLoop] over the rest of a connection, at most [fuel] frames; the time
    of the receipt with [k] frames to go is [now k].  [false]: the loop is still
    running. *)
Fixpoint readLoop (fuel : nat) (r : Reader) (now : nat -> time) : M bool :=
  match fuel with
  | O => Ret false
  | S fuel' =>
      let '(inp, r') := ReadFrame r in
      do go <- readLoop_iter inp (now fuel);
      if (go : bool) then readLoop fuel' r' now else Ret true
  end.

(** One tick of [keepAliveLoop]; [true]: go on.  [keepAlive_interval] is the
    ticker's period. *)
Definition keepAlive_interval (interval idle : duration) : duration :=
  if interval <=? 0 then idle ÷ 3 else interval.

Definition keepAlive_tick (idle : duration) (now : time) : M bool :=
  do last <- gets s_lastRecv;
  if (idle >? 0) && (Sub now last >? idle) then
    do _ <- setErr (wrap ErrSessionClosed "nothing received");
    do _ <- Session_Close ReasonIdleTimeout;
    Ret false
  else
    do x <- conn_WriteFrame TypePing 0 [];
    match x with
    | Err e => do _ <- setErr e; do _ <- shutdown ReasonShutdown; Ret false
    | Ok _ => Ret true
    end.

(** ** The goroutines of a session

    What may run on a session at any moment: iterations of the read loop on any
    frame the decoder can return or any error, ticks of the keepalive loop, and
    every public method with any arguments, on any stream. *)

Definition ignore {A} (p : M A) : M unit := do _ <- p; Ret tt.

Inductive session_proc : M unit -> Prop :=
| sp_read f now : zlen (f_payload f) < 2 ^ 32 -> session_proc (ignore (readLoop_iter (Ok f) now))
| sp_read_err e now : session_proc (ignore (readLoop_iter (Err e) now))
| sp_tick idle now : session_proc (ignore (keepAlive_tick idle now))
| sp_open payload w : session_proc (ignore (Open payload w))
| sp_accept w : session_proc (ignore (AcceptStream w))
| sp_Read p n : session_proc (ignore (Stream_Read p n))
| sp_Write p b : session_proc (ignore (Stream_Write p b))
| sp_closeWith p r : session_proc (ignore (closeWith p r))
| sp_Reset p r : session_proc (ignore (Stream_Reset p r))
| sp_Close r : session_proc (Session_Close r).

(** ** The invariant of a session *)

Definition own_parity (s : Session) (id : Z) : bool := eqb (id mod 2 =? 1) (s_isClient s).

Record session_wf (W N F : Z) (s : Session) : Prop := {
  wf_cfg : s_window s = W /\ s_maxStreams s = N /\ s_maxFrame s = F;
  wf_frame : 0 < s_maxFrame s;
  wf_window : 0 < s_window s < 2 ^ 32;
  wf_limit : 0 < s_maxStreams s < 2 ^ 32;
  wf_streams : forall id p, s_streams s !! id = Some p ->
    exists st, s_heap s !! p = Some st /\ st_id st = id;
  wf_heap : forall p st, s_heap s !! p = Some st ->
    stream_wf (s_window s) st /\ (p < s_fresh s)%nat;
  wf_count : Z.of_nat (size (s_streams s)) <= s_maxStreams s;
  wf_pending : dom (s_pending s) ⊆ dom (s_streams s);
  wf_queue : zlen (s_acceptCh s) <= s_maxStreams s;
  wf_next : own_parity s (s_nextID s) = true
}.
Arguments wf_cfg {_ _ _} _ _.
Arguments wf_frame {_ _ _} _ _.
Arguments wf_window {_ _ _} _ _.
Arguments wf_limit {_ _ _} _ _.
Arguments wf_streams {_ _ _} _ _.
Arguments wf_heap {_ _ _} _ _.
Arguments wf_count {_ _ _} _ _.
Arguments wf_next {_ _ _} _ _.

(** Bytes buffered by the streams of the table. *)
Definition buffered (s : Session) : Z :=
  foldr Z.add 0 ((fun p => match s_heap s !! p with Some st => zlen (st_buf st) | None => 0 end)
                 <$> (map_to_list (s_streams s)).*2).

(** ** Lemmas: the invariant *)

Lemma newSession_wf w c ack now :
  0 < ack_InitialWindow ack < 2 ^ 32 -> 0 < ack_MaxStreams ack < 2 ^ 32 ->
  0 < ack_MaxFramePayload ack ->
  session_wf (ack_InitialWindow ack) (ack_MaxStreams ack) (ack_MaxFramePayload ack)
    (newSession w c ack now).
Proof.
  intros Hw Hm Hf. split; unfold newSession; cbn -[zlen]; try done.
  - rewrite map_size_empty. lia.
  - rewrite zlen_nil. lia.
  - by destruct c.
Qed.

Section Invariant.
Context (W N F : Z).
Ltac wf_split H := destruct H; split; cbn -[zlen] in *; auto.

Lemma with_conn_wf t w s : session_wf W N F s -> session_wf W N F (with_conn t w s).
Proof. intros H. wf_split H. Qed.

Lemma with_end_wf o d e s : session_wf W N F s -> session_wf W N F (with_end o d e s).
Proof. intros H. wf_split H. Qed.

Lemma with_chans_wf c s : session_wf W N F s -> session_wf W N F (with_chans c s).
Proof. intros H. wf_split H. Qed.

(** Replacing a stream by a well-formed one with the same identifier. *)
Lemma insert_stream_wf p st st' s :
  session_wf W N F s -> s_heap s !! p = Some st -> stream_wf (s_window s) st' ->
  st_id st' = st_id st -> session_wf W N F (with_heap (<[p := st']> (s_heap s)) s).
Proof.
  intros H Hp Hst Hid. pose proof (wf_heap _ H p st Hp) as [_ Hf].
  destruct H as [? ? ? ? Hs Hh ? ? ? ?]. split; cbn -[zlen]; auto.
  - intros id q Hq. destruct (Hs id q Hq) as (st1 & H1 & H2).
    destruct (decide (p = q)) as [->|Hne].
    + exists st'. rewrite lookup_insert_eq. naive_solver.
    + exists st1. by rewrite lookup_insert_ne.
  - intros q st1. destruct (decide (p = q)) as [->|Hne].
    + rewrite lookup_insert_eq. intros [= <-]. auto.
    + rewrite lookup_insert_ne by done. apply Hh.
Qed.

Lemma alter_stream_wf p f s :
  session_wf W N F s ->
  (forall st, s_heap s !! p = Some st ->
    stream_wf (s_window s) st -> stream_wf (s_window s) (f st) /\ st_id (f st) = st_id st) ->
  session_wf W N F (with_heap (alter f p (s_heap s)) s).
Proof.
  intros H Hf. destruct (s_heap s !! p) as [st|] eqn:E.
  - replace (alter f p (s_heap s)) with (<[p := f st]> (s_heap s)).
    + destruct (Hf st eq_refl (proj1 (wf_heap _ H p st E))). by eapply insert_stream_wf.
    + apply map_eq. intros q. destruct (decide (p = q)) as [->|].
      * by rewrite lookup_insert_eq, lookup_alter_eq, E.
      * by rewrite lookup_insert_ne, lookup_alter_ne.
  - replace (alter f p (s_heap s)) with (s_heap s); [by destruct s|].
    apply map_eq. intros q. destruct (decide (p = q)) as [->|].
    + by rewrite lookup_alter_eq, E.
    + by rewrite lookup_alter_ne.
Qed.

Lemma retire_wf id s :
  session_wf W N F s ->
  session_wf W N F (with_tables (delete id (s_streams s)) (delete id (s_pending s)) s).
Proof.
  intros H. destruct H as [? ? ? ? Hs ? Hc Hp ? ?]. split; cbn -[zlen]; auto.
  - intros i p [_ Hi]%lookup_delete_Some. by apply Hs.
  - pose proof (map_size_delete id (s_streams s)).
    destruct (s_streams s !! id); cbn in *; lia.
  - rewrite !dom_delete_L. set_solver.
Qed.

Lemma tables_sub_wf pend s :
  session_wf W N F s -> dom pend ⊆ dom (s_pending s) ->
  session_wf W N F (with_tables (s_streams s) pend s).
Proof. intros H ?. destruct H. split; cbn -[zlen]; auto. set_solver. Qed.

Lemma tables_empty_wf s : session_wf W N F s -> session_wf W N F (with_tables ∅ ∅ s).
Proof.
  intros H. destruct H. split; cbn -[zlen]; auto; try done.
  rewrite map_size_empty. lia.
Qed.

(** Registering a fresh stream under a fresh identifier. *)
Lemma register_wf id st nid fr pend s :
  session_wf W N F s -> st_id st = id -> stream_wf (s_window s) st ->
  Z.of_nat (size (s_streams s)) < s_maxStreams s ->
  (s_fresh s < fr)%nat -> own_parity s nid = true ->
  dom pend ⊆ dom (s_pending s) ∪ {[id]} ->
  session_wf W N F (with_tables (<[id := s_fresh s]> (s_streams s)) pend
    (with_heap (<[s_fresh s := st]> (s_heap s)) (with_next nid fr s))).
Proof.
  intros H Hid Hst Hc Hfr Hn Hp.
  assert (forall q st', s_heap s !! q = Some st' -> s_fresh s <> q) as Hne.
  { intros q st' Hq <-. destruct (wf_heap _ H _ _ Hq). lia. }
  destruct H as [? ? ? ? Hs Hh ? Hpd ? ?]. split; cbn -[zlen]; auto.
  - intros i p. destruct (decide (id = i)) as [->|Hi].
    + rewrite lookup_insert_eq. intros [= <-]. exists st. by rewrite lookup_insert_eq.
    + rewrite lookup_insert_ne by done. intros (st1 & H1 & H2)%Hs. exists st1.
      by rewrite lookup_insert_ne by eauto.
  - intros q st'. destruct (decide (s_fresh s = q)) as [<-|Hq].
    + rewrite lookup_insert_eq. intros [= <-]. auto.
    + rewrite lookup_insert_ne by done. intros [? ?]%Hh. split; [done | lia].
  - pose proof (map_size_insert id (s_fresh s) (s_streams s)).
    destruct (s_streams s !! id); cbn in *; lia.
  - rewrite dom_insert_L. set_solver.
Qed.
End Invariant.

#[export] Hint Resolve with_conn_wf with_end_wf with_chans_wf retire_wf tables_sub_wf
  tables_empty_wf : sar.

(** ** Lemmas: every handler keeps the invariant at every action *)

Section Keeps.
Context (W N F : Z).
Abbreviation wf := (session_wf W N F) (only parsing).

Lemma keeps_conn_WriteFrame t id b : keeps wf (conn_WriteFrame t id b).
Proof. apply keeps_act. intros s H. destruct (WriteFrame _ _ _ _). cbn. auto with sar. Qed.

Lemma keeps_conn_WriteClose id r : keeps wf (conn_WriteClose id r).
Proof. apply keeps_act. intros s H. destruct (WriteClose _ _ _). cbn. auto with sar. Qed.

Lemma keeps_conn_WriteError r : keeps wf (conn_WriteError r).
Proof. apply keeps_act. intros s H. destruct (WriteError _ _). cbn. auto with sar. Qed.

Lemma keeps_conn_Close : keeps wf conn_Close.
Proof. apply keeps_modify. auto with sar. Qed.

Lemma keeps_setErr e : keeps wf (setErr e).
Proof. apply keeps_modify. intros s H. destruct (s_err s); auto with sar. Qed.

Lemma keeps_retire id : keeps wf (retire id).
Proof. apply keeps_modify. auto with sar. Qed.

Lemma keeps_retireIfDone p : keeps wf (retireIfDone p).
Proof. unfold retireIfDone. repeat keeps_step. apply keeps_retire. Qed.

Lemma keeps_on_stream p f :
  (forall w st, 0 < w < 2 ^ 32 -> stream_wf w st -> stream_wf w (f st) /\ st_id (f st) = st_id st) ->
  keeps wf (on_stream p f).
Proof.
  intros Hf. apply keeps_modify. intros s H. apply alter_stream_wf; [done|].
  intros st _ Hst. apply Hf; [apply (wf_window _ H) | done].
Qed.

Lemma keeps_kill p r : keeps wf (on_stream p (kill r)).
Proof. apply keeps_on_stream. auto with sar. Qed.

Lemma keeps_chan_offer c r : keeps wf (chan_offer c r).
Proof. apply keeps_modify. intros s H. destruct (s_chans s !! c) as [[]|]; auto with sar. Qed.

Lemma keeps_completeOpen id r : keeps wf (completeOpen id r).
Proof.
  unfold completeOpen. apply keeps_bind.
  - apply keeps_act. intros s H. destruct (s_pending s !! id); cbn; [|done].
    apply tables_sub_wf; [done|]. rewrite dom_delete_L. set_solver.
  - intros [c|]; [apply keeps_chan_offer | done].
Qed.

Lemma keeps_forM {A} (l : list A) f : (forall x, keeps wf (f x)) -> keeps wf (forM l f).
Proof. intros Hf. induction l; cbn; [done|]. apply keeps_bind; auto. Qed.

Lemma keeps_end_session r : keeps wf (end_session r).
Proof.
  unfold end_session. apply keeps_bind; [apply keeps_act; cbn; auto with sar|]. intros old.
  repeat (apply keeps_bind; [|intros _]).
  - apply keeps_forM. intros. apply keeps_kill.
  - apply keeps_forM. intros. apply keeps_chan_offer.
  - apply keeps_modify. auto with sar.
  - apply keeps_conn_Close.
  - apply keeps_modify. auto with sar.
Qed.

Lemma keeps_once_do f : keeps wf f -> keeps wf (once_do f).
Proof.
  intros Hf. apply keeps_bind; [|intros []; done].
  apply keeps_await. intros s y s' H. destruct (s_once s); intros [= <- <-]; auto with sar.
Qed.

Lemma keeps_Close r : keeps wf (Session_Close r).
Proof.
  apply keeps_once_do. apply keeps_bind; [apply keeps_setErr | intros _].
  apply keeps_bind; [apply keeps_conn_WriteError | intros _]. apply keeps_end_session.
Qed.

Lemma keeps_shutdown r : keeps wf (shutdown r).
Proof. apply keeps_once_do, keeps_end_session. Qed.

#[local] Hint Resolve keeps_conn_WriteFrame keeps_conn_WriteClose keeps_conn_WriteError
  keeps_conn_Close keeps_setErr keeps_retire keeps_retireIfDone keeps_completeOpen
  keeps_Close keeps_shutdown : sar.

Ltac keeps_tac := repeat (keeps_step || solve [auto with sar]).

Lemma keeps_sendData id b : keeps wf (sendData id b).
Proof. unfold sendData, isClosed, Session_Err. keeps_tac. Qed.

Lemma keeps_sendClose id r : keeps wf (sendClose id r).
Proof. unfold sendClose, isClosed. keeps_tac. Qed.

Lemma keeps_sendWindowUpdate id c : keeps wf (sendWindowUpdate id c).
Proof. unfold sendWindowUpdate, isClosed, Session_Err. keeps_tac. Qed.

#[local] Hint Resolve keeps_sendData keeps_sendClose keeps_sendWindowUpdate : sar.

Lemma keeps_Read p n : keeps wf (Stream_Read p n).
Proof.
  unfold Stream_Read. apply keeps_if; [done|]. apply keeps_bind.
  - apply keeps_await. intros s y s' H.
    destruct (s_heap s !! p) as [st|] eqn:E; [|done].
    destruct (read_locked _ n st) as [|e|data c st'] eqn:R; [done | by intros [= _ <-] |].
    intros [= _ <-]. destruct (wf_heap _ H _ _ E) as [Hst _].
    pose proof (wf_window _ H).
    eapply insert_stream_wf; eauto with sar. eapply read_locked_wf; eauto.
  - intros [e|[[id data] c]]; [done|]. keeps_tac.
Qed.

Lemma keeps_Write_loop fuel p b written : keeps wf (Write_loop fuel p b written).
Proof.
  revert written. induction fuel as [|fuel IH]; intros written; cbn -[zlen].
  { apply keeps_if; done. }
  apply keeps_if; [done|]. apply keeps_bind.
  - apply keeps_await. intros s y s' H.
    destruct (s_heap s !! p) as [st|] eqn:E; [|done].
    destruct (write_locked _ _ st) as [|e|n st'] eqn:R; [done | by intros [= _ <-] |].
    intros [= _ <-]. destruct (wf_heap _ H _ _ E) as [Hst _].
    eapply insert_stream_wf; eauto with sar.
  - intros [e|[id n]]; [done|]. apply keeps_bind; [apply keeps_sendData|].
    intros [|]; [apply IH | done].
Qed.

Lemma keeps_closeWith p r : keeps wf (closeWith p r).
Proof.
  unfold closeWith. apply keeps_bind.
  - apply keeps_act. intros s H. destruct (s_heap s !! p) as [st|] eqn:E; [|done].
    destruct (close_locked st) as [st'|] eqn:R; [|done]. cbn.
    destruct (wf_heap _ H _ _ E) as [Hst _]. eapply insert_stream_wf; eauto with sar.
  - intros [id|]; keeps_tac.
Qed.

Lemma keeps_Reset p r : keeps wf (Stream_Reset p r).
Proof.
  unfold Stream_Reset. apply keeps_bind.
  - apply keeps_act. intros s H. destruct (s_heap s !! p) as [st|] eqn:E; [|done].
    destruct (reset_locked r st) as [st'|] eqn:R; [|done]. cbn.
    destruct (wf_heap _ H _ _ E) as [Hst _]. eapply insert_stream_wf; eauto with sar.
  - intros [id|]; keeps_tac.
Qed.

Lemma parity_step s id : own_parity s (uwrap 32 (id + 2)) = own_parity s id.
Proof.
  unfold own_parity, uwrap. f_equal. f_equal.
  replace (2 ^ 32) with (2 * 2 ^ 31) by done.
  rewrite Z.rem_mul_r by done. zlia.
Qed.

Lemma keeps_Open payload w : keeps wf (Open payload w).
Proof.
  unfold Open. apply keeps_bind.
  - apply keeps_act. intros s H. destruct (s_done s); [done|].
    pose proof (wf_limit _ H). pose proof (wf_count _ H).
    rewrite uwrap_id by lia.
    destruct (Z.geb_spec (Z.of_nat (size (s_streams s))) (s_maxStreams s)); [done|]. cbv zeta. cbn [snd].
    match goal with |- wf (with_tables ?a ?b (with_chans ?c ?x)) =>
      change (wf (with_chans c (with_tables a b x))) end.
    pose proof (wf_window _ H).
    apply with_chans_wf, register_wf; auto using newStream_wf.
    + by rewrite parity_step, (wf_next _ H).
    + rewrite dom_insert_L. set_solver.
  - intros [[[id p] c]|e]; [|done]. apply keeps_bind; [auto with sar|].
    intros [|]; [|keeps_tac]. destruct w; [| keeps_tac |].
    + apply keeps_bind; [|intros; keeps_tac]. apply keeps_await. intros s y s' H.
      destruct (s_chans s !! c) as [[|]|]; [|done|done]. intros [= _ <-]. auto with sar.
    + apply keeps_bind; [|intros; keeps_tac]. apply keeps_await. intros s y s' H.
      destruct (s_done s); [|done]. by intros [= _ <-].
Qed.

Lemma keeps_AcceptStream w : keeps wf (AcceptStream w).
Proof.
  destruct w; cbn [AcceptStream]; [| done |].
  - apply keeps_bind; [|done]. apply keeps_await. intros s y s' H.
    destruct (s_acceptCh s) as [|p q] eqn:E; [done|]. intros [= _ <-].
    destruct H as [? ? ? ? ? ? ? ? Hq ?]. rewrite E, zlen_cons in Hq.
    split; cbn -[zlen]; auto. lia.
  - apply keeps_bind; [|done]. apply keeps_await. intros s y s' H.
    destruct (s_done s); [|done]. by intros [= _ <-].
Qed.

Lemma keeps_handleOpen id payload : keeps wf (handleOpen id payload).
Proof.
  unfold handleOpen. apply keeps_bind.
  - apply keeps_act. intros s H. destruct (s_streams s !! id) eqn:E; [done|].
    destruct (eqb _ _) eqn:Ep; [done|].
    pose proof (wf_limit _ H). pose proof (wf_count _ H). pose proof (wf_window _ H).
    rewrite uwrap_id by lia.
    destruct (Z.geb_spec (Z.of_nat (size (s_streams s))) (s_maxStreams s)); [done|]. cbv zeta. cbn [snd].
    pose proof (wf_next _ H). apply register_wf; auto.
    + by destruct (_ >? 0).
    + destruct (_ >? 0); auto with sar.
    + set_solver.
  - intros [e| |p]; [keeps_tac | keeps_tac |]. apply keeps_bind; [auto with sar|].
    intros [|]; [|done]. apply keeps_bind; [|intros; keeps_tac].
    apply keeps_act. intros s H.
    destruct (Z.ltb_spec (zlen (s_acceptCh s)) (s_maxStreams s)); [|done].
    destruct H. split; cbn -[zlen]; auto. rewrite zlen_app, zlen_cons, zlen_nil. lia.
Qed.

#[local] Hint Resolve keeps_handleOpen : sar.

Lemma keeps_dispatch f : zlen (f_payload f) < 2 ^ 32 -> keeps wf (dispatch f).
Proof.
  intros Hf. unfold dispatch, lookup_stream. cbv zeta.
  apply keeps_if; [auto with sar|]. apply keeps_if; [keeps_tac|].
  apply keeps_if.
  { apply keeps_bind; [auto with sar|]. intros [p|]; [|done].
    apply keeps_bind; [|done]. apply keeps_act. intros s H.
    destruct (s_heap s !! p) as [st|] eqn:E; [|done].
    destruct (deliver (f_payload f) st) as [st'|] eqn:R; [|done].
    destruct (wf_heap _ H _ _ E) as [Hst _]. pose proof (wf_window _ H).
    eapply insert_stream_wf; eauto with sar. }
  apply keeps_if.
  { destruct (DecodeWindow (f_payload f)) as [c|e] eqn:E; [|done].
    apply DecodeWindow_iff in E. apply keeps_bind; [auto with sar|]. intros [p|]; [|done].
    apply keeps_bind; [|done]. apply keeps_on_stream. intros w st Hw Hst. split; [|auto with sar].
    apply grantCredit_wf; [lia|done]. }
  apply keeps_if; [|keeps_tac].
  apply keeps_bind; [auto with sar|]. intros _. apply keeps_bind; [auto with sar|].
  intros [p|]; [|done]. apply keeps_bind; [|intros; keeps_tac]. apply keeps_on_stream. auto with sar.
Qed.

Lemma keeps_readLoop_iter inp now :
  (forall f, inp = Ok f -> zlen (f_payload f) < 2 ^ 32) -> keeps wf (readLoop_iter inp now).
Proof.
  intros Hf. unfold readLoop_iter. destruct inp as [f|e]; [|keeps_tac].
  apply keeps_bind; [apply keeps_act; cbn; auto with sar|]. intros mf.
  apply keeps_if; [keeps_tac|]. apply keeps_bind; [by apply keeps_dispatch, Hf|].
  intros [e|]; keeps_tac.
Qed.

Lemma keeps_keepAlive_tick idle now : keeps wf (keepAlive_tick idle now).
Proof. unfold keepAlive_tick. keeps_tac. Qed.

Lemma keeps_ignore {A} (p : M A) : keeps wf p -> keeps wf (ignore p).
Proof. intros. by apply keeps_bind. Qed.

Lemma keeps_session_proc p : session_proc p -> keeps wf p.
Proof.
  destruct 1; try apply keeps_ignore; auto using keeps_keepAlive_tick, keeps_Open,
    keeps_AcceptStream, keeps_Read, keeps_closeWith, keeps_Reset, keeps_Close.
  - apply keeps_readLoop_iter. by intros ? [= <-].
  - by apply keeps_readLoop_iter.
  - apply keeps_Write_loop.
Qed.
End Keeps.

(** The invariant bounds what the table's streams buffer. *)
Lemma buffered_bound W N F s : session_wf W N F s -> buffered s <= s_maxStreams s * s_window s.
Proof.
  intros H.
  assert (Z.of_nat (length (map_to_list (s_streams s)).*2) <= s_maxStreams s) as Hl.
  { rewrite length_fmap, length_map_to_list. apply (wf_count _ H). }
  unfold buffered. pose proof (wf_window _ H).
  assert (forall l : list nat, foldr Z.add 0 ((fun p => match s_heap s !! p with
    Some st => zlen (st_buf st) | None => 0 end) <$> l) <= Z.of_nat (length l) * s_window s) as Hsum.
  { induction l as [|p l IH]; [done|]. rewrite fmap_cons. cbn [foldr]. rewrite length_cons.
    destruct (s_heap s !! p) as [st|] eqn:E; [|lia].
    destruct (wf_heap _ H _ _ E) as [[? ? _ _ _] _]. lia. }
  specialize (Hsum (map_to_list (s_streams s)).*2). nia.
Qed.

(** ** Lemmas: running the end of a session *)

(** Updating every address of a list with a function that is idempotent. *)
Lemma run_kills r l s :
  exists h, run (forM l (fun p => on_stream p (kill r))) s = Some (tt, with_heap h s)
  /\ forall p, h !! p = (if bool_decide (p ∈ l) then kill r <$> s_heap s !! p else s_heap s !! p).
Proof.
  revert s. induction l as [|q l IH]; intros s.
  { exists (s_heap s). split; [by destruct s | done]. }
  cbn [forM]. rewrite run_bind. unfold on_stream at 1. rewrite run_modify.
  destruct (IH (with_heap (alter (kill r) q (s_heap s)) s)) as (h & -> & Hh).
  exists h. split; [done|]. intros p. rewrite Hh. cbn.
  assert (forall st, kill r (kill r st) = kill r st) as Hidem.
  { intros st. unfold kill at 1. by rewrite kill_reset. }
  destruct (decide (p = q)) as [->|Hne].
  - rewrite lookup_alter_eq, (bool_decide_true (q ∈ q :: l)) by set_solver.
    destruct (bool_decide _); [|done]. destruct (s_heap s !! q); cbn; [by rewrite Hidem | done].
  - rewrite lookup_alter_ne by done. repeat case_bool_decide; set_solver.
Qed.

Lemma run_offers r l s :
  exists c, run (forM l (fun p => chan_offer p r)) s = Some (tt, with_chans c s)
  /\ forall p, p ∈ l -> s_chans s !! p = Some None -> c !! p = Some (Some r).
Proof.
  assert (forall l s, exists c, run (forM l (fun p => chan_offer p r)) s = Some (tt, with_chans c s)
    /\ (forall p, p ∈ l -> s_chans s !! p = Some None -> c !! p = Some (Some r))
    /\ (forall p x, s_chans s !! p = Some (Some x) -> c !! p = Some (Some x))) as Hg.
  { clear. induction l as [|q l IH]; intros s.
    { exists (s_chans s). split_and!; [by destruct s | set_solver | done]. }
    cbn [forM]. rewrite run_bind. unfold chan_offer at 1. rewrite run_modify.
    destruct (s_chans s !! q) as [[x|]|] eqn:Eq.
    - destruct (IH s) as (c & -> & H1 & H2). exists c. split_and!; auto.
      intros p [->|?]%elem_of_cons; [congruence | auto].
    - destruct (IH (with_chans (<[q := Some r]> (s_chans s)) s)) as (c & -> & H1 & H2).
      exists c. cbn in H1, H2. split_and!; [done | |].
      + intros p Hp Hn. destruct (decide (p = q)) as [->|Hne].
        * apply H2. by rewrite lookup_insert_eq.
        * apply H1; [set_solver|]. by rewrite lookup_insert_ne.
      + intros p x Hx. apply H2. rewrite lookup_insert_ne; congruence.
    - destruct (IH s) as (c & -> & H1 & H2). exists c. split_and!; auto.
      intros p [->|?]%elem_of_cons; [congruence | auto]. }
  destruct (Hg l s) as (c & ? & ? & _). eauto.
Qed.

(** What an ended session looks like, seen from the state [s] it ended in. *)
Record ended (r : reason) (s s' : Session) : Prop := {
  ended_done : s_done s' = true;
  ended_once : s_once s' = OnceDone;
  ended_streams : s_streams s' = ∅;
  ended_pending : s_pending s' = ∅;
  ended_killed : forall id p st, s_streams s !! id = Some p -> s_heap s !! p = Some st ->
    s_heap s' !! p = Some (kill r st);
  ended_others : forall p, (forall id, s_streams s !! id <> Some p) -> s_heap s' !! p = s_heap s !! p;
  ended_opens : forall id c, s_pending s !! id = Some c -> s_chans s !! c = Some None ->
    s_chans s' !! c = Some (Some r);
  ended_conn : w_room (s_W s') = Some O;
  ended_err : s_err s' = s_err s
}.

Lemma run_end_session r s : exists s', run (end_session r) s = Some (tt, s') /\ ended r s s'.
Proof.
  unfold end_session. rewrite run_bind, run_act. cbv beta iota. cbn [fst snd].
  rewrite run_bind. set (l := (map_to_list (s_streams s)).*2).
  set (s1 := with_tables ∅ ∅ s). destruct (run_kills r l s1) as (h & -> & Hh).
  rewrite run_bind.
  destruct (run_offers r (map_to_list (s_pending s)).*2 (with_heap h s1)) as (c & -> & Hc).
  eexists. split; [reflexivity|]. cbn in Hh, Hc.
  assert (forall p, p ∈ l <-> exists id, s_streams s !! id = Some p) as Hl.
  { intros p. unfold l. rewrite list_elem_of_fmap. split.
    - intros ([id q] & -> & Hq%elem_of_map_to_list). eauto.
    - intros (id & Hq%elem_of_map_to_list). by exists (id, p). }
  split; cbn; try done.
  - intros id p st Hid Hp. rewrite Hh, bool_decide_true by (rewrite Hl; eauto). by rewrite Hp.
  - intros p Hp. rewrite Hh, bool_decide_false; [done|]. rewrite Hl. naive_solver.
  - intros id ch Hid Hch. apply Hc; [|done]. rewrite list_elem_of_fmap.
    exists (id, ch). split; [done|]. by apply elem_of_map_to_list.
Qed.

Lemma run_shutdown r s :
  s_once s = OnceNew -> exists s', run (shutdown r) s = Some (tt, s') /\ ended r s s'.
Proof.
  intros Ho. unfold shutdown, once_do. rewrite run_bind, run_await, Ho.
  destruct (run_end_session r (with_end OnceRunning (s_done s) (s_err s) s)) as (s' & -> & He).
  exists s'. split; [done|]. by destruct He; split.
Qed.

Lemma run_once_done f s : s_once s = OnceDone -> run (once_do f) s = Some (tt, s).
Proof. intros Ho. unfold once_do. by rewrite run_bind, run_await, Ho. Qed.

(** ** Lemmas: writing *)

Lemma write_locked_chunk mf W rem st n st' :
  0 < mf -> 0 < rem < 2 ^ 32 -> stream_wf W st -> write_locked mf rem st = WriteChunk n st' ->
  0 < n <= rem /\ n <= mf /\ n <= st_sendWindow st /\ st' = set_send (st_sendWindow st - n) st.
Proof.
  intros Hmf Hrem Hst. pose proof (wf_send _ _ Hst) as Hs. unfold write_locked.
  destruct (st_reset st); [done|]. destruct (st_localClosed st); [done|].
  destruct (Z.gtb_spec (st_sendWindow st) 0); [|done]. cbn [negb]. cbv iota zeta.
  rewrite (uwrap_id 32 rem) by lia.
  set (n1 := if rem >? st_sendWindow st then st_sendWindow st else rem).
  assert (0 < n1 <= rem /\ n1 <= st_sendWindow st) as Hn1.
  { unfold n1. destruct (Z.gtb_spec rem (st_sendWindow st)); lia. }
  rewrite (uwrap_id 32 n1) by lia.
  set (n2 := if n1 >? mf then mf else n1).
  assert (0 < n2 <= n1 /\ n2 <= mf) as Hn2. { unfold n2. destruct (Z.gtb_spec n1 mf); lia. }
  rewrite (uwrap_id 32 n2), (uwrap_id 32) by lia. intros [= <- <-]. split_and!; [lia..|done].
Qed.

Lemma Write_loop_returns W N F fuel p b written :
  zlen b < 2 ^ 32 -> 0 <= written -> zlen b - written <= Z.of_nat fuel ->
  returns (session_wf W N F) (fun r => r <> None) (Write_loop fuel p b written).
Proof.
  intros Hb. revert written. induction fuel as [|fuel IH]; intros written Hw Hl; cbn -[zlen].
  { destruct (Z.ltb_spec written (zlen b)); [lia | done]. }
  destruct (Z.ltb_spec written (zlen b)) as [Hlt|]; [|done]. cbn [negb]. cbv iota.
  apply (returns_bind _ (fun x => match x with inl _ => True | inr y => 0 < y.2 end)).
  - apply returns_await. intros s y s' H.
    destruct (s_heap s !! p) as [st|] eqn:E; [|done].
    destruct (write_locked _ _ st) as [|e|n st'] eqn:R; [done | by intros [= <- _] |].
    intros [= <- _]. destruct (wf_heap _ H _ _ E) as [Hst _].
    apply (write_locked_chunk _ (s_window s)) in R; [cbn; lia | apply (wf_frame _ H) | lia | done].
  - intros [e|[id n]] Hn; cbn in Hn; [done|].
    apply (returns_bind _ (fun _ => True)); [apply returns_any|]. intros [|e] _; [|done].
    apply IH; lia.
Qed.

(** A frame written to a connection that does not fail. *)
Lemma WriteFrame_room t id b w :
  w_room w = None -> zlen b < 2 ^ 32 -> zlen b <= w_max w ->
  WriteFrame t id b w
  = (Ok tt, mkWriter (w_out w ++ frame_bytes (mkFrame t id b)) None (w_max w)).
Proof.
  intros Hr Hb Hm. pose proof (zlen_nonneg b).
  unfold WriteFrame, ConnWrite, frame_bytes. cbn [f_type f_stream f_payload].
  rewrite uwrap_id by lia. destruct (Z.gtb_spec (zlen b) (w_max w)); [lia|].
  rewrite Hr. cbn [w_room w_out w_max]. destruct (Z.gtb_spec (zlen b) 0).
  - by rewrite app_assoc.
  - assert (b = []) as -> by (apply zlen_zero; lia). by rewrite app_nil_r.
Qed.

(** The data frames [Write] emits for [b]. *)
Definition data_frames (id : Z) (chunks : list (list byte)) : list Frame :=
  mkFrame TypeStreamData id <$> chunks.

Record writable_now (W : Z) (p : nat) (st : Stream) (s : Session) : Prop := {
  wn_heap : s_heap s !! p = Some st;
  wn_open : st_reset st = false /\ st_localClosed st = false;
  wn_live : s_done s = false;
  wn_room : w_room (s_W s) = None;
  wn_frame : 0 < s_maxFrame s <= w_max (s_W s);
  wn_wf : stream_wf W st
}.

(** One round of the loop. *)
Lemma run_Write_round W fuel p b written st s :
  writable_now W p st s -> zlen b < 2 ^ 32 -> 0 <= written < zlen b -> 0 < st_sendWindow st ->
  exists n s', 0 < n <= zlen b - written /\ n <= st_sendWindow st /\ n <= s_maxFrame s
  /\ s_maxFrame s' = s_maxFrame s
  /\ writable_now W p (set_send (st_sendWindow st - n) st) s'
  /\ w_out (s_W s') = w_out (s_W s) ++ frame_bytes (mkFrame TypeStreamData (st_id st)
       (take (Z.to_nat n) (drop (Z.to_nat written) b)))
  /\ run (Write_loop (S fuel) p b written) s = run (Write_loop fuel p b (written + n)) s'.
Proof.
  intros [Hp [Hr Hl] Hd Hroom Hf Hwf] Hb Hwr Hsw.
  destruct (write_locked (s_maxFrame s) (zlen b - written) st) as [|e|n st'] eqn:R.
  - exfalso. unfold write_locked in R. rewrite Hr, Hl in R.
    destruct (Z.gtb_spec (st_sendWindow st) 0); [done | lia].
  - unfold write_locked in R. rewrite Hr, Hl in R. by destruct (negb _).
  - pose proof R as R'.
    apply (write_locked_chunk _ W) in R as (Hn & Hn1 & Hn2 & ->); [|lia..|done].
    set (chunk := take (Z.to_nat n) (drop (Z.to_nat written) b)).
    assert (zlen chunk = n) as Hc.
    { unfold chunk. rewrite zlen_take, zlen_drop. lia. }
    exists n. eexists. do 3 (split; [lia|]). split; [|split; [|split]]; cycle 3.
    + cbn [Write_loop]. destruct (Z.ltb_spec written (zlen b)); [|lia]. cbn [negb]. cbv iota.
      rewrite run_bind, run_await, Hp, R'. unfold sendData, isClosed. rewrite run_bind, run_bind, run_gets.
      cbn [s_done with_heap]. rewrite Hd. unfold conn_WriteFrame. rewrite run_act.
      cbn [s_W with_heap]. rewrite WriteFrame_room by (fold chunk; lia || done). reflexivity.
    + done.
    + split; cbn; auto; [by rewrite lookup_insert_eq|].
      destruct Hwf. split; cbn; auto. lia.
    + done.
Qed.

Lemma run_Write_loop W fuel p b written st s :
  writable_now W p st s -> zlen b < 2 ^ 32 -> 0 <= written <= zlen b ->
  zlen b - written <= Z.of_nat fuel -> zlen b - written <= st_sendWindow st ->
  exists chunks s',
    run (Write_loop fuel p b written) s = Some (Some (zlen b, None), s')
    /\ concat chunks = drop (Z.to_nat written) b
    /\ Forall (fun c => 0 < zlen c <= s_maxFrame s) chunks
    /\ w_out (s_W s') = w_out (s_W s) ++ concat (frame_bytes <$> data_frames (st_id st) chunks)
    /\ s_heap s' !! p = Some (set_send (st_sendWindow st - (zlen b - written)) st).
Proof.
  revert written st s. induction fuel as [|fuel IH]; intros written st s Hs Hb Hwr Hf Hc.
  all: destruct (decide (written = zlen b)) as [->|Hne].
  1, 3: exists [], s; replace (zlen b - zlen b) with 0 by lia; split_and!; cbn -[zlen];
    [ by rewrite Z.ltb_irrefl | by rewrite drop_ge by len | done | by rewrite app_nil_r
    | rewrite (wn_heap _ _ _ _ Hs); f_equal; destruct st; unfold set_send; cbn; f_equal; lia ].
  - lia.
  - destruct (run_Write_round W fuel p b written st s Hs Hb ltac:(lia) ltac:(lia))
      as (n & s1 & Hn & Hn1 & Hn2 & Hmf & Hs1 & Ho & ->).
    destruct (IH (written + n) _ s1 Hs1 Hb ltac:(lia) ltac:(lia) ltac:(cbn; lia))
      as (chunks & s' & -> & Hcat & Hall & Hout & Hheap).
    exists (take (Z.to_nat n) (drop (Z.to_nat written) b) :: chunks), s'. split_and!.
    + done.
    + cbn [concat]. rewrite Hcat, Z2Nat.inj_add, <- drop_drop by lia. apply take_drop.
    + constructor; [|by rewrite <- Hmf]. rewrite zlen_take, zlen_drop. lia.
    + unfold data_frames in *. rewrite Hout, Ho, fmap_cons. cbn [concat fmap list_fmap].
      by rewrite <- app_assoc.
    + rewrite Hheap. cbn. f_equal. unfold set_send. cbn. f_equal. lia.
Qed.

(** ** Properties *)


Definition demo_ack : HelloAck := mkHelloAck 1 4 8 2.

Definition demo_writer : Writer := mkWriter [] None 65536.

Definition demo_session : Session := newSession demo_writer true demo_ack 0.


(** [Write] cannot spin: with any number of other handlers running in
    between, it never needs more rounds than it has bytes to write (each round
    hands over at least one), so all it can ever wait for is credit. *)
Theorem Stream_Write_terminates W N F p b :
  zlen b < 2 ^ 32 ->
  returns (session_wf W N F) (fun r => r <> None) (Stream_Write p b).
Proof. intros Hb. apply Write_loop_returns; unfold zlen in *; lia. Qed.

Lemma Stream_Write_terminates_witness :
  returns (session_wf 8 2 4) (fun r => r <> None) (Stream_Write 0 [x01; x02]).
Proof. apply Stream_Write_terminates. reflexivity. Defined.

(** The read loop ends with its connection: every frame takes bytes from it, so
    the loop goes around at most once per byte and then returns, whatever the
    peer sent and whatever runs in between. *)
Theorem readLoop_ends (I : Session -> Prop) r now :
  returns I (fun ended => ended = true) (readLoop (S (length (r_in r))) r now).
Proof.
  assert (forall fuel r, (length (r_in r) < fuel)%nat ->
    returns I (fun ended => ended = true) (readLoop fuel r now)) as H; [|apply H; lia].
  clear r. induction fuel as [|fuel IH]; intros r Hr; [lia|]. cbn [readLoop].
  destruct (ReadFrame r) as [[f|e] r'] eqn:E.
  - apply ReadFrame_Ok_inv in E as (_ & Hin & _).
    assert (length (r_in r') < fuel)%nat as Hlt.
    { rewrite Hin in Hr. unfold frame_bytes in Hr.
      rewrite !length_app, length_encodeHeader in Hr. unfold HeaderSize in Hr. lia. }
    eapply returns_bind; [apply returns_any|]. intros [] _; [by apply IH | done].
  - eapply (returns_bind _ (fun go => go = false)); [|by intros ? ->].
    unfold readLoop_iter. eapply returns_bind; [apply returns_any|]. intros _ _.
    eapply returns_bind; [apply returns_any|]. by intros _ _.
Qed.

(** What [Write] puts on the wire: with enough credit it accepts every byte
    and emits data frames of that stream whose payloads are non-empty, within
    the negotiated frame size and concatenate to exactly the bytes written; the
    credit is reduced by exactly their number. *)
Theorem Stream_Write_frames W p b st s :
  writable_now W p st s -> zlen b < 2 ^ 32 -> zlen b <= st_sendWindow st ->
  exists chunks s',
    run (Stream_Write p b) s = Some (Some (zlen b, None), s')
    /\ concat chunks = b
    /\ Forall (fun c => 0 < zlen c <= s_maxFrame s) chunks
    /\ w_out (s_W s') = w_out (s_W s) ++ concat (frame_bytes <$> data_frames (st_id st) chunks)
    /\ s_heap s' !! p = Some (set_send (st_sendWindow st - zlen b) st).
Proof.
  intros Hs Hb Hc.
  destruct (run_Write_loop W (length b) p b 0 st s Hs Hb) as (chunks & s' & H);
    [len | len | len |].
  exists chunks, s'. by rewrite Z.sub_0_r in H.
Qed.

(** A session with one stream opened by this side. *)
Definition demo_open : Session :=
  match run (Open [] (WakeContext (ESentinel CtxCanceled))) demo_session with
  | Some (_, s) => s
  | None => demo_session
  end.

Lemma Stream_Write_frames_witness :
  exists chunks s',
    run (Stream_Write 0 [x01; x02; x03; x04; x05]) demo_open = Some (Some (5, None), s')
    /\ concat chunks = [x01; x02; x03; x04; x05]
    /\ Forall (fun c => 0 < zlen c <= 4) chunks
    /\ w_out (s_W s') = w_out (s_W demo_open) ++ concat (frame_bytes <$> data_frames 1 chunks)
    /\ s_heap s' !! 0%nat = Some (set_send 3 (newStream 1 8)).
Proof.
  apply (Stream_Write_frames 8 0 [x01; x02; x03; x04; x05] (newStream 1 8) demo_open);
    [| vm_compute; congruence | vm_compute; congruence].
  split; [reflexivity | split; reflexivity | reflexivity | reflexivity
         | vm_compute; split; congruence | apply newStream_wf; lia].
Defined.

(** Closing a session leaves nobody waiting: every stream of the table is
    reset (so its readers and writers return an error), every pending open is
    answered with the reason, the tables are empty, nothing more can be
    written, the session reports an error, and closing again, or an error on
    the read loop, changes nothing. *)
Theorem Session_Close_ends r s :
  s_once s = OnceNew -> s_err s = None ->
  exists s', run (Session_Close r) s = Some (tt, s')
    /\ s_done s' = true /\ s_streams s' = ∅ /\ s_pending s' = ∅
    /\ (forall id p st, s_streams s !! id = Some p -> s_heap s !! p = Some st ->
          s_heap s' !! p = Some (kill r st))
    /\ (forall id c, s_pending s !! id = Some c -> s_chans s !! c = Some None ->
          s_chans s' !! c = Some (Some r))
    /\ Err_of s' = Some (wrap ErrSessionClosed r)
    /\ (forall r2, run (Session_Close r2) s' = Some (tt, s') /\ run (shutdown r2) s' = Some (tt, s'))
    /\ (forall payload w, run (Open payload w) s' = Some (Err (wrap ErrSessionClosed r), s')).
Proof.
  intros Ho He. unfold Session_Close at 1, once_do. rewrite run_bind, run_await, Ho. cbv beta iota.
  unfold setErr. rewrite run_bind, run_modify. cbn [s_err with_end]. rewrite He. cbv iota.
  unfold conn_WriteError. rewrite run_bind, run_act. cbn [s_W with_end s_lastRecv].
  destruct (WriteError r (s_W s)) as [x w]. cbv beta iota.
  match goal with |- context [run (end_session r) ?s1] =>
    destruct (run_end_session r s1) as (s' & -> & [Hd Hon Hs Hp Hk Ho' Hc _ Herr]) end.
  exists s'. cbn in Hk, Hc, Herr.
  assert (Err_of s' = Some (wrap ErrSessionClosed r)) as HE by (unfold Err_of; by rewrite Herr).
  split_and!; auto.
  - intros r2. split; by apply run_once_done.
  - intros payload w'. unfold Open. rewrite run_bind, run_act, Hd, HE. done.
Qed.

Lemma Session_Close_ends_witness :
  exists s', run (Session_Close ReasonIdleTimeout) demo_session = Some (tt, s')
    /\ Err_of s' = Some (wrap ErrSessionClosed ReasonIdleTimeout).
Proof.
  destruct (Session_Close_ends ReasonIdleTimeout demo_session) as (s' & H1 & _ & _ & _ & _ & _ & H2 & _);
    [reflexivity | reflexivity | exists s'; split; assumption].
Defined.

(** Flow control is enforced: a data frame within the negotiated frame size
    that exceeds the window left to the peer ends the read loop and the
    session, with [flow_control_violation] as the reason every stream of the
    table is reset with; none of its bytes is buffered. *)
Theorem flow_control_violation_fatal f now p st s :
  f_type f = TypeStreamData -> s_streams s !! f_stream f = Some p -> s_heap s !! p = Some st ->
  st_reset st = false -> st_remoteClosed st = false ->
  zlen (f_payload f) < 2 ^ 32 -> st_recvWindow st < zlen (f_payload f) <= s_maxFrame s ->
  s_once s = OnceNew ->
  exists s', run (readLoop_iter (Ok f) now) s = Some (false, s')
    /\ s_done s' = true /\ s_streams s' = ∅
    /\ s_heap s' !! p = Some (kill ReasonFlowControlViolation st)
    /\ (forall id q st', s_streams s !! id = Some q -> s_heap s !! q = Some st' ->
          s_heap s' !! q = Some (kill ReasonFlowControlViolation st')).
Proof.
  intros Ht Hst Hp Hr Hrc Hb Hw Ho. pose proof (zlen_nonneg (f_payload f)).
  unfold readLoop_iter. rewrite run_bind, run_act. cbv beta iota.
  rewrite uwrap_id by lia. destruct (Z.gtb_spec (zlen (f_payload f)) (s_maxFrame s)); [lia|].
  unfold dispatch. rewrite Ht. cbn [Z.eqb TypeStreamData TypeOpenStream TypeStreamOK Pos.eqb]. cbv iota zeta.
  unfold lookup_stream. rewrite run_bind, run_bind, run_gets. cbn [s_streams with_conn]. rewrite Hst.
  rewrite run_bind, run_act. cbn [s_heap with_conn]. rewrite Hp.
  unfold deliver. rewrite Hr, Hrc, uwrap_id by lia. cbn [orb].
  destruct (Z.gtb_spec (zlen (f_payload f)) (st_recvWindow st)); [|lia]. cbn [run].
  rewrite run_bind. unfold setErr. rewrite run_modify, run_bind. cbn [errors_As_fatal default].
  set (s1 := match s_err _ with Some _ => _ | None => _ end).
  assert (s_once s1 = OnceNew /\ s_streams s1 = s_streams s /\ s_heap s1 = s_heap s) as (E1 & E2 & E3)
    by (unfold s1; cbn; by destruct (s_err s)).
  destruct (run_shutdown ReasonFlowControlViolation s1 E1) as (s' & Hrun & [Hd _ Hs _ Hk _ _ _ _]).
  cbn [default]. unfold errors_As_fatal, default, option_map, from_option, id. rewrite Hrun.
  exists s'. rewrite E2, E3 in Hk. split_and!; eauto.
Qed.

(** A session on which the peer has opened stream 2. *)
Definition demo_accepted : Session :=
  match run (readLoop_iter (Ok (mkFrame TypeOpenStream 2 [])) 1) demo_session with
  | Some (_, s) => s
  | None => demo_session
  end.

Lemma flow_control_violation_fatal_witness :
  exists s', run (readLoop_iter (Ok (mkFrame TypeStreamData 2 [x01; x02; x03; x04])) 2)
               (with_heap {[ 0%nat := set_recv 3 (newStream 2 8) ]} demo_accepted) = Some (false, s')
    /\ s_heap s' !! 0%nat = Some (kill ReasonFlowControlViolation (set_recv 3 (newStream 2 8))).
Proof.
  destruct (flow_control_violation_fatal (mkFrame TypeStreamData 2 [x01; x02; x03; x04]) 2 0
    (set_recv 3 (newStream 2 8)) (with_heap {[ 0%nat := set_recv 3 (newStream 2 8) ]} demo_accepted))
    as (s' & H1 & _ & _ & H2 & _);
    [reflexivity .. | vm_compute; split; congruence | reflexivity | exists s'; split; assumption].
Defined.

(** The handlers and the schedule of the race: [Close] runs until it has
    emptied the tables, the read loop then handles an open, [Close] finishes. *)
Definition race_procs : list (M unit) :=
  [ Session_Close ReasonIdleTimeout;
    ignore (readLoop_iter (Ok (mkFrame TypeOpenStream 2 [])) 1) ].

Definition race_schedule : list nat := [0; 0; 0; 0; 1; 1; 1; 1; 0; 0; 0]%nat.

(** Closing does not wait for the read loop: an open handled after [Close]
    has emptied the tables but before the connection is gone registers a stream
    that nobody kills.  In the state reached the session has ended, yet
    [AcceptStream] can still hand that stream out, its [Read] blocks, and
    neither closing again nor the read loop's own error handling will ever
    wake it. *)
Theorem close_race_orphans_stream :
  exists s ps p,
    rtc (pool_step session_proc) (demo_session, []) (s, ps)
    /\ s_done s = true
    /\ (exists s', run (AcceptStream WakeReady) s = Some (Ok p, s') /\ s_heap s' = s_heap s)
    /\ (forall n, n <> 0%nat -> run (Stream_Read p n) s = None)
    /\ (forall r, run (Session_Close r) s = Some (tt, s))
    /\ (forall e now, exists s', run (readLoop_iter (Err e) now) s = Some (false, s')
          /\ s_heap s' = s_heap s).
Proof.
  destruct (sched race_schedule demo_session race_procs) as [[s ps]|] eqn:E; [|by vm_compute in E].
  assert (rtc (pool_step session_proc) (demo_session, []) (s, ps)) as Hr.
  { trans (demo_session, race_procs); [|by apply (sched_steps _ race_schedule)].
    apply (spawn_steps _ demo_session race_procs []). by repeat constructor. }
  vm_compute in E. injection E as <- <-.
  eexists _, _, 0%nat. split; [exact Hr|]. split_and!.
  - done.
  - eexists. by split.
  - intros [|n] Hn; done.
  - intros r. by apply run_once_done.
  - intros e now. unfold readLoop_iter, setErr. rewrite run_bind, run_modify. cbv beta iota.
    rewrite run_bind. eexists. split; [|reflexivity].
    unfold shutdown. rewrite run_once_done by done. done.
Qed.
