(* ===== verification/FlowControl.v ===== *)
(** * Flow control between the two ends of a stream

    One direction of a stream: the sender's [Stream], the receiver's [Stream],
    the frames in flight between them and the credit in flight back.  Every
    step is one of the critical sections of MuxStream.v, executed by the writer,
    the reader, or the read loop of either session ([dispatch]).  The connection
    delivers frames in order; each direction may be arbitrarily slow. *)

From S2P Require Import Prelude GoErrors Proto Handshake Frame Proc MuxStream MuxSession.

(** What the sender puts on the wire for this stream. *)
Inductive msg := Data (b : list byte) | Fin.

Record Link := mkLink {
  l_a : Stream;               (* sending end *)
  l_b : Stream;               (* receiving end *)
  l_wire : list msg;          (* STREAM_DATA, CLOSE_STREAM in flight, oldest first *)
  l_back : list Z;            (* STREAM_WINDOW in flight, oldest first *)
  l_sent : list byte;         (* every byte Write has handed over *)
  l_got : list byte           (* every byte Read has returned *)
}.

Section Link.
Context (window maxFrame threshold : Z).

Definition link_init (id : Z) : Link :=
  mkLink (newStream id window) (newStream id window) [] [] [] [].

(** Steps that need neither the writer nor a new write: the network, the two
    read loops and the reader. *)
Inductive quiet_step : Link -> Link -> Prop :=
| quiet_deliver a b d b' wire back sent got :
    deliver d b = Ok b' ->
    quiet_step (mkLink a b (Data d :: wire) back sent got) (mkLink a b' wire back sent got)
| quiet_fin a b wire back sent got :
    quiet_step (mkLink a b (Fin :: wire) back sent got)
               (mkLink a (remoteClose ReasonOK b) wire back sent got)
| quiet_read a b n data credit b' wire back sent got :
    (0 < n)%nat -> read_locked threshold n b = ReadTake data credit b' ->
    quiet_step (mkLink a b wire back sent got)
      (mkLink a b' wire (if credit >? 0 then back ++ [credit] else back) sent (got ++ data))
| quiet_credit a b wire c back sent got :
    quiet_step (mkLink a b wire (c :: back) sent got) (mkLink (grantCredit c a) b wire back sent got).

Inductive link_step : Link -> Link -> Prop :=
| link_quiet l l' : quiet_step l l' -> link_step l l'
| link_write a b d n a' wire back sent got :
    0 < zlen d < 2 ^ 32 -> write_locked maxFrame (zlen d) a = WriteChunk n a' ->
    link_step (mkLink a b wire back sent got)
      (mkLink a' b (wire ++ [Data (take (Z.to_nat n) d)]) back (sent ++ take (Z.to_nat n) d) got)
| link_close a b a' wire back sent got :
    close_locked a = Some a' ->
    link_step (mkLink a b wire back sent got) (mkLink a' b (wire ++ [Fin]) back sent got).

Definition msg_bytes (m : msg) : list byte := match m with Data b => b | Fin => [] end.

Definition wire_bytes (w : list msg) : list byte := concat (msg_bytes <$> w).

Definition sum (l : list Z) : Z := foldr Z.add 0 l.

Record link_inv (l : Link) : Prop := {
  li_a : stream_wf window (l_a l);
  li_live : st_reset (l_a l) = false /\ st_reset (l_b l) = false;
  li_recv : st_recvWindow (l_b l) + zlen (st_buf (l_b l)) = window;
  li_credit : 0 <= st_pendingCredit (l_b l) < threshold;
  li_back : Forall (fun c => 0 < c) (l_back l);
  li_conserve : st_sendWindow (l_a l) + zlen (wire_bytes (l_wire l)) + zlen (st_buf (l_b l))
                + st_pendingCredit (l_b l) + sum (l_back l) = window;
  li_bytes : l_sent l = l_got l ++ st_buf (l_b l) ++ wire_bytes (l_wire l);
  li_wire : exists ds fin, l_wire l = (Data <$> ds) ++ (if fin : bool then [Fin] else [])
    /\ (fin = true -> st_localClosed (l_a l) = true)
    /\ (st_remoteClosed (l_b l) = true -> ds = [] /\ fin = false /\ st_localClosed (l_a l) = true)
    /\ (st_localClosed (l_a l) = true -> fin = true \/ st_remoteClosed (l_b l) = true)
}.

(** How many quiet steps there can be before the writer moves again. *)
Definition quiet_measure (l : Link) : nat :=
  length (l_wire l) + 2 * length (wire_bytes (l_wire l) ++ st_buf (l_b l)) + length (l_back l).

(** ** Lemmas *)

Context (Hw : 0 < window < 2 ^ 32) (Hf : 0 < maxFrame)
        (Ht : threshold = if window / 2 =? 0 then 1 else window / 2).

Lemma threshold_range : 0 < threshold <= window.
Proof. rewrite Ht. destruct (Z.eqb_spec (window / 2) 0); zlia. Qed.

Lemma wire_bytes_app w w' : wire_bytes (w ++ w') = wire_bytes w ++ wire_bytes w'.
Proof. unfold wire_bytes. by rewrite fmap_app, concat_app. Qed.

Lemma wire_bytes_cons m w : wire_bytes (m :: w) = msg_bytes m ++ wire_bytes w.
Proof. done. Qed.

Lemma sum_app l k : sum (l ++ k) = sum l + sum k.
Proof. unfold sum. induction l; cbn; lia. Qed.

Lemma sum_nonneg l : Forall (fun c => 0 < c) l -> 0 <= sum l.
Proof. unfold sum. induction 1; cbn; lia. Qed.

(** Reduce record projections only. *)
Ltac fields :=
  cbn [l_a l_b l_wire l_back l_sent l_got st_id st_buf st_recvWindow st_sendWindow st_pendingCredit
       st_localClosed st_remoteClosed st_reset set_buf set_recv set_send set_credit set_closed
       newStream link_init] in *.

Lemma grantCredit_exact c a :
  0 <= c -> 0 <= st_sendWindow a -> st_sendWindow a + c <= window ->
  grantCredit c a = set_send (st_sendWindow a + c) a.
Proof.
  intros. unfold grantCredit, max_u32.
  destruct (Z.gtb_spec (st_sendWindow a) (2 ^ 32 - 1 - c)); [lia|]. by rewrite uwrap_id by lia.
Qed.

Lemma link_init_inv id : link_inv (link_init id).
Proof.
  pose proof threshold_range. split; fields; change (wire_bytes []) with (@nil byte);
    rewrite ?zlen_nil; auto using newStream_wf; try (cbn; lia).
  exists [], false. naive_solver.
Qed.

(** What a successful read does, in plain arithmetic. *)
Lemma read_locked_take n b data c b' :
  st_recvWindow b + zlen (st_buf b) = window -> 0 <= st_recvWindow b ->
  0 <= st_pendingCredit b -> st_pendingCredit b + zlen (st_buf b) <= window ->
  read_locked threshold n b = ReadTake data c b' ->
  st_buf b = data ++ st_buf b'
  /\ st_recvWindow b' = st_recvWindow b + zlen data
  /\ 0 <= c /\ st_pendingCredit b' + c = st_pendingCredit b + zlen data
  /\ 0 <= st_pendingCredit b' < threshold
  /\ st_reset b' = st_reset b /\ st_remoteClosed b' = st_remoteClosed b.
Proof.
  intros Hr H0 Hp Hb. pose proof threshold_range as HT. unfold read_locked.
  destruct (st_buf b) as [|x buf] eqn:E; [cases|]. rewrite <- E in *. clear E x buf.
  assert (st_buf b = take n (st_buf b) ++ drop n (st_buf b)) as Hs by (symmetry; apply take_drop).
  assert (zlen (st_buf b) = zlen (take n (st_buf b)) + zlen (drop n (st_buf b))) as Hz
    by (by rewrite <- zlen_app, <- Hs).
  pose proof (zlen_nonneg (take n (st_buf b))). pose proof (zlen_nonneg (drop n (st_buf b))).
  cbv zeta. rewrite (uwrap_id 32 (zlen _)) by lia. cbn [st_recvWindow st_pendingCredit set_buf set_recv].
  rewrite !(uwrap_id 32) by (cbn; lia). cbn [st_pendingCredit set_credit set_buf set_recv].
  destruct (Z.geb_spec (st_pendingCredit b + zlen (take n (st_buf b))) threshold);
    intros [= <- <- <-]; cbn; split_and!; auto; lia.
Qed.

Lemma wire_split l m w :
  link_inv l -> l_wire l = m :: w -> st_remoteClosed (l_b l) = false.
Proof.
  intros [_ _ _ _ _ _ _ (ds & fin & E & _ & H2 & _)] Hm.
  destruct (st_remoteClosed (l_b l)); [|done]. destruct H2 as (-> & -> & _); [done|].
  rewrite Hm in E. done.
Qed.

(** A peer that follows the protocol is never accused of breaking it. *)
Lemma deliver_ok l d w :
  link_inv l -> l_wire l = Data d :: w ->
  deliver d (l_b l) = Ok (set_buf (st_buf (l_b l) ++ d)
                           (set_recv (st_recvWindow (l_b l) - zlen d) (l_b l))).
Proof.
  intros H Hm. pose proof (wire_split l _ _ H Hm) as Hrc.
  destruct H as [Ha [_ Hr] Hrecv Hcr Hback Hcons _ _]. rewrite Hm, wire_bytes_cons, zlen_app in Hcons.
  cbn [msg_bytes] in Hcons. pose proof (sum_nonneg _ Hback). pose proof (wf_send _ _ Ha).
  pose proof (zlen_nonneg d). pose proof (zlen_nonneg (wire_bytes w)).
  pose proof (zlen_nonneg (st_buf (l_b l))).
  unfold deliver. rewrite Hr, Hrc. cbn [orb]. rewrite !(uwrap_id 32 (zlen d)) by lia.
  destruct (Z.gtb_spec (zlen d) (st_recvWindow (l_b l))); [lia|].
  rewrite (uwrap_id 32) by lia. done.
Qed.

Lemma quiet_step_inv l l' : link_inv l -> quiet_step l l' -> link_inv l'.
Proof.
  intros H Hs. pose proof threshold_range as HT.
  destruct Hs as [a b d b' wire back sent got Hd | a b wire back sent got
                 | a b n data c b' wire back sent got Hn Hrd | a b wire c back sent got].
  - pose proof (deliver_ok _ d wire H eq_refl) as E. cbn [l_b] in E.
    rewrite E in Hd. injection Hd as <-.
    pose proof (wire_split _ _ _ H eq_refl) as Hrc.
    destruct H as [Ha Hl Hrecv Hcr Hback Hcons Hby (ds & fin & Ew & Hw1 & Hw2 & Hw3)]. fields.
    rewrite wire_bytes_cons in Hcons, Hby. rewrite zlen_app in Hcons. cbn [msg_bytes] in *.
    split; fields; rewrite ?zlen_app, <- ?app_assoc; auto; try lia.
    destruct ds as [|d' ds]; [by destruct fin|]. injection Ew as <- ->. exists ds, fin.
    split_and!; auto. rewrite Hrc. done.
  - pose proof (wire_split _ _ _ H eq_refl) as Hrc.
    destruct H as [Ha [Hl1 Hl2] Hrecv Hcr Hback Hcons Hby (ds & fin & Ew & Hw1 & Hw2 & Hw3)]. fields.
    unfold remoteClose. rewrite Hrc, Hl2. cbn [orb]. rewrite (bool_decide_true (ReasonOK = ReasonOK)) by done.
    cbn [negb andb]. destruct ds; [|done]. destruct fin; [|done]. injection Ew as ->.
    split; fields; auto. exists [], false. naive_solver.
  - destruct H as [Ha [Hl1 Hl2] Hrecv Hcr Hback Hcons Hby Hwr]. fields.
    pose proof (sum_nonneg _ Hback). pose proof (wf_send _ _ Ha).
    pose proof (zlen_nonneg (wire_bytes wire)). pose proof (zlen_nonneg (st_buf b)).
    destruct (read_locked_take n b data c b') as (E1 & E2 & E3 & E4 & E5 & E6 & E7); try lia; [done|].
    rewrite E1, zlen_app in *. split; fields; auto; try (rewrite ?E6, ?E7; auto; lia).
    + destruct (Z.gtb_spec c 0); [|done]. apply Forall_app. auto.
    + destruct (Z.gtb_spec c 0); rewrite ?sum_app; cbn [sum foldr]; lia.
    + rewrite Hby, <- !app_assoc. done.
  - destruct H as [Ha [Hl1 Hl2] Hrecv Hcr Hback Hcons Hby Hwr]. fields.
    inversion_clear Hback as [|? ? Hc Hb']. pose proof (sum_nonneg _ Hb'). pose proof (wf_send _ _ Ha).
    pose proof (zlen_nonneg (wire_bytes wire)). pose proof (zlen_nonneg (st_buf b)).
    change (sum (c :: back)) with (c + sum back) in Hcons.
    rewrite grantCredit_exact by lia. destruct Ha. split; fields; auto; [|lia]. split; fields; auto. lia.
Qed.

Lemma link_step_inv l l' : link_inv l -> link_step l l' -> link_inv l'.
Proof.
  intros H Hs. destruct Hs as [l l' Hq | a b d n a' wire back sent got Hd Hwr
                              | a b a' wire back sent got Hc].
  - by eapply quiet_step_inv.
  - destruct H as [Ha [Hl1 Hl2] Hrecv Hcr Hback Hcons Hby (ds & fin & Ew & Hw1 & Hw2 & Hw3)]. fields.
    assert (st_localClosed a = false) as Hlc.
    { unfold write_locked in Hwr. rewrite Hl1 in Hwr. by destruct (st_localClosed a). }
    apply (write_locked_chunk _ window) in Hwr as (Hn & _ & Hn2 & ->); auto.
    assert (zlen (take (Z.to_nat n) d) = n) as Hz by (rewrite zlen_take; lia).
    split; fields; rewrite ?wire_bytes_app; auto.
    + destruct Ha. split; fields; auto. lia.
    + change (wire_bytes [Data (take (Z.to_nat n) d)]) with (take (Z.to_nat n) d ++ []).
      rewrite app_nil_r, zlen_app. lia.
    + change (wire_bytes [Data (take (Z.to_nat n) d)]) with (take (Z.to_nat n) d ++ []).
      by rewrite app_nil_r, Hby, <- !app_assoc.
    + rewrite Hlc in *. destruct fin; [naive_solver|]. rewrite app_nil_r in Ew. subst wire.
      exists (ds ++ [take (Z.to_nat n) d]), false. rewrite fmap_app, app_nil_r.
      split_and!; try done. intros Hrc. by destruct (Hw2 Hrc) as (_ & _ & ?).
  - destruct H as [Ha [Hl1 Hl2] Hrecv Hcr Hback Hcons Hby (ds & fin & Ew & Hw1 & Hw2 & Hw3)]. fields.
    unfold close_locked in Hc. rewrite Hl1 in Hc.
    destruct (st_localClosed a) eqn:Hlc; [done|]. injection Hc as <-.
    split; fields; rewrite ?wire_bytes_app; change (wire_bytes [Fin]) with (@nil byte);
      rewrite ?app_nil_r; auto.
    + destruct Ha. split; fields; auto.
    + destruct fin; [naive_solver|]. rewrite app_nil_r in Ew. subst wire.
      exists ds, true. split_and!; auto. intros Hrc. by destruct (Hw2 Hrc) as (_ & _ & ?).
Qed.

Lemma reachable_inv id l : rtc link_step (link_init id) l -> link_inv l.
Proof.
  intros Hr. remember (link_init id) as l0 eqn:E.
  assert (link_inv l0) as H by (subst; apply link_init_inv). clear E.
  induction Hr; eauto using link_step_inv.
Qed.

Lemma quiet_measure_lt l l' :
  link_inv l -> quiet_step l l' -> (quiet_measure l' < quiet_measure l)%nat.
Proof.
  intros H Hs. destruct Hs as [a b d b' wire back sent got Hd | a b wire back sent got
                 | a b n data c b' wire back sent got Hn Hrd | a b wire c back sent got];
    unfold quiet_measure.
  - pose proof (deliver_ok _ d wire H eq_refl) as E. cbn [l_b] in E. rewrite E in Hd. injection Hd as <-.
    fields. rewrite wire_bytes_cons. cbn [msg_bytes length]. rewrite !length_app. lia.
  - fields. rewrite wire_bytes_cons. cbn [msg_bytes length app].
    assert (length (st_buf (remoteClose ReasonOK b)) <= length (st_buf b))%nat
      by (unfold remoteClose; destruct (_ || _); [lia|]; cbv zeta; destruct (_ && _); cbn; lia).
    rewrite !length_app. lia.
  - assert (data <> [] /\ st_buf b = data ++ st_buf b') as [Hne E].
    { unfold read_locked in Hrd. destruct (st_buf b) as [|x buf] eqn:E; [by cases|].
      cbv zeta in Hrd. rewrite <- (take_drop n (x :: buf)) at 1.
      destruct (_ >=? _) in Hrd; injection Hrd as <- _ <-; cbn [st_buf set_buf set_recv set_credit];
        (split; [destruct n; [lia | done] | done]). }
    fields. rewrite E, !length_app.
    assert (0 < length data)%nat by (destruct data; [done | cbn; lia]).
    destruct (c >? 0); rewrite ?length_app; cbn [length]; lia.
  - fields. cbn [length]. lia.
Qed.

(** ** Properties *)

(** Credit is neither created nor lost: in every state the two ends can
    reach, the sender's credit, the bytes in flight, the bytes buffered, the
    consumed bytes not yet returned and the credit in flight add up to the
    negotiated window; and what was written is what was read, then what is
    buffered, then what is in flight, in order. *)
Theorem link_conservation id l :
  rtc link_step (link_init id) l ->
  st_sendWindow (l_a l) + zlen (wire_bytes (l_wire l)) + zlen (st_buf (l_b l))
    + st_pendingCredit (l_b l) + sum (l_back l) = window
  /\ l_sent l = l_got l ++ st_buf (l_b l) ++ wire_bytes (l_wire l).
Proof. intros H%reachable_inv. split; [apply (li_conserve _ H) | apply (li_bytes _ H)]. Qed.

(** C16.  A peer that follows the protocol is never cut off for breaking it:
    whatever the timing, a data frame in flight fits the receiver's window. *)
Theorem link_no_violation id l d w :
  rtc link_step (link_init id) l -> l_wire l = Data d :: w ->
  exists b', deliver d (l_b l) = Ok b'.
Proof. intros H%reachable_inv Hw1. eexists. by eapply deliver_ok. Qed.

(** C17.  No deadlock: from any reachable state, the network, the read loops and
    the reader can only take a bounded number of steps on their own, and when
    none of them can move, the writer has credit again.  A blocked writer is
    therefore always unblocked by a peer that keeps reading. *)
Theorem link_no_deadlock id l :
  rtc link_step (link_init id) l ->
  (forall n l', nsteps quiet_step n l l' -> (n <= quiet_measure l)%nat)
  /\ ((forall l', ~ quiet_step l l') -> 0 < st_sendWindow (l_a l)).
Proof.
  intros H%reachable_inv. split.
  - intros n l' Hn. revert H. induction Hn as [|n x y z Hxy Hyz IH]; intros H; [lia|].
    pose proof (quiet_measure_lt _ _ H Hxy). specialize (IH (quiet_step_inv _ _ H Hxy)). lia.
  - intros Hq. destruct l as [a b wire back sent got].
    pose proof threshold_range as HT.
    destruct wire as [|[d|] wire].
    2: { edestruct Hq. apply quiet_deliver. by eapply (deliver_ok _ _ _ H). }
    2: { edestruct Hq. apply quiet_fin. }
    destruct back as [|c back]; [|edestruct Hq; apply quiet_credit].
    destruct (st_buf b) as [|x buf] eqn:Eb.
    + destruct H as [_ _ _ Hcr _ Hcons _ _]. fields. rewrite Eb in Hcons.
      change (wire_bytes []) with (@nil byte) in Hcons. rewrite !zlen_nil in Hcons.
      cbn [sum foldr] in Hcons. assert (threshold <= window / 2 \/ threshold = 1) as [|] by
        (rewrite Ht; destruct (_ =? _); auto; left; lia); [zlia | lia].
    + exfalso. destruct (read_locked threshold 1 b) as [|e|data c b'] eqn:R.
      1, 2: unfold read_locked in R; rewrite Eb in R; cbv zeta in R; by destruct (_ >=? _).
      eapply Hq, (quiet_read a b 1); [lia | exact R].
Qed.

(** End of file means everything: when the reader is told end-of-file, the
    writer has closed and the bytes read are exactly the bytes written. *)
Theorem link_eof id l n :
  rtc link_step (link_init id) l ->
  read_locked threshold n (l_b l) = ReadFail (ESentinel IoEOF) ->
  l_got l = l_sent l /\ st_localClosed (l_a l) = true.
Proof.
  intros [_ [_ Hl] _ _ _ _ Hby (ds & fin & Ew & _ & H2 & _)]%reachable_inv R.
  unfold read_locked in R. destruct (st_buf (l_b l)) as [|x buf] eqn:Eb.
  - rewrite Hl in R. destruct (st_remoteClosed (l_b l)); [|done].
    destruct H2 as (-> & -> & ?); [done|]. rewrite Ew in Hby. cbn in Hby.
    by rewrite app_nil_r in Hby.
  - cbv zeta in R. by destruct (_ >=? _).
Qed.
End Link.

(** ** Witnesses: a window of 8 bytes, frames of 4 *)

(** The link after one write of two bytes, and after a close seen by both. *)
Definition demo_written : Link :=
  mkLink (set_send 6 (newStream 1 8)) (newStream 1 8) [Data [x01; x02]] [] [x01; x02] [].

Definition demo_closed : Link :=
  mkLink (set_closed true false (newStream 1 8)) (set_closed false true (newStream 1 8)) [] [] [] [].

Lemma demo_written_reachable : rtc (link_step 4 4) (link_init 8 1) demo_written.
Proof.
  apply rtc_once. apply (link_write 4 4 (newStream 1 8) (newStream 1 8) [x01; x02] 2);
    [split; reflexivity | reflexivity].
Qed.

Lemma demo_closed_reachable : rtc (link_step 4 4) (link_init 8 1) demo_closed.
Proof.
  eapply rtc_l; [by apply (link_close 4 4)|].
  apply rtc_once, link_quiet, (quiet_fin 4 _ (newStream 1 8)).
Qed.

Lemma link_conservation_witness :
  st_sendWindow (l_a demo_written) + zlen (wire_bytes (l_wire demo_written))
    + zlen (st_buf (l_b demo_written)) + st_pendingCredit (l_b demo_written)
    + sum (l_back demo_written) = 8
  /\ l_sent demo_written
     = l_got demo_written ++ st_buf (l_b demo_written) ++ wire_bytes (l_wire demo_written).
Proof.
  apply (link_conservation 8 4 4 ltac:(lia) ltac:(lia) eq_refl 1), demo_written_reachable.
Defined.

Lemma link_no_violation_witness : exists b', deliver [x01; x02] (newStream 1 8) = Ok b'.
Proof.
  apply (link_no_violation 8 4 4 ltac:(lia) ltac:(lia) eq_refl 1 demo_written [x01; x02] []);
    [apply demo_written_reachable | reflexivity].
Defined.

Lemma link_no_deadlock_witness :
  (forall n l', nsteps (quiet_step 4) n demo_written l' -> (n <= 5)%nat)
  /\ 0 < st_sendWindow (l_a demo_closed).
Proof.
  split.
  - apply (link_no_deadlock 8 4 4 ltac:(lia) ltac:(lia) eq_refl 1 demo_written), demo_written_reachable.
  - refine (proj2 (link_no_deadlock 8 4 4 ltac:(lia) ltac:(lia) eq_refl 1 demo_closed demo_closed_reachable) _).
    intros l' Hq. inversion Hq; subst; discriminate.
Defined.

Lemma link_eof_witness : st_localClosed (l_a demo_closed) = true.
Proof.
  refine (proj2 (link_eof 8 4 4 ltac:(lia) ltac:(lia) eq_refl 1 demo_closed 5 demo_closed_reachable _)).
  reflexivity.
Defined.
