(* ===== verification/Pipe.v ===== *)
(** * A stream is a bounded pipe

    What the users of a stream are promised, as an abstract machine: a queue of
    bytes of bounded length with one writing and one reading end.  The two
    [Stream]s, the frames and the credit between them (FlowControl.v) implement
    it: whatever can be observed at the two ends of a stream can be observed of
    the pipe. *)

From S2P Require Import Prelude GoErrors Proto Handshake Frame Proc MuxStream MuxSession FlowControl.

(** ** The specification *)

Record Pipe := mkPipe { pp_queue : list byte; pp_closed : bool }.

(** What the two ends see: a write that returned, a read that returned, a
    close, and end of file. *)
Inductive pipe_op :=
| PWrite (d : list byte)
| PRead (d : list byte)
| PClose
| PEof.

Inductive pipe_step (capacity : Z) : Pipe -> option pipe_op -> Pipe -> Prop :=
| pipe_write q d :
    d <> [] -> zlen (q ++ d) <= capacity ->
    pipe_step capacity (mkPipe q false) (Some (PWrite d)) (mkPipe (q ++ d) false)
| pipe_read d q c :
    d <> [] -> pipe_step capacity (mkPipe (d ++ q) c) (Some (PRead d)) (mkPipe q c)
| pipe_close q : pipe_step capacity (mkPipe q false) (Some PClose) (mkPipe q true)
| pipe_eof : pipe_step capacity (mkPipe [] true) (Some PEof) (mkPipe [] true).

(** The observations of an execution; [None] is a step nobody sees. *)
Inductive traces {S O : Type} (step : S -> option O -> S -> Prop) : S -> list O -> S -> Prop :=
| traces_nil s : traces step s [] s
| traces_hidden s s1 s2 tr : step s None s1 -> traces step s1 tr s2 -> traces step s tr s2
| traces_seen s o s1 s2 tr : step s (Some o) s1 -> traces step s1 tr s2 -> traces step s (o :: tr) s2.

Section Refinement.
Context (window maxFrame threshold : Z).

(** ** The implementation, observed *)

Inductive link_obs : Link -> option pipe_op -> Link -> Prop :=
| obs_hidden l l' : quiet_step threshold l l' -> l_got l' = l_got l -> link_obs l None l'
| obs_read l l' d :
    quiet_step threshold l l' -> l_got l' = l_got l ++ d -> d <> [] -> link_obs l (Some (PRead d)) l'
| obs_write l l' d :
    link_step maxFrame threshold l l' -> l_sent l' = l_sent l ++ d -> d <> [] -> link_obs l (Some (PWrite d)) l'
| obs_close a b a' wire back sent got :
    close_locked a = Some a' ->
    link_obs (mkLink a b wire back sent got) (Some PClose) (mkLink a' b (wire ++ [Fin]) back sent got)
| obs_eof l n : read_locked threshold n (l_b l) = ReadFail (ESentinel IoEOF) -> link_obs l (Some PEof) l.

(** What has been written and not been read, wherever it is. *)
Definition pipe_of (l : Link) : Pipe :=
  mkPipe (st_buf (l_b l) ++ wire_bytes (l_wire l)) (st_localClosed (l_a l)).

Context (Hw : 0 < window < 2 ^ 32) (Hf : 0 < maxFrame)
        (Ht : threshold = if window / 2 =? 0 then 1 else window / 2).

Abbreviation inv := (link_inv window threshold).

Lemma pipe_of_bound l : inv l -> zlen (pp_queue (pipe_of l)) <= window.
Proof.
  intros [Ha _ _ Hcr Hback Hcons _ _]. cbn [pp_queue pipe_of]. rewrite zlen_app.
  pose proof (sum_nonneg _ Hback). pose proof (wf_send _ _ Ha). lia.
Qed.

(** The quiet steps neither close the writing end nor send. *)
Lemma quiet_sender l l' :
  quiet_step threshold l l' -> st_localClosed (l_a l') = st_localClosed (l_a l) /\ l_sent l' = l_sent l.
Proof. intros H. destruct H; cbn; auto. unfold grantCredit. by destruct (_ >? _). Qed.

(** Moving [d] out of the pipe, by the bytes written and read. *)
Lemma pipe_of_read l l' d :
  inv l -> inv l' -> quiet_step threshold l l' -> l_got l' = l_got l ++ d ->
  pipe_of l = mkPipe (d ++ pp_queue (pipe_of l')) (pp_closed (pipe_of l')).
Proof.
  intros H H' Hq Hg. destruct (quiet_sender _ _ Hq) as [Hc Hs].
  pose proof (li_bytes _ _ _ H) as B. pose proof (li_bytes _ _ _ H') as B'.
  rewrite Hs, B, Hg, <- app_assoc in B'. apply app_inv_head in B'.
  unfold pipe_of. cbn [pp_queue pp_closed]. by rewrite B', Hc.
Qed.

Lemma pipe_of_write l l' d :
  inv l -> link_step maxFrame threshold l l' -> l_sent l' = l_sent l ++ d -> d <> [] ->
  st_localClosed (l_a l) = false
  /\ pipe_of l' = mkPipe (pp_queue (pipe_of l) ++ d) false.
Proof.
  intros H Hs Hd Hne. destruct Hs as [l l' Hq | a b d' n a' wire back sent got Hd' Hwr | a b a' wire back sent got Hc].
  - destruct (quiet_sender _ _ Hq) as [_ E]. rewrite E in Hd. rewrite <- (app_nil_r (l_sent l)) in Hd at 1.
    by apply app_inv_head in Hd.
  - cbn [l_sent l_a] in *. apply app_inv_head in Hd. subst d.
    pose proof (li_a _ _ _ H) as Ha. destruct (li_live _ _ _ H) as [Hl _]. cbn [l_a l_b] in *.
    assert (st_localClosed a = false) as Hlc.
    { unfold write_locked in Hwr. rewrite Hl in Hwr. by destruct (st_localClosed a). }
    split; [done|]. unfold pipe_of. cbn [l_a l_b l_wire pp_queue].
    apply (write_locked_chunk _ window) in Hwr as (_ & _ & _ & ->); auto.
    rewrite wire_bytes_app, <- app_assoc. cbn [set_send st_localClosed]. rewrite Hlc.
    by rewrite wire_bytes_cons, app_nil_r.
  - cbn [l_sent] in Hd. rewrite <- (app_nil_r sent) in Hd at 1. by apply app_inv_head in Hd.
Qed.

(** One observed step, in the pipe. *)
Lemma obs_step_inv l o l' : inv l -> link_obs l o l' -> inv l'.
Proof.
  intros H Ho. destruct Ho.
  - by eapply quiet_step_inv.
  - by eapply quiet_step_inv.
  - by eapply link_step_inv.
  - by eapply link_step_inv; [exact Hw | exact Hf | exact Ht | exact H | apply link_close].
  - done.
Qed.

Lemma obs_step_pipe l o l' :
  inv l -> link_obs l o l' ->
  match o with
  | None => pipe_of l' = pipe_of l
  | Some _ => pipe_step window (pipe_of l) o (pipe_of l')
  end.
Proof.
  intros H Ho. pose proof (obs_step_inv _ _ _ H Ho) as H'.
  destruct Ho as [l l' Hq Hg|l l' d Hq Hg Hne|l l' d Hs Hd Hne|a b a' wire back sent got Hc|l n Hr].
  - symmetry. apply (pipe_of_read l l' []); [done | done | done|]. by rewrite app_nil_r.
  - rewrite (pipe_of_read l l' d) by done. destruct (pipe_of l'). by apply pipe_read.
  - destruct (pipe_of_write l l' d H Hs Hd Hne) as [Hc E]. pose proof (pipe_of_bound _ H') as Hb. rewrite E in *.
    unfold pipe_of at 1. rewrite Hc. by apply pipe_write.
  - unfold close_locked in Hc. destruct (st_localClosed a) eqn:Hlc; [done|].
    destruct (st_reset a); [done|]. injection Hc as <-.
    unfold pipe_of. cbn [l_a l_b l_wire set_closed st_localClosed]. rewrite Hlc, wire_bytes_app. change (wire_bytes [Fin]) with (@nil byte).
    rewrite app_nil_r. apply pipe_close.
  - destruct H as [_ [_ Hl] _ _ _ _ _ (ds & fin & Ew & _ & H2 & _)].
    unfold read_locked in Hr. unfold pipe_of. destruct (st_buf (l_b l)) as [|x buf] eqn:Eb.
    2: { cbv zeta in Hr. by destruct (_ >=? _). }
    rewrite Hl in Hr. destruct (st_remoteClosed (l_b l)); [|done].
    destruct H2 as (-> & -> & ->); [done|]. rewrite Ew. apply pipe_eof.
Qed.

(** Every step of the link is an observation or hidden. *)
Lemma link_step_observed l l' : inv l -> link_step maxFrame threshold l l' -> exists o, link_obs l o l'.
Proof.
  intros H Hs. pose proof (link_step_inv _ _ _ Hw Hf Ht _ _ H Hs) as H'.
  pose proof Hs as Hs0. destruct Hs as [l l' Hq | a b d n a' wire back sent got Hd Hwr | a b a' wire back sent got Hc].
  - destruct (decide (l_got l' = l_got l)) as [E|E]; [exists None; by apply obs_hidden|].
    assert (exists d, l_got l' = l_got l ++ d) as [d Ed].
    { destruct Hq; cbn in *; try done. by eexists. }
    exists (Some (PRead d)). apply obs_read; [done | done|]. intros ->. by rewrite app_nil_r in Ed.
  - exists (Some (PWrite (take (Z.to_nat n) d))). apply obs_write; [done | done|].
    destruct (li_live _ _ _ H) as [Hl _]. cbn in Hl. pose proof (li_a _ _ _ H) as Ha. cbn in Ha.
    apply (write_locked_chunk _ window) in Hwr as (Hn & _ & Hn2 & _); auto. intros E.
    apply (f_equal zlen) in E. rewrite zlen_take, zlen_nil in E by lia. lia.
  - exists (Some PClose). by apply obs_close.
Qed.

Lemma traces_pipe l tr l' :
  inv l -> traces link_obs l tr l' -> traces (pipe_step window) (pipe_of l) tr (pipe_of l').
Proof.
  intros H Htr. induction Htr as [l|l l1 l2 tr Hs Htr IH|l o l1 l2 tr Hs Htr IH]; [constructor|..];
    specialize (IH (obs_step_inv _ _ _ H Hs)); pose proof (obs_step_pipe _ _ _ H Hs) as Hp; cbn in Hp.
  - by rewrite <- Hp.
  - by eapply traces_seen.
Qed.

End Refinement.

(** Write two bytes, deliver them, close, and read them. *)
Definition pipe_demo : list pipe_op := [PWrite [x01; x02]; PClose; PRead [x01; x02]].

Lemma pipe_demo_observed : exists l, traces (link_obs 4 4) (link_init 8 1) pipe_demo l.
Proof.
  eexists. eapply traces_seen.
  { apply (obs_write 4 4 _ demo_written [x01; x02]); [|done | done].
    apply (link_write 4 4 (newStream 1 8) (newStream 1 8) [x01; x02] 2); [split; reflexivity | reflexivity]. }
  eapply traces_hidden.
  { apply obs_hidden; [by apply (quiet_deliver 4) | done]. }
  eapply traces_seen; [by apply obs_close|].
  eapply traces_seen; [|apply traces_nil].
  eapply (obs_read 4 4 _ _ [x01; x02]); [eapply (quiet_read 4 _ _ 2); [lia | reflexivity] | reflexivity | done].
Qed.

