(* ===== verification/MuxHandshake.v ===== *)
(** * The session handshake

    [Config.withDefaults], [Dial], [Accept], [Handshake.Admit] and
    [Handshake.Refuse] of [src/internal/mux/session.go].  A connection is its
    two codecs.  The handshake deadline and the cancellation of a context show
    up as the error the read side ends with; the goroutines a session starts
    are those of MuxSession.v. *)

From S2P Require Import Prelude GoErrors GoTime Proto Frame Handshake Proc MuxStream MuxSession.

Record Conn := mkConn { c_R : Reader; c_W : Writer }.

(** The parts of [Config] the handshake uses. *)
Record Config := mkConfig {
  cfg_Role : Z;
  cfg_MaxFramePayload : Z;     (* uint32 *)
  cfg_InitialWindow : Z;       (* uint32 *)
  cfg_MaxStreams : Z           (* uint32 *)
}.

Definition withDefaults (c : Config) : Config :=
  mkConfig (cfg_Role c)
    (if cfg_MaxFramePayload c =? 0 then MaxFramePayload else cfg_MaxFramePayload c)
    (if cfg_InitialWindow c =? 0 then InitialWindow else cfg_InitialWindow c)
    (if cfg_MaxStreams c =? 0 then MaxStreamsPerConnection else cfg_MaxStreams c).

(** A live session with the labels it carries. *)
Record LiveSession := mkLive {
  live_session : Session;
  live_ID : string;
  live_Peer : Auth
}.

Definition conn_send (t : ftype) (payload : list byte) (c : Conn) : res unit * Conn :=
  let '(x, w) := WriteFrame t 0 payload (c_W c) in (x, mkConn (c_R c) w).

Definition conn_recv (c : Conn) : res Frame * Conn :=
  let '(x, r) := ReadFrame (c_R c) in (x, mkConn r (c_W c)).

Definition Dial (cfg : Config) (auth : Auth) (now : time) (c : Conn) : res LiveSession * Conn :=
  let cfg := withDefaults cfg in
  match conn_send TypeHello (Hello_Encode (mkHello Version Version (cfg_Role cfg))) c with
  | (Err e, c) => (Err (EWrap "send hello" e), c)
  | (Ok _, c) =>
  match conn_recv c with
  | (Err e, c) => (Err (EWrap "read hello_ack" e), c)
  | (Ok f, c) =>
  if f_type f =? TypeError then
    (Err (EMsg ("peer refused connection: " ++ string_of_bytes (f_payload f))), c)
  else if negb (f_type f =? TypeHelloAck) then
    (Err (wrap ErrMalformedFrame "expected hello_ack"), c)
  else
  match DecodeHelloAck (f_payload f) with
  | Err e => (Err e, c)
  | Ok ack =>
  if negb (ack_Version ack =? Version) then
    (Err (wrap ErrUnsupportedVersion "peer chose version"), c)
  else
  match conn_send TypeAuth (Auth_Encode auth) c with
  | (Err e, c) => (Err (EWrap "send auth" e), c)
  | (Ok _, c) =>
  match conn_recv c with
  | (Err e, c) => (Err (EWrap "read auth_ok" e), c)
  | (Ok f, c) =>
  if f_type f =? TypeError then
    (Err (EMsg ("authentication refused: " ++ string_of_bytes (f_payload f))), c)
  else if negb (f_type f =? TypeAuthOK) then
    (Err (wrap ErrMalformedFrame "expected auth_ok"), c)
  else
  match DecodeAuthOK (f_payload f) with
  | Err e => (Err e, c)
  | Ok sid => (Ok (mkLive (newSession (c_W c) true ack now) sid auth), c)
  end end end end end end.

(** The half-completed responder handshake. *)
Record HandshakeState := mkHandshake {
  hs_Conn : Conn;
  hs_Hello : Hello;
  hs_Auth : Auth;
  hs_ack : HelloAck
}.

(** [fail]: tell the peer, then return the error. *)
Definition accept_fail (e : error) (r : reason) (c : Conn) : res HandshakeState * Conn :=
  let '(_, w) := WriteError r (c_W c) in (Err e, mkConn (c_R c) w).

Definition Accept (cfg : Config) (c : Conn) : res HandshakeState * Conn :=
  let cfg := withDefaults cfg in
  match conn_recv c with
  | (Err e, c) => (Err (EWrap "read hello" e), c)
  | (Ok f, c) =>
  if negb (f_type f =? TypeHello) then
    accept_fail (wrap ErrMalformedFrame "expected hello") ReasonProtocolMalformedFrame c
  else
  match DecodeHello (f_payload f) with
  | Err e => accept_fail e ReasonProtocolMalformedFrame c
  | Ok hello =>
  if (Version <? MinVersion hello) || (Version >? MaxVersion hello) then
    accept_fail (wrap ErrUnsupportedVersion "peer speaks") ReasonProtocolVersionUnsupported c
  else
  let ack := mkHelloAck Version (cfg_MaxFramePayload cfg) (cfg_InitialWindow cfg)
               (cfg_MaxStreams cfg) in
  match conn_send TypeHelloAck (HelloAck_Encode ack) c with
  | (Err e, c) => (Err (EWrap "send hello_ack" e), c)
  | (Ok _, c) =>
  match conn_recv c with
  | (Err e, c) => (Err (EWrap "read auth" e), c)
  | (Ok f, c) =>
  if negb (f_type f =? TypeAuth) then
    accept_fail (wrap ErrMalformedFrame "expected auth") ReasonProtocolMalformedFrame c
  else
  match DecodeAuth (f_payload f) with
  | Err e => accept_fail e ReasonProtocolMalformedFrame c
  | Ok auth => (Ok (mkHandshake c hello auth ack), c)
  end end end end end.

Definition Admit (h : HandshakeState) (sessionID : string) (now : time) : res LiveSession * Conn :=
  match conn_send TypeAuthOK (AuthOK_Encode sessionID) (hs_Conn h) with
  | (Err e, c) => (Err (EWrap "send auth_ok" e), c)
  | (Ok _, c) => (Ok (mkLive (newSession (c_W c) false (hs_ack h) now) sessionID (hs_Auth h)), c)
  end.

(** [Refuse]: the reason goes out before the connection is drained and closed. *)
Definition Refuse (h : HandshakeState) (r : reason) : res unit * Conn :=
  let '(x, w) := WriteError r (c_W (hs_Conn h)) in
  (x, mkConn (c_R (hs_Conn h)) (mkWriter (w_out w) (Some O) (w_max w))).

(** ** Specification *)

(** Limits a responder may be configured with (zero means the default). *)
Definition config_ok (c : Config) : Prop :=
  (cfg_Role c = RoleAgent \/ cfg_Role c = RoleOperator)
  /\ 0 <= cfg_MaxFramePayload c <= MaxFramePayload
  /\ 0 <= cfg_InitialWindow c < 2 ^ 32 /\ 0 <= cfg_MaxStreams c < 2 ^ 32.

Definition auth_ok (a : Auth) : Prop :=
  slen (auth_DeviceID a) <= MaxIdentityLen /\ slen (auth_UserID a) <= MaxIdentityLen
  /\ slen (auth_Resource a) <= MaxIdentityLen.

Definition hello_frame (role : Z) : Frame :=
  mkFrame TypeHello 0 (Hello_Encode (mkHello Version Version role)).

Definition ack_of (c : Config) : HelloAck :=
  let c := withDefaults c in
  mkHelloAck Version (cfg_MaxFramePayload c) (cfg_InitialWindow c) (cfg_MaxStreams c).

(** A connection that will deliver [b] and accepts whatever is written. *)
Definition fresh_conn (b : list byte) : Conn :=
  mkConn (mkReader b (ESentinel IoEOF) MaxFramePayload) (mkWriter [] None MaxFramePayload).

(** ** Lemmas *)

Lemma conn_send_room t b r out :
  zlen b <= MaxFramePayload ->
  conn_send t b (mkConn r (mkWriter out None MaxFramePayload))
  = (Ok tt, mkConn r (mkWriter (out ++ frame_bytes (mkFrame t 0 b)) None MaxFramePayload)).
Proof.
  intros Hb. unfold conn_send. cbn [c_W c_R].
  by rewrite WriteFrame_room by (done || (unfold MaxFramePayload in *; cbn; lia)).
Qed.

Lemma conn_recv_frame f rest e w :
  frame_ok MaxFramePayload f ->
  conn_recv (mkConn (mkReader (frame_bytes f ++ rest) e MaxFramePayload) w)
  = (Ok f, mkConn (mkReader rest e MaxFramePayload) w).
Proof. intros Hf. unfold conn_recv. cbn [c_R c_W]. by rewrite ReadFrame_frame_bytes. Qed.

Lemma withDefaults_ok c :
  config_ok c ->
  0 < cfg_MaxFramePayload (withDefaults c) <= MaxFramePayload
  /\ 0 < cfg_InitialWindow (withDefaults c) < 2 ^ 32
  /\ 0 < cfg_MaxStreams (withDefaults c) < 2 ^ 32.
Proof.
  intros (_ & H1 & H2 & H3). unfold withDefaults. cbn [cfg_MaxFramePayload cfg_InitialWindow cfg_MaxStreams].
  unfold MaxFramePayload, InitialWindow, MaxStreamsPerConnection in *.
  destruct (Z.eqb_spec (cfg_MaxFramePayload c) 0), (Z.eqb_spec (cfg_InitialWindow c) 0),
    (Z.eqb_spec (cfg_MaxStreams c) 0); lia.
Qed.

Lemma zlen_Auth_Encode a : auth_ok a -> zlen (Auth_Encode a) <= 3 * (2 + MaxIdentityLen).
Proof.
  intros (H1 & H2 & H3). unfold Auth_Encode.
  rewrite !appendString_length, zlen_nil. lia.
Qed.

Lemma hello_decodes role :
  role = RoleAgent \/ role = RoleOperator ->
  DecodeHello (Hello_Encode (mkHello Version Version role)) = Ok (mkHello Version Version role).
Proof.
  intros Hr. apply DecodeHello_Ok. split; [exists (byte_of_Z 0); done|].
  cbn. unfold Version. split_and!; lia || auto.
Qed.

(** What the initiator does when the responder's two frames are on the wire. *)
Lemma Dial_run cfg auth now ack sid rest :
  auth_ok auth -> slen sid <= MaxIdentityLen ->
  DecodeHelloAck (HelloAck_Encode ack) = Ok ack -> ack_Version ack = Version ->
  Dial cfg auth now (fresh_conn (frame_bytes (mkFrame TypeHelloAck 0 (HelloAck_Encode ack))
      ++ frame_bytes (mkFrame TypeAuthOK 0 (AuthOK_Encode sid)) ++ rest))
  = let w := mkWriter (frame_bytes (hello_frame (cfg_Role cfg))
                ++ frame_bytes (mkFrame TypeAuth 0 (Auth_Encode auth))) None MaxFramePayload in
    (Ok (mkLive (newSession w true ack now) sid auth),
     mkConn (mkReader rest (ESentinel IoEOF) MaxFramePayload) w).
Proof.
  intros Ha Hs Hd Hv. pose proof (zlen_Auth_Encode auth Ha) as Hz.
  unfold Dial, fresh_conn. cbv zeta. cbn [cfg_Role withDefaults].
  rewrite conn_send_room by (vm_compute; congruence).
  rewrite conn_recv_frame; cycle 1.
  { unfold frame_ok. cbn [f_type f_stream f_payload]. split_and!; try done. }
  cbn [f_type f_payload]. change (TypeHelloAck =? TypeError) with false.
  rewrite Z.eqb_refl. cbn [negb]. cbv iota. rewrite Hd, Hv, Z.eqb_refl. cbn [negb]. cbv iota.
  rewrite conn_send_room by (unfold MaxFramePayload, MaxIdentityLen in *; lia).
  rewrite conn_recv_frame; cycle 1.
  { unfold frame_ok. cbn [f_type f_stream f_payload]. split_and!; try done.
    unfold AuthOK_Encode. rewrite appendString_length, zlen_nil.
    unfold MaxFramePayload, MaxIdentityLen in *. lia. }
  cbn [f_type f_payload]. change (TypeAuthOK =? TypeError) with false.
  rewrite Z.eqb_refl. cbn [negb]. cbv iota.
  by rewrite (proj2 (DecodeAuthOK_iff (AuthOK_Encode sid) sid) (conj eq_refl Hs)).
Qed.

(** What the responder does when the initiator's two frames are on the wire. *)
Lemma Accept_run cfg role auth rest :
  config_ok cfg -> role = RoleAgent \/ role = RoleOperator -> auth_ok auth ->
  Accept cfg (fresh_conn (frame_bytes (hello_frame role)
      ++ frame_bytes (mkFrame TypeAuth 0 (Auth_Encode auth)) ++ rest))
  = let c := mkConn (mkReader rest (ESentinel IoEOF) MaxFramePayload)
               (mkWriter (frame_bytes (mkFrame TypeHelloAck 0 (HelloAck_Encode (ack_of cfg))))
                  None MaxFramePayload) in
    (Ok (mkHandshake c (mkHello Version Version role) auth (ack_of cfg)), c).
Proof.
  intros Hc Hr Ha. pose proof (zlen_Auth_Encode auth Ha) as Hz.
  unfold Accept, fresh_conn. cbv zeta.
  rewrite conn_recv_frame by (unfold frame_ok, hello_frame; cbn [f_type f_stream f_payload];
    split_and!; try done; vm_compute; congruence).
  unfold hello_frame. cbn [f_type f_payload]. rewrite Z.eqb_refl. cbn [negb]. cbv iota.
  rewrite hello_decodes by done. cbn [MinVersion MaxVersion].
  change ((Version <? Version) || (Version >? Version)) with false. cbv iota.
  fold (ack_of cfg).
  rewrite conn_send_room by (unfold HelloAck_Encode, MaxFramePayload; len).
  rewrite conn_recv_frame; cycle 1.
  { unfold frame_ok. cbn [f_type f_stream f_payload]. split_and!; try done.
    unfold MaxFramePayload, MaxIdentityLen in *. lia. }
  cbn [f_type f_payload]. rewrite Z.eqb_refl. cbn [negb]. cbv iota.
  rewrite (proj2 (DecodeAuth_Ok (Auth_Encode auth) auth) (conj eq_refl Ha)). by rewrite app_nil_l.
Qed.

Lemma ack_decodes cfg : config_ok cfg -> DecodeHelloAck (HelloAck_Encode (ack_of cfg)) = Ok (ack_of cfg).
Proof.
  intros Hc%withDefaults_ok. apply DecodeHelloAck_Ok. unfold ack_of.
  cbn [ack_Version ack_MaxFramePayload ack_InitialWindow ack_MaxStreams].
  unfold Version. split_and!; lia || done.
Qed.

(** ** Properties *)

(** The two ends agree: let the initiator read what the responder writes
    and the responder read what the initiator writes.  Then the handshake
    completes on both sides, with the responder's limits (its configuration,
    defaults filled in) on both, the same session identifier, opposite
    stream-number parity, the claims the initiator made known to the responder,
    and nothing left unread. *)
Theorem handshake_agreement cfgD cfgA auth sid now now' :
  config_ok cfgD -> config_ok cfgA -> auth_ok auth -> slen sid <= MaxIdentityLen ->
  exists h cH outD outA cD cA,
    Dial cfgD auth now (fresh_conn outA)
      = (Ok (mkLive (newSession (c_W cD) true (ack_of cfgA) now) sid auth), cD)
    /\ Accept cfgA (fresh_conn outD) = (Ok h, cH)
    /\ Admit h sid now'
      = (Ok (mkLive (newSession (c_W cA) false (ack_of cfgA) now') sid auth), cA)
    /\ hs_Hello h = mkHello Version Version (cfg_Role cfgD) /\ hs_Auth h = auth
    /\ w_out (c_W cD) = outD /\ w_out (c_W cA) = outA
    /\ r_in (c_R cD) = [] /\ r_in (c_R cA) = [].
Proof.
  intros HD HA Ha Hs. pose proof (Dial_run cfgD auth now (ack_of cfgA) sid [] Ha Hs
    (ack_decodes cfgA HA) eq_refl) as RD.
  pose proof (Accept_run cfgA (cfg_Role cfgD) auth [] HA (proj1 HD) Ha) as RA.
  rewrite !app_nil_r in RD, RA. cbv zeta in RD, RA.
  eexists _, _, _, _, (mkConn _ _), (mkConn _ _). cbn [c_W c_R].
  split_and!; [exact RD | exact RA | .. ].
  - unfold Admit. cbn [hs_Conn hs_Auth hs_ack]. rewrite conn_send_room; [reflexivity|].
    unfold AuthOK_Encode. rewrite appendString_length, zlen_nil.
    unfold MaxFramePayload, MaxIdentityLen in *. lia.
  - done.
  - done.
  - done.
  - done.
  - done.
  - done.
Qed.

Lemma handshake_agreement_witness :
  exists h cH outD outA cD cA,
    Dial (mkConfig RoleAgent 0 0 0) (mkAuth "dev" "" "") 1 (fresh_conn outA)
      = (Ok (mkLive (newSession (c_W cD) true (ack_of (mkConfig RoleAgent 1024 0 2)) 1) "s1"
               (mkAuth "dev" "" "")), cD)
    /\ Accept (mkConfig RoleAgent 1024 0 2) (fresh_conn outD) = (Ok h, cH)
    /\ Admit h "s1" 2
      = (Ok (mkLive (newSession (c_W cA) false (ack_of (mkConfig RoleAgent 1024 0 2)) 2) "s1"
               (mkAuth "dev" "" "")), cA)
    /\ hs_Hello h = mkHello Version Version RoleAgent /\ hs_Auth h = mkAuth "dev" "" ""
    /\ w_out (c_W cD) = outD /\ w_out (c_W cA) = outA
    /\ r_in (c_R cD) = [] /\ r_in (c_R cA) = [].
Proof.
  apply (handshake_agreement (mkConfig RoleAgent 0 0 0) (mkConfig RoleAgent 1024 0 2));
    vm_compute; intuition congruence.
Defined.

(** Whatever the responder sends, a session that [Dial] returns starts in a
    well-formed state: limits no peer can abuse (a positive frame size of at
    most 64 KiB, a positive window, a positive stream limit), which is what the
    session invariant needs to hold from then on. *)
Theorem Dial_session_wf cfg auth now c l c' :
  Dial cfg auth now c = (Ok l, c') ->
  session_wf (s_window (live_session l)) (s_maxStreams (live_session l))
    (s_maxFrame (live_session l)) (live_session l)
  /\ s_maxFrame (live_session l) <= MaxFramePayload
  /\ s_isClient (live_session l) = true /\ live_Peer l = auth.
Proof.
  unfold Dial. cbv zeta. intros H.
  destruct (conn_send TypeHello _ c) as [[|] c1]; [|done].
  destruct (conn_recv c1) as [[f1|] c2]; [|done].
  destruct (f_type f1 =? TypeError); [done|]. destruct (negb _); [done|].
  destruct (DecodeHelloAck (f_payload f1)) as [ack|] eqn:Ea; [|done].
  destruct (negb _); [done|].
  destruct (conn_send TypeAuth _ c2) as [[|] c3]; [|done].
  destruct (conn_recv c3) as [[f2|] c4]; [|done].
  destruct (f_type f2 =? TypeError); [done|]. destruct (negb _); [done|].
  destruct (DecodeAuthOK (f_payload f2)) as [sid|]; [|done]. injection H as <- <-.
  apply DecodeHelloAck_Ok in Ea as (_ & _ & H1 & H2 & H3). cbn [live_session live_Peer].
  split_and!; try done; [|cbn; lia]. apply newSession_wf; lia.
Qed.

Lemma Dial_session_wf_witness :
  exists l c', Dial (mkConfig RoleAgent 0 0 0) (mkAuth "dev" "" "") 1
    (fresh_conn (frame_bytes (mkFrame TypeHelloAck 0 (HelloAck_Encode (mkHelloAck 1 9 8 7)))
       ++ frame_bytes (mkFrame TypeAuthOK 0 (AuthOK_Encode "s1")) ++ [])) = (Ok l, c')
  /\ session_wf (s_window (live_session l)) (s_maxStreams (live_session l))
       (s_maxFrame (live_session l)) (live_session l).
Proof.
  eexists _, _. split; [vm_compute; reflexivity|].
  refine (proj1 (Dial_session_wf (mkConfig RoleAgent 0 0 0) (mkAuth "dev" "" "") 1
    (fresh_conn (frame_bytes (mkFrame TypeHelloAck 0 (HelloAck_Encode (mkHelloAck 1 9 8 7)))
       ++ frame_bytes (mkFrame TypeAuthOK 0 (AuthOK_Encode "s1")) ++ [])) _ _ _)).
  vm_compute. reflexivity.
Defined.

(** No version is guessed at: a HELLO whose range does not contain the one
    version this build speaks is answered with a single ERROR frame carrying
    [protocol_version_unsupported], and no session comes of it. *)
Theorem Accept_version_refused cfg lo hi role reserved rest :
  0 <= lo <= hi -> hi < 256 -> role = RoleAgent \/ role = RoleOperator ->
  ~ (lo <= Version <= hi) ->
  exists e c', Accept cfg (fresh_conn (frame_bytes (mkFrame TypeHello 0
      (take 3 (Hello_Encode (mkHello lo hi role)) ++ [reserved])) ++ rest)) = (Err e, c')
    /\ errors_Is e ErrUnsupportedVersion = true
    /\ w_out (c_W c')
       = frame_bytes (mkFrame TypeError 0 (bytes_of_string ReasonProtocolVersionUnsupported)).
Proof.
  intros Hl Hh Hr Hv. unfold Accept, fresh_conn. cbv zeta.
  rewrite conn_recv_frame; cycle 1.
  { unfold frame_ok. cbn [f_type f_stream f_payload]. split_and!; try done. }
  cbn [f_type f_payload]. rewrite Z.eqb_refl. cbn [negb]. cbv iota.
  rewrite (proj2 (DecodeHello_Ok _ (mkHello lo hi role))) by (cbn [MinVersion MaxVersion HelloRole];
    split_and!; eauto; lia).
  cbn [MinVersion MaxVersion]. replace ((Version <? lo) || (Version >? hi)) with true by lia.
  unfold accept_fail, WriteError. cbn [c_W c_R].
  rewrite WriteFrame_room by (done || (vm_compute; congruence)).
  eexists _, _. split; [reflexivity|]. done.
Qed.

Lemma Accept_version_refused_witness :
  exists e c', Accept (mkConfig RoleAgent 0 0 0) (fresh_conn (frame_bytes (mkFrame TypeHello 0
      (take 3 (Hello_Encode (mkHello 2 3 RoleAgent)) ++ [x00])) ++ [])) = (Err e, c')
    /\ errors_Is e ErrUnsupportedVersion = true
    /\ w_out (c_W c')
       = frame_bytes (mkFrame TypeError 0 (bytes_of_string ReasonProtocolVersionUnsupported)).
Proof.
  apply Accept_version_refused; [lia | lia | left; reflexivity | unfold Version; lia].
Defined.
