(* ===== verification/Registry.v ===== *)
(** * The relay's registers

    [src/internal/relay/sessions/registry.go]: connected agents by device, and
    [src/internal/relay/authorization/authorization.go]: running streams by the
    grant that authorized them.  Both are maps guarded by a mutex, so each
    method is one atomic operation; sessions and stream ends are addresses. *)

From S2P Require Import Prelude GoErrors Proto.

(** ** sessions.Registry *)

Module Sessions.

(** The registry together with the sessions that have ended ([Done] closed). *)
Record Registry := mkRegistry {
  agents : gmap string nat;         (* deviceID -> session *)
  ended : gmap nat reason           (* why a session was closed; absent while live *)
}.

Definition NewRegistry : Registry := mkRegistry ∅ ∅.

(** [s.Close(reason)]: the first close wins. *)
Definition session_Close (s : nat) (r : reason) (reg : Registry) : Registry :=
  match ended reg !! s with
  | Some _ => reg
  | None => mkRegistry (agents reg) (<[s := r]> (ended reg))
  end.

Definition Add (deviceID : string) (s : nat) (reg : Registry) : option nat * Registry :=
  (agents reg !! deviceID, mkRegistry (<[deviceID := s]> (agents reg)) (ended reg)).

Definition Remove (deviceID : string) (s : nat) (reg : Registry) : Registry :=
  match agents reg !! deviceID with
  | Some cur => if (cur =? s)%nat then mkRegistry (delete deviceID (agents reg)) (ended reg) else reg
  | None => reg
  end.

Definition Get (deviceID : string) (reg : Registry) : res nat * Registry :=
  match agents reg !! deviceID with
  | None => (Err (ESentinel ErrNoAgent), reg)
  | Some s =>
      match ended reg !! s with
      | Some _ => (Err (ESentinel ErrNoAgent), mkRegistry (delete deviceID (agents reg)) (ended reg))
      | None => (Ok s, reg)
      end
  end.

Definition Count (reg : Registry) : Z := Z.of_nat (size (agents reg)).

Definition Devices (reg : Registry) : list string := (map_to_list (agents reg)).*1.

Definition CloseAll (r : reason) (reg : Registry) : Registry :=
  foldl (fun reg' s => session_Close s r reg') (mkRegistry ∅ (ended reg))
    (map_to_list (agents reg)).*2.

(** *** Specification: the history of the registry's callers

    An agent connects, its handler ends, a session dies, or the relay shuts
    down.  [holder d h] is the session that should answer for [d] after [h]
    (newest event first): the last one that connected, unless that very session
    was deregistered since, or the registry was emptied. *)

Inductive event :=
| Connected (d : string) (s : nat)
| Left (d : string) (s : nat)
| Died (s : nat) (r : reason)
| AskedFor (d : string)
| ShutDown (r : reason).

Definition apply_event (reg : Registry) (e : event) : Registry :=
  match e with
  | Connected d s => (Add d s reg).2
  | Left d s => Remove d s reg
  | Died s r => session_Close s r reg
  | AskedFor d => (Get d reg).2
  | ShutDown r => CloseAll r reg
  end.

Fixpoint history (h : list event) : Registry :=
  match h with
  | [] => NewRegistry
  | e :: h' => apply_event (history h') e
  end.

Fixpoint holder (d : string) (h : list event) : option nat :=
  match h with
  | [] => None
  | Connected d' s :: h' => if bool_decide (d' = d) then Some s else holder d h'
  | Left d' s :: h' =>
      match holder d h' with
      | Some s' => if bool_decide (d' = d) && (s' =? s)%nat then None else Some s'
      | None => None
      end
  | Died _ _ :: h' => holder d h'
  | AskedFor _ :: h' => holder d h'
  | ShutDown _ :: h' => None
  end.

Lemma ended_mono e reg s : is_Some (ended reg !! s) -> is_Some (ended (apply_event reg e) !! s).
Proof.
  intros H. assert (forall s' r reg', is_Some (ended reg' !! s) ->
    is_Some (ended (session_Close s' r reg') !! s)) as Hc.
  { intros s' r reg' H'. unfold session_Close. destruct (ended reg' !! s') eqn:E; [done|]. cbn.
    destruct (decide (s' = s)) as [->|]; [rewrite lookup_insert_eq | rewrite lookup_insert_ne]; done. }
  destruct e as [d s'|d s'|s' r|d|r]; cbn; auto.
  - unfold Remove. destruct (agents reg !! d); [|done]. by destruct (_ =? _)%nat.
  - unfold Get. destruct (agents reg !! d) as [x|]; [|done]. by destruct (ended reg !! x).
  - unfold CloseAll. generalize (map_to_list (agents reg)).*2. intros l.
    assert (is_Some (ended (mkRegistry ∅ (ended reg)) !! s)) as Hi by done.
    revert Hi. generalize (mkRegistry ∅ (ended reg)). induction l; cbn; auto.
Qed.

Lemma agents_CloseAll r reg : agents (CloseAll r reg) = ∅.
Proof.
  unfold CloseAll. generalize (map_to_list (agents reg)).*2. intros l.
  assert (agents (mkRegistry ∅ (ended reg)) = ∅) as Hi by done.
  revert Hi. generalize (mkRegistry ∅ (ended reg)). induction l as [|s l IH]; intros r0 H0; cbn; [done|].
  apply IH. unfold session_Close. by destruct (ended r0 !! s).
Qed.

(** The registry holds what the history says, except that it may already have
    forgotten a session that has ended. *)
Lemma history_agents h d :
  agents (history h) !! d = holder d h
  \/ (agents (history h) !! d = None /\ exists s, holder d h = Some s /\ is_Some (ended (history h) !! s)).
Proof.
  induction h as [|e h IH]; [by left|]. cbn [history].
  pose proof (fun s => ended_mono e (history h) s) as Hm.
  destruct e as [d' s'|d' s'|s' r|d'|r]; cbn [holder apply_event] in *.
  - cbn. case_bool_decide as Hd; [subst; rewrite lookup_insert_eq; by left|].
    rewrite lookup_insert_ne by done. exact IH.
  - unfold Remove in *. destruct (decide (d' = d)) as [->|Hd].
    + rewrite bool_decide_true by done. cbn [andb].
      destruct IH as [IH|(IH & s & Hs & He)].
      * rewrite IH. destruct (holder d h) as [cur|] eqn:Eh; [|left; by rewrite IH].
        destruct (cur =? s')%nat; cbn; [left; by rewrite lookup_delete_eq | by left].
      * rewrite IH, Hs. destruct (s =? s')%nat; [by left|]. right. eauto.
    + rewrite (bool_decide_false (d' = d)) by done. cbn [andb].
      assert (agents (match agents (history h) !! d' with
        | Some cur => if (cur =? s')%nat then mkRegistry (delete d' (agents (history h))) (ended (history h))
                      else history h
        | None => history h end) !! d = agents (history h) !! d
        /\ ended (match agents (history h) !! d' with
        | Some cur => if (cur =? s')%nat then mkRegistry (delete d' (agents (history h))) (ended (history h))
                      else history h
        | None => history h end) = ended (history h)) as [E1 E2].
      { destruct (agents (history h) !! d'); [|done]. destruct (_ =? _)%nat; [|done].
        cbn. by rewrite lookup_delete_ne. }
      rewrite E1, E2. destruct (holder d h); [exact IH | naive_solver].
  - assert (agents (session_Close s' r (history h)) = agents (history h)) as ->
      by (unfold session_Close; by destruct (ended _ !! s')).
    destruct IH as [IH|(IH & s & Hs & He)]; [by left|]. right. eauto.
  - unfold Get in *. destruct (agents (history h) !! d') as [s|] eqn:E; cbn in *.
    2: { destruct IH as [IH|(IH & s & Hs & He)]; [by left | right; eauto]. }
    destruct (ended (history h) !! s) as [r|] eqn:Er; cbn in *.
    2: { destruct IH as [IH|(IH & s2 & Hs & He)]; [by left | right; eauto]. }
    destruct (decide (d' = d)) as [->|Hd].
    + right. rewrite lookup_delete_eq. split; [done|]. exists s.
      destruct IH as [IH|(IH & _)]; [|congruence]. rewrite <- IH, E, Er. eauto.
    + rewrite lookup_delete_ne by done. destruct IH as [IH|(IH & s2 & Hs & He)]; [by left | right; eauto].
  - left. by rewrite agents_CloseAll, lookup_empty.
Qed.

(** Whatever agents connected, left, died and in whatever order their
    handlers cleaned up, asking for a device returns exactly the last session
    that connected for it, provided that very session has neither deregistered
    nor ended; otherwise the answer is the availability error, never a session
    that cannot be used.  In particular a late cleanup of a replaced session
    does not evict its successor. *)
Theorem Get_latest h d :
  (Get d (history h)).1
  = match holder d h with
    | Some s => match ended (history h) !! s with
                | Some _ => Err (ESentinel ErrNoAgent)
                | None => Ok s
                end
    | None => Err (ESentinel ErrNoAgent)
    end.
Proof.
  unfold Get. destruct (history_agents h d) as [->|(-> & s & -> & [r ->])].
  - destruct (holder d h) as [s|]; [|done]. by destruct (ended (history h) !! s).
  - done.
Qed.

(** The scenario the identity check in [Remove] is for. *)
Example late_cleanup :
  (Get "dev" (history [Left "dev" 1; Connected "dev" 2; Connected "dev" 1])).1 = Ok 2%nat.
Proof. reflexivity. Qed.

End Sessions.

(** ** authorization.LiveStreams *)

Module Live.

(** The two ends of one joined stream. *)
Record pair := mkPair { p_operator : nat; p_agent : nat }.

#[global] Instance pair_eq_dec : EqDecision pair.
Proof. solve_decision. Defined.

Record LiveStreams := mkLiveStreams {
  byGrant : gmap string (gmap Z pair);
  nextID : Z                              (* uint64 *)
}.

Definition NewLiveStreams : LiveStreams := mkLiveStreams ∅ 0.

(** [Add]: the register and what the returned closure needs, [None] when it
    does nothing. *)
Definition Add (grantID : string) (operator agent : nat) (l : LiveStreams)
    : option (string * Z) * LiveStreams :=
  if bool_decide (grantID = "") then (None, l)
  else
    let id := uwrap 64 (nextID l + 1) in
    let streams := default ∅ (byGrant l !! grantID) in
    (Some (grantID, id),
     mkLiveStreams (<[grantID := <[id := mkPair operator agent]> streams]> (byGrant l)) id).

(** The closure [Add] returned. *)
Definition release (h : option (string * Z)) (l : LiveStreams) : LiveStreams :=
  match h with
  | None => l
  | Some (grantID, id) =>
      match byGrant l !! grantID with
      | None => l
      | Some streams =>
          let streams := delete id streams in
          if (size streams =? 0)%nat then mkLiveStreams (delete grantID (byGrant l)) (nextID l)
          else mkLiveStreams (<[grantID := streams]> (byGrant l)) (nextID l)
      end
  end.

(** The locked part of [Terminate]: the doomed pairs and what is left. *)
Fixpoint collect (grantIDs : list string) (m : gmap string (gmap Z pair))
    : list pair * gmap string (gmap Z pair) :=
  match grantIDs with
  | [] => ([], m)
  | g :: gs =>
      let here := (map_to_list (default ∅ (m !! g))).*2 in
      let '(rest, m') := collect gs (delete g m) in
      (here ++ rest, m')
  end.

(** [Terminate]: how many were dropped, and the stream ends reset, in order. *)
Definition Terminate (grantIDs : list string) (r : reason) (l : LiveStreams)
    : Z * list (nat * reason) * LiveStreams :=
  let '(doomed, m) := collect grantIDs (byGrant l) in
  (zlen doomed, concat ((fun p => [(p_operator p, r); (p_agent p, r)]) <$> doomed),
   mkLiveStreams m (nextID l)).

Definition CountFor (grantID : string) (l : LiveStreams) : Z :=
  Z.of_nat (size (default ∅ (byGrant l !! grantID))).

Definition Count (l : LiveStreams) : Z :=
  map_fold (fun _ streams n => n + Z.of_nat (size streams)) 0 (byGrant l).

(** *** Specification: the set of running streams

    [live l] is the register seen as one flat map from grant and stream number
    to the pair; that is all its callers can observe. *)

Definition live (l : LiveStreams) (g : string) (id : Z) : option pair :=
  byGrant l !! g ≫= (.!! id).

(** No empty inner map is kept (nothing accumulates), and stream numbers are
    those handed out so far. *)
Record live_wf (l : LiveStreams) : Prop := {
  lw_nonempty : forall g m, byGrant l !! g = Some m -> m <> ∅;
  lw_ids : forall g id p, live l g id = Some p -> 1 <= id <= nextID l;
  lw_next : 0 <= nextID l
}.

Lemma live_Add g op ag l h l' :
  live_wf l -> nextID l < 2 ^ 64 - 1 -> g <> "" -> Add g op ag l = (h, l') ->
  h = Some (g, nextID l + 1) /\ live_wf l'
  /\ live l g (nextID l + 1) = None
  /\ forall g' id, live l' g' id
     = if bool_decide (g' = g /\ id = nextID l + 1) then Some (mkPair op ag) else live l g' id.
Proof.
  intros H Hn Hg. pose proof (lw_next _ H). unfold Add. rewrite bool_decide_false by done.
  rewrite uwrap_id by lia. intros [= <- <-].
  assert (forall g' id, live (mkLiveStreams (<[g := <[nextID l + 1 := mkPair op ag]>
    (default ∅ (byGrant l !! g))]> (byGrant l)) (nextID l + 1)) g' id
    = if bool_decide (g' = g /\ id = nextID l + 1) then Some (mkPair op ag) else live l g' id) as HL.
  { intros g' id. unfold live. cbn. destruct (decide (g' = g)) as [->|Hne].
    - rewrite lookup_insert_eq. cbn. destruct (decide (id = nextID l + 1)) as [->|Hi].
      + by rewrite lookup_insert_eq, bool_decide_true.
      + rewrite lookup_insert_ne by done. rewrite bool_decide_false by naive_solver.
        destruct (byGrant l !! g); cbn; [done | apply lookup_empty].
    - rewrite lookup_insert_ne by done. by rewrite bool_decide_false by naive_solver. }
  split_and!; [done | | | exact HL].
  - split.
    + intros g' m. cbn. destruct (decide (g = g')) as [->|Hne].
      * rewrite lookup_insert_eq. intros [= <-]. apply insert_non_empty.
      * rewrite lookup_insert_ne by done. apply (lw_nonempty _ H).
    + intros g' id p. rewrite HL. cbn. case_bool_decide; [lia|]. intros Hp%(lw_ids _ H). lia.
    + cbn. lia.
  - destruct (live l g (nextID l + 1)) as [p|] eqn:E; [|done]. apply (lw_ids _ H) in E. lia.
Qed.

Lemma live_release g id l :
  live_wf l ->
  live_wf (release (Some (g, id)) l)
  /\ forall g' id', live (release (Some (g, id)) l) g' id'
     = if bool_decide (g' = g /\ id' = id) then None else live l g' id'.
Proof.
  intros H.
  assert (forall g' id', live (release (Some (g, id)) l) g' id'
     = if bool_decide (g' = g /\ id' = id) then None else live l g' id') as HL.
  { intros g' id'. unfold live, release. destruct (byGrant l !! g) as [m|] eqn:E.
    - destruct (Nat.eqb_spec (size (delete id m)) 0) as [Hz|Hz].
      + apply map_size_empty_iff in Hz. cbn. destruct (decide (g' = g)) as [->|Hne].
        * rewrite lookup_delete_eq, E. cbn. destruct (decide (id' = id)) as [->|Hi].
          { by rewrite bool_decide_true. }
          rewrite bool_decide_false by naive_solver. rewrite <- (lookup_delete_ne m id id') by done.
          by rewrite Hz, lookup_empty.
        * rewrite lookup_delete_ne by done. by rewrite bool_decide_false by naive_solver.
      + cbn. destruct (decide (g' = g)) as [->|Hne].
        * rewrite lookup_insert_eq, E. cbn. destruct (decide (id' = id)) as [->|Hi].
          { by rewrite lookup_delete_eq, bool_decide_true. }
          rewrite lookup_delete_ne by done. by rewrite bool_decide_false by naive_solver.
        * rewrite lookup_insert_ne by done. by rewrite bool_decide_false by naive_solver.
    - case_bool_decide as Hd; [|done]. destruct Hd as [-> ->]. by rewrite E. }
  split; [|exact HL]. split.
  - unfold release. intros g' m'. destruct (byGrant l !! g) as [m|] eqn:E; [|apply (lw_nonempty _ H)].
    destruct (Nat.eqb_spec (size (delete id m)) 0) as [Hz|Hz]; cbn.
    + intros [_ Hg]%lookup_delete_Some. by apply (lw_nonempty _ H g').
    + destruct (decide (g = g')) as [->|Hne].
      * rewrite lookup_insert_eq. intros [= <-] He. apply Hz. by rewrite He.
      * rewrite lookup_insert_ne by done. apply (lw_nonempty _ H).
  - intros g' id' p. rewrite HL. case_bool_decide; [done|]. intros Hp%(lw_ids _ H).
    unfold release. destruct (byGrant l !! g); [destruct (_ =? _)%nat|]; done.
  - unfold release. destruct (byGrant l !! g); [destruct (_ =? _)%nat|]; apply (lw_next _ H).
Qed.

Lemma collect_rest gs m g :
  (collect gs m).2 !! g = if bool_decide (g ∈ gs) then None else m !! g.
Proof.
  revert m. induction gs as [|x gs IH]; intros m; cbn; [done|].
  specialize (IH (delete x m)). destruct (collect gs (delete x m)) as [rest m']. cbn in *.
  rewrite IH. destruct (decide (g = x)) as [->|Hne].
  - rewrite (bool_decide_true (x ∈ x :: gs)) by set_solver. rewrite lookup_delete_eq.
    by destruct (bool_decide _).
  - rewrite lookup_delete_ne by done. repeat case_bool_decide; set_solver.
Qed.

(** The streams running under any of the named grants. *)
Definition under (gs : list string) (m : gmap string (gmap Z pair)) : list pair :=
  concat ((fun kv => (map_to_list kv.2).*2) <$> map_to_list (filter (fun kv => kv.1 ∈ gs) m)).

Lemma under_cons x gs m :
  under (x :: gs) m ≡ₚ (map_to_list (default ∅ (m !! x))).*2 ++ under gs (delete x m).
Proof.
  unfold under. destruct (m !! x) as [sm|] eqn:E; cbn [default].
  - assert (filter (fun kv => kv.1 ∈ x :: gs) m
      = <[x := sm]> (filter (fun kv => kv.1 ∈ gs) (delete x m))) as ->.
    { apply map_eq. intros g. destruct (decide (g = x)) as [->|Hne].
      - rewrite lookup_insert_eq. apply map_lookup_filter_Some. split; [done | cbn; set_solver].
      - rewrite lookup_insert_ne by done. apply option_eq. intros v.
        rewrite !map_lookup_filter_Some, lookup_delete_ne by done. cbn. set_solver. }
    rewrite map_to_list_insert; [done|].
    apply map_lookup_filter_None. left. apply lookup_delete_eq.
  - rewrite map_to_list_empty. cbn. f_equiv. f_equiv. f_equiv.
    apply map_eq. intros g. apply option_eq. intros v. rewrite !map_lookup_filter_Some.
    destruct (decide (g = x)) as [->|Hne].
    + rewrite lookup_delete_eq. naive_solver.
    + rewrite lookup_delete_ne by done. cbn. set_solver.
Qed.

(** Every stream of a named grant is collected exactly once, even when a grant
    is named twice. *)
Lemma collect_doomed gs m : (collect gs m).1 ≡ₚ under gs m.
Proof.
  revert m. induction gs as [|x gs IH]; intros m.
  - cbn. unfold under. assert (filter (fun kv => kv.1 ∈ []) m = ∅) as ->; [|done].
    apply map_empty. intros g. apply map_lookup_filter_None. right. cbn. set_solver.
  - rewrite under_cons. cbn. specialize (IH (delete x m)).
    destruct (collect gs (delete x m)) as [rest m']. cbn in *. by rewrite IH.
Qed.

(** Revocation reaches exactly the sessions in progress it names: the count
    reported is the number of streams running under those grants, both ends of
    each of them and of no other stream are reset with the given reason, none
    of them remains registered, every other stream is untouched, and revoking
    the same grants again reports nothing. *)
Theorem Terminate_exact gs r l :
  live_wf l ->
  exists n resets l', Terminate gs r l = (n, resets, l')
  /\ n = zlen (under gs (byGrant l))
  /\ resets ≡ₚ concat ((fun p => [(p_operator p, r); (p_agent p, r)]) <$> under gs (byGrant l))
  /\ (forall g id, live l' g id = if bool_decide (g ∈ gs) then None else live l g id)
  /\ live_wf l'
  /\ Terminate gs r l' = (0, [], l').
Proof.
  intros H. unfold Terminate at 1. pose proof (collect_doomed gs (byGrant l)) as Hd.
  pose proof (collect_rest gs (byGrant l)) as Hr.
  destruct (collect gs (byGrant l)) as [doomed m]. cbn in Hd, Hr. do 3 eexists. split; [done|].
  assert (forall g, g ∈ gs -> m !! g = None) as Hm by (intros; by rewrite Hr, bool_decide_true).
  split_and!.
  - unfold zlen. by rewrite Hd.
  - by rewrite Hd.
  - intros g id. unfold live. cbn. rewrite Hr. by case_bool_decide.
  - split.
    + intros g sm. cbn. rewrite Hr. case_bool_decide; [done|]. apply (lw_nonempty _ H).
    + intros g id p. unfold live. cbn. rewrite Hr. case_bool_decide; [done|]. apply (lw_ids _ H).
    + apply (lw_next _ H).
  - unfold Terminate. cbn [byGrant].
    assert (collect gs m = ([], m)) as ->; [|done].
    clear -Hm. induction gs as [|x gs IH]; [done|]. cbn [collect].
    rewrite Hm by set_solver. rewrite delete_id by (apply Hm; set_solver).
    rewrite IH by set_solver. done.
Qed.

Definition demo_live : LiveStreams :=
  (Add "g2" 5 6 (Add "g1" 3 4 (Add "g1" 1 2 NewLiveStreams).2).2).2.

Lemma demo_live_wf : live_wf demo_live.
Proof.
  unfold demo_live.
  assert (live_wf NewLiveStreams) as H0 by (split; unfold live; cbn; done).
  destruct (live_Add "g1" 1 2 _ _ _ H0 ltac:(done) ltac:(done) eq_refl) as (_ & H1 & _).
  destruct (live_Add "g1" 3 4 _ _ _ H1 ltac:(done) ltac:(done) eq_refl) as (_ & H2 & _).
  by destruct (live_Add "g2" 5 6 _ _ _ H2 ltac:(done) ltac:(done) eq_refl) as (_ & H3 & _).
Qed.

Lemma Terminate_exact_witness :
  exists n resets l', Terminate ["g1"; "g1"] "revoked" demo_live = (n, resets, l')
  /\ n = 2 /\ Terminate ["g1"; "g1"] "revoked" l' = (0, [], l').
Proof.
  destruct (Terminate_exact ["g1"; "g1"] "revoked" demo_live demo_live_wf)
    as (n & rs & l' & H1 & H2 & _ & _ & _ & H3).
  exists n, rs, l'. split; [exact H1|]. split; [rewrite H2; vm_compute; reflexivity | exact H3].
Defined.

(** The register tracks exactly the streams between their [Add] and their
    release: [Add] makes one new entry visible under a number never live
    before, its release removes that entry only (also after a revocation has
    already removed it), and no entry is ever left behind empty. *)
Theorem Add_release_tracks g op ag l h l' :
  live_wf l -> nextID l < 2 ^ 64 - 1 -> g <> "" -> Add g op ag l = (h, l') ->
  live_wf l' /\ live_wf (release h l')
  /\ (exists id, live l g id = None /\ live l' g id = Some (mkPair op ag)
       /\ (forall g' id', (g', id') <> (g, id) -> live l' g' id' = live l g' id'))
  /\ (forall g' id', live (release h l') g' id' = live l g' id').
Proof.
  intros H Hn Hg HA. destruct (live_Add g op ag l h l' H Hn Hg HA) as (-> & Hw & Hf & HL).
  destruct (live_release g (nextID l + 1) l' Hw) as [Hw' HR].
  split_and!; auto.
  - exists (nextID l + 1). split_and!; [done | by rewrite HL, bool_decide_true|].
    intros g' id' Hne. rewrite HL, bool_decide_false; [done | naive_solver].
  - intros g' id'. rewrite HR, HL. case_bool_decide as E; [|done]. destruct E as [-> ->]. done.
Qed.

Lemma Add_release_tracks_witness :
  forall g' id', live (release (Some ("g3", 4)) (Add "g3" 7 8 demo_live).2) g' id' = live demo_live g' id'.
Proof.
  refine (proj2 (proj2 (proj2 (Add_release_tracks "g3" 7 8 demo_live (Some ("g3", 4))
    (Add "g3" 7 8 demo_live).2 demo_live_wf _ _ _)))); [reflexivity | discriminate | reflexivity].
Defined.

End Live.
