(* ===== verification/Bridge.v ===== *)
(** * Bridging two connections

    [src/internal/bridge/bridge.go]: two goroutines copy bytes between two
    connections, sharing one byte budget that is claimed with a compare-and-swap
    before each write.

    What a source will deliver and how each write of it will go is the
    direction's script; the theorems hold for all scripts, so they cover a
    direction that is interrupted by the other one's teardown.  The shared state
    keeps, besides the variables of [JoinWithBudget], the bytes each side has
    received, the teardown calls made, and how much of the budget each direction
    has claimed (which the code does not store, and nothing executable reads). *)

From S2P Require Import Prelude GoErrors Proto Proc.

(** The connection [a] or [b]. *)
Inductive side := A | B.

Definition other (x : side) : side := match x with A => B | B => A end.

#[global] Instance side_eq_dec : EqDecision side.
Proof. solve_decision. Defined.

Inductive conn_op := OpReset (x : side) (r : reason) | OpCloseWrite (x : side) | OpClose (x : side).

(** One [src.Read] and the write of what it returned: how many bytes the
    destination accepts ([None]: all of them) and the error it reports. *)
Record io_step := mkStep {
  rd : list byte;
  rd_err : option error;
  wr_n : option nat;
  wr_err : option error
}.

Record Bridge := mkBridge {
  spent : Z;                    (* atomic.Uint64 *)
  to : side -> list byte;       (* bytes the side has received *)
  claimed : side -> Z;          (* budget claimed for bytes toward the side *)
  stats : side -> Z;            (* bytes copied toward the side, once known *)
  first : option error;
  ops : list conn_op
}.

Definition upd {X} (f : side -> X) (x : side) (v : X) : side -> X :=
  fun y => if decide (y = x) then v else f y.

Definition init : Bridge := mkBridge 0 (fun _ => []) (fun _ => 0) (fun _ => 0) None [].

Section Join.
Context (maxBytes : Z).                          (* uint64; 0: unlimited *)
Context (canReset canCloseWrite : side -> bool). (* what the connections implement *)

Definition add_op (o : conn_op) : proc Bridge unit :=
  modify (fun s => mkBridge (spent s) (to s) (claimed s) (stats s) (first s) (ops s ++ [o])).

Definition reset (x : side) (r : reason) : proc Bridge unit :=
  add_op (if canReset x then OpReset x r else OpClose x).

Definition halfClose (x : side) : proc Bridge unit :=
  add_op (if canCloseWrite x then OpCloseWrite x else OpClose x).

Definition record (e : error) : proc Bridge unit :=
  modify (fun s => mkBridge (spent s) (to s) (claimed s) (stats s)
                     (match first s with None => Some e | f => f end) (ops s)).

Definition abort (r : reason) : proc Bridge unit :=
  do _ <- reset A r; reset B r.

(** [take(want)] toward side [x]; [None] when [fuel] attempts were not enough. *)
Fixpoint take_loop (fuel : nat) (x : side) (want : Z) : proc Bridge (option Z) :=
  match fuel with
  | O => Ret None
  | S fuel' =>
      do used <- gets spent;
      if used >=? maxBytes then Ret (Some 0)
      else
        let left := maxBytes - used in
        let grant := if want >? left then left else want in
        do swapped <- act (fun s =>
          if spent s =? used
          then (true, mkBridge (used + grant) (to s) (upd (claimed s) x (claimed s x + grant))
                        (stats s) (first s) (ops s))
          else (false, s));
        if (swapped : bool) then Ret (Some grant) else take_loop fuel' x want
  end.

Definition take_budget (x : side) (want : Z) : proc Bridge (option Z) :=
  if maxBytes =? 0 then Ret (Some want) else take_loop (S (Z.to_nat maxBytes)) x want.

(** [dst.Write(b)]. *)
Definition write (x : side) (b : list byte) (st : io_step) : proc Bridge (Z * option error) :=
  act (fun s =>
    let got := match wr_n st with Some k => take k b | None => b end in
    ((zlen got, wr_err st),
     mkBridge (spent s) (upd (to s) x (to s x ++ got)) (claimed s) (stats s) (first s) (ops s))).

(** [copyOneWay(dst, src, take)] toward side [x], with the rest of the script:
    the count, the read error and the write error; [None] when [take] ran out
    of attempts. *)
Fixpoint copyOneWay (x : side) (script : list io_step) (n : Z)
    : proc Bridge (option (Z * option error * option error)) :=
  match script with
  | [] => Ret (Some (n, None, None))
  | st :: rest =>
      let nr := zlen (rd st) in
      let after (n : Z) :=
        match rd_err st with
        | Some e => if bool_decide (e = ESentinel IoEOF) then Ret (Some (n, None, None))
                    else Ret (Some (n, Some e, None))
        | None => copyOneWay x rest n
        end in
      if nr >? 0 then
        do o <- take_budget x nr;
        match o with
        | None => Ret None
        | Some allowed =>
            if allowed <? nr then
              if allowed >? 0 then
                do w <- write x (take (Z.to_nat allowed) (rd st)) st;
                Ret (Some (n + w.1, None, Some (ESentinel ErrBudgetExhausted)))
              else Ret (Some (n, None, Some (ESentinel ErrBudgetExhausted)))
            else
              do w <- write x (rd st) st;
              match w.2 with
              | Some e => Ret (Some (n + w.1, None, Some e))
              | None => if negb (w.1 =? nr) then Ret (Some (n + w.1, None, Some (ESentinel IoErrShortWrite)))
                        else after (n + w.1)
              end
        end
      else after n
  end.

Definition set_stats (x : side) (n : Z) : proc Bridge unit :=
  modify (fun s => mkBridge (spent s) (to s) (claimed s) (upd (stats s) x n) (first s) (ops s)).

(** One of the two goroutines: copy toward [x], then tear down. *)
Definition direction (x : side) (script : list io_step) : proc Bridge unit :=
  do o <- copyOneWay x script 0;
  match o with
  | None => Ret tt
  | Some (n, rerr, werr) =>
      do _ <- set_stats x n;
      match werr, rerr with
      | Some e, _ =>
          do _ <- record e;
          if errors_Is e ErrBudgetExhausted then abort ReasonLimitBytesExceeded
          else abort ReasonShutdown
      | None, Some e => do _ <- record e; abort ReasonShutdown
      | None, None => halfClose x
      end
  end.

(** After [wg.Wait()]: both sides are closed and the result is returned. *)
Definition join_result (s : Bridge) : Z * Z * option error * list conn_op :=
  (stats s B, stats s A, first s, ops s ++ [OpClose A; OpClose B]).

(** ** Specification *)

Definition script_bytes (script : list io_step) : list byte := concat (rd <$> script).

(** What a direction toward [x] leaves alone, and what it never undoes. *)
Definition rely (x : side) (s s' : Bridge) : Prop :=
  to s' x = to s x /\ claimed s' x = claimed s x /\ stats s' x = stats s x /\ spent s <= spent s'.

Definition only (x : side) (s s' : Bridge) : Prop := rely (other x) s s'.

Context (scripts : side -> list io_step).   (* toward each side *)

Record bridge_inv (s : Bridge) : Prop := {
  bi_spent : 0 < maxBytes -> 0 <= spent s <= maxBytes;
  bi_claims : 0 < maxBytes -> claimed s A + claimed s B = spent s;
  bi_bytes : forall x, 0 < maxBytes -> zlen (to s x) <= claimed s x;
  bi_prefix : forall x, to s x `prefix_of` script_bytes (scripts x);
  bi_cut : forall y, OpReset y ReasonLimitBytesExceeded ∈ ops s -> 0 < maxBytes /\ spent s = maxBytes
}.

(** ** Lemmas *)

#[local] Instance rely_pre x : PreOrder (rely x).
Proof. split; unfold rely; [by intros ? | intros ? ? ?; intuition (congruence || lia)]. Qed.

Lemma rely_same x s s' :
  to s' = to s -> claimed s' = claimed s -> stats s' = stats s -> spent s' = spent s -> rely x s s'.
Proof. intros H1 H2 H3 H4. unfold rely. rewrite H1, H2, H3, H4. split_and!; done || lia. Qed.

Lemma upd_same {X} (f : side -> X) x v : upd f x v x = v.
Proof. unfold upd. by rewrite decide_True. Qed.

Lemma upd_other {X} (f : side -> X) x v : upd f x v (other x) = f (other x).
Proof. unfold upd. by destruct x. Qed.

Lemma side_split (x y : side) : y = x \/ y = other x.
Proof. destruct x, y; auto. Qed.

Lemma claims_upd (f : side -> Z) x v : upd f x (f x + v) A + upd f x (f x + v) B = f A + f B + v.
Proof. destruct x; unfold upd; repeat case_decide; try done; lia. Qed.

(** Facts about the own direction that nobody else disturbs. *)
Definition local (x : side) (s : Bridge) (bytes : list byte) (claim : Z) : Prop :=
  to s x = bytes /\ claimed s x = claim.

Lemma local_rely x s s' b c : local x s b c -> rely x s s' -> local x s' b c.
Proof. intros [? ?] (? & ? & _). split; congruence. Qed.

(** What [take] promises the copier. *)
Definition taken (x : side) (want : Z) (b : list byte) (c : Z) (o : option Z) (s : Bridge) : Prop :=
  exists g, o = Some g /\ 0 <= g <= want /\ bridge_inv s
    /\ (0 < maxBytes -> local x s b (c + g)) /\ to s x = b
    /\ (g < want -> 0 < maxBytes /\ spent s = maxBytes).

Lemma take_loop_guarded fuel x want b c s0 :
  0 < maxBytes -> 0 <= want -> local x s0 b c -> bridge_inv s0 ->
  maxBytes - spent s0 < Z.of_nat fuel ->
  guarded bridge_inv (rely x) (only x) (taken x want b c) (take_loop fuel x want) s0.
Proof.
  intros Hm Hw. revert s0. induction fuel as [|fuel IH]; intros s0 HL HI Hf; cbn [take_loop].
  { pose proof (bi_spent _ HI Hm). change (Z.of_nat 0) with 0 in Hf. lia. }
  apply (guarded_bind _ _ _ (fun used s => used = spent s /\ local x s b c /\ bridge_inv s
    /\ spent s0 <= spent s)).
  { apply guarded_act. intros s HR HIs. cbn. split_and!; auto.
    - by apply rely_same.
    - by eapply local_rely.
    - by destruct HR as (_ & _ & _ & ?). }
  intros used s1 (-> & HL1 & HI1 & Hs1). pose proof (bi_spent _ HI1 Hm) as Hr1.
  destruct (Z.geb_spec (spent s1) maxBytes) as [Hge|Hlt].
  { exists 0. rewrite Z.add_0_r. pose proof HL1 as [HLa HLb].
    split_and!; auto; lia. }
  cbv zeta. set (g := if want >? maxBytes - spent s1 then maxBytes - spent s1 else want).
  assert (0 <= g <= want /\ g <= maxBytes - spent s1 /\ (g < want -> g = maxBytes - spent s1)) as Hg
    by (unfold g; destruct (Z.gtb_spec want (maxBytes - spent s1)); lia).
  apply (guarded_bind _ _ _ (fun ok s => bridge_inv s /\ if ok : bool
    then local x s b (c + g) /\ spent s = spent s1 + g
    else local x s b c /\ spent s1 < spent s)).
  { apply guarded_act. intros s HR HIs. pose proof (local_rely _ _ _ _ _ HL1 HR) as [HLa HLb].
    destruct (Z.eqb_spec (spent s) (spent s1)) as [E|E]; cbn [fst snd].
    - assert (bridge_inv (mkBridge (spent s1 + g) (to s) (upd (claimed s) x (claimed s x + g))
        (stats s) (first s) (ops s))) as HI'.
      { destruct HIs as [H1 H2 H3 H4 H5]. split; cbn; auto; [lia | | |].
        3: { intros y Hy%H5. lia. }
        - intros _. rewrite claims_upd. specialize (H2 Hm). lia.
        - intros y _. specialize (H3 y Hm). destruct (side_split x y) as [->| ->];
            [rewrite upd_same; lia | by rewrite upd_other]. }
      split_and!; auto.
      + unfold only, rely. cbn. rewrite upd_other. split_and!; auto. lia.
      + unfold local. cbn. rewrite upd_same, HLb. auto.
    - destruct HR as (_ & _ & _ & ?). split_and!; auto; [by apply rely_same | | lia].
      by split. }
  intros [|] s2 [HI2 H2].
  - destruct H2 as [HL2 Hsp]. exists g. pose proof HL2 as [HLa HLb].
    split_and!; auto; lia.
  - destruct H2 as [HL2 Hsp]. apply IH; auto. lia.
Qed.

Lemma take_guarded x want b c s0 :
  0 <= maxBytes -> 0 <= want -> local x s0 b c -> bridge_inv s0 ->
  guarded bridge_inv (rely x) (only x) (taken x want b c) (take_budget x want) s0.
Proof.
  intros Hm Hw HL HI. unfold take_budget. destruct (Z.eqb_spec maxBytes 0) as [E|E].
  - cbn. exists want. destruct HL as [HLa HLb]. split_and!; auto; lia || (intros; lia).
  - apply take_loop_guarded; auto; [lia|]. pose proof (bi_spent _ HI ltac:(lia)). lia.
Qed.

(** A write of claimed bytes that continue the script. *)
Lemma write_guarded x b st done c s0 :
  to s0 x = done -> bridge_inv s0 ->
  (0 < maxBytes -> claimed s0 x = c /\ zlen done + zlen b <= c) ->
  (done ++ b) `prefix_of` script_bytes (scripts x) ->
  guarded bridge_inv (rely x) (only x)
    (fun w s => exists got, got `prefix_of` b /\ w.1 = zlen got /\ w.2 = wr_err st
       /\ to s x = done ++ got /\ bridge_inv s /\ spent s0 <= spent s
       /\ (0 < maxBytes -> claimed s x = c))
    (write x b st) s0.
Proof.
  intros Hd HI Hc Hp. apply guarded_act. intros s (E1 & E2 & E3 & E4) HIs. cbn [fst snd].
  set (got := match wr_n st with Some k => take k b | None => b end).
  assert (got `prefix_of` b) as Hg.
  { unfold got. destruct (wr_n st) as [k|]; [|done]. exists (drop k b). by rewrite take_drop. }
  assert (zlen got <= zlen b) as Hz by (pose proof (prefix_length _ _ Hg); unfold zlen; lia).
  clearbody got.
  rewrite Hd in E1.
  match goal with |- bridge_inv ?s' /\ _ => assert (bridge_inv s') as HI' end.
  { destruct HIs as [H1 H2 H3 H4 H5]. split; cbn; auto.
    - intros y Hm. destruct (side_split x y) as [->| ->]; [|rewrite upd_other; auto].
      rewrite upd_same, E1, zlen_app, E2. destruct (Hc Hm). lia.
    - intros y. destruct (side_split x y) as [->| ->]; [|rewrite upd_other; auto].
      rewrite upd_same, E1. etrans; [|exact Hp]. by apply prefix_app. }
  split_and!; [done | |].
  - unfold only, rely. cbn. rewrite upd_other. split_and!; done || lia.
  - exists got. split_and!; try done; cbn; [by rewrite upd_same, E1|].
    intros Hm. destruct (Hc Hm). congruence.
Qed.

(** Errors a destination reports that are not the bridge's own. *)
Definition foreign (st : io_step) : Prop :=
  forall e, wr_err st = Some e -> errors_Is e ErrBudgetExhausted = false.

Definition copied (x : side) (o : option (Z * option error * option error)) (s : Bridge) : Prop :=
  exists n rerr werr, o = Some (n, rerr, werr) /\ n = zlen (to s x) /\ bridge_inv s
    /\ (forall e, werr = Some e -> errors_Is e ErrBudgetExhausted = true ->
         0 < maxBytes /\ spent s = maxBytes).

Lemma copy_guarded x script n s0 done c :
  0 <= maxBytes -> Forall foreign script -> to s0 x = done -> bridge_inv s0 ->
  (0 < maxBytes -> claimed s0 x = c) ->
  (done ++ script_bytes script) `prefix_of` script_bytes (scripts x) -> n = zlen done ->
  guarded bridge_inv (rely x) (only x) (copied x) (copyOneWay x script n) s0.
Proof.
  intros Hm Hf. revert n s0 done c.
  induction script as [|st rest IH]; intros n s0 done c Hd HI Hc Hp Hn; cbn [copyOneWay].
  { cbn. exists n, None, None. subst. split_and!; done. }
  inversion_clear Hf as [|? ? Hst Hrest]. specialize (IH Hrest). cbv zeta.
  change (script_bytes (st :: rest)) with (rd st ++ script_bytes rest) in Hp.
  (* what follows a fully written chunk *)
  assert (forall s1 c1, to s1 x = done ++ rd st -> bridge_inv s1 -> (0 < maxBytes -> claimed s1 x = c1) ->
    guarded bridge_inv (rely x) (only x) (copied x)
      match rd_err st with
      | Some e => if bool_decide (e = ESentinel IoEOF) then Ret (Some (n + zlen (rd st), None, None))
                  else Ret (Some (n + zlen (rd st), Some e, None))
      | None => copyOneWay x rest (n + zlen (rd st))
      end s1) as Hafter.
  { intros s1 c1 Hd1 HI1 Hc1. destruct (rd_err st) as [e|].
    - case_bool_decide; (eexists _, _, _; split; [reflexivity|]);
        rewrite Hd1, zlen_app; split_and!; auto; lia || done.
    - apply (IH _ _ (done ++ rd st) c1); auto; [by rewrite <- app_assoc | rewrite zlen_app; lia]. }
  destruct (Z.gtb_spec (zlen (rd st)) 0) as [Hnr|Hnr].
  2: { assert (rd st = []) as E by (apply zlen_zero; pose proof (zlen_nonneg (rd st)); lia).
       pose proof (Hafter s0 c) as Ha. rewrite E, (zlen_nil (A := byte)), Z.add_0_r in Ha.
       apply Ha; auto. by rewrite app_nil_r. }
  eapply guarded_bind.
  { apply (take_guarded x (zlen (rd st)) done (claimed s0 x)); auto; [lia | by split]. }
  intros o s1 (g & -> & Hg & HI1 & HL1 & Hd1 & Hcut).
  assert (forall k, (done ++ take k (rd st)) `prefix_of` script_bytes (scripts x)) as Hpk.
  { intros k. etrans; [|exact Hp]. apply prefix_app. exists (drop k (rd st) ++ script_bytes rest).
    by rewrite app_assoc, take_drop. }
  assert (0 < maxBytes -> zlen done + g <= claimed s1 x) as Hroom.
  { intros H. destruct (HL1 H) as [_ ->]. pose proof (bi_bytes _ HI x H) as Hb. rewrite Hd in Hb. lia. }
  destruct (Z.ltb_spec g (zlen (rd st))) as [Hlt|Hge].
  - destruct (Hcut Hlt) as [Hpos Hsp].
    destruct (Z.gtb_spec g 0) as [Hg0|Hg0].
    + eapply guarded_bind.
      { apply (write_guarded x _ st done (claimed s1 x)); auto. intros H. split; [done|].
        rewrite zlen_take. specialize (Hroom H). lia. }
      intros w s2 (got & _ & Hw1 & _ & Hd2 & HI2 & Hsp2 & _). cbn.
      eexists _, _, _. split; [reflexivity|]. rewrite Hd2, zlen_app.
      pose proof (bi_spent _ HI2 Hpos). split_and!; auto; lia || (intros; split; lia).
    + cbn. eexists _, _, _. split; [reflexivity|]. rewrite Hd1. split_and!; auto.
  - assert (g = zlen (rd st)) as -> by lia.
    eapply guarded_bind.
    { apply (write_guarded x _ st done (claimed s1 x)); auto.
      specialize (Hpk (length (rd st))). by rewrite firstn_all in Hpk. }
    intros w s2 (got & Hpre & Hw1 & Hw2 & Hd2 & HI2 & _ & Hc2). rewrite Hw2.
    destruct (wr_err st) as [e|] eqn:Ee.
    + cbn. eexists _, _, _. split; [reflexivity|]. rewrite Hd2, zlen_app. split_and!; auto; [lia|].
      intros e' [= <-] Hb. by rewrite (Hst e Ee) in Hb.
    + destruct (Z.eqb_spec w.1 (zlen (rd st))) as [Ew|Ew]; cbn [negb].
      * rewrite Ew. assert (got = rd st) as -> by (apply prefix_length_eq; [done|]; unfold zlen in *; lia).
        by apply (Hafter s2 (claimed s1 x)).
      * cbn. eexists _, _, _. split; [reflexivity|]. rewrite Hd2, zlen_app. split_and!; auto; [lia|].
        by intros e [= <-].
Qed.

Definition settled (x : side) (_ : unit) (s : Bridge) : Prop := stats s x = zlen (to s x).

Lemma settled_rely x s s' : settled x tt s -> rely x s s' -> settled x tt s'.
Proof. unfold settled. intros E (-> & _ & -> & _). done. Qed.

(** An action that touches neither bytes nor budget. *)
Lemma quiet_guarded x f s0 :
  settled x tt s0 ->
  (forall s, to (f s) = to s /\ claimed (f s) = claimed s /\ stats (f s) = stats s
             /\ spent (f s) = spent s) ->
  (forall s y, spent s0 <= spent s -> bridge_inv s ->
     OpReset y ReasonLimitBytesExceeded ∈ ops (f s) -> 0 < maxBytes /\ spent s = maxBytes) ->
  guarded bridge_inv (rely x) (only x)
    (fun _ s => settled x tt s /\ bridge_inv s /\ spent s0 <= spent s) (modify f) s0.
Proof.
  intros Hs Hf Hc. apply guarded_act. intros s HR HI. cbn. destruct (Hf s) as (E1 & E2 & E3 & E4).
  pose proof (settled_rely _ _ _ Hs HR) as Hs'. destruct HR as (_ & _ & _ & Hsp).
  assert (bridge_inv (f s)) as HI'.
  { pose proof (Hc s) as Hcs. pose proof HI as [H1 H2 H3 H4 H5].
    split; rewrite ?E1, ?E2, ?E4; auto. intros y Hy. by eapply Hcs. }
  unfold settled in *. rewrite E1, E3, E4. split_and!; auto. by apply rely_same.
Qed.

Lemma add_op_guarded x o s0 :
  settled x tt s0 -> bridge_inv s0 ->
  (forall y, o = OpReset y ReasonLimitBytesExceeded -> 0 < maxBytes /\ spent s0 = maxBytes) ->
  guarded bridge_inv (rely x) (only x)
    (fun _ s => settled x tt s /\ bridge_inv s /\ spent s0 <= spent s) (add_op o) s0.
Proof.
  intros Hs HI Ho. apply quiet_guarded; [done | done|]. intros s y Hsp HIs. cbn.
  rewrite elem_of_app, list_elem_of_singleton. intros [Hy|Hy]; [by eapply bi_cut|].
  destruct (Ho y (eq_sym Hy)) as [Hm E]. split; [done|]. pose proof (bi_spent _ HIs Hm). lia.
Qed.

Lemma abort_guarded x r s0 :
  settled x tt s0 -> bridge_inv s0 ->
  (r = ReasonLimitBytesExceeded -> 0 < maxBytes /\ spent s0 = maxBytes) ->
  guarded bridge_inv (rely x) (only x) (settled x) (abort r) s0.
Proof.
  intros Hs HI Hr. unfold abort, reset. eapply guarded_bind.
  - apply add_op_guarded; auto. intros y. destruct (canReset A); [intros [= _ ->]; by apply Hr | done].
  - intros _ s1 (Hs1 & HI1 & Hsp). eapply guarded_weaken.
    + apply add_op_guarded; auto. intros y. destruct (canReset B); [|done]. intros [= _ ->].
      destruct Hr as [Hm E]; [done|]. pose proof (bi_spent _ HI1 Hm). lia.
    + by intros [] s (? & _).
Qed.

Lemma direction_guarded x s0 :
  0 <= maxBytes -> Forall foreign (scripts x) -> to s0 x = [] -> bridge_inv s0 ->
  guarded bridge_inv (rely x) (only x) (settled x) (direction x (scripts x)) s0.
Proof.
  intros Hm Hf Hd HI. unfold direction. eapply guarded_bind.
  { by apply (copy_guarded x (scripts x) 0 s0 [] (claimed s0 x)). }
  intros o s1 (n & rerr & werr & -> & Hn & HI1 & Hcut). eapply guarded_bind.
  { apply (guarded_act _ _ _ (fun _ s => settled x tt s /\ bridge_inv s /\ spent s1 <= spent s)).
    intros s (E1 & E2 & E3 & E4) HIs. cbn.
    assert (bridge_inv (mkBridge (spent s) (to s) (claimed s) (upd (stats s) x n) (first s) (ops s))) as HI'
      by (destruct HIs; by split).
    split_and!; auto.
    - unfold only, rely. cbn. rewrite upd_other. split_and!; done || lia.
    - unfold settled. cbn. rewrite upd_same. congruence. }
  intros _ s2 (Hs2 & HI2 & Hsp2).
  assert (forall e, guarded bridge_inv (rely x) (only x)
    (fun _ s => settled x tt s /\ bridge_inv s /\ spent s2 <= spent s) (record e) s2) as Hrec.
  { intros e. apply quiet_guarded; [done | done|]. intros s y _ HIs Hy. by eapply bi_cut. }
  destruct werr as [e|]; [|destruct rerr as [e|]].
  - eapply guarded_bind; [apply Hrec|]. intros _ s3 (Hs3 & HI3 & Hsp3).
    destruct (errors_Is e ErrBudgetExhausted) eqn:Eb; [|by apply abort_guarded].
    apply abort_guarded; [done | done|]. intros _. destruct (Hcut e eq_refl Eb) as [Hpos E].
    split; [done|]. pose proof (bi_spent _ HI3 Hpos). lia.
  - eapply guarded_bind; [apply Hrec|]. intros _ s3 (Hs3 & HI3 & Hsp3). by apply abort_guarded.
  - unfold halfClose. eapply guarded_weaken.
    + apply add_op_guarded; [done | done|]. intros y. by destruct (canCloseWrite x).
    + by intros [] s (? & _).
Qed.

Lemma init_inv : 0 <= maxBytes -> bridge_inv init.
Proof.
  intros Hm. split; cbn; try lia; try done.
  - intros x. apply prefix_nil.
  - by intros y ?%elem_of_nil.
Qed.

(** Everything that holds of any interleaving of the two goroutines. *)
Lemma join_reachable s ps :
  0 <= maxBytes -> (forall x, Forall foreign (scripts x)) ->
  rtc (pool_step (fun _ => False)) (init, [direction B (scripts B); direction A (scripts A)]) (s, ps) ->
  bridge_inv s /\ (ps = [Ret tt; Ret tt] -> settled A tt s /\ settled B tt s).
Proof.
  intros Hm Hf Hr.
  apply (guarded_pair bridge_inv (rely B) (only B) (rely A) (only A) (settled B) (settled A)) in Hr
    as [HI (p & q & -> & Hp & Hq)]; auto using init_inv, direction_guarded.
  - split; [done|]. by intros [= -> ->].
  - intros [] ? ?. apply settled_rely.
  - intros [] ? ?. apply settled_rely.
Qed.

(** Running one direction alone, without a budget, over a script on which every
    write succeeds in full. *)
Definition smooth (st : io_step) : Prop := rd_err st = None /\ wr_n st = None /\ wr_err st = None.

Lemma run_copy_smooth x script last n s :
  maxBytes = 0 -> Forall smooth script -> Forall (fun st => rd st = []) last ->
  (last = [] \/ exists st e, last = [st] /\ rd_err st = Some e) ->
  exists s', run (copyOneWay x (script ++ last) n) s
    = Some (Some (n + zlen (script_bytes script),
                  match last with
                  | st :: _ => match rd_err st with
                               | Some e => if bool_decide (e = ESentinel IoEOF) then None else Some e
                               | None => None
                               end
                  | [] => None
                  end, None), s')
    /\ to s' x = to s x ++ script_bytes script /\ to s' (other x) = to s (other x)
    /\ stats s' = stats s /\ first s' = first s /\ ops s' = ops s.
Proof.
  intros Hm Hs Hl Hlast. revert n s. induction Hs as [|st script (H1 & H2 & H3) Hs IH]; intros n s.
  - cbn [app]. destruct Hlast as [->|(st & e & -> & He)].
    + exists s. cbn -[zlen]. change (zlen (script_bytes [])) with 0. rewrite Z.add_0_r, app_nil_r. done.
    + inversion_clear Hl as [|? ? Hnil _]. cbn [copyOneWay]. rewrite Hnil, He.
      change (zlen [] >? 0) with false. cbv iota zeta. exists s.
      change (zlen (script_bytes [])) with 0. change (script_bytes []) with (@nil byte).
      rewrite Z.add_0_r, app_nil_r. by case_bool_decide.
  - cbn [app copyOneWay]. rewrite H1. cbv zeta.
    assert (n + zlen (script_bytes (st :: script)) = n + zlen (rd st) + zlen (script_bytes script)) as ->
      by (change (script_bytes (st :: script)) with (rd st ++ script_bytes script); rewrite zlen_app; lia).
    change (script_bytes (st :: script)) with (rd st ++ script_bytes script). rewrite app_assoc.
    destruct (Z.gtb_spec (zlen (rd st)) 0) as [Hpos|Hz].
    + unfold take_budget, write. rewrite Hm. cbn [Z.eqb proc_bind]. rewrite Z.ltb_irrefl.
      rewrite run_bind, run_act. cbv zeta. rewrite H2, H3. cbn [fst snd].
      rewrite Z.eqb_refl. cbn [negb].
      match goal with |- context [run _ ?s1] => destruct (IH (n + zlen (rd st)) s1) as (s' & -> & E1 & E2 & E3) end.
      exists s'. cbn in E1, E2, E3. rewrite upd_same in E1. rewrite upd_other in E2. done.
    + assert (rd st = []) as E by (apply zlen_zero; pose proof (zlen_nonneg (rd st)); lia).
      rewrite E, (zlen_nil (A := byte)), Z.add_0_r, app_nil_r. apply IH.
Qed.

End Join.

Lemma budget_total maxBytes canReset canCloseWrite scripts s ps :
  0 < maxBytes -> (forall x, Forall foreign (scripts x)) ->
  rtc (pool_step (fun _ => False))
    (init, [direction maxBytes canReset canCloseWrite B (scripts B);
            direction maxBytes canReset canCloseWrite A (scripts A)]) (s, ps) ->
  zlen (to s A) + zlen (to s B) <= maxBytes.
Proof.
  intros Hm Hf Hr. apply join_reachable in Hr as [[H1 H2 H3 _ _] _]; [|lia|done].
  pose proof (H3 A Hm). pose proof (H3 B Hm). specialize (H1 Hm). lia.
Qed.

(** ** Properties *)

(** C18.  The byte budget is exact and shared: whatever the two goroutines read,
    however their writes go and however they interleave, the two connections
    never receive more than [maxBytes] bytes in total; each receives a prefix
    of what the other side sent (nothing reordered, duplicated or invented);
    and the pair is cut for the limit only when the budget has been claimed to
    the last byte. *)
Theorem budget_exact maxBytes canReset canCloseWrite scripts s ps :
  0 < maxBytes -> (forall x, Forall foreign (scripts x)) ->
  rtc (pool_step (fun _ => False))
    (init, [direction maxBytes canReset canCloseWrite B (scripts B);
            direction maxBytes canReset canCloseWrite A (scripts A)]) (s, ps) ->
  zlen (to s A) + zlen (to s B) <= maxBytes
  /\ (forall x, to s x `prefix_of` script_bytes (scripts x))
  /\ (forall y, OpReset y ReasonLimitBytesExceeded ∈ ops s -> spent s = maxBytes).
Proof.
  intros Hm Hf Hr. apply join_reachable in Hr as [[H1 H2 H3 H4 H5] _]; [|lia|done].
  pose proof (H3 A Hm). pose proof (H3 B Hm). specialize (H1 Hm). specialize (H2 Hm).
  split_and!; [lia | done | intros y Hy; by apply (H5 y)].
Qed.

(** Accounting: when both goroutines have finished, the statistics returned
    are exactly the bytes each connection received, with or without a budget,
    on every path. *)
Theorem join_stats maxBytes canReset canCloseWrite scripts s :
  0 <= maxBytes -> (forall x, Forall foreign (scripts x)) ->
  rtc (pool_step (fun _ => False))
    (init, [direction maxBytes canReset canCloseWrite B (scripts B);
            direction maxBytes canReset canCloseWrite A (scripts A)]) (s, [Ret tt; Ret tt]) ->
  join_result s = (zlen (to s B), zlen (to s A), first s, ops s ++ [OpClose A; OpClose B]).
Proof.
  intros Hm Hf Hr. apply join_reachable in Hr as [_ Hs]; [|done|done].
  unfold join_result, settled in *. destruct (Hs eq_refl) as [-> ->]. done.
Qed.

(** Half-close versus abort: a source that ends cleanly has everything it
    sent delivered and only the send direction of the far side closed, so the
    reply can still come back; a source that breaks has what it sent delivered
    and then both sides aborted. *)
Theorem direction_teardown canReset canCloseWrite x script e s :
  Forall smooth script -> e <> ESentinel IoEOF ->
  (exists s', run (direction 0 canReset canCloseWrite x script) s = Some (tt, s')
     /\ to s' x = to s x ++ script_bytes script /\ first s' = first s
     /\ ops s' = ops s ++ [if canCloseWrite x then OpCloseWrite x else OpClose x])
  /\ (exists s', run (direction 0 canReset canCloseWrite x (script ++ [mkStep [] (Some e) None None])) s
       = Some (tt, s')
     /\ to s' x = to s x ++ script_bytes script
     /\ first s' = Some (default e (first s))
     /\ ops s' = ops s ++ [if canReset A then OpReset A ReasonShutdown else OpClose A;
                            if canReset B then OpReset B ReasonShutdown else OpClose B]).
Proof.
  intros Hs He. split.
  - destruct (run_copy_smooth 0 x script [] 0 s) as (s1 & R & E1 & E2 & E3 & E4 & E5); auto.
    rewrite app_nil_r in R. unfold direction. rewrite run_bind, R. eexists. split; [reflexivity|].
    cbn. by rewrite E1, E4, E5.
  - destruct (run_copy_smooth 0 x script [mkStep [] (Some e) None None] 0 s)
      as (s1 & R & E1 & E2 & E3 & E4 & E5); auto; [right; eauto|].
    cbn [rd_err] in R. rewrite bool_decide_false in R by done.
    unfold direction. rewrite run_bind, R. eexists. split; [reflexivity|].
    cbn. rewrite E1, E4, E5, <- app_assoc. by destruct (first s).
Qed.

(** ** Witnesses *)

Definition demo_scripts (x : side) : list io_step :=
  match x with
  | B => [mkStep [x01; x02; x03] None None None; mkStep [x04] None None None]
  | A => [mkStep [x11; x12] None None None]
  end.

Definition demo_dirs (maxBytes : Z) : list (proc Bridge unit) :=
  [direction maxBytes (fun _ => true) (fun _ => true) B (demo_scripts B);
   direction maxBytes (fun _ => true) (fun _ => true) A (demo_scripts A)].

Lemma demo_foreign : forall x, Forall foreign (demo_scripts x).
Proof. intros []; repeat constructor; by intros ?. Qed.

(** A budget of four, the two goroutines alternating. *)
Definition demo_order : list nat := [0; 1; 0; 1; 1; 1; 0; 0; 0; 0; 0; 0]%nat.

Lemma budget_exact_witness :
  exists s ps, sched demo_order init (demo_dirs 4) = Some (s, ps)
  /\ zlen (to s A) + zlen (to s B) <= 4.
Proof.
  destruct (sched demo_order init (demo_dirs 4)) as [[s ps]|] eqn:E; [|vm_compute in E; discriminate E].
  exists s, ps. split; [reflexivity|].
  refine (proj1 (budget_exact 4 (fun _ => true) (fun _ => true) demo_scripts s ps _ demo_foreign _));
    [reflexivity | exact (sched_steps _ _ _ _ _ E)].
Defined.

Lemma join_stats_witness :
  exists s, sched [0; 1; 0; 1; 1; 0; 0]%nat init (demo_dirs 0) = Some (s, [Ret tt; Ret tt])
  /\ join_result s = (zlen (to s B), zlen (to s A), first s, ops s ++ [OpClose A; OpClose B]).
Proof.
  assert (exists s, sched [0; 1; 0; 1; 1; 0; 0]%nat init (demo_dirs 0) = Some (s, [Ret tt; Ret tt]))
    as [s E] by (eexists; vm_compute; reflexivity).
  exists s. split; [exact E|].
  refine (join_stats 0 (fun _ => true) (fun _ => true) demo_scripts s _ demo_foreign _);
    [lia | exact (sched_steps _ _ _ _ _ E)].
Defined.

Lemma direction_teardown_witness :
  exists s', run (direction 0 (fun _ => true) (fun _ => true) B (demo_scripts B)) init = Some (tt, s')
     /\ to s' B = [x01; x02; x03; x04] /\ first s' = None /\ ops s' = [OpCloseWrite B].
Proof.
  apply (direction_teardown (fun _ => true) (fun _ => true) B (demo_scripts B) (EMsg "reset") init);
    [repeat constructor | discriminate].
Defined.
