(* ===== verification/Policy.v ===== *)
(** * Policy

    [src/internal/control/policy/policy.go] and [load.go]: the allow-only rule
    set and its evaluation.  Reading and parsing the JSON file is a library
    matter; what [LoadRules] checks of the parsed rules is modelled. *)

From S2P Require Import Prelude GoErrors GoTime Proto Grant.

(** [type Effect string]. *)
Definition EffectAllow : string := "allow".

Record Rule := mkRule {
  PolicyID : string;
  Principals : list string;
  Devices : list string;
  Resources : list string;
  MaxTTL : duration;
  Effect : string
}.

Record Decision := mkDecision {
  Allowed : bool;
  d_MaxTTL : duration;
  d_PolicyID : string;
  d_Reason : reason
}.

Fixpoint contains (l : list string) (want : string) : bool :=
  match l with
  | [] => false
  | v :: l' => if bool_decide (v = want) then true else contains l' want
  end.

Definition denied : Decision := mkDecision false 0 "" ReasonPolicyDenied.

Definition rule_ttl (r : Rule) : duration :=
  if (MaxTTL r <=? 0) || (MaxTTL r >? MaxGrantTTL) then MaxGrantTTL else MaxTTL r.

(** One iteration of the loop over the rules. *)
Definition consider (userID deviceID resourceID : string) (best : Decision) (r : Rule) : Decision :=
  if negb (bool_decide (Effect r = EffectAllow)) then best
  else if negb (contains (Principals r) userID) || negb (contains (Devices r) deviceID)
          || negb (contains (Resources r) resourceID) then best
  else
    let ttl := rule_ttl r in
    if negb (Allowed best) || (ttl >? d_MaxTTL best)
    then mkDecision true ttl (PolicyID r) ReasonOK
    else best.

Definition Evaluate (rules : list Rule) (userID deviceID resourceID : string) : Decision :=
  if bool_decide (userID = "") || bool_decide (deviceID = "") || bool_decide (resourceID = "")
  then denied
  else foldl (consider userID deviceID resourceID) denied rules.

(** The checks of [LoadRules] on parsed rules. *)
Fixpoint LoadRules_check (rules : list Rule) : res unit :=
  match rules with
  | [] => Ok tt
  | r :: rules' =>
      if bool_decide (PolicyID r = "") then Err (EMsg "policy has no policy_id")
      else if negb (bool_decide (Effect r = EffectAllow)) then Err (EMsg "policy has effect")
      else if (zlen (Principals r) =? 0) || (zlen (Devices r) =? 0) || (zlen (Resources r) =? 0)
      then Err (EMsg "policy has an empty principals, devices, or resources list")
      else LoadRules_check rules'
  end.

(** ** Specification: the rule set as a union *)

(** A rule allows a request when it names all three of its parts. *)
Definition matches (u d x : string) (r : Rule) : Prop :=
  Effect r = EffectAllow /\ u ∈ Principals r /\ d ∈ Devices r /\ x ∈ Resources r.

#[global] Instance matches_dec u d x r : base.Decision (matches u d x r).
Proof. unfold matches. apply _. Defined.

Definition complete (u d x : string) : Prop := u <> "" /\ d <> "" /\ x <> "".

(** ** Lemmas *)

Lemma contains_iff l w : contains l w = true <-> w ∈ l.
Proof.
  induction l as [|v l IH]; cbn; [split; [done | by intros ?%elem_of_nil]|].
  rewrite elem_of_cons. case_bool_decide; naive_solver.
Qed.

Lemma rule_ttl_range r : 0 < rule_ttl r <= MaxGrantTTL.
Proof.
  unfold rule_ttl. assert (0 < MaxGrantTTL) by done.
  destruct (Z.leb_spec (MaxTTL r) 0), (Z.gtb_spec (MaxTTL r) MaxGrantTTL); cbn; lia.
Qed.

Lemma consider_match u d x best r :
  consider u d x best r
  = if bool_decide (matches u d x r)
    then if negb (Allowed best) || (rule_ttl r >? d_MaxTTL best)
         then mkDecision true (rule_ttl r) (PolicyID r) ReasonOK else best
    else best.
Proof.
  unfold consider. destruct (bool_decide_reflect (matches u d x r)) as [(E & H1 & H2 & H3)|Hn].
  - rewrite (bool_decide_true (Effect r = EffectAllow)) by done.
    by rewrite (proj2 (contains_iff _ _) H1), (proj2 (contains_iff _ _) H2), (proj2 (contains_iff _ _) H3).
  - destruct (bool_decide_reflect (Effect r = EffectAllow)); cbn [negb]; [|done].
    destruct (contains (Principals r) u) eqn:E1, (contains (Devices r) d) eqn:E2,
      (contains (Resources r) x) eqn:E3; cbn [negb orb]; try done.
    destruct Hn. by split_and!; [|apply contains_iff..].
Qed.

(** What the loop has established after some of the rules. *)
Definition loop_inv (u d x : string) (seen : list Rule) (best : Decision) : Prop :=
  (best = denied /\ forall r, r ∈ seen -> ~ matches u d x r)
  \/ (exists r, r ∈ seen /\ matches u d x r
      /\ best = mkDecision true (rule_ttl r) (PolicyID r) ReasonOK
      /\ forall r', r' ∈ seen -> matches u d x r' -> rule_ttl r' <= rule_ttl r).

Lemma consider_inv u d x seen best r :
  loop_inv u d x seen best -> loop_inv u d x (seen ++ [r]) (consider u d x best r).
Proof.
  intros H. rewrite consider_match. unfold loop_inv in *.
  setoid_rewrite elem_of_app. setoid_rewrite list_elem_of_singleton.
  case_bool_decide as Hm.
  - destruct H as [[-> Hn]|(r0 & Hr0 & Hm0 & -> & Hmax)]; cbn [negb orb Allowed denied d_MaxTTL].
    + right. exists r. split_and!; auto. intros r' [Hr'| ->] Hm'; [by destruct (Hn r') | lia].
    + right. destruct (Z.gtb_spec (rule_ttl r) (rule_ttl r0)).
      * exists r. split_and!; auto. intros r' [Hr'| ->] Hm'; [|lia]. specialize (Hmax r' Hr' Hm'). lia.
      * exists r0. split_and!; auto. intros r' [Hr'| ->] Hm'; auto.
  - destruct H as [[-> Hn]|(r0 & Hr0 & Hm0 & -> & Hmax)].
    + left. split; [done|]. intros r' [Hr'| ->]; auto.
    + right. exists r0. split_and!; auto. intros r' [Hr'| ->] Hm'; [auto | done].
Qed.

Lemma foldl_inv u d x rules seen best :
  loop_inv u d x seen best -> loop_inv u d x (seen ++ rules) (foldl (consider u d x) best rules).
Proof.
  revert seen best. induction rules as [|r rules IH]; intros seen best H; cbn; [by rewrite app_nil_r|].
  rewrite cons_middle, app_assoc. by apply IH, consider_inv.
Qed.

Lemma Evaluate_inv rules u d x :
  complete u d x -> loop_inv u d x rules (Evaluate rules u d x).
Proof.
  intros (H1 & H2 & H3). unfold Evaluate. rewrite !bool_decide_false by done. cbn [orb].
  apply (foldl_inv u d x rules []). left. split; [done|]. by intros r ?%elem_of_nil.
Qed.

(** ** Properties *)

(** Deny by default, and only by a rule: a request is allowed if and only if
    it is complete and some rule names its user, its device and its resource;
    a denial always carries [policy_denied] and no lifetime. *)
Theorem Evaluate_allowed_iff rules u d x :
  (Allowed (Evaluate rules u d x) = true
   <-> complete u d x /\ exists r, r ∈ rules /\ matches u d x r)
  /\ (Allowed (Evaluate rules u d x) = false -> Evaluate rules u d x = denied).
Proof.
  destruct (decide (u = "" \/ d = "" \/ x = "")) as [Hi|Hc].
  - assert (Evaluate rules u d x = denied) as ->.
    { unfold Evaluate. replace (_ || _ || _) with true; [done|]. symmetry.
      rewrite !orb_true_iff, !bool_decide_eq_true. tauto. }
    split; [|done]. unfold complete. split; [done | tauto].
  - assert (complete u d x) as Hcm by (unfold complete; tauto).
    destruct (Evaluate_inv rules u d x Hcm) as [[-> Hn]|(r & Hr & Hm & -> & _)]; cbn.
    + split; [split; [done|] | done]. intros [_ (r & Hr & Hm)]. by destruct (Hn r Hr).
    + split; [split; eauto | done].
Qed.

(** The lifetime offered is the best any matching rule offers, capped at
    (and defaulting to) the system ceiling, and the policy named in the record
    is one that matches and offers exactly that lifetime. *)
Theorem Evaluate_best_ttl rules u d x :
  Allowed (Evaluate rules u d x) = true ->
  0 < d_MaxTTL (Evaluate rules u d x) <= MaxGrantTTL
  /\ (exists r, r ∈ rules /\ matches u d x r /\ PolicyID r = d_PolicyID (Evaluate rules u d x)
        /\ rule_ttl r = d_MaxTTL (Evaluate rules u d x))
  /\ (forall r, r ∈ rules -> matches u d x r -> rule_ttl r <= d_MaxTTL (Evaluate rules u d x)).
Proof.
  intros HA. assert (complete u d x) as Hc.
  { unfold Evaluate in HA. unfold complete.
    destruct (bool_decide_reflect (u = "")), (bool_decide_reflect (d = "")),
      (bool_decide_reflect (x = "")); cbn in HA; done. }
  destruct (Evaluate_inv rules u d x Hc) as [[E _]|(r & Hr & Hm & E & Hmax)]; rewrite E in *; [done|].
  cbn. split_and!; eauto; apply rule_ttl_range.
Qed.

(** Rules are a union: the decision and the lifetime do not depend on the
    order of the rules, and adding rules never withdraws or shortens access. *)
Theorem Evaluate_union rules rules' u d x :
  rules ⊆ rules' ->
  (Allowed (Evaluate rules u d x) = true -> Allowed (Evaluate rules' u d x) = true)
  /\ d_MaxTTL (Evaluate rules u d x) <= d_MaxTTL (Evaluate rules' u d x)
  /\ (rules ≡ₚ rules' -> Allowed (Evaluate rules u d x) = Allowed (Evaluate rules' u d x)
      /\ d_MaxTTL (Evaluate rules u d x) = d_MaxTTL (Evaluate rules' u d x)).
Proof.
  intros Hsub. destruct (decide (complete u d x)) as [Hc|Hc].
  2: { assert (forall rs, Evaluate rs u d x = denied) as E.
       { intros rs. unfold Evaluate. destruct (bool_decide_reflect (u = "")),
           (bool_decide_reflect (d = "")), (bool_decide_reflect (x = "")); try done.
         exfalso. by apply Hc. }
       by rewrite !E. }
  pose proof (Evaluate_inv rules u d x Hc) as H1. pose proof (Evaluate_inv rules' u d x Hc) as H2.
  assert (forall r, r ∈ rules -> r ∈ rules') as Hin by exact Hsub.
  destruct H1 as [[-> Hn1]|(r1 & Hr1 & Hm1 & -> & Hx1)],
    H2 as [[-> Hn2]|(r2 & Hr2 & Hm2 & -> & Hx2)]; cbn.
  - done.
  - pose proof (rule_ttl_range r2). split_and!; [done | lia|].
    intros HP. exfalso. apply (Hn1 r2); [by rewrite HP | done].
  - by destruct (Hn2 r1 (Hin _ Hr1)).
  - pose proof (Hx2 r1 (Hin _ Hr1) Hm1). split_and!; [done | done|].
    intros HP. split; [done|]. assert (r2 ∈ rules) as Hr2' by (by rewrite HP).
    specialize (Hx1 r2 Hr2' Hm2). lia.
Qed.

(** ** Witnesses *)

Definition demo_rules : list Rule :=
  [mkRule "pol_a" ["usr_maria"] ["dev_1"] ["res_x"] (10 * Minute) "allow";
   mkRule "pol_b" ["usr_maria"; "usr_li"] ["dev_1"] ["res_x"; "res_y"] (10 * Minute) "allow"].

Lemma Evaluate_best_ttl_witness :
  0 < d_MaxTTL (Evaluate demo_rules "usr_maria" "dev_1" "res_x") <= MaxGrantTTL.
Proof. apply (Evaluate_best_ttl demo_rules). reflexivity. Defined.

Lemma Evaluate_union_witness :
  Allowed (Evaluate demo_rules "usr_maria" "dev_1" "res_x") = true.
Proof.
  refine (proj1 (Evaluate_union (take 1 demo_rules) demo_rules "usr_maria" "dev_1" "res_x" _) eq_refl).
  intros r. cbn. rewrite list_elem_of_singleton. intros ->. left.
Defined.

(** One thing does depend on the order: which policy is named.  With two
    rules that match and offer the same lifetime, the decision names whichever
    comes first. *)
Theorem Evaluate_policy_name_order :
  rev demo_rules ≡ₚ demo_rules
  /\ d_PolicyID (Evaluate demo_rules "usr_maria" "dev_1" "res_x") = "pol_a"
  /\ d_PolicyID (Evaluate (rev demo_rules) "usr_maria" "dev_1" "res_x") = "pol_b".
Proof. split_and!; [|reflexivity|reflexivity]. symmetry. apply Permutation_rev. Qed.
