(* ===== verification/Db.v ===== *)
(** * The database, as the storage package uses it

    SQLite is reached through [database/sql]; what [src/internal/storage] relies
    on is modelled directly: tables as finite maps keyed by their primary key,
    statements that either take full effect or fail without effect, and
    transactions that commit as a whole or leave no trace.

    Every statement, [BEGIN] and [COMMIT] may fail for reasons outside the
    program (disk, lock, cancellation).  Which ones do is a list of flags read
    one per call; theorems about operations hold for every such list. *)

From S2P Require Import Prelude GoErrors GoTime.

(** ** Rows: the columns of the tables of [migrate.go] *)

Record IdentityRow := mkIdentityRow {
  ir_enrolled_at : Z;
  ir_serial_hex : string;
  ir_revoked_at : option Z;
  ir_pending_serial_hex : string;
  ir_pending_issued_at : option Z
}.

Record TokenRow := mkTokenRow {
  tr_role : string;
  tr_id : string;
  tr_issued_at : Z;
  tr_expires_at : Z;
  tr_consumed_at : option Z
}.

Record SessionRow := mkSessionRow {
  sr_token_hash : string;
  sr_user_id : string;
  sr_created_at : Z;
  sr_expires_at : Z;
  sr_revoked_at : option Z;
  sr_remote : string
}.

Record GrantRow := mkGrantRow {
  gr_org_id : string;
  gr_user_id : string;
  gr_device_id : string;
  gr_resource_id : string;
  gr_policy_id : string;
  gr_session_id : option string;
  gr_issued_at : Z;
  gr_expires_at : Z;
  gr_max_bytes : Z;             (* int64 *)
  gr_revoked_at : option Z;
  gr_revoke_reason : string
}.

Record AuditRow := mkAuditRow {
  ar_seq : Z;
  ar_ts : Z;
  ar_event : string;
  ar_org_id : string;
  ar_actor_role : string;
  ar_actor_id : string;
  ar_device_id : string;
  ar_resource_id : string;
  ar_grant_id : string;
  ar_session_id : string;
  ar_reason : string;
  ar_bytes_in : Z;              (* int64 *)
  ar_bytes_out : Z;             (* int64 *)
  ar_duration_ms : Z;
  ar_detail : string
}.

Record DB := mkDB {
  identities : gmap (string * string) IdentityRow;   (* (role, id) *)
  tokens : gmap string TokenRow;                     (* hash *)
  operator_sessions : gmap string SessionRow;        (* session_id *)
  grants : gmap string GrantRow;                     (* grant_id *)
  audit_events : list AuditRow;                      (* oldest first *)
  audit_seq : Z                                      (* AUTOINCREMENT: last assigned *)
}.

Definition empty_db : DB := mkDB ∅ ∅ ∅ ∅ [] 0.

Definition with_identities (m : gmap (string * string) IdentityRow) (d : DB) : DB :=
  mkDB m (tokens d) (operator_sessions d) (grants d) (audit_events d) (audit_seq d).

Definition with_tokens (m : gmap string TokenRow) (d : DB) : DB :=
  mkDB (identities d) m (operator_sessions d) (grants d) (audit_events d) (audit_seq d).

Definition with_sessions (m : gmap string SessionRow) (d : DB) : DB :=
  mkDB (identities d) (tokens d) m (grants d) (audit_events d) (audit_seq d).

Definition with_grants (m : gmap string GrantRow) (d : DB) : DB :=
  mkDB (identities d) (tokens d) (operator_sessions d) m (audit_events d) (audit_seq d).

Definition with_audit (l : list AuditRow) (n : Z) (d : DB) : DB :=
  mkDB (identities d) (tokens d) (operator_sessions d) (grants d) l n.

(** ** Statements and transactions *)

Definition dbM (A : Type) : Type := list bool -> DB -> res A * DB * list bool.

Definition db_ret {A} (a : A) : dbM A := fun fl d => (Ok a, d, fl).

Definition db_err {A} (e : error) : dbM A := fun fl d => (Err e, d, fl).

Definition db_bind {A B} (m : dbM A) (k : A -> dbM B) : dbM B :=
  fun fl d =>
    match m fl d with
    | (Ok a, d', fl') => k a fl' d'
    | (Err e, d', fl') => (Err e, d', fl')
    end.

Declare Scope db_scope.
Delimit Scope db_scope with db.
Notation "'do' x <- p ; k" := (db_bind p (fun x => k))
  (at level 10, x pattern, p at level 100, k at level 200,
   format "'[v' 'do'  x  <-  p ; '/' k ']'") : db_scope.

Definition io_error : error := EMsg "database error".

(** Did the next call fail? *)
Definition next_fault (fl : list bool) : bool * list bool :=
  match fl with
  | [] => (false, [])
  | b :: fl' => (b, fl')
  end.

(** One statement: it fails without effect, or does [f]. *)
Definition stmt {A} (msg : string) (f : DB -> res A * DB) : dbM A :=
  fun fl d =>
    let '(fault, fl') := next_fault fl in
    if fault then (Err (EWrap msg io_error), d, fl')
    else
      match f d with
      | (Ok a, d') => (Ok a, d', fl')
      | (Err e, _) => (Err e, d, fl')
      end.

(** A query. *)
Definition query {A} (msg : string) (f : DB -> res A) : dbM A := stmt msg (fun d => (f d, d)).

(** [Begin], the body, [Commit].  The body ends with [inr a] to commit and
    return [a], or with [inl a] to return [a] without committing.  The deferred
    [Rollback] undoes the body when it was not committed. *)
Definition transaction {A} (body : dbM (A + A)) : dbM A :=
  fun fl d =>
    let '(fault, fl1) := next_fault fl in
    if fault then (Err io_error, d, fl1)
    else
      match body fl1 d with
      | (Err e, _, fl2) => (Err e, d, fl2)
      | (Ok (inl a), _, fl2) => (Ok a, d, fl2)
      | (Ok (inr a), d', fl2) =>
          let '(fault', fl3) := next_fault fl2 in
          if fault' then (Err io_error, d, fl3) else (Ok a, d', fl3)
      end.

Definition commit {A} (a : A) : dbM (A + A) := db_ret (inr a).

Definition return_uncommitted {A} (a : A) : dbM (A + A) := db_ret (inl a).

(** A call whose error the caller inspects. *)
Definition attempt {A} (m : dbM A) : dbM (res A) :=
  fun fl d => let '(r, d', fl') := m fl d in (Ok r, d', fl').

(** ** Reasoning *)

(** [m] either succeeds with a change [P] describes, or fails and changes
    nothing. *)
Definition all_or_nothing {A} (m : dbM A) (P : DB -> A -> DB -> Prop) : Prop :=
  forall fl d,
    match m fl d with
    | (Ok a, d', _) => P d a d'
    | (Err _, d', _) => d' = d
    end.

(** What [m] does when it succeeds; nothing is said about failures, which may
    leave earlier statements' effects (within a transaction they are undone). *)
Definition on_success {A} (m : dbM A) (P : DB -> A -> DB -> Prop) : Prop :=
  forall fl d a d' fl', m fl d = (Ok a, d', fl') -> P d a d'.

Lemma on_success_bind {A B} (m : dbM A) (k : A -> dbM B) P Q R :
  on_success m P -> (forall a, on_success (k a) (Q a)) ->
  (forall d a d1 b d2, P d a d1 -> Q a d1 b d2 -> R d b d2) ->
  on_success (db_bind m k) R.
Proof.
  intros Hm Hk HR fl d b d2 fl'. unfold db_bind.
  destruct (m fl d) as [[[a|e] d1] fl1] eqn:E; [|done]. intros HE. eapply HR; [by eapply Hm | by eapply Hk].
Qed.

Lemma on_success_ret {A} (a : A) : on_success (db_ret a) (fun d b d' => b = a /\ d' = d).
Proof. intros fl d b d' fl' [= <- <- <-]. done. Qed.

Lemma on_success_err {A} e P : on_success (A := A) (db_err e) P.
Proof. intros fl d b d' fl' [=]. Qed.

Lemma on_success_stmt {A} msg (f : DB -> res A * DB) :
  on_success (stmt msg f) (fun d a d' => f d = (Ok a, d')).
Proof.
  intros fl d a d' fl'. unfold stmt. destruct (next_fault fl) as [[|] fl1]; [done|].
  destruct (f d) as [[b|e] d1]; [|done]. by intros [= -> -> _].
Qed.

Lemma all_or_nothing_stmt {A} msg (f : DB -> res A * DB) :
  all_or_nothing (stmt msg f) (fun d a d' => f d = (Ok a, d')).
Proof.
  intros fl d. unfold stmt. destruct (next_fault fl) as [[|] fl1]; [done|].
  by destruct (f d) as [[b|e] d1].
Qed.

(** A transaction is all-or-nothing, whatever fails inside it. *)
Lemma all_or_nothing_transaction {A} (body : dbM (A + A)) P Q :
  on_success body Q ->
  (forall d a d', Q d (inl a) d' -> P d a d) -> (forall d a d', Q d (inr a) d' -> P d a d') ->
  all_or_nothing (transaction body) P.
Proof.
  intros H Hl Hr fl d. unfold transaction. destruct (next_fault fl) as [[|] fl1]; [done|].
  destruct (body fl1 d) as [[[[a|a]|e] d1] fl2] eqn:E; [| |done].
  - eapply Hl. by eapply H.
  - destruct (next_fault fl2) as [[|] fl3]; [done|]. eapply Hr. by eapply H.
Qed.

(** A transaction that fails leaves no trace. *)
Lemma transaction_Err {A} (body : dbM (A + A)) fl d e d' fl' :
  transaction body fl d = (Err e, d', fl') -> d' = d.
Proof.
  unfold transaction. destruct (next_fault fl) as [[|] fl1]; [by intros [= _ -> _]|].
  destruct (body fl1 d) as [[[[a|a]|e'] d1] fl2]; [done| |by intros [= _ -> _]].
  destruct (next_fault fl2) as [[|] fl3]; [by intros [= _ -> _] | done].
Qed.

Lemma all_or_nothing_weaken {A} (m : dbM A) P Q :
  all_or_nothing m P -> (forall d a d', P d a d' -> Q d a d') -> all_or_nothing m Q.
Proof. intros H HPQ fl d. specialize (H fl d). destruct (m fl d) as [[[a|e] d1] fl1]; auto. Qed.

(** With no faults, a statement just runs. *)
Lemma stmt_nofault {A} msg (f : DB -> res A * DB) d :
  stmt msg f [] d = match f d with (Ok a, d') => (Ok a, d', []) | (Err e, _) => (Err e, d, []) end.
Proof. done. Qed.

(** The outcome of a run, with its database left as it is. *)
Lemma run_out {A} (x : res A * DB * list bool) r fl : x.1.1 = r -> x.2 = fl -> x = (r, x.1.2, fl).
Proof. destruct x as [[? ?] ?]. by intros <- <-. Qed.
