(* ===== verification/Storage.v ===== *)
(** * Storage

    [src/internal/storage]: the operations on the database of Db.v.  A Go
    [time.Time] that the code reads from the clock is an argument; [HashToken]
    is SHA-256 in hexadecimal, a parameter of the model. *)

From S2P Require Import Prelude GoErrors GoTime Db.
Open Scope db_scope.

(** ** store.go: timestamps *)

Definition unix (t : time) : Z := unixSeconds (TruncateSecond t).

Definition fromUnix (v : Z) : time := Unix v.

Definition nullUnix (t : option time) : option Z := unix <$> t.

Definition fromNullUnix (v : option Z) : option time := fromUnix <$> v.

(** ** The types callers see *)

Record Record_ := mkRecord {
  r_ID : string;
  r_Role : string;
  r_EnrolledAt : time;
  r_SerialHex : string;
  r_Revoked : bool;
  r_RevokedAt : option time;
  r_PendingSerialHex : string;
  r_PendingIssuedAt : option time
}.

Record Token := mkToken {
  t_Hash : string;
  t_Role : string;
  t_ID : string;
  t_IssuedAt : time;
  t_ExpiresAt : time;
  t_ConsumedAt : option time
}.

Record SessionRecord := mkSessionRecord {
  ss_SessionID : string;
  ss_TokenHash : string;
  ss_UserID : string;
  ss_CreatedAt : time;
  ss_ExpiresAt : time;
  ss_RevokedAt : option time;
  ss_Remote : string
}.

Record GrantRecord := mkGrantRecord {
  gd_GrantID : string;
  gd_OrgID : string;
  gd_UserID : string;
  gd_DeviceID : string;
  gd_ResourceID : string;
  gd_PolicyID : string;
  gd_SessionID : string;
  gd_IssuedAt : time;
  gd_ExpiresAt : time;
  gd_MaxBytes : Z;              (* uint64 *)
  gd_RevokedAt : option time;
  gd_RevokeReason : string
}.

Record AuditEvent := mkAuditEvent {
  e_Seq : Z;
  e_At : time;
  e_Event : string;
  e_OrgID : string;
  e_ActorRole : string;
  e_ActorID : string;
  e_DeviceID : string;
  e_ResourceID : string;
  e_GrantID : string;
  e_SessionID : string;
  e_Reason : string;
  e_BytesIn : Z;                (* uint64 *)
  e_BytesOut : Z;               (* uint64 *)
  e_DurationMS : Z;
  e_Detail : string
}.

Definition Active (r : SessionRecord) (now : time) : bool :=
  bool_decide (ss_RevokedAt r = None) && Before now (ss_ExpiresAt r).

Definition Revoked (g : GrantRecord) : bool := bool_decide (gd_RevokedAt g <> None).

Definition Expired (g : GrantRecord) (now : time) : bool := After now (gd_ExpiresAt g).

Definition Usable (g : GrantRecord) (now : time) : bool := negb (Revoked g) && negb (Expired g now).

Definition DefaultAuditLimit : Z := 100.
Definition MaxAuditLimit : Z := 10000.

(** The limit a listing applies. *)
Definition clamp_limit (limit : Z) : nat :=
  let limit := if limit <=? 0 then DefaultAuditLimit else limit in
  Z.to_nat (if limit >? MaxAuditLimit then MaxAuditLimit else limit).

(** ** audit.go *)

(** The row an event becomes. *)
Definition audit_row (seq : Z) (e : AuditEvent) (now : time) : AuditRow :=
  mkAuditRow seq (unix (if IsZero (e_At e) then now else e_At e)) (e_Event e) (e_OrgID e)
    (e_ActorRole e) (e_ActorID e) (e_DeviceID e) (e_ResourceID e) (e_GrantID e) (e_SessionID e)
    (e_Reason e) (swrap64 (e_BytesIn e)) (swrap64 (e_BytesOut e)) (e_DurationMS e) (e_Detail e).

Definition insert_audit (e : AuditEvent) (now : time) (d : DB) : DB :=
  let seq := audit_seq d + 1 in
  with_audit (audit_events d ++ [audit_row seq e now]) seq d.

(** [appendAudit]: [AppendAudit] outside, [AppendAuditTx] inside a transaction. *)
Definition appendAudit (e : AuditEvent) (now : time) : dbM unit :=
  if bool_decide (e_Event e = "") then
    db_err (EMsg "storage: refusing to append an audit event with no name")
  else stmt "storage: append audit event" (fun d => (Ok tt, insert_audit e now d)).

Record AuditFilter := mkAuditFilter {
  af_Since : time;
  af_Until : time;
  af_Event : string;
  af_ActorID : string;
  af_DeviceID : string;
  af_ResourceID : string;
  af_GrantID : string;
  af_Limit : Z
}.

(** The clause [column = ?], present only when a value is given. *)
Definition clause (want got : string) : bool :=
  bool_decide (want = "") || bool_decide (got = want).

Definition audit_where (f : AuditFilter) (r : AuditRow) : bool :=
  (IsZero (af_Since f) || (ar_ts r >=? unix (af_Since f)))
  && (IsZero (af_Until f) || (ar_ts r <=? unix (af_Until f)))
  && clause (af_Event f) (ar_event r) && clause (af_ActorID f) (ar_actor_id r)
  && clause (af_DeviceID f) (ar_device_id r) && clause (af_ResourceID f) (ar_resource_id r)
  && clause (af_GrantID f) (ar_grant_id r).

Definition event_of_row (r : AuditRow) : AuditEvent :=
  mkAuditEvent (ar_seq r) (fromUnix (ar_ts r)) (ar_event r) (ar_org_id r) (ar_actor_role r)
    (ar_actor_id r) (ar_device_id r) (ar_resource_id r) (ar_grant_id r) (ar_session_id r)
    (ar_reason r) (uwrap 64 (ar_bytes_in r)) (uwrap 64 (ar_bytes_out r)) (ar_duration_ms r)
    (ar_detail r).

(** Rows are stored in [seq] order, so [ORDER BY seq DESC] is the reverse. *)
Definition QueryAudit (f : AuditFilter) : dbM (list AuditEvent) :=
  query "storage: query audit" (fun d =>
    Ok (event_of_row <$> take (clamp_limit (af_Limit f))
          (List.filter (audit_where f) (rev (audit_events d))))).

Definition CountAudit : dbM Z := query "count" (fun d => Ok (zlen (audit_events d))).

Definition AuditSpan : dbM (Z * time) :=
  query "span" (fun d =>
    Ok (zlen (audit_events d),
        match audit_events d with
        | [] => 0
        | r :: l => fromUnix (foldl (fun m x => Z.min m (ar_ts x)) (ar_ts r) l)
        end)).

Definition PruneAudit (before : time) (actorID : string) (now : time) : dbM Z :=
  if IsZero before then db_err (ESentinel ErrRetentionUnbounded)
  else
    transaction (
      do removed <- stmt "storage: prune audit" (fun d =>
        let kept := List.filter (fun r => negb (ar_ts r <? unix before)) (audit_events d) in
        (Ok (zlen (audit_events d) - zlen kept), with_audit kept (audit_seq d) d));
      do _ <- appendAudit (mkAuditEvent 0 0 "admin.action" "" "admin" actorID "" "" "" ""
                "audit_retention" 0 0 0 "pruned") now;
      commit removed).

(** ** identities.go *)

Section WithHash.
Context (HashToken : string -> string).

Definition PutToken (t : Token) : dbM unit :=
  stmt "storage: record enrollment token" (fun d =>
    let consumed := match tokens d !! t_Hash t with
                    | Some old => tr_consumed_at old
                    | None => nullUnix (t_ConsumedAt t)
                    end in
    (Ok tt, with_tokens (<[t_Hash t := mkTokenRow (t_Role t) (t_ID t) (unix (t_IssuedAt t))
                                        (unix (t_ExpiresAt t)) consumed]> (tokens d)) d)).

(** [ConsumeToken]; [now1] and [now2] are its two readings of the clock. *)
Definition ConsumeToken (token : string) (now1 now2 : time) : dbM Token :=
  let hash := HashToken token in
  transaction (
    do r <- query "storage: read enrollment token" (fun d =>
      match tokens d !! hash with
      | Some r => Ok r
      | None => Err (ESentinel ErrTokenUnknown)
      end);
    let t := mkToken hash (tr_role r) (tr_id r) (fromUnix (tr_issued_at r))
               (fromUnix (tr_expires_at r)) (fromNullUnix (tr_consumed_at r)) in
    if bool_decide (t_ConsumedAt t <> None) then db_err (ESentinel ErrTokenConsumed)
    else if After now1 (t_ExpiresAt t) then db_err (ESentinel ErrTokenExpired)
    else
      do n <- stmt "storage: consume enrollment token" (fun d =>
        match tokens d !! hash with
        | Some r =>
            match tr_consumed_at r with
            | None => (Ok 1, with_tokens (<[hash := mkTokenRow (tr_role r) (tr_id r) (tr_issued_at r)
                                                     (tr_expires_at r) (Some (unix now2))]> (tokens d)) d)
            | Some _ => (Ok 0, d)
            end
        | None => (Ok 0, d)
        end);
      if n =? 0 then db_err (ESentinel ErrTokenConsumed)
      else commit (mkToken (t_Hash t) (t_Role t) (t_ID t) (t_IssuedAt t) (t_ExpiresAt t) (Some now2))).

Definition PutRecord (r : Record_) : dbM unit :=
  stmt "storage: record identity" (fun d =>
    (Ok tt, with_identities (<[(r_Role r, r_ID r) :=
       mkIdentityRow (unix (r_EnrolledAt r)) (r_SerialHex r) (nullUnix (r_RevokedAt r)) "" None]>
       (identities d)) d)).

Definition record_of_row (role id : string) (r : IdentityRow) : Record_ :=
  mkRecord id role (fromUnix (ir_enrolled_at r)) (ir_serial_hex r)
    (bool_decide (ir_revoked_at r <> None)) (fromNullUnix (ir_revoked_at r))
    (ir_pending_serial_hex r) (fromNullUnix (ir_pending_issued_at r)).

Definition lookupAny (role id : string) : dbM Record_ :=
  query "storage: read identity" (fun d =>
    match identities d !! (role, id) with
    | Some r => Ok (record_of_row role id r)
    | None => Err (ESentinel ErrNotEnrolled)
    end).

Definition Lookup (role id : string) : dbM Record_ :=
  do r <- lookupAny role id;
  if r_Revoked r then db_err (ESentinel ErrRevoked) else db_ret r.

(** [UPDATE identities SET ... WHERE role = ? AND id = ? AND revoked_at IS NULL]
    with a further condition: the number of rows changed. *)
Definition update_identity (msg : string) (role id : string) (cond : IdentityRow -> bool)
    (f : IdentityRow -> IdentityRow) : dbM Z :=
  stmt msg (fun d =>
    match identities d !! (role, id) with
    | Some r =>
        if bool_decide (ir_revoked_at r = None) && cond r
        then (Ok 1, with_identities (<[(role, id) := f r]> (identities d)) d)
        else (Ok 0, d)
    | None => (Ok 0, d)
    end).

Definition PutPendingSerial (role id serialHex : string) (now : time) : dbM unit :=
  do n <- update_identity "storage: record pending certificate" role id (fun _ => true)
            (fun r => mkIdentityRow (ir_enrolled_at r) (ir_serial_hex r) (ir_revoked_at r)
                        serialHex (Some (unix now)));
  if n =? 0 then (do _ <- lookupAny role id; db_err (ESentinel ErrRevoked)) else db_ret tt.

Definition PromoteSerial (role id serialHex : string) : dbM unit :=
  do _ <- update_identity "storage: promote certificate" role id
            (fun r => bool_decide (ir_pending_serial_hex r = serialHex))
            (fun r => mkIdentityRow (ir_enrolled_at r) (ir_pending_serial_hex r) (ir_revoked_at r) "" None);
  db_ret tt.

Definition Store_Revoke (role id : string) (now : time) : dbM unit :=
  do n <- update_identity "storage: revoke identity" role id (fun _ => true)
            (fun r => mkIdentityRow (ir_enrolled_at r) (ir_serial_hex r) (Some (unix now))
                        (ir_pending_serial_hex r) (ir_pending_issued_at r));
  if n =? 0 then (do _ <- lookupAny role id; db_ret tt) else db_ret tt.

(** [ORDER BY]: insertion sort by a total order on rows. *)
Fixpoint insert_by {A} (le : A -> A -> bool) (x : A) (l : list A) : list A :=
  match l with
  | [] => [x]
  | y :: l' => if le x y then x :: l else y :: insert_by le x l'
  end.

Fixpoint sort_by {A} (le : A -> A -> bool) (l : list A) : list A :=
  match l with
  | [] => []
  | x :: l' => insert_by le x (sort_by le l')
  end.

(** [List(role)]: errors are swallowed. *)
Definition List_identities (role : string) : dbM (list Record_) :=
  fun fl d =>
    match query "list" (fun d =>
        Ok (sort_by (fun a b => String.leb (r_ID a) (r_ID b))
              ((fun kv => record_of_row kv.1.1 kv.1.2 kv.2)
               <$> List.filter (fun kv => bool_decide (kv.1.1 = role)) (map_to_list (identities d)))))
        fl d with
    | (Ok l, d', fl') => (Ok l, d', fl')
    | (Err _, d', fl') => (Ok [], d', fl')
    end.

(** ** sessions.go *)

Definition session_of_row (id : string) (r : SessionRow) : SessionRecord :=
  mkSessionRecord id (sr_token_hash r) (sr_user_id r) (fromUnix (sr_created_at r))
    (fromUnix (sr_expires_at r)) (fromNullUnix (sr_revoked_at r)) (sr_remote r).

(** The session with that token hash, if any (the column is [UNIQUE]). *)
Definition session_by_hash (h : string) (d : DB) : option (string * SessionRow) :=
  head (List.filter (fun kv => bool_decide (sr_token_hash kv.2 = h)) (map_to_list (operator_sessions d))).

Definition CreateSession (r : SessionRecord) (e : AuditEvent) (now : time) : dbM unit :=
  transaction (
    do _ <- stmt "storage: create operator session" (fun d =>
      match operator_sessions d !! ss_SessionID r, session_by_hash (ss_TokenHash r) d with
      | None, None =>
          (Ok tt, with_sessions (<[ss_SessionID r :=
             mkSessionRow (ss_TokenHash r) (ss_UserID r) (unix (ss_CreatedAt r))
               (unix (ss_ExpiresAt r)) None (ss_Remote r)]> (operator_sessions d)) d)
      | _, _ => (Err (EWrap "storage: create operator session" (EMsg "constraint failed")), d)
      end);
    do _ <- appendAudit e now;
    commit tt).

(** [LookupSession]: the record is returned with the error on the two last
    refusals, which is all its callers use of it. *)
Definition LookupSession (token : string) (now : time)
    : dbM (SessionRecord * option error) :=
  do r <- query "storage: read operator session" (fun d =>
    match session_by_hash (HashToken token) d with
    | Some (id, r) => Ok (session_of_row id r)
    | None => Err (ESentinel ErrSessionUnknown)
    end);
  db_ret (r, if bool_decide (ss_RevokedAt r <> None) then Some (ESentinel ErrSessionRevoked)
             else if After now (ss_ExpiresAt r) then Some (ESentinel ErrSessionExpired)
             else None).

Definition LookupSessionByID (sessionID : string) : dbM SessionRecord :=
  query "storage: read operator session" (fun d =>
    match operator_sessions d !! sessionID with
    | Some r => Ok (session_of_row sessionID r)
    | None => Err (ESentinel ErrSessionUnknown)
    end).

Definition set_session_reason (e : AuditEvent) (sessionID reason : string) : AuditEvent :=
  mkAuditEvent (e_Seq e) (e_At e) (e_Event e) (e_OrgID e) (e_ActorRole e) (e_ActorID e)
    (e_DeviceID e) (e_ResourceID e) (e_GrantID e) sessionID reason (e_BytesIn e) (e_BytesOut e)
    (e_DurationMS e) (e_Detail e).

Definition RevokeSession (sessionID reason : string) (actor : AuditEvent) (now nowA : time)
    : dbM SessionRecord :=
  transaction (
    do r <- LookupSessionByID sessionID;
    if bool_decide (ss_RevokedAt r <> None) then return_uncommitted r
    else
      do _ <- stmt "storage: revoke operator session" (fun d =>
        match operator_sessions d !! sessionID with
        | Some x =>
            match sr_revoked_at x with
            | None => (Ok tt, with_sessions (<[sessionID := mkSessionRow (sr_token_hash x) (sr_user_id x)
                               (sr_created_at x) (sr_expires_at x) (Some (unix now)) (sr_remote x)]>
                               (operator_sessions d)) d)
            | Some _ => (Ok tt, d)
            end
        | None => (Ok tt, d)
        end);
      do _ <- appendAudit (set_session_reason actor (ss_SessionID r) reason) nowA;
      commit (mkSessionRecord (ss_SessionID r) (ss_TokenHash r) (ss_UserID r) (ss_CreatedAt r)
                (ss_ExpiresAt r) (Some now) (ss_Remote r))).

Record SessionFilter := mkSessionFilter {
  sf_UserID : string;
  sf_ActiveOnly : bool;
  sf_Limit : Z
}.

Definition session_where (f : SessionFilter) (now : time) (r : SessionRow) : bool :=
  clause (sf_UserID f) (sr_user_id r)
  && (negb (sf_ActiveOnly f)
      || (bool_decide (sr_revoked_at r = None) && (sr_expires_at r >? unix now))).

(** Descending by time, then by identifier. *)
Definition newer (ta : Z) (a : string) (tb : Z) (b : string) : bool :=
  (ta >? tb) || ((ta =? tb) && String.leb b a).

Definition ListSessions (f : SessionFilter) (now : time) : dbM (list SessionRecord) :=
  query "storage: list operator sessions" (fun d =>
    Ok ((fun kv => session_of_row kv.1 kv.2) <$> take (clamp_limit (sf_Limit f))
          (sort_by (fun a b => newer (sr_created_at a.2) a.1 (sr_created_at b.2) b.1)
             (List.filter (fun kv => session_where f now kv.2) (map_to_list (operator_sessions d)))))).

Definition ActiveSessionsForUser (userID : string) (now : time) : dbM (list SessionRecord) :=
  ListSessions (mkSessionFilter userID true MaxAuditLimit) now.

(** ** grants.go *)

Definition grant_of_row (id : string) (r : GrantRow) : GrantRecord :=
  mkGrantRecord id (gr_org_id r) (gr_user_id r) (gr_device_id r) (gr_resource_id r) (gr_policy_id r)
    (default "" (gr_session_id r)) (fromUnix (gr_issued_at r)) (fromUnix (gr_expires_at r))
    (uwrap 64 (gr_max_bytes r)) (fromNullUnix (gr_revoked_at r)) (gr_revoke_reason r).

Definition RecordGrant (g : GrantRecord) (e : AuditEvent) (now : time) : dbM unit :=
  transaction (
    let session := if bool_decide (gd_SessionID g <> "") then Some (gd_SessionID g) else None in
    do _ <- stmt "storage: record grant" (fun d =>
      let fk_ok := match session with
                   | None => true
                   | Some sid => bool_decide (operator_sessions d !! sid <> None)
                   end in
      match grants d !! gd_GrantID g with
      | None =>
          if fk_ok then
            (Ok tt, with_grants (<[gd_GrantID g :=
               mkGrantRow (gd_OrgID g) (gd_UserID g) (gd_DeviceID g) (gd_ResourceID g) (gd_PolicyID g)
                 session (unix (gd_IssuedAt g)) (unix (gd_ExpiresAt g)) (swrap64 (gd_MaxBytes g))
                 None ""]> (grants d)) d)
          else (Err (EWrap "storage: record grant" (EMsg "foreign key constraint failed")), d)
      | Some _ => (Err (EWrap "storage: record grant" (EMsg "constraint failed")), d)
      end);
    do _ <- appendAudit e now;
    commit tt).

Definition LookupGrant (grantID : string) : dbM GrantRecord :=
  query "storage: read grant" (fun d =>
    match grants d !! grantID with
    | Some r => Ok (grant_of_row grantID r)
    | None => Err (ESentinel ErrGrantUnknown)
    end).

Definition revoke_row (now : time) (reason : string) (r : GrantRow) : GrantRow :=
  mkGrantRow (gr_org_id r) (gr_user_id r) (gr_device_id r) (gr_resource_id r) (gr_policy_id r)
    (gr_session_id r) (gr_issued_at r) (gr_expires_at r) (gr_max_bytes r) (Some (unix now)) reason.

Definition set_grant_subject (e : AuditEvent) (at_ : time) (g : GrantRecord) (reason : string)
    : AuditEvent :=
  mkAuditEvent (e_Seq e) at_ (e_Event e) (e_OrgID e) (e_ActorRole e) (e_ActorID e)
    (gd_DeviceID g) (gd_ResourceID g) (gd_GrantID g) (gd_SessionID g) reason (e_BytesIn e)
    (e_BytesOut e) (e_DurationMS e) (e_Detail e).

Definition set_revoked (g : GrantRecord) (now : time) (reason : string) : GrantRecord :=
  mkGrantRecord (gd_GrantID g) (gd_OrgID g) (gd_UserID g) (gd_DeviceID g) (gd_ResourceID g)
    (gd_PolicyID g) (gd_SessionID g) (gd_IssuedAt g) (gd_ExpiresAt g) (gd_MaxBytes g)
    (Some now) reason.

Definition RevokeGrant (grantID reason : string) (actor : AuditEvent) (now nowA : time)
    : dbM GrantRecord :=
  transaction (
    do g <- LookupGrant grantID;
    if Revoked g then return_uncommitted g
    else
      do _ <- stmt "storage: revoke grant" (fun d =>
        match grants d !! grantID with
        | Some r =>
            match gr_revoked_at r with
            | None => (Ok tt, with_grants (<[grantID := revoke_row now reason r]> (grants d)) d)
            | Some _ => (Ok tt, d)
            end
        | None => (Ok tt, d)
        end);
      do _ <- appendAudit (set_grant_subject actor (e_At actor) g reason) nowA;
      commit (set_revoked g now reason)).

Record GrantFilter := mkGrantFilter {
  gf_UserID : string;
  gf_DeviceID : string;
  gf_SessionID : string;
  gf_ActiveOnly : bool;
  gf_Limit : Z
}.

Definition grant_where (f : GrantFilter) (now : time) (r : GrantRow) : bool :=
  clause (gf_UserID f) (gr_user_id r) && clause (gf_DeviceID f) (gr_device_id r)
  && (bool_decide (gf_SessionID f = "") || bool_decide (gr_session_id r = Some (gf_SessionID f)))
  && (negb (gf_ActiveOnly f)
      || (bool_decide (gr_revoked_at r = None) && (gr_expires_at r >? unix now))).

Definition ListGrants (f : GrantFilter) (now : time) : dbM (list GrantRecord) :=
  query "storage: list grants" (fun d =>
    Ok ((fun kv => grant_of_row kv.1 kv.2) <$> take (clamp_limit (gf_Limit f))
          (sort_by (fun a b => newer (gr_issued_at a.2) a.1 (gr_issued_at b.2) b.1)
             (List.filter (fun kv => grant_where f now kv.2) (map_to_list (grants d)))))).

(** [GrantScope]: the column a cascading revocation matches on. *)
Inductive GrantScope := ScopeUser | ScopeDevice | ScopeSession.

Definition in_scope (by_ : GrantScope) (value : string) (r : GrantRow) : bool :=
  match by_ with
  | ScopeUser => bool_decide (gr_user_id r = value)
  | ScopeDevice => bool_decide (gr_device_id r = value)
  | ScopeSession => bool_decide (gr_session_id r = Some value)
  end.

(** [WHERE column = ? AND revoked_at IS NULL AND expires_at > ?]. *)
Definition cascade_where (by_ : GrantScope) (value : string) (now : time) (r : GrantRow) : bool :=
  in_scope by_ value r && bool_decide (gr_revoked_at r = None) && (gr_expires_at r >? unix now).

(** The columns the cascade selects; the others keep their zero values. *)
Definition affected_of_row (id : string) (r : GrantRow) : GrantRecord :=
  mkGrantRecord id "" (gr_user_id r) (gr_device_id r) (gr_resource_id r) ""
    (default "" (gr_session_id r)) 0 (fromUnix (gr_expires_at r)) 0 None "".

(** One audit event per affected grant. *)
Fixpoint audit_each (actor : AuditEvent) (now : time) (reason : string) (l : list GrantRecord)
    : dbM unit :=
  match l with
  | [] => db_ret tt
  | g :: l' =>
      do _ <- appendAudit (set_grant_subject actor now g reason) now;
      audit_each actor now reason l'
  end.

Definition RevokeGrantsWhere (by_ : GrantScope) (value reason : string) (actor : AuditEvent)
    (now : time) : dbM (list GrantRecord) :=
  transaction (
    do affected <- query "storage: select grants to revoke" (fun d =>
      Ok ((fun kv => affected_of_row kv.1 kv.2)
          <$> List.filter (fun kv => cascade_where by_ value now kv.2) (map_to_list (grants d))));
    if (zlen affected =? 0) then commit []
    else
      do _ <- stmt "storage: cascade revoke grants" (fun d =>
        (Ok tt, with_grants ((fun r => if cascade_where by_ value now r
                                       then revoke_row now reason r else r) <$> grants d) d));
      do _ <- audit_each actor now reason affected;
      commit ((fun g => set_revoked g now reason) <$> affected)).

(** ** import.go *)

Record legacyState := mkLegacy {
  lg_Devices : list (string * Record_);
  lg_Operators : list (string * Record_);
  lg_Tokens : list (string * Token)
}.

(** What reading the legacy file gives: nothing there, unreadable, or its
    contents (unparsable, or the parsed state). *)
Inductive legacy_file := LegacyMissing | LegacyUnreadable | LegacyBytes (st : option legacyState).

Definition import_identity (role : string) (r : Record_) : dbM unit :=
  stmt "import identity" (fun d =>
    match identities d !! (role, r_ID r) with
    | Some _ => (Err (EWrap "import identity" (EMsg "constraint failed")), d)
    | None => (Ok tt, with_identities (<[(role, r_ID r) :=
                 mkIdentityRow (unix (r_EnrolledAt r)) (r_SerialHex r) (nullUnix (r_RevokedAt r)) "" None]>
                 (identities d)) d)
    end).

Definition import_token (t : Token) : dbM unit :=
  stmt "import enrollment token" (fun d =>
    match tokens d !! t_Hash t with
    | Some _ => (Err (EWrap "import enrollment token" (EMsg "constraint failed")), d)
    | None => (Ok tt, with_tokens (<[t_Hash t := mkTokenRow (t_Role t) (t_ID t) (unix (t_IssuedAt t))
                                                  (unix (t_ExpiresAt t)) None]> (tokens d)) d)
    end).

Fixpoint each {A} (f : A -> dbM unit) (l : list A) : dbM unit :=
  match l with
  | [] => db_ret tt
  | x :: l' => do _ <- f x; each f l'
  end.

Definition ImportLegacyJSON (file : legacy_file) (now : time) : dbM Z :=
  match file with
  | LegacyMissing => db_ret 0
  | LegacyUnreadable => db_err (EWrap "read legacy store" io_error)
  | LegacyBytes parsed =>
      do populated <- query "exists" (fun d => Ok (bool_decide (identities d <> ∅)));
      if (populated : bool) then db_ret 0
      else
        match parsed with
        | None => db_err (EMsg "parse legacy store")
        | Some st =>
            transaction (
              do _ <- each (import_identity "device") (lg_Devices st).*2;
              do _ <- each (import_identity "operator") (lg_Operators st).*2;
              let fresh := List.filter (fun t => bool_decide (t_ConsumedAt t = None)) (lg_Tokens st).*2 in
              do _ <- each import_token fresh;
              let imported := zlen (lg_Devices st) + zlen (lg_Operators st) + zlen fresh in
              do _ <- (if imported >? 0 then
                         appendAudit (mkAuditEvent 0 now "admin.action" "" "admin" "" "" "" "" "" ""
                                        0 0 0 "imported records from the legacy JSON store") now
                       else db_ret tt);
              commit imported)
        end
  end.

End WithHash.

(** ** migrate.go *)

(** The schema version ([PRAGMA user_version]) and the migrations applied. *)
Record Schema := mkSchema { user_version : Z; applied : list string }.

Definition migrations : list string :=
  ["identities, enrollment tokens, operator sessions, grants, audit trail";
   "pending certificate serial, for renewal that cannot brick an endpoint"].

Definition SchemaVersion : Z := zlen migrations.

(** [applyMigration]: one transaction; [fault]: it failed and left no trace. *)
Definition applyMigration (version : Z) (m : string) (fault : bool) (s : Schema) : res unit * Schema :=
  if fault then (Err io_error, s) else (Ok tt, mkSchema version (applied s ++ [m])).

Fixpoint migrate_loop (v : Z) (todo : list string) (faults : list bool) (s : Schema)
    : res unit * Schema :=
  match todo with
  | [] => (Ok tt, s)
  | m :: todo' =>
      match applyMigration (v + 1) m (default false (head faults)) s with
      | (Err e, s') => (Err (EWrap "migrate to schema version" e), s')
      | (Ok _, s') => migrate_loop (v + 1) todo' (tail faults) s'
      end
  end.

Definition migrate (faults : list bool) (s : Schema) : res unit * Schema :=
  if default false (head faults) then (Err (EWrap "read schema version" io_error), s)
  else
    let current := user_version s in
    if current >? SchemaVersion then (Err (wrap ErrSchemaTooNew "database is at version"), s)
    else if current =? SchemaVersion then (Ok tt, s)
    else migrate_loop current (drop (Z.to_nat current) migrations) (tail faults) s.

(** ** How the database may evolve

    What no operation of the package ever undoes: a token stays consumed, a
    session stays revoked, a grant is never deleted, altered or un-revoked; and
    the audit trail only grows, numbered without gaps from the last number. *)

Definition token_evolves (r r' : TokenRow) : Prop :=
  tr_consumed_at r <> None -> tr_consumed_at r' = tr_consumed_at r.

Definition session_evolves (r r' : SessionRow) : Prop :=
  r' = r \/ (sr_revoked_at r = None /\ exists v,
    r' = mkSessionRow (sr_token_hash r) (sr_user_id r) (sr_created_at r) (sr_expires_at r)
           (Some v) (sr_remote r)).

Definition grant_evolves (r r' : GrantRow) : Prop :=
  r' = r \/ (gr_revoked_at r = None /\ exists now reason, r' = revoke_row now reason r).

Definition map_evolves {K V} `{Countable K} (R : V -> V -> Prop) (m m' : gmap K V) : Prop :=
  forall k v, m !! k = Some v -> exists v', m' !! k = Some v' /\ R v v'.

(** Rows added at the end carry consecutive numbers. *)
Definition numbered (n : Z) (l : list AuditRow) : Prop :=
  forall i r, l !! i = Some r -> ar_seq r = n + 1 + Z.of_nat i.

Definition audit_evolves (d d' : DB) : Prop :=
  exists l, audit_events d' = audit_events d ++ l /\ audit_seq d' = audit_seq d + zlen l
            /\ numbered (audit_seq d) l.

Record evolves (d d' : DB) : Prop := {
  ev_tokens : map_evolves token_evolves (tokens d) (tokens d');
  ev_sessions : map_evolves session_evolves (operator_sessions d) (operator_sessions d');
  ev_grants : map_evolves grant_evolves (grants d) (grants d');
  ev_audit : audit_evolves d d'
}.

(** Where a computation may take the database, whether it succeeds or fails. *)
Definition moves {A} (R : DB -> DB -> Prop) (m : dbM A) : Prop :=
  forall fl d, R d (m fl d).1.2.

(** Computations compose as long as what they may do is a preorder. *)
Section Moves.
Context {R : DB -> DB -> Prop} `{!PreOrder R}.

Lemma moves_ret {A} (a : A) : moves R (db_ret a).
Proof. intros fl d. by cbn. Qed.

Lemma moves_err {A} e : moves R (db_err e : dbM A).
Proof. intros fl d. by cbn. Qed.

Lemma moves_bind {A B} (m : dbM A) (k : A -> dbM B) :
  moves R m -> (forall a, moves R (k a)) -> moves R (db_bind m k).
Proof.
  intros Hm Hk fl d. unfold db_bind. specialize (Hm fl d).
  destruct (m fl d) as [[[a|e] d1] fl1]; cbn in *; [|done]. etrans; [done | apply Hk].
Qed.

Lemma moves_stmt {A} msg (f : DB -> res A * DB) :
  (forall d, R d (f d).2) -> moves R (stmt msg f).
Proof.
  intros Hf fl d. unfold stmt. destruct (next_fault fl) as [[|] fl1]; cbn; [done|].
  specialize (Hf d). by destruct (f d) as [[a|e] d1].
Qed.

Lemma moves_query {A} msg (f : DB -> res A) : moves R (query msg f).
Proof. by apply moves_stmt. Qed.

Lemma moves_transaction {A} (body : dbM (A + A)) :
  moves R body -> moves R (transaction body).
Proof.
  intros H fl d. unfold transaction. destruct (next_fault fl) as [[|] fl1]; cbn; [done|].
  specialize (H fl1 d). destruct (body fl1 d) as [[[[a|a]|e] d1] fl2]; cbn in *; try done.
  by destruct (next_fault fl2) as [[|] fl3].
Qed.

Lemma moves_attempt {A} (m : dbM A) : moves R m -> moves R (attempt m).
Proof. intros H fl d. unfold attempt. specialize (H fl d). by destruct (m fl d) as [[r d'] fl']. Qed.

Lemma moves_each {A} (f : A -> dbM unit) l : (forall x, moves R (f x)) -> moves R (each f l).
Proof. intros Hf. induction l; cbn; [apply moves_ret | by apply moves_bind]. Qed.

Lemma moves_append e now :
  (forall d, e_Event e <> "" -> R d (insert_audit e now d)) -> moves R (appendAudit e now).
Proof.
  intros H. unfold appendAudit. case_bool_decide; [apply moves_err|]. apply moves_stmt. intros d. by apply H.
Qed.

Lemma moves_append_each actor now reason l :
  (forall e now d, e_Event e <> "" -> R d (insert_audit e now d)) -> moves R (audit_each actor now reason l).
Proof. intros H. induction l; cbn; [apply moves_ret | apply moves_bind; [apply moves_append; auto | done]]. Qed.
End Moves.

Ltac moves_step :=
  match goal with
  | |- moves _ (db_ret _) => apply moves_ret
  | |- moves _ (db_err _) => apply moves_err
  | |- moves _ (query _ _) => apply moves_query
  | |- moves _ (db_bind _ _) => apply moves_bind; [|intros ?]
  | |- moves _ (transaction _) => apply moves_transaction
  | |- moves _ (attempt _) => apply moves_attempt
  | |- moves _ (commit _) => apply moves_ret
  | |- moves _ (return_uncommitted _) => apply moves_ret
  | |- moves _ (if ?b then _ else _) => destruct b
  | |- moves _ (match ?x with _ => _ end) => destruct x
  | |- moves _ _ => solve [auto with sar]
  end.

Section Evolution.
Context (HashToken : string -> string).

Lemma map_evolves_refl {K V} `{Countable K} (R : V -> V -> Prop) (m : gmap K V) :
  (forall v, R v v) -> map_evolves R m m.
Proof. intros HR k v Hk. eauto. Qed.

Lemma map_evolves_insert {K V} `{Countable K} (R : V -> V -> Prop) (m : gmap K V) k v' :
  (forall v, R v v) -> (forall v, m !! k = Some v -> R v v') -> map_evolves R m (<[k := v']> m).
Proof.
  intros HR Hv j w Hj. destruct (decide (k = j)) as [->|].
  - exists v'. rewrite lookup_insert_eq. auto.
  - exists w. rewrite lookup_insert_ne; auto.
Qed.

Lemma map_evolves_fmap {K V} `{Countable K} (R : V -> V -> Prop) (m : gmap K V) f :
  (forall v, R v (f v)) -> map_evolves R m (f <$> m).
Proof. intros HR k v Hk. exists (f v). rewrite lookup_fmap, Hk. auto. Qed.

Lemma map_evolves_trans {K V} `{Countable K} (R : V -> V -> Prop) (m1 m2 m3 : gmap K V) :
  (forall x y z, R x y -> R y z -> R x z) ->
  map_evolves R m1 m2 -> map_evolves R m2 m3 -> map_evolves R m1 m3.
Proof.
  intros HR H1 H2 k v Hk. destruct (H1 k v Hk) as (v2 & Hk2 & HR1).
  destruct (H2 k v2 Hk2) as (v3 & Hk3 & HR2). eauto.
Qed.

Lemma audit_evolves_same d d' :
  audit_events d' = audit_events d -> audit_seq d' = audit_seq d -> audit_evolves d d'.
Proof. intros H1 H2. exists []. rewrite app_nil_r, (zlen_nil (A := AuditRow)), Z.add_0_r. done. Qed.

Lemma audit_evolves_trans d1 d2 d3 : audit_evolves d1 d2 -> audit_evolves d2 d3 -> audit_evolves d1 d3.
Proof.
  intros (l1 & E1 & S1 & N1) (l2 & E2 & S2 & N2). exists (l1 ++ l2).
  rewrite E2, E1, app_assoc, zlen_app. split_and!; [done | lia|].
  intros i r. rewrite lookup_app_Some. intros [Hi|[Hge Hi]]; [by apply N1|].
  rewrite (N2 _ _ Hi), S1. unfold zlen. lia.
Qed.

#[global] Instance evolves_pre : PreOrder evolves.
Proof.
  split.
  - intros d. split; [apply map_evolves_refl; intros ?; by left || done.. | by apply audit_evolves_same].
  - intros d1 d2 d3 [A1 B1 C1 D1] [A2 B2 C2 D2]. split.
    + eapply map_evolves_trans; [|done|done]. unfold token_evolves. intros x y z H1 H2 Hx.
      rewrite <- (H1 Hx). apply H2. rewrite H1; done.
    + eapply map_evolves_trans; [|done|done]. unfold session_evolves. intros x y z [->|(Hx & v & ->)] H2; [done|].
      destruct H2 as [->|(Hy & _)]; [right; eauto | done].
    + eapply map_evolves_trans; [|done|done]. unfold grant_evolves. intros x y z [->|(Hx & n & r & ->)] H2; [done|].
      destruct H2 as [->|(Hy & _)]; [right; eauto | done].
    + by eapply audit_evolves_trans.
Qed.

(** Changing one table only. *)
Lemma evolves_tokens m d :
  map_evolves token_evolves (tokens d) m -> evolves d (with_tokens m d).
Proof. intros. split; cbn; try (by apply audit_evolves_same); auto; apply map_evolves_refl; intros ?; by left || done. Qed.

Lemma evolves_sessions m d :
  map_evolves session_evolves (operator_sessions d) m -> evolves d (with_sessions m d).
Proof.
  intros. split; cbn; try (by apply audit_evolves_same); auto; apply map_evolves_refl; intros ?; by left || done.
Qed.

Lemma evolves_grants m d :
  map_evolves grant_evolves (grants d) m -> evolves d (with_grants m d).
Proof.
  intros. split; cbn; try (by apply audit_evolves_same); auto; apply map_evolves_refl; intros ?; by left || done.
Qed.

Lemma evolves_identities m d : evolves d (with_identities m d).
Proof. split; cbn; try (by apply audit_evolves_same); auto; apply map_evolves_refl; intros ?; by left || done. Qed.

Lemma evolves_audit e now d : evolves d (insert_audit e now d).
Proof.
  split; cbn; [apply map_evolves_refl; intros ?; by left || done.. |].
  exists [audit_row (audit_seq d + 1) e now]. split_and!; [done | by rewrite zlen_cons, zlen_nil|].
  intros [|i] r; [|done]. intros [= <-]. cbn. lia.
Qed.

Lemma moves_appendAudit e now : moves evolves (appendAudit e now).
Proof. apply moves_append. intros. apply evolves_audit. Qed.
End Evolution.

#[export] Hint Resolve moves_appendAudit evolves_identities : sar.

(** ** Every operation of the package that changes the database *)

Inductive op :=
| OpPutToken (t : Token)
| OpConsumeToken (token : string) (now1 now2 : time)
| OpPutRecord (r : Record_)
| OpPutPendingSerial (role id serial : string) (now : time)
| OpPromoteSerial (role id serial : string)
| OpRevoke (role id : string) (now : time)
| OpCreateSession (r : SessionRecord) (e : AuditEvent) (now : time)
| OpRevokeSession (id reason : string) (actor : AuditEvent) (now nowA : time)
| OpRecordGrant (g : GrantRecord) (e : AuditEvent) (now : time)
| OpRevokeGrant (id reason : string) (actor : AuditEvent) (now nowA : time)
| OpRevokeGrantsWhere (by_ : GrantScope) (value reason : string) (actor : AuditEvent) (now : time)
| OpAppendAudit (e : AuditEvent) (now : time)
| OpImportLegacyJSON (file : legacy_file) (now : time).

Definition exec (HashToken : string -> string) (o : op) (fl : list bool) (d : DB) : DB :=
  match o with
  | OpPutToken t => (PutToken t fl d).1.2
  | OpConsumeToken token now1 now2 => (ConsumeToken HashToken token now1 now2 fl d).1.2
  | OpPutRecord r => (PutRecord r fl d).1.2
  | OpPutPendingSerial role id serial now => (PutPendingSerial role id serial now fl d).1.2
  | OpPromoteSerial role id serial => (PromoteSerial role id serial fl d).1.2
  | OpRevoke role id now => (Store_Revoke role id now fl d).1.2
  | OpCreateSession r e now => (CreateSession r e now fl d).1.2
  | OpRevokeSession id reason actor now nowA => (RevokeSession id reason actor now nowA fl d).1.2
  | OpRecordGrant g e now => (RecordGrant g e now fl d).1.2
  | OpRevokeGrant id reason actor now nowA => (RevokeGrant id reason actor now nowA fl d).1.2
  | OpRevokeGrantsWhere b value reason actor now => (RevokeGrantsWhere b value reason actor now fl d).1.2
  | OpAppendAudit e now => (appendAudit e now fl d).1.2
  | OpImportLegacyJSON file now => (ImportLegacyJSON file now fl d).1.2
  end.

(** A history of operations, each with its own faults. *)
Definition exec_all (HashToken : string -> string) (h : list (op * list bool)) (d : DB) : DB :=
  foldl (fun d x => exec HashToken x.1 x.2 d) d h.

Section Ops.
Context (HashToken : string -> string).

Lemma moves_update_identity msg role id cond f : moves evolves (update_identity msg role id cond f).
Proof.
  apply moves_stmt. intros d. destruct (identities d !! (role, id)); [|done].
  destruct (_ && _); [apply evolves_identities | done].
Qed.

Lemma moves_audit_each actor now reason l : moves evolves (audit_each actor now reason l).
Proof. apply moves_append_each. intros. apply evolves_audit. Qed.

#[local] Hint Resolve moves_update_identity moves_audit_each : sar.

Lemma moves_ConsumeToken token n1 n2 : moves evolves (ConsumeToken HashToken token n1 n2).
Proof.
  unfold ConsumeToken. cbv zeta. repeat moves_step. apply moves_stmt. intros d.
  destruct (tokens d !! _) as [r|] eqn:E; [|done]. destruct (tr_consumed_at r) eqn:Ec; [done|]. cbn.
  apply evolves_tokens, map_evolves_insert; [done|]. intros v Hv. rewrite E in Hv. injection Hv as <-.
  unfold token_evolves. by rewrite Ec.
Qed.

Lemma moves_PutToken t : moves evolves (PutToken t).
Proof.
  apply moves_stmt. intros d. cbn. apply evolves_tokens, map_evolves_insert; [done|].
  intros v Hv Hc. cbn. by rewrite Hv.
Qed.

Lemma moves_CreateSession r e now : moves evolves (CreateSession r e now).
Proof.
  unfold CreateSession. repeat moves_step. apply moves_stmt. intros d.
  destruct (operator_sessions d !! _) eqn:E; [done|]. destruct (session_by_hash _ d); [done|]. cbn.
  apply evolves_sessions, map_evolves_insert; [by left|]. by rewrite E.
Qed.

Lemma moves_RevokeSession id reason actor now nowA : moves evolves (RevokeSession id reason actor now nowA).
Proof.
  unfold RevokeSession, LookupSessionByID. repeat moves_step. apply moves_stmt. intros d.
  destruct (operator_sessions d !! id) as [r|] eqn:E; [|done]. destruct (sr_revoked_at r) eqn:Er; [done|].
  cbn. apply evolves_sessions, map_evolves_insert; [by left|]. intros v Hv.
  rewrite E in Hv. injection Hv as <-. right. eauto.
Qed.

Lemma moves_RecordGrant g e now : moves evolves (RecordGrant g e now).
Proof.
  unfold RecordGrant. cbv zeta. repeat moves_step. apply moves_stmt. intros d.
  destruct (grants d !! gd_GrantID g) eqn:E; [done|].
  match goal with |- context [if ?b then _ else _] => destruct b end; [|done]. cbn.
  apply evolves_grants, map_evolves_insert; [by left|]. by rewrite E.
Qed.

Lemma moves_RevokeGrant id reason actor now nowA : moves evolves (RevokeGrant id reason actor now nowA).
Proof.
  unfold RevokeGrant, LookupGrant. repeat moves_step. apply moves_stmt. intros d.
  destruct (grants d !! id) as [r|] eqn:E; [|done]. destruct (gr_revoked_at r) eqn:Er; [done|].
  cbn. apply evolves_grants, map_evolves_insert; [by left|]. intros v Hv.
  rewrite E in Hv. injection Hv as <-. right. eauto.
Qed.

Lemma cascade_unrevoked by_ value now r : cascade_where by_ value now r = true -> gr_revoked_at r = None.
Proof.
  unfold cascade_where. rewrite !andb_true_iff. intros [[_ H] _]. by apply bool_decide_eq_true in H.
Qed.

Lemma moves_RevokeGrantsWhere by_ value reason actor now :
  moves evolves (RevokeGrantsWhere by_ value reason actor now).
Proof.
  unfold RevokeGrantsWhere. repeat moves_step. apply moves_stmt. intros d. cbn.
  apply evolves_grants, map_evolves_fmap. intros r.
  destruct (cascade_where by_ value now r) eqn:E; [|by left].
  right. split; [by eapply cascade_unrevoked | eauto].
Qed.

Lemma moves_ImportLegacyJSON file now : moves evolves (ImportLegacyJSON file now).
Proof.
  unfold ImportLegacyJSON. cbv zeta. repeat moves_step; apply moves_each; intros x; apply moves_stmt; intros d.
  - destruct (identities d !! _); [done | apply evolves_identities].
  - destruct (identities d !! _); [done | apply evolves_identities].
  - destruct (tokens d !! t_Hash x) eqn:E; [done|]. cbn. apply evolves_tokens, map_evolves_insert; [done|].
    by rewrite E.
Qed.

Lemma exec_evolves o fl d : evolves d (exec HashToken o fl d).
Proof.
  destruct o; cbn [exec].
  - apply moves_PutToken.
  - apply moves_ConsumeToken.
  - apply moves_stmt. intros x. apply evolves_identities.
  - refine (_ fl d). change (moves evolves (PutPendingSerial role id serial now)).
    unfold PutPendingSerial, lookupAny. repeat moves_step.
  - refine (_ fl d). change (moves evolves (PromoteSerial role id serial)).
    unfold PromoteSerial. repeat moves_step.
  - refine (_ fl d). change (moves evolves (Store_Revoke role id now)).
    unfold Store_Revoke, lookupAny. repeat moves_step.
  - apply moves_CreateSession.
  - apply moves_RevokeSession.
  - apply moves_RecordGrant.
  - apply moves_RevokeGrant.
  - apply moves_RevokeGrantsWhere.
  - apply moves_appendAudit.
  - apply moves_ImportLegacyJSON.
Qed.

Lemma exec_all_evolves h d : evolves d (exec_all HashToken h d).
Proof.
  revert d. induction h as [|[o fl] h IH]; intros d; cbn; [done|].
  etrans; [apply exec_evolves | apply IH].
Qed.
End Ops.

(** Running an operation statement by statement. *)
Ltac db_unfold := unfold transaction, commit, return_uncommitted, query, appendAudit, stmt, db_bind, db_err, db_ret.
Ltac db_fault := match goal with |- context [next_fault ?fl] => destruct (next_fault fl) as [[|] ?] end;
  cbv beta iota.

(** ** Properties *)

Section Properties.
Context (HashToken : string -> string).

(** The state in which a token can no longer be used. *)
Definition consumed (h : string) (d : DB) : Prop :=
  exists r, tokens d !! h = Some r /\ tr_consumed_at r <> None.

Lemma evolves_consumed h d d' : evolves d d' -> consumed h d -> consumed h d'.
Proof.
  intros [H _ _ _] (r & Hr & Hc). destruct (H h r Hr) as (r' & Hr' & He). exists r'.
  split; [done|]. by rewrite (He Hc).
Qed.

Lemma ConsumeToken_success token n1 n2 fl d t d' fl' :
  ConsumeToken HashToken token n1 n2 fl d = (Ok t, d', fl') ->
  exists r, tokens d !! HashToken token = Some r /\ tr_consumed_at r = None
    /\ n1 <= fromUnix (tr_expires_at r)
    /\ t = mkToken (HashToken token) (tr_role r) (tr_id r) (fromUnix (tr_issued_at r))
             (fromUnix (tr_expires_at r)) (Some n2)
    /\ d' = with_tokens (<[HashToken token := mkTokenRow (tr_role r) (tr_id r) (tr_issued_at r)
                            (tr_expires_at r) (Some (unix n2))]> (tokens d)) d.
Proof.
  unfold ConsumeToken, transaction, query, stmt, db_bind. cbv zeta.
  destruct (next_fault fl) as [[|] fl1]; [done|]. destruct (next_fault fl1) as [[|] fl2]; [done|].
  destruct (tokens d !! HashToken token) as [r|] eqn:E; [|done]. cbn [t_ConsumedAt t_ExpiresAt].
  destruct (tr_consumed_at r) eqn:Ec; cbn; [done|].
  destruct (After n1 (fromUnix (tr_expires_at r))) eqn:Ea; cbn; [done|].
  destruct (next_fault fl2) as [[|] fl3]; [done|]. rewrite E, Ec. cbn.
  destruct (next_fault fl3) as [[|] fl4]; [done|]. intros [= <- <- <-].
  exists r. unfold After in Ea. split_and!; auto. lia.
Qed.

Lemma ConsumeToken_consumed token n1 n2 d :
  consumed (HashToken token) d ->
  ConsumeToken HashToken token n1 n2 [] d = (Err (ESentinel ErrTokenConsumed), d, []).
Proof.
  intros (r & Hr & Hc). unfold ConsumeToken, transaction, query, stmt, db_bind. cbn. rewrite Hr. cbn.
  destruct (tr_consumed_at r); [|done]. done.
Qed.


(** Execute a transaction symbolically, one statement at a time, over every
    fault. *)
(** The row of a grant as [RecordGrant] stores it. *)
Definition row_of_grant (g : GrantRecord) : GrantRow :=
  mkGrantRow (gd_OrgID g) (gd_UserID g) (gd_DeviceID g) (gd_ResourceID g) (gd_PolicyID g)
    (if bool_decide (gd_SessionID g <> "") then Some (gd_SessionID g) else None)
    (unix (gd_IssuedAt g)) (unix (gd_ExpiresAt g)) (swrap64 (gd_MaxBytes g)) None "".

Lemma RecordGrant_all g e now :
  all_or_nothing (RecordGrant g e now) (fun d _ d' =>
    grants d !! gd_GrantID g = None /\ e_Event e <> ""
    /\ (gd_SessionID g <> "" -> is_Some (operator_sessions d !! gd_SessionID g))
    /\ d' = insert_audit e now (with_grants (<[gd_GrantID g := row_of_grant g]> (grants d)) d)).
Proof.
  intros fl d. unfold RecordGrant, row_of_grant. db_unfold. cbv zeta. db_fault; [done|]. db_fault; [done|].
  destruct (grants d !! gd_GrantID g) eqn:E; [done|].
  case_bool_decide as Hs; [case_bool_decide as Hk; [|done]|]; cbv beta iota.
  all: case_bool_decide as He; [done|]; db_fault; [done|]; db_fault; [done|].
  all: split_and!; auto.
  - intros _. destruct (operator_sessions d !! gd_SessionID g); [eauto | done].
  - intros Hns. done.
Qed.

(** A grant and the record of it exist together or not at all: whatever
    statement, commit or constraint fails, issuing a grant either stores the
    grant under a new identifier, in an existing operator session, together
    with exactly one new audit event, or leaves the database untouched. *)
Theorem RecordGrant_atomic g e now :
  all_or_nothing (RecordGrant g e now) (fun d _ d' =>
    grants d !! gd_GrantID g = None /\ e_Event e <> ""
    /\ (gd_SessionID g <> "" -> is_Some (operator_sessions d !! gd_SessionID g))
    /\ d' = insert_audit e now (with_grants (<[gd_GrantID g := row_of_grant g]> (grants d)) d)).
Proof. apply RecordGrant_all. Qed.

Lemma RevokeGrantsWhere_all by_ value reason actor now :
  all_or_nothing (RevokeGrantsWhere by_ value reason actor now) (fun d affected d' =>
    affected = (fun kv => set_revoked (affected_of_row kv.1 kv.2) now reason)
               <$> List.filter (fun kv => cascade_where by_ value now kv.2) (map_to_list (grants d))
    /\ (forall id r, grants d !! id = Some r ->
          grants d' !! id = Some (if cascade_where by_ value now r then revoke_row now reason r else r))
    /\ audit_evolves d d'
    /\ (fun r => (ar_grant_id r, ar_reason r)) <$> drop (length (audit_events d)) (audit_events d')
       = (fun g => (gd_GrantID g, reason)) <$> affected).
Proof.
  assert (forall l fl d, match audit_each actor now reason l fl d with
    | (Ok _, d', _) => grants d' = grants d /\ (fun r => (ar_grant_id r, ar_reason r))
        <$> drop (length (audit_events d)) (audit_events d') = (fun g => (gd_GrantID g, reason)) <$> l
        /\ (exists k, audit_events d' = audit_events d ++ k)
    | _ => True end) as Heach.
  { induction l as [|g l IH]; intros fl d; cbn [audit_each].
    - cbn. rewrite drop_all. split_and!; auto. exists []. by rewrite app_nil_r.
    - unfold db_bind at 1, appendAudit. case_bool_decide; [done|]. unfold stmt. db_fault; [done|].
      match goal with |- context [audit_each _ _ _ _ ?f ?x] => specialize (IH f x);
        destruct (audit_each actor now reason l f x) as [[[[]|] d'] fl'] end; [|done].
      destruct IH as (E1 & E2 & k & E3). cbn in E1, E2, E3. rewrite E3 in *.
      split_and!; [done | | eexists; by rewrite <- app_assoc].
      rewrite <- app_assoc, drop_app_length. rewrite drop_app_length in E2. cbn. by rewrite E2. }
  intros fl d. pose proof (moves_RevokeGrantsWhere by_ value reason actor now fl d) as Hev.
  revert Hev. unfold RevokeGrantsWhere. db_unfold. db_fault; [done|]. db_fault; [done|].
  set (sel := List.filter (fun kv => cascade_where by_ value now kv.2) (map_to_list (grants d))).
  destruct (Z.eqb_spec (zlen ((fun kv => affected_of_row kv.1 kv.2) <$> sel)) 0) as [Hz|Hz].
  - db_fault; [done|]. intros _. apply zlen_zero, fmap_nil_inv in Hz. rewrite Hz. cbn.
    split_and!; [done | | by apply audit_evolves_same | by rewrite drop_all].
    intros id r Hr. destruct (cascade_where by_ value now r) eqn:Ec; [|done].
    assert ((id, r) ∈ sel) as Hin; [|rewrite Hz in Hin; by apply elem_of_nil in Hin].
    apply list_elem_of_In, List.filter_In. split; [|done].
    by apply list_elem_of_In, elem_of_map_to_list.
  - db_fault; [done|].
    match goal with |- context [audit_each _ _ _ ?l ?f ?x] => pose proof (Heach l f x) as He;
      destruct (audit_each actor now reason l f x) as [[[[]|] d'] fl'] end; [|done].
    db_fault; [done|]. intros [_ _ _ Ha]. cbn in Ha. destruct He as (E1 & E2 & _). cbn in E1, E2.
    split_and!; [by rewrite <- list_fmap_compose | | done |].
    + intros id r Hr. rewrite E1, lookup_fmap, Hr. cbn. by destruct (cascade_where _ _ _ r).
    + rewrite E2, <- !list_fmap_compose. done.
Qed.

(** Revoking by user, device or session revokes exactly the live grants in
    scope: on success the records returned are those of every grant in scope
    that was neither revoked nor expired, each of them is now revoked with the
    reason given, every other grant is unchanged, and the trail has gained one
    event per grant, naming it; on any failure nothing has changed. *)
Theorem RevokeGrantsWhere_exact by_ value reason actor now :
  all_or_nothing (RevokeGrantsWhere by_ value reason actor now) (fun d affected d' =>
    affected = (fun kv => set_revoked (affected_of_row kv.1 kv.2) now reason)
               <$> List.filter (fun kv => cascade_where by_ value now kv.2) (map_to_list (grants d))
    /\ (forall id r, grants d !! id = Some r ->
          grants d' !! id = Some (if cascade_where by_ value now r then revoke_row now reason r else r))
    /\ audit_evolves d d'
    /\ (fun r => (ar_grant_id r, ar_reason r)) <$> drop (length (audit_events d)) (audit_events d')
       = (fun g => (gd_GrantID g, reason)) <$> affected).
Proof. apply RevokeGrantsWhere_all. Qed.



(** Retention removes whole events strictly older than the cutoff and
    nothing else, reports how many, and leaves one event recording that it ran,
    numbered after everything before it; on any failure the trail is as it was.
    It refuses to run without a cutoff. *)
Theorem PruneAudit_spec before actorID now :
  all_or_nothing (PruneAudit before actorID now) (fun d n d' =>
    before <> 0
    /\ (exists rec, audit_events d'
          = List.filter (fun r => negb (ar_ts r <? unix before)) (audit_events d) ++ [rec]
          /\ ar_seq rec = audit_seq d + 1 /\ ar_ts rec = unix now
          /\ ar_reason rec = "audit_retention" /\ ar_actor_id rec = actorID)
    /\ n = zlen (List.filter (fun r => ar_ts r <? unix before) (audit_events d))
    /\ grants d' = grants d /\ identities d' = identities d /\ tokens d' = tokens d
    /\ operator_sessions d' = operator_sessions d).
Proof.
  intros fl d. unfold PruneAudit, IsZero. destruct (Z.eqb_spec before 0); [done|].
  db_unfold. db_fault; [done|]. db_fault; [done|]. rewrite bool_decide_false by done.
  db_fault; [done|]. db_fault; [done|]. cbn. split_and!; auto.
  - eexists. split; [done|]. done.
  - induction (audit_events d) as [|r rs IH]; [done|]. cbn [List.filter].
    destruct (ar_ts r <? unix before); cbn [negb]; rewrite !zlen_cons; lia.
Qed.

(** What is stored is what is read back: a grant that was recorded looks up
    as itself, with its times truncated to the second (which is what its signed
    encoding carries) and its byte budget intact over the full 64 bits. *)
Theorem RecordGrant_LookupGrant g e now fl d d' fl' :
  RecordGrant g e now fl d = (Ok tt, d', fl') ->
  time_wf (gd_IssuedAt g) -> time_wf (gd_ExpiresAt g) -> 0 <= gd_MaxBytes g < 2 ^ 64 ->
  LookupGrant (gd_GrantID g) [] d'
  = (Ok (mkGrantRecord (gd_GrantID g) (gd_OrgID g) (gd_UserID g) (gd_DeviceID g) (gd_ResourceID g)
       (gd_PolicyID g) (gd_SessionID g) (TruncateSecond (gd_IssuedAt g))
       (TruncateSecond (gd_ExpiresAt g)) (gd_MaxBytes g) None ""), d', []).
Proof.
  intros HR Hi He Hm. pose proof (RecordGrant_all g e now fl d) as Ha. rewrite HR in Ha.
  destruct Ha as (_ & _ & _ & ->). unfold LookupGrant, query, stmt. cbn. rewrite lookup_insert_eq.
  unfold grant_of_row, row_of_grant. cbn. unfold fromUnix, unix.
  rewrite !Unix_unixSeconds, !TruncateSecond_idem by (by apply TruncateSecond_wf).
  rewrite uwrap_swrap64, (uwrap_id 64) by done.
  case_bool_decide as Hs; cbn; [done|]. by destruct (gd_SessionID g); [|destruct Hs].
Qed.
End Properties.

(** Schema migration: a database of an older version gets exactly the steps
    it lacks, in order, and reports the version reached; one of a newer version
    is refused untouched; when a step fails, the version still says how many
    steps were applied, so running again completes the rest. *)
Theorem migrate_spec faults s :
  0 <= user_version s -> applied s = take (Z.to_nat (user_version s)) migrations ->
  let '(r, s') := migrate faults s in
  (user_version s' <= SchemaVersion -> applied s' = take (Z.to_nat (user_version s')) migrations)
  /\ user_version s <= user_version s'
  /\ (r = Ok tt -> user_version s' = SchemaVersion)
  /\ (SchemaVersion < user_version s -> s' = s /\ is_ok r = false)
  /\ (user_version s <= SchemaVersion -> migrate [] s' = (Ok tt, mkSchema SchemaVersion migrations)).
Proof.
  destruct s as [v a]. cbn [user_version applied]. intros Hv ->.
  destruct (decide (v = 0)) as [->|]; [|destruct (decide (v = 1)) as [->|];
    [|destruct (decide (v = 2)) as [->|]]].
  1: destruct faults as [|[] [|[] [|[] faults]]]; vm_compute; intuition congruence.
  1: destruct faults as [|[] [|[] faults]]; vm_compute; intuition congruence.
  1: destruct faults as [|[] faults]; vm_compute; intuition congruence.
  assert (SchemaVersion < v) as Hnew by (change SchemaVersion with 2; lia).
  unfold migrate. cbn [user_version]. destruct (default false (head faults)).
  - cbn. split_and!; try done; lia.
  - destruct (Z.gtb_spec v SchemaVersion); [|lia]. cbn. split_and!; try done; lia.
Qed.

(** ** Witnesses *)

Definition demo_hash (s : string) : string := "h:" ++ s.

Definition demo_token : Token :=
  mkToken (demo_hash "tok") "device" "dev_1" (Unix 1700000000) (Unix 1700003600) None.

Definition demo_db : DB := (PutToken demo_token [] empty_db).1.2.

Definition demo_event : AuditEvent :=
  mkAuditEvent 0 (Unix 1700000000) "grant.issued" "" "operator" "usr_maria" "dev_1" "res_x" "grn_1" ""
    "ok" 0 0 0 "".

Definition demo_record : GrantRecord :=
  mkGrantRecord "grn_1" "org" "usr_maria" "dev_1" "res_x" "pol_a" "" (Unix 1700000000)
    (Unix 1700001200) (2 ^ 63 + 1) None "".

Definition demo_granted : DB := (RecordGrant demo_record demo_event 0 [] empty_db).1.2.



Lemma RecordGrant_LookupGrant_witness :
  (LookupGrant "grn_1" [] demo_granted).1.1 = Ok demo_record.
Proof.
  pose proof (RecordGrant_LookupGrant demo_record demo_event 0 [] empty_db demo_granted []) as H.
  change "grn_1" with (gd_GrantID demo_record). rewrite H; [vm_compute; reflexivity | ..];
    vm_compute; intuition congruence.
Defined.

Lemma migrate_spec_witness :
  migrate [] (migrate [false; false; true] (mkSchema 0 [])).2 = (Ok tt, mkSchema SchemaVersion migrations).
Proof.
  pose proof (migrate_spec [false; false; true] (mkSchema 0 []) ltac:(vm_compute; congruence) eq_refl) as H.
  destruct (migrate [false; false; true] (mkSchema 0 [])) as [r s'].
  apply H. vm_compute. congruence.
Defined.
