(* ===== verification/StoreOpen.v ===== *)
(** * Opening the database

    [Open] and [Close] of [src/internal/storage/store.go]: the name the database
    is opened under, the settings of its connections, the migrations, and what is
    left open when a step fails.  SQLite and its driver are parameters: which file
    a name means is documented by SQLite (URI filenames), and the [_pragma]
    parameters by the driver. *)

From S2P Require Import Prelude GoErrors Db Storage.
From Stdlib Require Import Ascii.

(** ** SQLite *)

(** [net/url.ParseQuery] on a query without escapes: the values of one key. *)
Fixpoint split_at (sep : ascii) (s cur : list ascii) : list (list ascii) :=
  match s with
  | [] => [rev cur]
  | c :: s' => if bool_decide (c = sep) then rev cur :: split_at sep s' [] else split_at sep s' (c :: cur)
  end.

Fixpoint cut_at (sep : ascii) (s : list ascii) : list ascii * list ascii :=
  match s with
  | [] => ([], [])
  | c :: s' => if bool_decide (c = sep) then ([], s') else let '(a, b) := cut_at sep s' in (c :: a, b)
  end.

Definition query_values (key q : string) : list string :=
  omap (fun part => let '(k, v) := cut_at "="%char part in
                    if bool_decide (String.string_of_list_ascii k = key) then Some (String.string_of_list_ascii v) else None)
    (split_at "&"%char (String.list_ascii_of_string q) []).

Definition avoids (cs : list ascii) (s : string) : Prop := Forall (fun c => c ∉ cs) (String.list_ascii_of_string s).

#[global] Instance avoids_dec cs s : base.Decision (avoids cs s).
Proof. unfold avoids. apply _. Defined.

(** A path that means itself in a URI, and a query that needs no decoding. *)
Definition plain : string -> Prop := avoids ["?"; "#"; "%"]%char.
Definition unescaped : string -> Prop := avoids ["%"; "+"; ";"]%char.

(** Which file a name opens, and the PRAGMA statements run on each connection. *)
Class Sqlite := {
  uri_file : string -> string;
  conn_pragmas : string -> list string
}.

(** From SQLite's documentation: the path of a [file:] name ends at the first
    question mark or number sign.  From the driver's: the query is what follows
    the first question mark, and every [_pragma] in it is run. *)
Class SqliteLaws (S : Sqlite) := {
  uri_path p q : plain p -> uri_file ("file:" +:+ p +:+ "?" +:+ q) = p;
  uri_fragment p f : plain p -> uri_file ("file:" +:+ p +:+ "#" +:+ f) = p;
  uri_pragmas p q : avoids ["?"%char] p -> unescaped q ->
    conn_pragmas ("file:" +:+ p +:+ "?" +:+ q) = query_values "_pragma" q
}.

(** ** store.go *)

Definition dsn_options : string :=
  "_pragma=journal_mode(WAL)&_pragma=busy_timeout(5000)&_pragma=foreign_keys(1)&_pragma=synchronous(NORMAL)&_txlock=immediate".

Definition dsn (path : string) : string := "file:" +:+ path +:+ "?" +:+ dsn_options.

Record Store := mkStore { sd_name : string; sd_path : string }.

(** The databases there are, and how many handles are open. *)
Record Disk := mkDisk { dk_schema : gmap string Schema; dk_handles : Z }.

(** What goes wrong: creating the directory, finding the driver, the first
    connection, statements of the migration. *)
Record open_faults := mkOpenFaults {
  of_mkdir : option error;
  of_driver : option error;
  of_ping : option error;
  of_migration : list bool
}.

Definition schema_at (f : string) (d : Disk) : Schema := default (mkSchema 0 []) (dk_schema d !! f).

Section Open.
Context `{Sqlite}.

(** The first connection creates the file if it is missing. *)
Definition Open (path : string) (f : open_faults) (d : Disk) : res Store * Disk :=
  match of_mkdir f with
  | Some e => (Err (EWrap "create state directory" e), d)
  | None =>
      match of_driver f with
      | Some e => (Err (EWrap "open database" e), d)
      | None =>
          let opened := mkDisk (dk_schema d) (dk_handles d + 1) in
          match of_ping f with
          | Some e => (Err (EWrap "open database" e), mkDisk (dk_schema opened) (dk_handles opened - 1))
          | None =>
              let file := uri_file (dsn path) in
              let '(r, s) := migrate (of_migration f) (schema_at file opened) in
              let migrated := mkDisk (<[file := s]> (dk_schema opened)) (dk_handles opened) in
              match r with
              | Err e => (Err e, mkDisk (dk_schema migrated) (dk_handles migrated - 1))
              | Ok _ => (Ok (mkStore (dsn path) path), migrated)
              end
          end
      end
  end.

(** [Close], on the handle of one successful [Open]. *)
Definition Close (s : Store) (d : Disk) : Disk := mkDisk (dk_schema d) (dk_handles d - 1).

Definition Path (s : Store) : string := sd_path s.
End Open.

(** ** Lemmas *)

Lemma string_app_assoc (a b c : string) : (a +:+ b) +:+ c = a +:+ b +:+ c.
Proof. induction a as [|x a IH]; [done|]. exact (f_equal (String.String x) IH). Qed.

Lemma list_ascii_app (a b : string) :
  String.list_ascii_of_string (a +:+ b) = String.list_ascii_of_string a ++ String.list_ascii_of_string b.
Proof. induction a as [|x a IH]; [done|]. exact (f_equal (cons x) IH). Qed.

Lemma avoids_app cs a b : avoids cs (a +:+ b) <-> avoids cs a /\ avoids cs b.
Proof. unfold avoids. by rewrite list_ascii_app, Forall_app. Qed.

Lemma split_at_skip sep l s cur : sep ∉ l -> split_at sep (l ++ s) cur = split_at sep s (rev l ++ cur).
Proof.
  revert cur. induction l as [|c l IH]; intros cur Hn; [done|]. cbn. rewrite bool_decide_eq_false_2 by set_solver.
  rewrite IH by set_solver. by rewrite <- app_assoc.
Qed.

Lemma cut_at_skip sep l s : sep ∉ l -> cut_at sep (l ++ sep :: s) = (l, s).
Proof.
  induction l as [|c l IH]; intros Hn; cbn; [by rewrite bool_decide_eq_true_2|].
  rewrite bool_decide_eq_false_2 by set_solver. by rewrite IH by set_solver.
Qed.

Lemma avoids_not_in cs s c : avoids cs s -> c ∈ cs -> c ∉ String.list_ascii_of_string s.
Proof. unfold avoids. rewrite Forall_forall. intros H Hc Hin. by apply (H c Hin). Qed.

Lemma query_values_cons key k v t :
  avoids ["&"; "="]%char k -> avoids ["&"%char] v ->
  query_values key (k +:+ "=" +:+ v +:+ "&" +:+ t) = (if bool_decide (k = key) then [v] else []) ++ query_values key t.
Proof.
  intros Hk Hv. unfold query_values. rewrite !list_ascii_app.
  set (lk := String.list_ascii_of_string k) in *. set (lv := String.list_ascii_of_string v) in *.
  change (String.list_ascii_of_string "=") with ["="%char]. change (String.list_ascii_of_string "&") with ["&"%char].
  replace (lk ++ ["="%char] ++ lv ++ ["&"%char] ++ String.list_ascii_of_string t)
    with ((lk ++ "="%char :: lv) ++ "&"%char :: String.list_ascii_of_string t) by (by rewrite <- app_assoc).
  rewrite split_at_skip.
  - cbn [split_at]. rewrite bool_decide_eq_true_2 by done. rewrite app_nil_r, rev_involutive. cbn [omap list_omap].
    rewrite cut_at_skip by (apply (avoids_not_in _ _ _ Hk); set_solver).
    unfold lk, lv. rewrite !String.string_of_list_ascii_of_string. by case_bool_decide.
  - rewrite elem_of_app, elem_of_cons. intros [H|[H|H]]; [|done|]; revert H;
      [apply (avoids_not_in _ _ _ Hk)|apply (avoids_not_in _ _ _ Hv)]; set_solver.
Qed.

Definition dsn_rest : string := "_pragma=busy_timeout(5000)&_pragma=foreign_keys(1)&_pragma=synchronous(NORMAL)&_txlock=immediate".

Lemma dsn_rest_values : query_values "_pragma" dsn_rest = ["busy_timeout(5000)"; "foreign_keys(1)"; "synchronous(NORMAL)"].
Proof. vm_compute. reflexivity. Qed.

(** ** Properties *)

Section Properties.
Context `{SQ : Sqlite} {SL : SqliteLaws SQ}.

Lemma dsn_options_unescaped : unescaped dsn_options.
Proof. apply (bool_decide_unpack _). vm_compute. exact I. Qed.

Lemma plain_no_query p : plain p -> avoids ["?"%char] p.
Proof. unfold plain, avoids. intros H. eapply Forall_impl; [exact H|]. set_solver. Qed.

Lemma migrate_Ok faults s : (migrate faults s).1 = Ok tt -> 0 <= user_version s -> user_version (migrate faults s).2 = SchemaVersion.
Proof.
  destruct s as [v a]. cbn [user_version]. intros E Hv.
  destruct (decide (v <= SchemaVersion)) as [Hle|Hgt].
  - assert (v = 0 \/ v = 1 \/ v = 2) as [-> | [-> | ->]] by (change SchemaVersion with 2 in Hle; lia);
      destruct faults as [|[] [|[] [|[] faults]]]; vm_compute in E |- *; congruence.
  - revert E. unfold migrate. destruct (default false _); [done|]. cbn [user_version].
    by replace (v >? SchemaVersion) with true by lia.
Qed.

(** Opening a database whose path has nothing special to a URI in it: it is the
    file of that path and no other that is created or migrated; when [Open]
    succeeds its schema is this build's, one handle is open, and every connection
    waits for the writer, enforces foreign keys and keeps a write-ahead log; when
    it fails, at whatever step, no handle is left open. *)
Theorem Open_spec path f d :
  plain path -> 0 <= user_version (schema_at path d) ->
  let '(r, d') := Open path f d in
  (forall g, g <> path -> dk_schema d' !! g = dk_schema d !! g)
  /\ match r with
     | Err _ => dk_handles d' = dk_handles d
     | Ok s => Path s = path /\ dk_handles d' = dk_handles d + 1
         /\ user_version (schema_at path d') = SchemaVersion
         /\ conn_pragmas (sd_name s) = ["journal_mode(WAL)"; "busy_timeout(5000)"; "foreign_keys(1)"; "synchronous(NORMAL)"]
         /\ dk_handles (Close s d') = dk_handles d
     end.
Proof.
  intros Hp Hv. unfold Open. destruct (of_mkdir f); [done|]. destruct (of_driver f); [done|].
  destruct (of_ping f); [split; [done|cbn; lia]|]. unfold dsn. rewrite uri_path by done.
  pose proof (migrate_Ok (of_migration f) (schema_at path d)) as Hm.
  change (schema_at path (mkDisk (dk_schema d) (dk_handles d + 1))) with (schema_at path d). cbv zeta.
  destruct (migrate _ _) as [[[]|e] s]; cbn [fst snd dk_schema dk_handles] in *.
  - split; [intros g Hg; by rewrite lookup_insert_ne|]. unfold Path, Close, schema_at. cbn.
    rewrite lookup_insert_eq. cbn. split_and!; [done..|by apply Hm| |lia].
    rewrite uri_pragmas by (by apply plain_no_query || apply dsn_options_unescaped). by vm_compute.
  - split; [intros g Hg; by rewrite lookup_insert_ne|lia].
Qed.

(** The path is put into the name as it is.  With a number sign in the state
    directory the name ends there: every database of a state directory that
    begins like this one up to the sign is one and the same file, which is in
    none of these directories. *)
Theorem Open_fragment base r1 r2 :
  plain base ->
  uri_file (dsn (base +:+ "#" +:+ r1)) = base /\ uri_file (dsn (base +:+ "#" +:+ r2)) = base.
Proof.
  intros Hp. unfold dsn.
  assert (forall r, "file:" +:+ (base +:+ "#" +:+ r) +:+ "?" +:+ dsn_options
                    = "file:" +:+ base +:+ "#" +:+ (r +:+ "?" +:+ dsn_options)) as E.
  { intros r. by rewrite !string_app_assoc. }
  rewrite !E. by rewrite !uri_fragment.
Qed.

(** With a question mark in it the connections also lose the first of their
    settings: the write-ahead log. *)
Theorem Open_query base rest :
  plain base -> unescaped rest -> avoids ["&"; "="]%char rest ->
  uri_file (dsn (base +:+ "?" +:+ rest)) = base
  /\ conn_pragmas (dsn (base +:+ "?" +:+ rest)) = ["busy_timeout(5000)"; "foreign_keys(1)"; "synchronous(NORMAL)"].
Proof.
  intros Hp Hu Ha. unfold dsn. rewrite !string_app_assoc.
  assert (unescaped (rest +:+ "?" +:+ dsn_options)) as Hun.
  { apply avoids_app. split; [done|]. apply (bool_decide_unpack _). vm_compute. exact I. }
  rewrite uri_path, uri_pragmas by (done || by apply plain_no_query). split; [done|].
  replace (rest +:+ "?" +:+ dsn_options) with ((rest +:+ "?_pragma") +:+ "=" +:+ "journal_mode(WAL)" +:+ "&" +:+ dsn_rest)
    by (by rewrite string_app_assoc).
  rewrite query_values_cons, dsn_rest_values.
  - rewrite bool_decide_eq_false_2; [done|]. intros E. apply (f_equal String.list_ascii_of_string) in E.
    rewrite list_ascii_app in E. apply (f_equal length) in E. rewrite length_app in E. cbn in E. lia.
  - apply avoids_app. split; [done|]. apply (bool_decide_unpack _). vm_compute. exact I.
  - apply (bool_decide_unpack _). vm_compute. exact I.
Qed.
End Properties.

(** ** Witnesses: names read as documented, escapes apart *)

Fixpoint until (stop : list ascii) (s : list ascii) : list ascii :=
  match s with [] => [] | c :: s' => if bool_decide (c ∈ stop) then [] else c :: until stop s' end.

Definition demo_sqlite : Sqlite := {|
  uri_file s := String.string_of_list_ascii (until ["?"; "#"]%char (drop 5 (String.list_ascii_of_string s)));
  conn_pragmas s := query_values "_pragma" (String.string_of_list_ascii (cut_at "?"%char (String.list_ascii_of_string s)).2)
|}.

Lemma until_skip stop l c s : Forall (fun x => x ∉ stop) l -> c ∈ stop -> until stop (l ++ c :: s) = l.
Proof.
  intros Hl Hc. induction Hl as [|x l Hx _ IH]; cbn; [by rewrite bool_decide_eq_true_2|].
  rewrite bool_decide_eq_false_2 by done. by f_equal.
Qed.

Lemma demo_uri_file p c s :
  plain p -> c ∈ ["?"; "#"]%char -> @uri_file demo_sqlite ("file:" +:+ p +:+ String.String c s) = p.
Proof.
  intros Hp Hc. cbn -[String.app]. rewrite !list_ascii_app.
  change (drop 5 (String.list_ascii_of_string "file:" ++ ?x)) with x. cbn [String.list_ascii_of_string].
  rewrite until_skip by (done || (eapply Forall_impl; [exact Hp|set_solver])).
  apply String.string_of_list_ascii_of_string.
Qed.

#[local] Instance demo_sqlite_laws : SqliteLaws demo_sqlite.
Proof.
  split.
  - intros p q Hp. by apply demo_uri_file; [|left].
  - intros p f Hp. by apply demo_uri_file; [|right; left].
  - intros p q Hp _. cbn -[String.app query_values]. rewrite !list_ascii_app.
    rewrite app_assoc. cbn [String.list_ascii_of_string]. change (["?"%char] ++ ?x) with ("?"%char :: x).
    rewrite cut_at_skip; [cbn [snd]; by rewrite String.string_of_list_ascii_of_string|].
    rewrite elem_of_app. intros [H|H]; [revert H; apply (bool_decide_unpack _); vm_compute; exact I|].
    revert H. apply (avoids_not_in _ _ _ Hp). left.
Qed.

Lemma Open_spec_witness :
  exists s d, @Open demo_sqlite "/var/lib/sar/control.db" (mkOpenFaults None None None []) (mkDisk ∅ 0) = (Ok s, d)
    /\ dk_handles d = 1 /\ @conn_pragmas demo_sqlite (sd_name s) = ["journal_mode(WAL)"; "busy_timeout(5000)"; "foreign_keys(1)"; "synchronous(NORMAL)"].
Proof.
  assert (plain "/var/lib/sar/control.db") as Hp by (apply (bool_decide_unpack _); vm_compute; exact I).
  pose proof (@Open_spec demo_sqlite _ "/var/lib/sar/control.db" (mkOpenFaults None None None []) (mkDisk ∅ 0) Hp (Z.le_refl 0)) as H.
  destruct (Open _ _ _) as [[s|e] d] eqn:E; [|vm_compute in E; discriminate E].
  exists s, d. destruct H as (_ & _ & Hh & _ & Hpr & _). split; [reflexivity|]. split; [exact Hh|exact Hpr].
Defined.

Lemma Open_fragment_witness :
  @uri_file demo_sqlite (dsn "/srv/site#1/control.db") = @uri_file demo_sqlite (dsn "/srv/site#2/control.db").
Proof.
  assert (plain "/srv/site") as Hp by (apply (bool_decide_unpack _); vm_compute; exact I).
  destruct (@Open_fragment demo_sqlite _ "/srv/site" "1/control.db" "2/control.db" Hp) as [E1 E2].
  exact (eq_trans E1 (eq_sym E2)).
Defined.

Lemma Open_query_witness :
  @conn_pragmas demo_sqlite (dsn "/srv/what?/control.db") = ["busy_timeout(5000)"; "foreign_keys(1)"; "synchronous(NORMAL)"].
Proof.
  refine (proj2 (@Open_query demo_sqlite _ "/srv/what" "/control.db" _ _ _)); apply (bool_decide_unpack _); vm_compute; exact I.
Defined.
