(* ===== verification/StorageInv.v ===== *)
(** * A well-formed database

    The constraints the schema of [src/internal/storage/migrate.go] declares and
    those its operations maintain by themselves, as one invariant that every
    operation of the package keeps, faults included. *)

From stdpp Require Import sorting.
From S2P Require Import Prelude GoErrors GoTime Db Storage.
Open Scope db_scope.

(** A column of type INTEGER holds 64 bits. *)
Definition int64 (z : Z) : Prop := - 2 ^ 63 <= z < 2 ^ 63.

Definition session_typed (r : SessionRow) : Prop :=
  int64 (sr_created_at r) /\ int64 (sr_expires_at r) /\ forall v, sr_revoked_at r = Some v -> int64 v.

Definition grant_typed (r : GrantRow) : Prop :=
  int64 (gr_issued_at r) /\ int64 (gr_expires_at r) /\ int64 (gr_max_bytes r)
  /\ forall v, gr_revoked_at r = Some v -> int64 v.

Definition audit_typed (r : AuditRow) : Prop :=
  int64 (ar_ts r) /\ int64 (ar_bytes_in r) /\ int64 (ar_bytes_out r) /\ ar_event r <> "".

Record db_wf (d : DB) : Prop := {
  wf_sessions : forall id r, operator_sessions d !! id = Some r -> session_typed r;
  (* UNIQUE (token_hash) *)
  wf_hashes : forall id id' r r', operator_sessions d !! id = Some r -> operator_sessions d !! id' = Some r' ->
    sr_token_hash r = sr_token_hash r' -> id = id';
  wf_grants : forall id r, grants d !! id = Some r -> grant_typed r;
  (* FOREIGN KEY (session_id) *)
  wf_grant_session : forall id r sid, grants d !! id = Some r -> gr_session_id r = Some sid ->
    sid <> "" /\ is_Some (operator_sessions d !! sid);
  wf_audit : Forall audit_typed (audit_events d);
  (* AUTOINCREMENT: numbers are never reused *)
  wf_audit_order : StronglySorted (fun a b => ar_seq a < ar_seq b) (audit_events d);
  wf_audit_seq : Forall (fun r => ar_seq r <= audit_seq d) (audit_events d)
}.

(** [db_wf] is kept. *)
Definition keeps_wf (d d' : DB) : Prop := db_wf d -> db_wf d'.

#[global] Instance keeps_wf_preorder : PreOrder keeps_wf.
Proof. split; [by intros d Hd|]. intros a b c H1 H2 Ha. by apply H2, H1. Qed.

Lemma unix_int64 t : int64 (unix t).
Proof. unfold int64, unix, unixSeconds. apply swrap64_range. Qed.

Lemma swrap64_int64 z : int64 (swrap64 z).
Proof. apply swrap64_range. Qed.

#[export] Hint Resolve unix_int64 swrap64_int64 : sar.

(** ** One table at a time *)

Lemma wf_with_identities m d : keeps_wf d (with_identities m d).
Proof. by intros []. Qed.

Lemma wf_with_tokens m d : keeps_wf d (with_tokens m d).
Proof. by intros []. Qed.

Lemma wf_insert_audit e now d : e_Event e <> "" -> keeps_wf d (insert_audit e now d).
Proof.
  intros He [H1 H2 H3 H4 H5 H6 H7]. split; cbn; [done..| | |].
  - apply Forall_app. split; [done|]. constructor; [|done]. unfold audit_typed. cbn. auto with sar.
  - apply StronglySorted_app_2; [|done | by repeat constructor].
    intros a b Ha Hb. apply list_elem_of_singleton in Hb as ->. rewrite Forall_forall in H7.
    specialize (H7 a Ha). cbn. lia.
  - apply Forall_app. split; [|by constructor]. eapply Forall_impl; [exact H7|]. intros r Hr. cbn in Hr. lia.
Qed.

Lemma wf_filter_audit (P : AuditRow -> bool) d :
  keeps_wf d (with_audit (List.filter P (audit_events d)) (audit_seq d) d).
Proof.
  intros [H1 H2 H3 H4 H5 H6 H7]. split; cbn; [done..| | |].
  - rewrite Forall_forall in *. intros r [Hr _]%list_elem_of_In%filter_In. by apply H5, list_elem_of_In.
  - clear -H6. induction H6 as [|a l Hl IH Ha]; cbn; [constructor|]. destruct (P a); [|done].
    constructor; [done|]. rewrite Forall_forall in *. intros x [Hx _]%list_elem_of_In%filter_In.
    by apply Ha, list_elem_of_In.
  - rewrite Forall_forall in *. intros r [Hr _]%list_elem_of_In%filter_In. by apply H7, list_elem_of_In.
Qed.

(** A new session. *)
Lemma wf_insert_session id r d :
  session_typed r -> operator_sessions d !! id = None -> session_by_hash (sr_token_hash r) d = None ->
  keeps_wf d (with_sessions (<[id := r]> (operator_sessions d)) d).
Proof.
  intros Hr Hn Hh [H1 H2 H3 H4 H5 H6 H7].
  assert (forall id' r', operator_sessions d !! id' = Some r' -> sr_token_hash r' <> sr_token_hash r) as Hfresh.
  { intros id' r' Hl E. unfold session_by_hash in Hh. apply head_None in Hh.
    assert ((id', r') ∈ List.filter (fun kv => bool_decide (sr_token_hash kv.2 = sr_token_hash r))
              (map_to_list (operator_sessions d))) as Hin.
    { apply list_elem_of_In, filter_In. split; [by apply list_elem_of_In, elem_of_map_to_list|].
      by apply bool_decide_eq_true. }
    rewrite Hh in Hin. by apply elem_of_nil in Hin. }
  split; cbn; [| | done | | done..].
  - intros id' r' [[<- <-]|[_ Hl]]%lookup_insert_Some; eauto.
  - intros a b ra rb [[<- <-]|[Ha Hla]]%lookup_insert_Some [[<- <-]|[Hb Hlb]]%lookup_insert_Some E; eauto.
    + by destruct (Hfresh _ _ Hlb).
    + by destruct (Hfresh _ _ Hla).
  - intros gid g sid Hg Hs. destruct (H4 _ _ _ Hg Hs) as [Hne Hsome]. split; [done|].
    by apply lookup_insert_is_Some'; right.
Qed.

(** A session that stays the same but for its end. *)
Lemma wf_revoke_session id r v d :
  operator_sessions d !! id = Some r -> int64 v ->
  keeps_wf d (with_sessions (<[id := mkSessionRow (sr_token_hash r) (sr_user_id r) (sr_created_at r) (sr_expires_at r)
                                       (Some v) (sr_remote r)]> (operator_sessions d)) d).
Proof.
  intros Hl Hv [H1 H2 H3 H4 H5 H6 H7]. split; cbn; [| | done | | done..].
  - intros id' r' [[<- <-]|[_ Hl']]%lookup_insert_Some; [|eauto].
    destruct (H1 _ _ Hl) as (A & B & _). split; [exact A|]. split; [exact B|]. by intros ? [= <-].
  - intros a b ra rb [[<- <-]|[Ha Hla]]%lookup_insert_Some [[<- <-]|[Hb Hlb]]%lookup_insert_Some E; eauto.
  - intros gid g sid Hg Hs. destruct (H4 _ _ _ Hg Hs) as [Hne Hsome]. split; [done|].
    by apply lookup_insert_is_Some'; right.
Qed.

(** A new grant, of a session that exists. *)
Lemma wf_insert_grant id r d :
  grant_typed r -> (forall sid, gr_session_id r = Some sid -> sid <> "" /\ is_Some (operator_sessions d !! sid)) ->
  keeps_wf d (with_grants (<[id := r]> (grants d)) d).
Proof.
  intros Hr Hs [H1 H2 H3 H4 H5 H6 H7]. split; cbn; [done | done | | | done..].
  - intros id' r' [[<- <-]|[_ Hl]]%lookup_insert_Some; eauto.
  - intros id' r' sid [[<- <-]|[_ Hl]]%lookup_insert_Some E; eauto.
Qed.

Lemma revoke_row_typed now reason r : grant_typed r -> grant_typed (revoke_row now reason r).
Proof.
  intros (A & B & C & D). split; [exact A|]. split; [exact B|]. split; [exact C|].
  intros ? [= <-]. apply unix_int64.
Qed.

Lemma new_grant_typed org user device resource policy session issued expires maxBytes :
  grant_typed (mkGrantRow org user device resource policy session (unix issued) (unix expires) (swrap64 maxBytes) None "").
Proof. split; [apply unix_int64|]. split; [apply unix_int64|]. split; [apply swrap64_int64 | done]. Qed.

(** ** Every operation *)

Section Ops.
Context (HashToken : string -> string).

Lemma wf_appendAudit e now : moves keeps_wf (appendAudit e now).
Proof. apply moves_append. intros d He. by apply wf_insert_audit. Qed.

Lemma wf_audit_each actor now reason l : moves keeps_wf (audit_each actor now reason l).
Proof. apply moves_append_each. intros. by apply wf_insert_audit. Qed.

Lemma wf_update_identity msg role id cond f : moves keeps_wf (update_identity msg role id cond f).
Proof.
  apply moves_stmt. intros d. destruct (identities d !! (role, id)); [|done].
  destruct (_ && _); [apply wf_with_identities | done].
Qed.

#[local] Hint Resolve wf_appendAudit wf_audit_each wf_update_identity wf_with_identities wf_with_tokens : sar.

Lemma wf_CreateSession r e now : moves keeps_wf (CreateSession r e now).
Proof.
  unfold CreateSession. repeat moves_step. apply moves_stmt. intros d.
  destruct (operator_sessions d !! _) eqn:E; [done|]. destruct (session_by_hash _ d) eqn:Eh; [done|].
  apply wf_insert_session; [|done | done]. split; [apply unix_int64|]. split; [apply unix_int64 | done].
Qed.

Lemma wf_RevokeSession id reason actor now nowA : moves keeps_wf (RevokeSession id reason actor now nowA).
Proof.
  unfold RevokeSession, LookupSessionByID. repeat moves_step. apply moves_stmt. intros d.
  destruct (operator_sessions d !! id) as [r|] eqn:E; [|done]. destruct (sr_revoked_at r); [done|].
  apply (wf_revoke_session id r); [done | apply unix_int64].
Qed.

Lemma wf_RecordGrant g e now : moves keeps_wf (RecordGrant g e now).
Proof.
  unfold RecordGrant. cbv zeta. repeat moves_step. apply moves_stmt. intros d.
  destruct (grants d !! gd_GrantID g); [done|].
  case_bool_decide as Hs; [|apply wf_insert_grant].
  - destruct (bool_decide (operator_sessions d !! gd_SessionID g <> None)) eqn:Ef; [|done].
    apply bool_decide_eq_true in Ef. apply wf_insert_grant.
    + apply new_grant_typed.
    + intros sid [= <-]. split; [done|]. by apply not_eq_None_Some.
  - apply new_grant_typed.
  - done.
Qed.

Lemma wf_RevokeGrant id reason actor now nowA : moves keeps_wf (RevokeGrant id reason actor now nowA).
Proof.
  unfold RevokeGrant, LookupGrant. repeat moves_step. apply moves_stmt. intros d.
  destruct (grants d !! id) as [r|] eqn:E; [|done]. destruct (gr_revoked_at r); [done|].
  intros Hwf. apply wf_insert_grant; [| |done].
  - apply revoke_row_typed. exact (wf_grants _ Hwf _ _ E).
  - intros sid Hs. exact (wf_grant_session _ Hwf _ _ _ E Hs).
Qed.

Lemma wf_RevokeGrantsWhere by_ value reason actor now : moves keeps_wf (RevokeGrantsWhere by_ value reason actor now).
Proof.
  unfold RevokeGrantsWhere. repeat moves_step. apply moves_stmt. intros d [H1 H2 H3 H4 H5 H6 H7].
  split; cbn; [done | done | | | done..].
  - intros id r'. rewrite lookup_fmap. intros (r & Hr & ->)%fmap_Some.
    destruct (cascade_where by_ value now r); [apply revoke_row_typed|]; eauto.
  - intros id r' sid. rewrite lookup_fmap. intros (r & Hr & ->)%fmap_Some Hs.
    apply (H4 id r sid Hr). revert Hs. by destruct (cascade_where by_ value now r).
Qed.

Lemma wf_ImportLegacyJSON file now : moves keeps_wf (ImportLegacyJSON file now).
Proof.
  unfold ImportLegacyJSON. cbv zeta. repeat moves_step; apply moves_each; intros x; apply moves_stmt; intros d;
    (destruct (_ !! _); [done | first [apply wf_with_identities | apply wf_with_tokens]]).
Qed.

Lemma wf_PruneAudit before actorID now : moves keeps_wf (PruneAudit before actorID now).
Proof.
  unfold PruneAudit. repeat moves_step. apply moves_stmt. intros d. apply wf_filter_audit.
Qed.

Lemma wf_ConsumeToken token n1 n2 : moves keeps_wf (ConsumeToken HashToken token n1 n2).
Proof.
  unfold ConsumeToken. cbv zeta. repeat moves_step. apply moves_stmt. intros d.
  destruct (tokens d !! _) as [r|]; [|done]. destruct (tr_consumed_at r); [done | apply wf_with_tokens].
Qed.

Lemma exec_wf o fl d : keeps_wf d (exec HashToken o fl d).
Proof.
  destruct o; cbn [exec].
  - apply moves_stmt. intros x. apply wf_with_tokens.
  - apply wf_ConsumeToken.
  - apply moves_stmt. intros x. apply wf_with_identities.
  - refine (_ fl d). change (moves keeps_wf (PutPendingSerial role id serial now)).
    unfold PutPendingSerial, lookupAny. repeat moves_step.
  - refine (_ fl d). change (moves keeps_wf (PromoteSerial role id serial)).
    unfold PromoteSerial. repeat moves_step.
  - refine (_ fl d). change (moves keeps_wf (Store_Revoke role id now)).
    unfold Store_Revoke, lookupAny. repeat moves_step.
  - apply wf_CreateSession.
  - apply wf_RevokeSession.
  - apply wf_RecordGrant.
  - apply wf_RevokeGrant.
  - apply wf_RevokeGrantsWhere.
  - apply wf_appendAudit.
  - apply wf_ImportLegacyJSON.
Qed.
End Ops.

(** ** Histories, pruning included *)

Inductive store_op :=
| Change (o : op)
| Prune (before : time) (actorID : string) (now : time).

Definition store_exec (HashToken : string -> string) (o : store_op) (fl : list bool) (d : DB) : DB :=
  match o with
  | Change o => exec HashToken o fl d
  | Prune before actorID now => (PruneAudit before actorID now fl d).1.2
  end.

Definition store_history (HashToken : string -> string) (h : list (store_op * list bool)) (d : DB) : DB :=
  foldl (fun d x => store_exec HashToken x.1 x.2 d) d h.

Lemma store_history_wf HashToken h d : keeps_wf d (store_history HashToken h d).
Proof.
  revert d. induction h as [|[o fl] h IH]; intros d; cbn; [done|]. etrans; [|apply IH].
  destruct o; [apply exec_wf | apply wf_PruneAudit].
Qed.

Lemma empty_db_wf : db_wf empty_db.
Proof. split; cbn; try done; try constructor. Qed.

(** In a well-formed database a token hash identifies its session. *)
Lemma session_by_hash_iff d h id r :
  db_wf d ->
  session_by_hash h d = Some (id, r) <-> operator_sessions d !! id = Some r /\ sr_token_hash r = h.
Proof.
  intros Hwf. unfold session_by_hash.
  set (l := List.filter (fun kv => bool_decide (sr_token_hash kv.2 = h)) (map_to_list (operator_sessions d))).
  assert (forall kv, kv ∈ l <-> operator_sessions d !! kv.1 = Some kv.2 /\ sr_token_hash kv.2 = h) as Hl.
  { intros [k v]. unfold l. rewrite list_elem_of_In, filter_In, <- list_elem_of_In, elem_of_map_to_list.
    by rewrite bool_decide_eq_true. }
  split.
  - intros E. apply (Hl (id, r)). destruct l as [|x l']; [done|]. injection E as ->. left.
  - intros [H1 H2]. assert ((id, r) ∈ l) as Hin by by apply Hl.
    destruct l as [|[id' r'] l'] eqn:El; [by apply elem_of_nil in Hin|]. cbn.
    destruct (proj1 (Hl (id', r')) (list_elem_of_here _ _)) as [H1' H2']. cbn in *.
    assert (id' = id) as -> by (eapply (wf_hashes _ Hwf); [done | done | by rewrite H2, H2']). congruence.
Qed.

