(* ===== verification/Enrollment.v ===== *)
(** * Identities, enrollment and renewal

    [src/internal/ca/ca.go] (identities in certificates, [Sign]) and
    [src/internal/control/enrollment] (tokens, enrollment, verification,
    renewal, enrollment codes).  X.509 and randomness are outside the program:
    creating and parsing a certificate is the class [X509], random values are
    arguments, [None] when the source of randomness fails. *)

From Stdlib Require Import Ascii.
From S2P Require Import Prelude GoErrors GoTime Db Storage.
Open Scope db_scope.

(** ** ca.go *)

Definition RoleDevice : string := "device".
Definition RoleOperator : string := "operator".
Definition identityScheme : string := "sar".

Record URL := mkURL { u_Scheme : string; u_Host : string; u_Path : string }.

Record Identity := mkIdentity { id_Role : string; id_ID : string }.

#[global] Instance Identity_eq_dec : EqDecision Identity.
Proof. solve_decision. Defined.

(** [big.Int.Text(16)]: lower-case hexadecimal digits, no leading zeros.  A
    number has at most as many digits as bits. *)
Definition hex_digit (d : Z) : ascii :=
  ascii_of_nat (Z.to_nat (if d <? 10 then 48 + d else 87 + d)).

Fixpoint hex_digits (fuel : nat) (n : Z) (acc : string) : string :=
  match fuel with
  | O => acc
  | S fuel' =>
      let acc' := String (hex_digit (n mod 16)) acc in
      if n / 16 =? 0 then acc' else hex_digits fuel' (n / 16) acc'
  end.

Definition Text16 (n : Z) : string :=
  if n <? 0 then "-" ++ hex_digits (S (Z.to_nat (Z.log2 (- n)))) (- n) ""
  else hex_digits (S (Z.to_nat (Z.log2 n))) n "".

(** What this program reads of a certificate. *)
Record Cert := mkCert {
  c_URIs : list URL;
  c_SerialNumber : Z;
  c_NotBefore : time;
  c_NotAfter : time;
  c_IsCA : bool
}.

(** [cert.SerialNumber.Text(16)]. *)
Definition c_SerialHex (c : Cert) : string := Text16 (c_SerialNumber c).

Definition Identity_URI (i : Identity) : URL := mkURL identityScheme (id_Role i) ("/" ++ id_ID i).

Definition Identity_String (i : Identity) : string := id_Role i ++ "/" ++ id_ID i.

(** [strings.TrimPrefix(path, "/")]. *)
Definition trimSlash (p : string) : string :=
  match p with
  | String "/"%char rest => rest
  | _ => p
  end.

Fixpoint identities_of (us : list URL) : list Identity :=
  match us with
  | [] => []
  | u :: us' =>
      if negb (bool_decide (u_Scheme u = identityScheme)) then identities_of us'
      else if negb (bool_decide (u_Host u = RoleDevice)) && negb (bool_decide (u_Host u = RoleOperator))
      then identities_of us'
      else
        let id := trimSlash (u_Path u) in
        if bool_decide (id = "") then identities_of us'
        else mkIdentity (u_Host u) id :: identities_of us'
  end.

Definition IdentityOf (c : Cert) : res Identity :=
  match identities_of (c_URIs c) with
  | [i] => Ok i
  | [] => Err (ESentinel ErrNoIdentity)
  | _ => Err (wrap ErrNoIdentity "certificate asserts identities")
  end.

(** A parsed certificate request: does its self-signature verify, is its key
    Ed25519. *)
Record CSR := mkCSR { csr_sig_ok : bool; csr_ed25519 : bool }.

(** [crypto/x509] and [encoding/pem]: creating a leaf from a template, PEM
    encoded, and parsing it back. *)
Class X509 := {
  PEM : Type;
  CreateCertificate : Cert -> CSR -> res PEM;
  ParseCertificate : PEM -> res Cert
}.

(** A certificate created for a device or operator identity parses back with
    the template's identity, serial and constraint; its times are kept to the
    second. *)
Class X509Laws (X : X509) := {
  x509_roundtrip t csr der id :
    CreateCertificate t csr = Ok der ->
    c_URIs t = [Identity_URI id] -> id_Role id = RoleDevice \/ id_Role id = RoleOperator ->
    ParseCertificate der = Ok (mkCert (c_URIs t) (c_SerialNumber t) (TruncateSecond (c_NotBefore t))
                                 (TruncateSecond (c_NotAfter t)) (c_IsCA t))
}.

Section WithX509.
Context `{X509} (HashToken : string -> string).

Definition CA_Sign (csr : CSR) (id : Identity) (ttl : duration) (serial : option Z) (now : time)
    : res PEM :=
  if negb (csr_sig_ok csr) then Err (EMsg "csr signature")
  else if negb (csr_ed25519 csr) then Err (EMsg "ca: csr public key is not ed25519")
  else if bool_decide (id_ID id = "") then
    Err (EMsg "ca: refusing to sign a certificate with an empty identity")
  else
    match serial with
    | None => Err (EMsg "generate serial")
    | Some sn =>
        CreateCertificate (mkCert [Identity_URI id] sn (Add now (- Minute)) (Add now ttl) false) csr
    end.

(** ** enrollment.go *)

Definition DefaultTokenTTL : duration := 1 * Hour.
Definition DefaultCertTTL : duration := 30 * 24 * Hour.

(** [Service], without the store and the authority, which are the database and
    the class [X509]. *)
Record Service := mkService {
  sv_CAPEM : PEM;
  sv_grantPub : list byte;
  sv_tokenTTL : duration;
  sv_certTTL : duration
}.

Definition New_enrollment (capem : PEM) (grantPub : list byte) : Service :=
  mkService capem grantPub DefaultTokenTTL DefaultCertTTL.

Record Result := mkResult {
  res_CertificatePEM : PEM;
  res_CAPEM : PEM;
  res_Identity : Identity;
  res_NotAfter : time;
  res_GrantPublicKey : list byte
}.

Definition lift {A} (r : res A) : dbM A :=
  match r with Ok a => db_ret a | Err e => db_err e end.

Definition IssueToken (s : Service) (role id : string) (raw : option string) (now : time)
    : dbM string :=
  if bool_decide (id = "") then db_err (EMsg "enrollment: identity is required")
  else
    match raw with
    | None => db_err (EMsg "generate token")
    | Some token =>
        do _ <- PutToken (mkToken (HashToken token) role id now (Add now (sv_tokenTTL s)) None);
        db_ret token
    end.

(** [parseCSR]; [None]: not a certificate request. *)
Definition parseCSR (csr : option CSR) : res CSR :=
  match csr with
  | Some c => Ok c
  | None => Err (wrap ErrInvalidCSR "not a CERTIFICATE REQUEST block")
  end.

Definition Enroll (s : Service) (token : string) (csrPEM : option CSR)
    (serial : option Z) (now1 now2 now3 now4 : time) : dbM Result :=
  do rec <- ConsumeToken HashToken token now1 now2;
  do csr <- lift (parseCSR csrPEM);
  let id := mkIdentity (t_Role rec) (t_ID rec) in
  do certPEM <- lift (CA_Sign csr id (sv_certTTL s) serial now3);
  do cert <- lift (ParseCertificate certPEM);
  do _ <- PutRecord (mkRecord (t_ID rec) (t_Role rec) now4 (c_SerialHex cert) false None "" None);
  db_ret (mkResult certPEM (sv_CAPEM s) id (c_NotAfter cert) (sv_grantPub s)).

Definition VerifyEnrolled (cert : Cert) : dbM Identity :=
  do id <- lift (IdentityOf cert);
  do rec <- Lookup (id_Role id) (id_ID id);
  let presented := c_SerialHex cert in
  if bool_decide (r_SerialHex rec = presented) then db_ret id
  else if negb (bool_decide (r_PendingSerialHex rec = ""))
          && bool_decide (r_PendingSerialHex rec = presented) then
    do _ <- PromoteSerial (id_Role id) (id_ID id) presented;
    db_ret id
  else db_err (wrap ErrNotEnrolled "certificate superseded by a later enrollment").

Definition Renew (s : Service) (cert : Cert) (csrPEM : option CSR) (serial : option Z)
    (now1 now2 : time) : dbM Result :=
  do id <- VerifyEnrolled cert;
  do csr <- lift (parseCSR csrPEM);
  do certPEM <- lift (CA_Sign csr id (sv_certTTL s) serial now1);
  do issued <- lift (ParseCertificate certPEM);
  do _ <- PutPendingSerial (id_Role id) (id_ID id) (c_SerialHex issued) now2;
  db_ret (mkResult certPEM (sv_CAPEM s) id (c_NotAfter issued) (sv_grantPub s)).

Definition WithCertTTL (s : Service) (ttl : duration) : Service :=
  if ttl >? 0 then mkService (sv_CAPEM s) (sv_grantPub s) (sv_tokenTTL s) ttl else s.

End WithX509.

(** ** code.go *)

Definition codePrefix : string := "sar1.".

Record Code := mkCode {
  cd_Addr : string;
  cd_Token : string;
  cd_CAFingerprint : string;
  cd_ServerName : string
}.

(** The UTF-8 encodings of the characters [unicode.IsSpace] accepts. *)
Definition spaces : list (list Z) :=
  [[9]; [10]; [11]; [12]; [13]; [32]; [194; 133]; [194; 160]; [225; 154; 128]]
  ++ ((fun x => [226; 128; x]) <$> [128; 129; 130; 131; 132; 133; 134; 135; 136; 137; 138; 168; 169; 175])
  ++ [[226; 129; 159]; [227; 128; 128]].

Definition sp_bytes : list (list byte) := map (map byte_of_Z) spaces.

(** [p] removed from the front of [l]. *)
Fixpoint strip {A} `{EqDecision A} (p l : list A) : option (list A) :=
  match p, l with
  | [], _ => Some l
  | x :: p', y :: l' => if bool_decide (x = y) then strip p' l' else None
  | _, [] => None
  end.

(** The first of the patterns that is a prefix, removed. *)
Fixpoint strip_any {A} `{EqDecision A} (ps : list (list A)) (l : list A) : option (list A) :=
  match ps with
  | [] => None
  | p :: ps' => match strip p l with Some l' => Some l' | None => strip_any ps' l end
  end.

(** Every pattern is non-empty, so [length l] rounds are enough. *)
Fixpoint trim_front {A} `{EqDecision A} (fuel : nat) (ps : list (list A)) (l : list A) : list A :=
  match fuel with
  | O => l
  | S fuel' => match strip_any ps l with Some l' => trim_front fuel' ps l' | None => l end
  end.

(** [strings.TrimSpace]: from the left, then from the right. *)
Definition TrimSpace_bytes (l : list byte) : list byte :=
  let l1 := trim_front (length l) sp_bytes l in
  rev (trim_front (length l1) (map (@rev byte) sp_bytes) (rev l1)).

Definition TrimSpace (s : string) : string := string_of_bytes (TrimSpace_bytes (bytes_of_string s)).

(** [strings.HasPrefix] and [strings.TrimPrefix]. *)
Definition strip_prefix (p s : string) : option string :=
  string_of_bytes <$> strip (bytes_of_string p) (bytes_of_string s).

(** [encoding/base64]'s [RawURLEncoding]: its alphabet is letters, digits, "-"
    and "_". *)
Class Base64 := {
  b64enc : string -> string;
  b64dec : string -> option string
}.

Definition printable (b : byte) : Prop := 33 <= byte_to_Z b < 127.

Class Base64Laws (B : Base64) := {
  b64_roundtrip s : b64dec (b64enc s) = Some s;
  b64_alphabet s : Forall printable (bytes_of_string (b64enc s))
}.

Section WithCodec.
Context `{Base64}.
(** The JSON encoding of [Code]. *)
Context (json_enc : Code -> string) (json_dec : string -> option Code).

Definition Code_Encode (c : Code) : string := codePrefix ++ b64enc (json_enc c).

Definition DecodeCode (s : string) : res Code :=
  match strip_prefix codePrefix (TrimSpace s) with
  | None => Err (wrap ErrBadCode "missing prefix")
  | Some body =>
      match b64dec body with
      | None => Err (wrap ErrBadCode "base64")
      | Some raw =>
          match json_dec raw with
          | None => Err (wrap ErrBadCode "json")
          | Some c =>
              if bool_decide (cd_Addr c = "") then Err (wrap ErrBadCode "no address")
              else if bool_decide (cd_Token c = "") then Err (wrap ErrBadCode "no token")
              else if bool_decide (cd_CAFingerprint c = "") then
                Err (wrap ErrBadCode "no authority fingerprint")
              else Ok c
          end
      end
  end.
End WithCodec.

(** [VerifyFingerprint]: [got] is [Fingerprint(cert)]. *)
Fixpoint xor_diff (a b : list byte) (diff : Z) : Z :=
  match a, b with
  | x :: a', y :: b' => xor_diff a' b' (Z.lor diff (Z.lxor (byte_to_Z x) (byte_to_Z y)))
  | _, _ => diff
  end.

Definition VerifyFingerprint (got expected : string) : bool :=
  if negb (slen got =? slen expected) then false
  else xor_diff (bytes_of_string got) (bytes_of_string expected) 0 =? 0.


(** ** Lemmas *)

Lemma hex_digits_nonempty fuel n c acc : hex_digits fuel n (String c acc) <> "".
Proof. revert n c acc. induction fuel; intros; cbn; [done|]. case_match; [done | apply IHfuel]. Qed.

Lemma Text16_nonempty n : Text16 n <> "".
Proof.
  unfold Text16. destruct (n <? 0); [done|]. cbn [hex_digits]. case_match; [done|].
  apply hex_digits_nonempty.
Qed.

(** The identity a certificate was issued for is the identity it asserts. *)
Lemma IdentityOf_URI c id :
  c_URIs c = [Identity_URI id] -> id_ID id <> "" ->
  id_Role id = RoleDevice \/ id_Role id = RoleOperator -> IdentityOf c = Ok id.
Proof.
  intros Hu Hid Hr. unfold IdentityOf. rewrite Hu. destruct id as [role i]. cbn in *.
  rewrite (bool_decide_eq_false_2 (i = "")) by done.
  destruct Hr as [-> | ->]; by rewrite bool_decide_eq_true_2 by done.
Qed.

Lemma identities_of_role us i :
  i ∈ identities_of us -> (id_Role i = RoleDevice \/ id_Role i = RoleOperator) /\ id_ID i <> "".
Proof.
  induction us as [|u us IH]; cbn [identities_of]; [by intros ?%elem_of_nil|].
  repeat case_match; auto. intros [->|?]%elem_of_cons; [|auto]. cbn.
  apply bool_decide_eq_false in H1. split; [|done].
  apply andb_false_iff in H0 as [H0|H0]; apply negb_false_iff, bool_decide_eq_true in H0; auto.
Qed.

Lemma IdentityOf_role c id :
  IdentityOf c = Ok id -> (id_Role id = RoleDevice \/ id_Role id = RoleOperator) /\ id_ID id <> "".
Proof.
  unfold IdentityOf. intros H. apply (identities_of_role (c_URIs c)).
  destruct (identities_of (c_URIs c)) as [|i [|j l]]; [done| |done].
  injection H as <-. apply list_elem_of_here.
Qed.

Section Certificates.
Context `{X : X509}.

(** A certificate with that serial passes for the identity: it is live, and the
    serial is its current one or its pending one. *)
Definition acceptable (d : DB) (id : Identity) (serial : string) : Prop :=
  exists r, identities d !! (id_Role id, id_ID id) = Some r /\ ir_revoked_at r = None
    /\ (ir_serial_hex r = serial
        \/ ir_pending_serial_hex r <> "" /\ ir_pending_serial_hex r = serial).

Definition promoted (r : IdentityRow) : IdentityRow :=
  mkIdentityRow (ir_enrolled_at r) (ir_pending_serial_hex r) (ir_revoked_at r) "" None.

Lemma VerifyEnrolled_success cert fl d id d' fl' :
  VerifyEnrolled cert fl d = (Ok id, d', fl') ->
  exists r, IdentityOf cert = Ok id /\ identities d !! (id_Role id, id_ID id) = Some r
    /\ ir_revoked_at r = None
    /\ (ir_serial_hex r = c_SerialHex cert /\ d' = d
        \/ ir_serial_hex r <> c_SerialHex cert /\ ir_pending_serial_hex r <> ""
           /\ ir_pending_serial_hex r = c_SerialHex cert
           /\ d' = with_identities (<[(id_Role id, id_ID id) := promoted r]> (identities d)) d).
Proof.
  unfold VerifyEnrolled, Lookup, lookupAny, PromoteSerial, update_identity, query, stmt, db_bind, lift.
  destruct (IdentityOf cert) as [i|e]; [|done]. cbn.
  destruct (next_fault fl) as [[|] fl1]; [done|].
  destruct (identities d !! (id_Role i, id_ID i)) as [r|] eqn:E; [|done]. cbn.
  destruct (ir_revoked_at r) eqn:Er; cbn; [done|].
  destruct (bool_decide (ir_serial_hex r = c_SerialHex cert)) eqn:Es.
  { intros [= <- <- <-]. exists r. apply bool_decide_eq_true in Es. auto 10. }
  apply bool_decide_eq_false in Es.
  destruct (bool_decide (ir_pending_serial_hex r = "")) eqn:Ep; cbn; [done|].
  destruct (bool_decide (ir_pending_serial_hex r = c_SerialHex cert)) eqn:Eq; cbn; [|done].
  destruct (next_fault fl1) as [[|] fl2]; [done|]. rewrite E, Er, Eq. cbn.
  intros [= <- <- <-]. exists r.
  apply bool_decide_eq_false in Ep. apply bool_decide_eq_true in Eq.
  split_and!; auto. right. unfold promoted. by rewrite Er.
Qed.

Lemma VerifyEnrolled_nofault cert d id :
  IdentityOf cert = Ok id -> acceptable d id (c_SerialHex cert) ->
  exists d', VerifyEnrolled cert [] d = (Ok id, d', []).
Proof.
  intros Hi (r & E & Er & Hs).
  unfold VerifyEnrolled, Lookup, lookupAny, PromoteSerial, update_identity, query, stmt, db_bind, lift.
  rewrite Hi. cbn. rewrite E. cbn. rewrite Er. cbn.
  destruct (bool_decide (ir_serial_hex r = c_SerialHex cert)) eqn:Es; [eauto|].
  apply bool_decide_eq_false in Es. destruct Hs as [?|[Hp Hq]]; [done|].
  rewrite (bool_decide_eq_false_2 (ir_pending_serial_hex r = "")) by done.
  rewrite (bool_decide_eq_true_2 (ir_pending_serial_hex r = c_SerialHex cert)) by done. cbn.
  rewrite E, Er. rewrite (bool_decide_eq_true_2 (ir_pending_serial_hex r = c_SerialHex cert)) by done.
  cbn. eauto.
Qed.

(** What is acceptable once a row has been written for the identity. *)
Lemma acceptable_insert m d id r s :
  acceptable (with_identities (<[(id_Role id, id_ID id) := r]> m) d) id s
  <-> ir_revoked_at r = None
      /\ (ir_serial_hex r = s \/ ir_pending_serial_hex r <> "" /\ ir_pending_serial_hex r = s).
Proof.
  unfold acceptable. cbn. rewrite lookup_insert_eq. split; [|intros ?; eexists; naive_solver].
  intros (r' & [= <-] & ?). done.
Qed.

Lemma CA_Sign_Ok csr id ttl serial now pem :
  CA_Sign csr id ttl serial now = Ok pem ->
  csr_sig_ok csr = true /\ csr_ed25519 csr = true /\ id_ID id <> ""
  /\ exists sn, serial = Some sn
     /\ CreateCertificate (mkCert [Identity_URI id] sn (Add now (- Minute)) (Add now ttl) false) csr = Ok pem.
Proof.
  unfold CA_Sign. destruct (csr_sig_ok csr); [|done]. destruct (csr_ed25519 csr); [|done]. cbn.
  case_bool_decide; [done|]. destruct serial as [sn|]; [|done]. eauto 10.
Qed.

(** What a signed certificate asserts. *)
Lemma CA_Sign_cert `{!X509Laws X} csr id ttl serial now pem :
  CA_Sign csr id ttl serial now = Ok pem -> id_Role id = RoleDevice \/ id_Role id = RoleOperator ->
  exists c sn, serial = Some sn /\ ParseCertificate pem = Ok c /\ IdentityOf c = Ok id
    /\ c_SerialHex c = Text16 sn /\ c_IsCA c = false
    /\ c_NotAfter c = TruncateSecond (Add now ttl).
Proof.
  intros (_ & _ & Hid & sn & -> & Hc)%CA_Sign_Ok Hr.
  pose proof (x509_roundtrip _ _ _ id Hc eq_refl Hr) as Hp.
  eexists _, sn. split_and!; [done|exact Hp| |done..]. by apply IdentityOf_URI.
Qed.

Lemma PutPendingSerial_success role id serial now fl d d' fl' :
  PutPendingSerial role id serial now fl d = (Ok tt, d', fl') ->
  exists r, identities d !! (role, id) = Some r /\ ir_revoked_at r = None
    /\ d' = with_identities (<[(role, id) := mkIdentityRow (ir_enrolled_at r) (ir_serial_hex r)
                                 (ir_revoked_at r) serial (Some (unix now))]> (identities d)) d.
Proof.
  unfold PutPendingSerial, update_identity, lookupAny, query, stmt, db_bind.
  destruct (next_fault fl) as [[|] fl1]; [done|].
  destruct (identities d !! (role, id)) as [r|] eqn:E; cbn.
  - destruct (ir_revoked_at r) eqn:Er; cbn.
    + destruct (next_fault fl1) as [[|] fl2]; [done|]. by rewrite E.
    + intros [= <- <-]. exists r. by rewrite Er.
  - destruct (next_fault fl1) as [[|] fl2]; [done|]. by rewrite E.
Qed.

(** A certificate is accepted exactly for the identity it asserts, and
    only while that identity is not revoked and the certificate is its current
    one or the pending renewal.  Presenting the pending one retires every
    other certificate of the identity at once; presenting the current one
    changes nothing.  Short of database faults nothing acceptable is refused. *)
Theorem VerifyEnrolled_spec cert d :
  (forall fl id d' fl', VerifyEnrolled cert fl d = (Ok id, d', fl') ->
     IdentityOf cert = Ok id /\ acceptable d id (c_SerialHex cert)
     /\ acceptable d' id (c_SerialHex cert)
     /\ ((d' = d /\ exists r, identities d !! (id_Role id, id_ID id) = Some r
                              /\ ir_serial_hex r = c_SerialHex cert)
         \/ forall s, acceptable d' id s -> s = c_SerialHex cert))
  /\ (forall id, IdentityOf cert = Ok id -> acceptable d id (c_SerialHex cert) ->
        exists d', VerifyEnrolled cert [] d = (Ok id, d', [])).
Proof.
  split; [|intros; by apply VerifyEnrolled_nofault].
  intros fl id d' fl' (r & Hi & Hr & Hn & [[Hs ->]|(Hs & Hp & Hq & ->)])%VerifyEnrolled_success.
  - split_and!; [done|exists r; auto..|]. left. eauto.
  - split_and!; [done|exists r; auto| |].
    + apply acceptable_insert. cbn. auto.
    + right. intros s [_ [?|[[] ?]]]%acceptable_insert; cbn in *; congruence.
Qed.

(** Renewal never locks an endpoint out: after it, the certificate that
    asked for it and the new one are both accepted for the same identity, and
    no other is.  The first use of the new one retires the old.  The identity
    is the presented certificate's, whatever the request says. *)
Theorem Renew_overlap `{!X509Laws X} s cert csr serial n1 n2 fl d res d' fl' :
  Renew s cert csr serial n1 n2 fl d = (Ok res, d', fl') ->
  exists new,
    ParseCertificate (res_CertificatePEM res) = Ok new
    /\ IdentityOf cert = Ok (res_Identity res) /\ IdentityOf new = Ok (res_Identity res)
    /\ (forall x, acceptable d' (res_Identity res) x <-> x = c_SerialHex cert \/ x = c_SerialHex new)
    /\ (c_SerialHex new <> c_SerialHex cert ->
        forall fl2 id d2 fl2', VerifyEnrolled new fl2 d' = (Ok id, d2, fl2') ->
          forall x, acceptable d2 (res_Identity res) x <-> x = c_SerialHex new).
Proof.
  unfold Renew, db_bind.
  destruct (VerifyEnrolled cert fl d) as [[[id|e] d1] fl1] eqn:EV; [|done].
  destruct csr as [csr|]; cbn [parseCSR lift db_ret db_err]; [|done].
  destruct (CA_Sign csr id (sv_certTTL s) serial n1) as [pem|e] eqn:ES; cbn [lift db_ret db_err]; [|done].
  destruct (ParseCertificate pem) as [issued|e] eqn:EP; cbn [lift db_ret db_err]; [|done].
  destruct (PutPendingSerial _ _ _ _ fl1 d1) as [[[[]|e] d2] fl2] eqn:EQ; [|done].
  intros [= <- <- <-]. cbn [res_CertificatePEM res_Identity].
  apply VerifyEnrolled_success in EV as (r & Hi & Hr & Hn & Hcase).
  destruct (IdentityOf_role _ _ Hi) as [Hrole _].
  destruct (CA_Sign_cert _ _ _ _ _ _ ES Hrole) as (c & sn & -> & Hp & Hid & Hsn & _).
  rewrite EP in Hp. injection Hp as <-.
  assert (c_SerialHex issued <> "") as Hne by (rewrite Hsn; apply Text16_nonempty).
  apply PutPendingSerial_success in EQ as (r1 & Hr1 & Hn1 & ->).
  assert (ir_serial_hex r1 = c_SerialHex cert) as Hcur.
  { destruct Hcase as [[? ->]|(_ & _ & ? & ->)]; [congruence|]. cbn in Hr1.
    rewrite lookup_insert_eq in Hr1. by injection Hr1 as <-. }
  exists issued. split_and!; [done..| |].
  - intros x. rewrite acceptable_insert. cbn. rewrite Hcur. naive_solver.
  - intros Hdiff fl3 id3 d3 fl3' HV x.
    apply VerifyEnrolled_success in HV as (r3 & Hi3 & Hr3 & Hn3 & Hc3).
    assert (id3 = id) as -> by congruence. cbn in Hr3. rewrite lookup_insert_eq in Hr3.
    injection Hr3 as <-. cbn in Hc3. destruct Hc3 as [[? _]|(_ & _ & _ & ->)]; [congruence|].
    rewrite acceptable_insert. cbn. naive_solver.
Qed.

End Certificates.

Section Enrolling.
Context `{X : X509} (HashToken : string -> string).

Lemma ConsumeToken_all_or_nothing token n1 n2 :
  all_or_nothing (ConsumeToken HashToken token n1 n2) (fun _ _ d' => consumed (HashToken token) d').
Proof.
  intros fl d. destruct (ConsumeToken HashToken token n1 n2 fl d) as [[[t|e] d1] fl1] eqn:E.
  - apply ConsumeToken_success in E as (r & _ & _ & _ & _ & ->). eexists. cbn.
    by rewrite lookup_insert_eq.
  - by apply transaction_Err in E.
Qed.

(** A successful enrollment used a token that was live and unused and is
    spent now; the certificate asserts the identity the token was issued for,
    and from then on it is the only certificate accepted for that identity. *)
Theorem Enroll_success `{!X509Laws X} s token csr serial n1 n2 n3 n4 fl d res d' fl' :
  Enroll HashToken s token csr serial n1 n2 n3 n4 fl d = (Ok res, d', fl') ->
  exists r cert,
    tokens d !! HashToken token = Some r /\ tr_consumed_at r = None
    /\ n1 <= fromUnix (tr_expires_at r) /\ consumed (HashToken token) d'
    /\ res_Identity res = mkIdentity (tr_role r) (tr_id r)
    /\ ParseCertificate (res_CertificatePEM res) = Ok cert
    /\ (forall x, acceptable d' (res_Identity res) x <-> x = c_SerialHex cert)
    /\ (tr_role r = RoleDevice \/ tr_role r = RoleOperator ->
        IdentityOf cert = Ok (res_Identity res)
        /\ VerifyEnrolled cert [] d' = (Ok (res_Identity res), d', [])).
Proof.
  unfold Enroll, db_bind.
  destruct (ConsumeToken HashToken token n1 n2 fl d) as [[[t|e] d1] fl1] eqn:EC; [|done].
  destruct csr as [csr|]; cbn [parseCSR lift db_ret db_err]; [|done].
  destruct (CA_Sign csr _ (sv_certTTL s) serial n3) as [pem|e] eqn:ES; cbn [lift db_ret db_err]; [|done].
  destruct (ParseCertificate pem) as [cert|e] eqn:EP; cbn [lift db_ret db_err]; [|done].
  unfold PutRecord, stmt. destruct (next_fault fl1) as [[|] fl2]; [done|].
  intros [= <- <- <-]. cbn [res_CertificatePEM res_Identity].
  apply ConsumeToken_success in EC as (r & Hr & Hu & He & -> & ->). cbn in ES |- *.
  exists r, cert.
  assert (forall m dd x, acceptable (with_identities (<[(tr_role r, tr_id r) :=
            mkIdentityRow (unix n4) (c_SerialHex cert) None "" None]> m) dd)
            (mkIdentity (tr_role r) (tr_id r)) x <-> x = c_SerialHex cert) as Hacc.
  { intros m dd x.
    pose proof (acceptable_insert m dd (mkIdentity (tr_role r) (tr_id r))
      (mkIdentityRow (unix n4) (c_SerialHex cert) None "" None) x) as HH. cbn in HH.
    etrans; [exact HH|]. naive_solver. }
  split_and!; [done..| |done|done|apply Hacc|].
  - eexists. cbn. by rewrite lookup_insert_eq.
  - intros Hrole. destruct (CA_Sign_cert _ _ _ _ _ _ ES Hrole) as (c & sn & -> & Hp & Hid & _).
    rewrite EP in Hp. injection Hp as <-. split; [done|].
    destruct (VerifyEnrolled_nofault cert (with_identities (<[(tr_role r, tr_id r) :=
       mkIdentityRow (unix n4) (c_SerialHex cert) None "" None]> (identities d))
       (with_tokens (<[HashToken token := mkTokenRow (tr_role r) (tr_id r) (tr_issued_at r)
         (tr_expires_at r) (Some (unix n2))]> (tokens d)) d)) _ Hid) as [d2 H2].
    { by apply Hacc. }
    etrans; [exact H2|]. do 2 f_equal.
    apply VerifyEnrolled_success in H2 as (r2 & _ & Hr2 & _ & [[_ ->]|(Hd & _)]); [done|].
    cbn in Hr2. rewrite lookup_insert_eq in Hr2. injection Hr2 as <-. done.
Qed.

(** A failed enrollment never changes an identity, and a token that was
    consumed stays spent: either the token was refused and the database is
    untouched, or the token is spent. *)
Theorem Enroll_failure s token csr serial n1 n2 n3 n4 fl d e d' fl' :
  Enroll HashToken s token csr serial n1 n2 n3 n4 fl d = (Err e, d', fl') ->
  identities d' = identities d
  /\ (d' = d /\ (exists e', (ConsumeToken HashToken token n1 n2 fl d).1.1 = Err e')
      \/ consumed (HashToken token) d').
Proof.
  unfold Enroll, db_bind. pose proof (ConsumeToken_all_or_nothing token n1 n2 fl d) as HA.
  destruct (ConsumeToken HashToken token n1 n2 fl d) as [[[t|e0] d1] fl1] eqn:EC.
  2:{ intros [= -> <- <-]. subst d1. split; [done|]. left. eauto. }
  assert (identities d1 = identities d) as Hid
    by by apply ConsumeToken_success in EC as (r & _ & _ & _ & _ & ->).
  destruct csr as [csr|]; cbn [parseCSR lift db_ret db_err]; [|by intros [= _ <- _]; auto].
  destruct (CA_Sign csr _ (sv_certTTL s) serial n3) as [pem|e1] eqn:ES;
    cbn [lift db_ret db_err]; [|by intros [= _ <- _]; auto].
  destruct (ParseCertificate pem) as [cert|e1] eqn:EP; cbn [lift db_ret db_err];
    [|by intros [= _ <- _]; auto].
  unfold PutRecord, stmt. destruct (next_fault fl1) as [[|] fl2]; [|done].
  by intros [= _ <- _]; auto.
Qed.
End Enrolling.

(** ** Enrollment codes *)

Lemma bytes_of_string_app a b : bytes_of_string (a ++ b) = (bytes_of_string a ++ bytes_of_string b)%list.
Proof.
  induction a as [|c a IH]; [done|]. exact (f_equal (cons (byte_of_ascii c)) IH).
Qed.

Definition ascii_space (b : byte) : Prop := byte_to_Z b ∈ [9; 10; 11; 12; 13; 32].

Lemma strip_app {A} `{EqDecision A} (p l : list A) : strip p (p ++ l) = Some l.
Proof. induction p; cbn; [done|]. by rewrite bool_decide_eq_true_2. Qed.

(** No space character begins or ends with a printable byte. *)
Definition starts_unprintable (p : list byte) : bool :=
  match p with
  | [] => false
  | b :: _ => (byte_to_Z b <? 33) || (127 <=? byte_to_Z b)
  end.

Lemma strip_any_printable ps b l :
  forallb starts_unprintable ps = true -> printable b -> strip_any ps (b :: l) = None.
Proof.
  intros Hps Hb. induction ps as [|p ps IH]; [done|]. cbn in Hps |- *.
  apply andb_true_iff in Hps as [Hp Hps]. rewrite (IH Hps).
  destruct p as [|x p]; [done|]. cbn in *. rewrite bool_decide_eq_false_2; [done|].
  intros ->. unfold printable in Hb. lia.
Qed.

Lemma sp_bytes_unprintable :
  forallb starts_unprintable sp_bytes = true
  /\ forallb starts_unprintable (map (@rev byte) sp_bytes) = true.
Proof. split; vm_compute; reflexivity. Qed.

Lemma strip_any_space b l :
  ascii_space b ->
  strip_any sp_bytes (b :: l) = Some l /\ strip_any (map (@rev byte) sp_bytes) (b :: l) = Some l.
Proof.
  unfold ascii_space. intros H. rewrite <- (byte_of_to_Z b).
  repeat (apply elem_of_cons in H as [-> | H]; [split; vm_compute; reflexivity|]).
  by apply elem_of_nil in H.
Qed.

Lemma trim_front_spaces ps w l n :
  (forall b l, ascii_space b -> strip_any ps (b :: l) = Some l) ->
  forallb starts_unprintable ps = true ->
  Forall ascii_space w -> match l with [] => False | b :: _ => printable b end ->
  (length w <= n)%nat -> trim_front n ps (w ++ l) = l.
Proof.
  intros Hs Hp Hw Hl. revert n. induction Hw as [|b w Hb Hw IH]; intros n Hn; cbn in *.
  - destruct n as [|n]; [done|]. cbn. destruct l as [|b l]; [done|]. by rewrite strip_any_printable.
  - destruct n as [|n]; [lia|]. cbn. rewrite Hs by done. apply IH. lia.
Qed.

Lemma TrimSpace_bytes_spec w1 b0 m b1 w2 :
  Forall ascii_space w1 -> Forall ascii_space w2 -> printable b0 -> printable b1 ->
  TrimSpace_bytes (w1 ++ (b0 :: m ++ [b1]) ++ w2) = b0 :: m ++ [b1].
Proof.
  intros H1 H2 Hb0 Hb1. unfold TrimSpace_bytes. cbv zeta.
  destruct sp_bytes_unprintable as [U1 U2].
  assert (forall b l, ascii_space b -> strip_any sp_bytes (b :: l) = Some l) as S1
    by exact (fun b l Hb => proj1 (strip_any_space b l Hb)).
  assert (forall b l, ascii_space b -> strip_any (map (@rev byte) sp_bytes) (b :: l) = Some l) as S2
    by exact (fun b l Hb => proj2 (strip_any_space b l Hb)).
  rewrite (trim_front_spaces sp_bytes w1 ((b0 :: m ++ [b1]) ++ w2) _ S1 U1 H1 Hb0) by (rewrite length_app; lia).
  rewrite rev_app_distr.
  rewrite (trim_front_spaces (map (@rev byte) sp_bytes) (rev w2) _ _ S2 U2 (Forall_rev H2));
    [ by rewrite rev_involutive | | rewrite length_app, length_rev; lia ].
  rewrite app_comm_cons, rev_app_distr. exact Hb1.
Qed.

Lemma snoc_inv {A} (l : list A) : l <> [] -> exists m x, l = m ++ [x].
Proof. destruct l as [|x m _] using rev_ind; [done|]. eauto. Qed.

(** An enrollment code survives being copied with white space around it:
    decoding the text of a complete code gives that code back. *)
Theorem DecodeCode_Encode `{Base64Laws} json_enc json_dec c w1 w2 :
  json_dec (json_enc c) = Some c ->
  cd_Addr c <> "" -> cd_Token c <> "" -> cd_CAFingerprint c <> "" ->
  Forall ascii_space w1 -> Forall ascii_space w2 ->
  DecodeCode json_dec (string_of_bytes (w1 ++ bytes_of_string (Code_Encode json_enc c) ++ w2)) = Ok c.
Proof.
  intros Hj Ha Ht Hf H1 H2. unfold DecodeCode, TrimSpace, Code_Encode.
  rewrite bytes_of_string_of_bytes, bytes_of_string_app.
  destruct (snoc_inv (bytes_of_string codePrefix ++ bytes_of_string (b64enc (json_enc c))))
    as (m & x & E); [done|].
  assert (Forall printable (bytes_of_string codePrefix ++ bytes_of_string (b64enc (json_enc c)))) as HP.
  { apply Forall_app. split; [|apply b64_alphabet].
    apply (Forall_impl (fun b => 33 <= byte_to_Z b < 127)); [|done].
    by apply (bool_decide_unpack _). }
  assert (printable x) as Hx by (rewrite E in HP; apply Forall_app in HP as [_ HP]; by inversion HP).
  assert (exists m0, bytes_of_string codePrefix ++ bytes_of_string (b64enc (json_enc c))
                     = x73 :: m0 ++ [x]) as [m0 E0].
  { destruct m as [|b m]; [exfalso | exists m; rewrite E; by injection E as <- _].
    apply (f_equal length) in E. rewrite length_app in E.
    change (length (bytes_of_string codePrefix)) with 5%nat in E. cbn in E. lia. }
  rewrite E0, TrimSpace_bytes_spec by done. rewrite <- E0.
  unfold strip_prefix. rewrite bytes_of_string_of_bytes, strip_app. cbn.
  rewrite string_of_bytes_of_string, b64_roundtrip, Hj.
  by rewrite !bool_decide_eq_false_2 by done.
Qed.

Lemma xor_diff_lor a b d : xor_diff a b d = Z.lor d (xor_diff a b 0).
Proof.
  revert b d. induction a as [|x a IH]; intros [|y b] d; cbn [xor_diff]; rewrite ?Z.lor_0_r; [done..|].
  rewrite IH, (IH _ (Z.lor 0 _)), Z.lor_0_l. by rewrite Z.lor_assoc.
Qed.

(** The constant-time comparison of fingerprints is equality. *)
Theorem VerifyFingerprint_iff got expected : VerifyFingerprint got expected = true <-> got = expected.
Proof.
  unfold VerifyFingerprint. rewrite <- !zlen_bytes_of_string.
  split.
  - destruct (zlen _ =? zlen _) eqn:El; [|done]. cbn. intros Hd. apply bytes_of_string_inj.
    apply Z.eqb_eq in El, Hd. revert El Hd.
    generalize (bytes_of_string got), (bytes_of_string expected). intros a.
    induction a as [|x a IH]; intros [|y b]; unfold zlen; cbn; [done|lia|lia|].
    intros El. rewrite xor_diff_lor. intros [Hx Hd]%Z.lor_eq_0_iff. f_equal.
    + apply byte_to_Z_inj. by apply Z.lxor_eq.
    + apply IH; [|done]. unfold zlen. lia.
  - intros ->. rewrite Z.eqb_refl. cbn. generalize (bytes_of_string expected). intros a.
    induction a as [|x a IH]; [done|]. cbn. by rewrite xor_diff_lor, Z.lxor_nilpotent.
Qed.

(** ** Witnesses *)

#[local] Instance toy_x509 : X509 := {|
  PEM := Cert;
  CreateCertificate t _ := Ok (mkCert (c_URIs t) (c_SerialNumber t) (TruncateSecond (c_NotBefore t))
                                 (TruncateSecond (c_NotAfter t)) (c_IsCA t));
  ParseCertificate c := Ok c
|}.

#[local] Instance toy_x509_laws : X509Laws toy_x509.
Proof. split. by intros t csr der id [= <-]. Qed.

Definition demo_id : Identity := mkIdentity RoleDevice "laptop".
Definition demo_cert (serial : Z) : Cert := mkCert [Identity_URI demo_id] serial 0 0 false.
Definition demo_csr : option CSR := Some (mkCSR true true).
Definition demo_service : Service := New_enrollment (demo_cert 0) [].

Definition demo_idb : DB :=
  with_tokens {[ demo_hash "tok" := mkTokenRow RoleDevice "laptop" 1700000000 1700003600 None ]}
    (with_identities {[ (RoleDevice, "laptop") := mkIdentityRow 1600000000 (Text16 171) None (Text16 255) None ]}
       empty_db).

Lemma VerifyEnrolled_spec_witness :
  (VerifyEnrolled (demo_cert 255) [] demo_idb).1.1 = Ok demo_id
  /\ Text16 255 = "ff" /\ acceptable demo_idb demo_id "ff".
Proof.
  split; [reflexivity|]. split; [reflexivity|].
  apply (proj1 (VerifyEnrolled_spec (demo_cert 255) demo_idb) [] demo_id
           (VerifyEnrolled (demo_cert 255) [] demo_idb).1.2 []). vm_compute. reflexivity.
Defined.

Definition demo_result : Result := mkResult (demo_cert 0) (demo_cert 0) demo_id 0 [].

Definition demo_renew : res Result * DB * list bool :=
  Renew demo_service (demo_cert 171) demo_csr (Some 4096) (Unix 1700000000) (Unix 1700000000) [] demo_idb.

Definition demo_renewed : Result := match demo_renew.1.1 with Ok r => r | Err _ => demo_result end.

Lemma Renew_overlap_witness :
  demo_renew = (Ok demo_renewed, demo_renew.1.2, [])
  /\ acceptable demo_renew.1.2 (res_Identity demo_renewed) "ab"
  /\ ~ acceptable demo_renew.1.2 (res_Identity demo_renewed) "ff".
Proof.
  assert (demo_renew = (Ok demo_renewed, demo_renew.1.2, [])) as E
    by (apply run_out; reflexivity).
  split; [exact E|].
  destruct (Renew_overlap demo_service (demo_cert 171) demo_csr (Some 4096) (Unix 1700000000)
    (Unix 1700000000) [] demo_idb demo_renewed demo_renew.1.2 [] E)
    as (new & Hp & _ & _ & Hacc & _).
  split; [exact (proj2 (Hacc "ab") (or_introl eq_refl))|].
  intros Ha. destruct (proj1 (Hacc "ff") Ha) as [Hb|Hb]; [discriminate Hb|].
  cbn [ParseCertificate toy_x509] in Hp. injection Hp as <-. discriminate Hb.
Defined.

Definition demo_enroll : res Result * DB * list bool :=
  Enroll demo_hash demo_service "tok" demo_csr (Some 7) (Unix 1700000001) (Unix 1700000001)
    (Unix 1700000001) (Unix 1700000001) [] demo_idb.

Definition demo_enrolled : Result := match demo_enroll.1.1 with Ok r => r | Err _ => demo_result end.

Lemma Enroll_success_witness :
  demo_enroll = (Ok demo_enrolled, demo_enroll.1.2, [])
  /\ consumed (demo_hash "tok") demo_enroll.1.2.
Proof.
  assert (demo_enroll = (Ok demo_enrolled, demo_enroll.1.2, [])) as E
    by (apply run_out; reflexivity).
  split; [exact E|].
  destruct (Enroll_success demo_hash demo_service "tok" demo_csr (Some 7) (Unix 1700000001)
    (Unix 1700000001) (Unix 1700000001) (Unix 1700000001) [] demo_idb demo_enrolled demo_enroll.1.2 [] E)
    as (r & c & _ & _ & _ & Hc & _).
  exact Hc.
Defined.

Definition demo_enroll_bad : res Result * DB * list bool :=
  Enroll demo_hash demo_service "tok" None (Some 7) (Unix 1700000001) (Unix 1700000001)
    (Unix 1700000001) (Unix 1700000001) [] demo_idb.

Lemma Enroll_failure_witness :
  demo_enroll_bad = (Err (wrap ErrInvalidCSR "not a CERTIFICATE REQUEST block"), demo_enroll_bad.1.2, [])
  /\ identities demo_enroll_bad.1.2 = identities demo_idb.
Proof.
  assert (demo_enroll_bad = (Err (wrap ErrInvalidCSR "not a CERTIFICATE REQUEST block"),
            demo_enroll_bad.1.2, [])) as E
    by (apply run_out; reflexivity).
  split; [exact E|].
  exact (proj1 (Enroll_failure demo_hash demo_service "tok" None (Some 7) (Unix 1700000001)
    (Unix 1700000001) (Unix 1700000001) (Unix 1700000001) [] demo_idb _ demo_enroll_bad.1.2 [] E)).
Defined.

(** Two letters per byte. *)
Definition toy_digit (d : Z) : byte := byte_of_Z (97 + d).

Definition toy_enc (l : list byte) : list byte :=
  flat_map (fun b => [toy_digit (byte_to_Z b / 16); toy_digit (byte_to_Z b mod 16)]) l.

Fixpoint toy_dec (l : list byte) : option (list byte) :=
  match l with
  | [] => Some []
  | a :: b :: l' =>
      (cons (byte_of_Z ((byte_to_Z a - 97) * 16 + (byte_to_Z b - 97)))) <$> toy_dec l'
  | _ => None
  end.

#[local] Instance toy_b64 : Base64 := {|
  b64enc s := string_of_bytes (toy_enc (bytes_of_string s));
  b64dec s := string_of_bytes <$> toy_dec (bytes_of_string s)
|}.

Lemma toy_digit_spec d : 0 <= d < 16 -> byte_to_Z (toy_digit d) = 97 + d.
Proof. intros. unfold toy_digit. rewrite byte_to_of_Z. apply uwrap_id. lia. Qed.

Lemma nibbles b :
  0 <= byte_to_Z b / 16 < 16 /\ 0 <= byte_to_Z b mod 16 < 16
  /\ byte_to_Z b / 16 * 16 + byte_to_Z b mod 16 = byte_to_Z b.
Proof.
  pose proof (byte_to_Z_range b). pose proof (Z.mod_pos_bound (byte_to_Z b) 16).
  pose proof (Z.div_mod (byte_to_Z b) 16).
  assert (byte_to_Z b / 16 < 16) by (apply Z.div_lt_upper_bound; lia).
  assert (0 <= byte_to_Z b / 16) by (apply Z.div_pos; lia). lia.
Qed.

Lemma toy_dec_enc l : toy_dec (toy_enc l) = Some l.
Proof.
  induction l as [|b l IH]; [done|]. change (toy_enc (b :: l)) with
    (toy_digit (byte_to_Z b / 16) :: toy_digit (byte_to_Z b mod 16) :: toy_enc l).
  cbn [toy_dec]. rewrite IH. destruct (nibbles b) as (H1 & H2 & H3).
  rewrite !toy_digit_spec by done. cbn. do 2 f_equal. rewrite <- (byte_of_to_Z b) at 3. f_equal. lia.
Qed.

#[local] Instance toy_b64_laws : Base64Laws toy_b64.
Proof.
  split; intros s; cbn [b64enc b64dec toy_b64]; rewrite !bytes_of_string_of_bytes.
  - rewrite toy_dec_enc. cbn. by rewrite string_of_bytes_of_string.
  - generalize (bytes_of_string s). intros l. induction l as [|b l IH]; [constructor|].
    destruct (nibbles b) as (H1 & H2 & _).
    repeat constructor; try done; rewrite toy_digit_spec by done; lia.
Qed.

Lemma DecodeCode_Encode_witness :
  let c := mkCode "relay:7070" "tok" "ab12" "" in
  DecodeCode (fun _ => Some c) (string_of_bytes (x20 :: bytes_of_string (Code_Encode (fun _ => "{}") c) ++ [x0a]))
  = Ok c.
Proof.
  intros c. apply (DecodeCode_Encode (fun _ => "{}") (fun _ => Some c) c [x20] [x0a]); try done;
    apply Forall_singleton; unfold ascii_space; apply (bool_decide_unpack _); vm_compute; reflexivity.
Defined.
