(* ===== verification/ControlPlane.v ===== *)
(** * The control plane's services

    [src/internal/control/audit/audit.go] (event names and the recorder),
    [src/internal/control/login/login.go] (operator sessions) and
    [src/internal/control/grants/grants.go] (issuing grants), over the storage
    of Storage.v, the policy of Policy.v and the grants of Grant.v.  Readings of
    the clock and of the random source are arguments; [None] is a random source
    that fails.  Logging is not represented. *)

From Stdlib Require Import Ascii.
From S2P Require Import Prelude GoErrors GoTime Proto Handshake Grant Policy Db Storage Enrollment.
Open Scope db_scope.

(** ** audit.go *)

Definition EventDeviceEnrolled : string := "device.enrolled".
Definition EventDeviceRevoked : string := "device.revoked".
Definition EventOperatorEnrolled : string := "operator.enrolled".
Definition EventOperatorRevoked : string := "operator.revoked".
Definition EventEnrollDenied : string := "enroll.denied".
Definition EventDeviceRenewed : string := "device.renewed".
Definition EventOperatorRenewed : string := "operator.renewed".
Definition EventRenewDenied : string := "renew.denied".
Definition EventDeviceConnected : string := "device.connected".
Definition EventDeviceDisconnected : string := "device.disconnected".
Definition EventOperatorLogin : string := "operator.login".
Definition EventOperatorLoginDenied : string := "operator.login_denied".
Definition EventOperatorLogout : string := "operator.logout".
Definition EventOperatorSessionEnded : string := "operator.session_revoked".
Definition EventGrantCreated : string := "grant.created".
Definition EventGrantDenied : string := "grant.denied".
Definition EventGrantRevoked : string := "grant.revoked".
Definition EventStreamOpened : string := "stream.opened".
Definition EventStreamDenied : string := "stream.denied".
Definition EventStreamClosed : string := "stream.closed".
Definition EventAdminAction : string := "admin.action".

(** The actor roles that are not certificate roles. *)
Definition RoleAdmin : string := "admin".
Definition RoleSystem : string := "system".

(** [storage.AuditEvent{...}] with the fields that are not named left zero. *)
Definition event (name role actor device resource grant session reason detail : string) : AuditEvent :=
  mkAuditEvent 0 0 name "" role actor device resource grant session reason 0 0 0 detail.

(** [Recorder.Record]: a recorder without a store does nothing; a failure is
    logged and swallowed. *)
Definition Record_event (has_store : bool) (e : AuditEvent) (now nowA : time) : dbM unit :=
  if negb has_store then db_ret tt
  else
    let at_ := if IsZero (e_At e) then now else e_At e in
    do _ <- attempt (appendAudit
      (mkAuditEvent (e_Seq e) at_ (e_Event e) (e_OrgID e) (e_ActorRole e) (e_ActorID e) (e_DeviceID e)
         (e_ResourceID e) (e_GrantID e) (e_SessionID e) (e_Reason e) (e_BytesIn e) (e_BytesOut e)
         (e_DurationMS e) (e_Detail e)) nowA);
    db_ret tt.

Definition StreamOpened (userID deviceID resourceID grantID sessionID : string) : AuditEvent :=
  event EventStreamOpened RoleOperator userID deviceID resourceID grantID sessionID "" "".

Definition StreamDenied (userID deviceID resourceID grantID reason detail : string) : AuditEvent :=
  event EventStreamDenied RoleOperator userID deviceID resourceID grantID "" reason detail.

(** [duration.Milliseconds()] truncates towards zero. *)
Definition StreamClosed (userID deviceID resourceID grantID : string) (bytesIn bytesOut : Z)
    (d : duration) (reason : string) : AuditEvent :=
  mkAuditEvent 0 0 EventStreamClosed "" RoleOperator userID deviceID resourceID grantID "" reason
    bytesIn bytesOut (Z.quot d Millisecond) "".

Definition DeviceConnected (deviceID detail : string) : AuditEvent :=
  event EventDeviceConnected RoleDevice deviceID deviceID "" "" "" "" detail.

Definition DeviceDisconnected (deviceID reason : string) : AuditEvent :=
  event EventDeviceDisconnected RoleDevice deviceID deviceID "" "" "" reason "".

Definition Enrolled (role id detail : string) : AuditEvent :=
  event (if bool_decide (role = RoleOperator) then EventOperatorEnrolled else EventDeviceEnrolled)
    role id (if bool_decide (role = RoleDevice) then id else "") "" "" "" "" detail.

Definition Renewed (role id detail : string) : AuditEvent :=
  event (if bool_decide (role = RoleOperator) then EventOperatorRenewed else EventDeviceRenewed)
    role id (if bool_decide (role = RoleDevice) then id else "") "" "" "" "" detail.

Definition EnrollDenied (remote reason : string) : AuditEvent :=
  event EventEnrollDenied RoleSystem "" "" "" "" "" reason ("from " +:+ remote).

(** [hex.EncodeToString]. *)
Definition hex_EncodeToString (b : list byte) : string :=
  foldr (fun x acc => String (hex_digit (byte_to_Z x / 16)) (String (hex_digit (byte_to_Z x mod 16)) acc))
    "" b.

(** ** login.go *)

Module Login.

Definition DefaultTTL : duration := 8 * Hour.
Definition MaxSessionTTL : duration := 24 * Hour.

Definition ReasonLogout : string := "logout".
Definition ReasonRevokedByAdmin : string := "revoked_by_admin".
Definition ReasonIdentityRevoked : string := "identity_revoked".

(** [New]: the lifetime the service issues. *)
Definition New (ttl : duration) : duration :=
  let ttl := if ttl <=? 0 then DefaultTTL else ttl in
  if ttl >? MaxSessionTTL then MaxSessionTTL else ttl.

Record Session := mkLogin {
  lg_Token : string;
  lg_Record : SessionRecord
}.

Section WithHash.
Context (HashToken : string -> string) `{Base64}.

Definition newToken (rnd : option (list byte)) : res string :=
  match rnd with
  | None => Err (EMsg "login: generate session token")
  | Some b => Ok ("sar_ses_" +:+ b64enc (string_of_bytes b))
  end.

Definition newSessionID (rnd : option (list byte)) : res string :=
  match rnd with
  | None => Err (EMsg "login: generate session identifier")
  | Some b => Ok ("ses_" +:+ hex_EncodeToString b)
  end.

Definition Begin (ttl : duration) (userID remote : string) (rnd1 rnd2 : option (list byte))
    (now nowA : time) : dbM Session :=
  if bool_decide (userID = "") then db_err (EMsg "login: refusing to open a session with no identity")
  else
    do token <- lift (newToken rnd1);
    do sessionID <- lift (newSessionID rnd2);
    let now := TruncateSecond now in
    let rec := mkSessionRecord sessionID (HashToken token) userID now (Add now ttl) None remote in
    do _ <- CreateSession rec
              (mkAuditEvent 0 now EventOperatorLogin "" RoleOperator userID "" "" "" sessionID "" 0 0 0
                 ("from " +:+ remote)) nowA;
    db_ret (mkLogin token rec).

(** [Resolve]: the record comes with the error on the last two refusals. *)
Definition Resolve (token : string) (now : time) : dbM (SessionRecord * option error) :=
  if bool_decide (token = "") then db_err (ESentinel ErrSessionUnknown)
  else LookupSession HashToken token now.

End WithHash.

Definition actorRole (actorID ownerID : string) : string :=
  if negb (bool_decide (actorID = "")) && bool_decide (actorID = ownerID) then RoleOperator else RoleAdmin.

Definition eventForReason (reason : string) : string :=
  if bool_decide (reason = ReasonLogout) then EventOperatorLogout else EventOperatorSessionEnded.

Definition End (sessionID actorID reason : string) (now1 nowA now2 : time) : dbM (list GrantRecord) :=
  do owner <- LookupSessionByID sessionID;
  let role := actorRole actorID (ss_UserID owner) in
  do rec <- RevokeSession sessionID reason (event (eventForReason reason) role actorID "" "" "" "" "" "")
              now1 nowA;
  do revoked <- attempt (RevokeGrantsWhere ScopeSession (ss_SessionID rec) reason
                  (event EventGrantRevoked role actorID "" "" "" "" "" "") now2);
  match revoked with
  | Ok l => db_ret l
  | Err e => db_err (EWrap "session ended but its grants could not be revoked" e)
  end.

(** The loop of [EndAllForUser]: what was revoked so far is returned with the
    error.  [clock] numbers the readings of the clock. *)
Fixpoint end_each (actorID reason : string) (clock : nat -> time) (sessions : list SessionRecord)
    (all : list GrantRecord) : dbM (list GrantRecord * option error) :=
  match sessions with
  | [] => db_ret (all, None)
  | sess :: rest =>
      do r <- attempt (End (ss_SessionID sess) actorID reason (clock 0%nat) (clock 1%nat) (clock 2%nat));
      match r with
      | Err e => db_ret (all, Some e)
      | Ok revoked => end_each actorID reason (fun k => clock (3 + k)%nat) rest (all ++ revoked)
      end
  end.

Definition EndAllForUser (userID actorID reason : string) (now : time) (clock : nat -> time) (now' : time)
    : dbM (list GrantRecord * option error) :=
  do sessions <- ActiveSessionsForUser userID now;
  do r <- end_each actorID reason clock sessions [];
  match r with
  | (all, Some e) => db_ret (all, Some e)
  | (all, None) =>
      do direct <- attempt (RevokeGrantsWhere ScopeUser userID reason
                     (event EventGrantRevoked RoleAdmin actorID "" "" "" "" "" "") now');
      match direct with
      | Err e => db_ret (all, Some e)
      | Ok l => db_ret ((all ++ l)%list, None)
      end
  end.

End Login.

(** ** grants.go *)

Module Grants.

Definition PrivateKeySize : Z := 64.

(** [i_store]: is a store attached? *)
Record Issuer := mkIssuer {
  i_key : list byte;
  i_keyID : string;
  i_store : bool
}.

Definition NewIssuer (key : list byte) (keyID : string) : res Issuer :=
  if negb (zlen key =? PrivateKeySize) then Err (EMsg "grants: signing key size")
  else if bool_decide (keyID = "") then Err (EMsg "grants: key id is required")
  else Ok (mkIssuer key keyID false).

Definition WithStore (i : Issuer) : Issuer := mkIssuer (i_key i) (i_keyID i) true.

Record Request := mkRequest {
  rq_OrgID : string;
  rq_UserID : string;
  rq_DeviceID : string;
  rq_ResourceID : string;
  rq_RequestedTTL : duration;
  rq_MaxBytes : Z;              (* uint64 *)
  rq_SessionID : string
}.

Definition newGrantID (rnd : option (list byte)) : res string :=
  match rnd with
  | None => Err (EMsg "grants: generate identifier")
  | Some b => Ok ("grn_" +:+ hex_EncodeToString b)
  end.

Definition recordDenial (i : Issuer) (req : Request) (decision : Decision) (nowA : time) : dbM unit :=
  if negb (i_store i) then db_ret tt
  else
    do _ <- attempt (appendAudit
      (mkAuditEvent 0 0 EventGrantDenied (rq_OrgID req) RoleOperator (rq_UserID req) (rq_DeviceID req)
         (rq_ResourceID req) "" (rq_SessionID req) (d_Reason decision) 0 0 0 "") nowA);
    db_ret tt.

Definition issue_ttl (requested policy_max : duration) : duration :=
  let ttl := if (requested <=? 0) || (requested >? policy_max) then policy_max else requested in
  if ttl >? MaxGrantTTL then MaxGrantTTL else ttl.

Definition grant_record (s : SignedGrant) (decision : Decision) (sessionID : string) : GrantRecord :=
  mkGrantRecord (g_GrantID s) (g_OrgID s) (g_UserID s) (g_DeviceID s) (g_ResourceID s)
    (d_PolicyID decision) sessionID (g_IssuedAt s) (g_ExpiresAt s) (g_MaxBytes s) None "".

Definition grant_event (s : SignedGrant) (decision : Decision) (sessionID : string) : AuditEvent :=
  mkAuditEvent 0 (g_IssuedAt s) EventGrantCreated (g_OrgID s) RoleOperator (g_UserID s) (g_DeviceID s)
    (g_ResourceID s) (g_GrantID s) sessionID "" 0 0 0 ("policy " +:+ d_PolicyID decision).

(** [Issue]: the decision is returned in every case. *)
Definition Issue `{Ed25519} (i : Issuer) (rules : list Rule) (req : Request)
    (rnd : option (list byte)) (now nowA : time) : dbM (Decision * res SignedGrant) :=
  let decision := Evaluate rules (rq_UserID req) (rq_DeviceID req) (rq_ResourceID req) in
  if negb (Allowed decision) then
    do _ <- recordDenial i req decision nowA;
    db_ret (decision, Err (ESentinel ErrDenied))
  else
    let ttl := issue_ttl (rq_RequestedTTL req) (d_MaxTTL decision) in
    match newGrantID rnd with
    | Err e => db_ret (decision, Err e)
    | Ok grantID =>
        let now := TruncateSecond now in
        match Sign (mkGrant 0 (i_keyID i) grantID (rq_OrgID req) (rq_UserID req) (rq_DeviceID req)
                      (rq_ResourceID req) now (Add now ttl) (rq_MaxBytes req)) (i_key i) with
        | Err e => db_ret (decision, Err e)
        | Ok signed =>
            if i_store i then
              do r <- attempt (RecordGrant (grant_record signed decision (rq_SessionID req))
                                 (grant_event signed decision (rq_SessionID req)) nowA);
              match r with
              | Ok _ => db_ret (decision, Ok signed)
              | Err e => db_ret (decision, Err (EWrap
                           "grants: refusing to issue a grant that could not be recorded" e))
              end
            else db_ret (decision, Ok signed)
        end
    end.

Record State := mkState {
  st_Known : bool;
  st_Revoked : bool;
  st_SessionID : string;
  st_UserID : string
}.

Definition StateOf (grantID : string) : dbM State :=
  do r <- attempt (LookupGrant grantID);
  match r with
  | Ok rec => db_ret (mkState true (Revoked rec) (gd_SessionID rec) (gd_UserID rec))
  | Err e => if errors_Is e ErrGrantUnknown then db_ret (mkState false false "" "") else db_err e
  end.

End Grants.

(** ** Lemmas *)

Import Login Grants.

Lemma slen_hex b : slen (hex_EncodeToString b) = 2 * zlen b.
Proof.
  unfold hex_EncodeToString, slen, zlen. induction b as [|x b IH]; [done|].
  cbn -[Z.of_nat hex_digit] in *. lia.
Qed.

Lemma slen_app a b : slen (a +:+ b) = slen a + slen b.
Proof.
  rewrite <- !zlen_bytes_of_string, bytes_of_string_app. unfold zlen. rewrite length_app. lia.
Qed.

(** Recording an event touches the trail only, and never fails its caller. *)
Lemma Record_event_spec has_store e now nowA fl d :
  exists d' fl', Record_event has_store e now nowA fl d = (Ok tt, d', fl')
    /\ identities d' = identities d /\ tokens d' = tokens d
    /\ operator_sessions d' = operator_sessions d /\ grants d' = grants d.
Proof.
  unfold Record_event. destruct has_store; cbn [negb]; [|by eexists d, fl].
  unfold attempt, appendAudit, stmt, db_bind, db_err, db_ret. cbn [e_Event].
  case_bool_decide; [by eexists d, fl|]. destruct (next_fault fl) as [[|] fl1]; by eexists _, fl1.
Qed.

Lemma recordDenial_spec i req dec nowA fl d :
  exists d' fl', recordDenial i req dec nowA fl d = (Ok tt, d', fl')
    /\ operator_sessions d' = operator_sessions d /\ grants d' = grants d.
Proof.
  unfold recordDenial. destruct (i_store i); cbn [negb]; [|by eexists d, fl].
  unfold attempt, appendAudit, stmt, db_bind, db_err, db_ret. cbn [e_Event].
  case_bool_decide; [done|]. destruct (next_fault fl) as [[|] fl1]; by eexists _, fl1.
Qed.

Lemma Evaluate_Allowed rules u d x :
  Allowed (Evaluate rules u d x) = true ->
  exists r, r ∈ rules /\ matches u d x r /\ d_MaxTTL (Evaluate rules u d x) = rule_ttl r.
Proof.
  intros Ha. assert (complete u d x) as Hc.
  { unfold Evaluate in Ha. destruct (_ || _) eqn:E in Ha; [done|].
    rewrite !orb_false_iff, !bool_decide_eq_false in E. unfold complete. tauto. }
  destruct (Evaluate_inv rules u d x Hc) as [[E _]|(r & Hr & Hm & -> & _)]; [by rewrite E in Ha|].
  eauto.
Qed.

Lemma issue_ttl_range requested max :
  0 < max <= MaxGrantTTL ->
  0 < issue_ttl requested max <= max /\ (0 < requested -> issue_ttl requested max <= requested)
  /\ (0 < requested -> requested <= max -> issue_ttl requested max = requested).
Proof. intros. unfold issue_ttl. cases; lia. Qed.

(** Whole seconds: truncation distributes over a sum with one of them. *)
Lemma TruncateSecond_add t d : TruncateSecond (TruncateSecond t + d) = TruncateSecond t + TruncateSecond d.
Proof.
  rewrite !TruncateSecond_spec. rewrite (Z.add_comm (_ * _)), Z.div_add by done. lia.
Qed.

Lemma clock_ok_truncate t : clock_ok t -> clock_ok (TruncateSecond t).
Proof.
  unfold clock_ok. intros [H1 H2]. pose proof (TruncateSecond_le t). split; [|lia].
  rewrite TruncateSecond_spec. apply Z.mul_nonneg_nonneg; [by apply Z.div_pos|done].
Qed.

Section IssueLemmas.
Context `{E : Ed25519}.

(** What a successful [Issue] did, for an issuer with a store. *)
Lemma Issue_Ok_inv i rules req rnd now nowA fl d dec s d' fl' :
  i_store i = true ->
  Issue i rules req rnd now nowA fl d = (Ok (dec, Ok s), d', fl') ->
  let dec0 := Evaluate rules (rq_UserID req) (rq_DeviceID req) (rq_ResourceID req) in
  dec = dec0 /\ Allowed dec = true
  /\ (exists b, rnd = Some b
      /\ Sign (mkGrant 0 (i_keyID i) ("grn_" +:+ hex_EncodeToString b) (rq_OrgID req) (rq_UserID req)
                (rq_DeviceID req) (rq_ResourceID req) (TruncateSecond now)
                (Add (TruncateSecond now) (issue_ttl (rq_RequestedTTL req) (d_MaxTTL dec)))
                (rq_MaxBytes req)) (i_key i) = Ok s)
  /\ grants d !! g_GrantID s = None
  /\ (rq_SessionID req <> "" -> is_Some (operator_sessions d !! rq_SessionID req))
  /\ d' = insert_audit (grant_event s dec (rq_SessionID req)) nowA
            (with_grants (<[g_GrantID s := row_of_grant (grant_record s dec (rq_SessionID req))]> (grants d)) d).
Proof.
  intros Hs. unfold Issue, db_bind, db_ret, attempt. cbv zeta.
  set (dec0 := Evaluate rules _ _ _).
  destruct (Allowed dec0) eqn:Ha; cbn [negb].
  2:{ destruct (recordDenial_spec i req dec0 nowA fl d) as (d1 & fl1 & -> & _). done. }
  destruct rnd as [b|]; cbn [newGrantID]; [|done].
  destruct (Sign _ _) as [s0|e] eqn:ES; [|done]. rewrite Hs.
  pose proof (RecordGrant_all (grant_record s0 dec0 (rq_SessionID req))
    (grant_event s0 dec0 (rq_SessionID req)) nowA fl d) as HR.
  destruct (RecordGrant _ _ nowA fl d) as [[[[]|e] d1] fl1]; [|done].
  intros [= <- <- <- <-]. destruct HR as (H1 & _ & H3 & ->). split_and!; eauto.
Qed.

Lemma Issue_Err_inv i rules req rnd now nowA fl d dec e d' fl' :
  Issue i rules req rnd now nowA fl d = (Ok (dec, Err e), d', fl') ->
  dec = Evaluate rules (rq_UserID req) (rq_DeviceID req) (rq_ResourceID req)
  /\ grants d' = grants d /\ operator_sessions d' = operator_sessions d
  /\ (Allowed dec = false -> e = ESentinel ErrDenied) /\ (Allowed dec = true -> d' = d).
Proof.
  unfold Issue, db_bind, db_ret, attempt. cbv zeta. set (dec0 := Evaluate rules _ _ _).
  destruct (Allowed dec0) eqn:Ha; cbn [negb].
  2:{ destruct (recordDenial_spec i req dec0 nowA fl d) as (d1 & fl1 & -> & H1 & H2).
      intros [= <- <- <- <-]. split_and!; auto. congruence. }
  destruct rnd as [b|]; cbn [newGrantID]; [|by intros [= <- <- <- <-]; split_and!; auto; congruence].
  destruct (Sign _ _) as [s0|e0] eqn:ES; [|by intros [= <- <- <- <-]; split_and!; auto; congruence].
  destruct (i_store i); [|done].
  pose proof (RecordGrant_all (grant_record s0 dec0 (rq_SessionID req))
    (grant_event s0 dec0 (rq_SessionID req)) nowA fl d) as HR.
  destruct (RecordGrant _ _ nowA fl d) as [[[[]|e1] d1] fl1]; [done|]. subst d1.
  by intros [= <- <- <- <-]; split_and!; auto; congruence.
Qed.

End IssueLemmas.

Lemma RevokeSession_out sid reason actor n1 nA fl d :
  match RevokeSession sid reason actor n1 nA fl d with
  | (Ok rec, d', _) => ss_SessionID rec = sid /\ grants d' = grants d
      /\ exists r, operator_sessions d' !! sid = Some r /\ sr_revoked_at r <> None
  | (Err _, d', _) => d' = d
  end.
Proof.
  destruct (RevokeSession sid reason actor n1 nA fl d) as [[[rec|e] d1] fl1] eqn:ER.
  2:{ unfold RevokeSession in ER. by apply transaction_Err in ER. }
  revert ER. unfold RevokeSession, LookupSessionByID. db_unfold. db_fault; [done|]. db_fault; [done|].
  destruct (operator_sessions d !! sid) as [r|] eqn:E; cbv beta iota; [|done].
  case_bool_decide as Hr; cbv beta iota.
  - intros [= <- <- _]. split_and!; [done..|]. exists r. split; [done|]. cbn in Hr.
    by destruct (sr_revoked_at r).
  - db_fault; [done|]. rewrite E.
    assert (sr_revoked_at r = None) as Hn.
    { cbn in Hr. by destruct (sr_revoked_at r). }
    rewrite Hn. cbv beta iota. case_bool_decide; [done|]. cbv beta iota. db_fault; [done|]. db_fault; [done|].
    intros [= <- <- _]. split_and!; [done..|]. cbn. rewrite lookup_insert_eq. eauto.
Qed.

Lemma RevokeGrantsWhere_sessions by_ value reason actor now fl d :
  match RevokeGrantsWhere by_ value reason actor now fl d with
  | (_, d', _) => map_evolves session_evolves (operator_sessions d) (operator_sessions d')
  end.
Proof.
  pose proof (moves_RevokeGrantsWhere by_ value reason actor now fl d) as [_ H _ _].
  by destruct (RevokeGrantsWhere by_ value reason actor now fl d) as [[? ?] ?].
Qed.

Lemma session_evolves_revoked (m m' : gmap string SessionRow) sid r :
  map_evolves session_evolves m m' -> m !! sid = Some r -> sr_revoked_at r <> None -> m' !! sid = Some r.
Proof.
  intros H Hr Hn. destruct (H sid r Hr) as (r' & Hr' & [-> |(Hx & _)]); done.
Qed.

(** ** Properties *)

Section Properties.
Context (HashToken : string -> string) `{Ed : Ed25519}.

(** C9.  No grant without a policy decision and a record.  When an issuer with
    a store returns a grant, some rule allowed exactly that user, device and
    resource; the grant is bound to them; its lifetime is positive before
    truncation to seconds, and at most the rule's ceiling, the system maximum
    and what was asked for; and the same step stored the grant under a new
    identifier, in its session, with its audit event.  When it returns an
    error, no grant was stored; a denial is answered as a denial. *)
Theorem Issue_spec i rules req rnd now nowA fl d dec out d' fl' :
  i_store i = true -> clock_ok now ->
  Issue i rules req rnd now nowA fl d = (Ok (dec, out), d', fl') ->
  match out with
  | Ok s =>
      (exists r, r ∈ rules /\ matches (rq_UserID req) (rq_DeviceID req) (rq_ResourceID req) r
        /\ g_ExpiresAt s - g_IssuedAt s
           = TruncateSecond (issue_ttl (rq_RequestedTTL req) (rule_ttl r))
        /\ 0 < issue_ttl (rq_RequestedTTL req) (rule_ttl r) <= rule_ttl r)
      /\ (0 < rq_RequestedTTL req -> g_ExpiresAt s - g_IssuedAt s <= rq_RequestedTTL req)
      /\ g_IssuedAt s = TruncateSecond now
      /\ (g_UserID s, g_DeviceID s, g_ResourceID s) = (rq_UserID req, rq_DeviceID req, rq_ResourceID req)
      /\ grants d !! g_GrantID s = None
      /\ d' = insert_audit (grant_event s dec (rq_SessionID req)) nowA
           (with_grants (<[g_GrantID s := row_of_grant (grant_record s dec (rq_SessionID req))]> (grants d)) d)
  | Err e =>
      grants d' = grants d
      /\ ((forall r, r ∈ rules -> ~ matches (rq_UserID req) (rq_DeviceID req) (rq_ResourceID req) r) ->
          e = ESentinel ErrDenied)
  end.
Proof.
  intros Hs Hc HI. destruct out as [s|e].
  - apply Issue_Ok_inv in HI as (-> & Ha & (b & -> & HS) & Hn & _ & ->); [|done].
    destruct (Evaluate_Allowed _ _ _ _ Ha) as (r & Hr & Hm & Et). rewrite Et in HS.
    pose proof (issue_ttl_range (rq_RequestedTTL req) (rule_ttl r) (rule_ttl_range r)) as (R1 & R2 & _).
    pose proof (rule_ttl_range r) as R0.
    pose proof (TruncateSecond_le (issue_ttl (rq_RequestedTTL req) (rule_ttl r))) as Hle.
    rewrite Add_clock in HS.
    2:{ by apply clock_ok_truncate. }
    2:{ unfold MaxGrantTTL, Minute, Second, Millisecond in *. lia. }
    apply Sign_Ok_inv in HS as (Es & _). rewrite Es. cbn.
    rewrite TruncateSecond_add, TruncateSecond_idem.
    split_and!; try done; [exists r; split_and!; auto; lia | lia |].
    by rewrite Es in Hn.
  - apply Issue_Err_inv in HI as (-> & Hg & _ & Hd & _). split; [done|]. intros Hno. apply Hd.
    destruct (Allowed _) eqn:Ha; [|done].
    destruct (Evaluate_Allowed _ _ _ _ Ha) as (r & Hr & Hm & _). by destruct (Hno r Hr).
Qed.

Context {EL : Ed25519Laws Ed}.

(** Every grant the issuer hands out is one the agent accepts: with
    identifiers within the wire's limit, it survives the wire unchanged and
    verifies, on the device it names and with the issuer's public key, from 30
    seconds before its issue to 30 seconds after its expiry. *)
Theorem Issue_usable i rules req b now nowA fl d dec s d' fl' t :
  i_store i = true -> clock_ok now -> clock_ok (now + MaxGrantTTL) ->
  Issue i rules req (Some b) now nowA fl d = (Ok (dec, Ok s), d', fl') ->
  zlen b = 16 -> slen (i_keyID i) <= MaxIdentityLen -> slen (rq_OrgID req) <= MaxIdentityLen ->
  slen (rq_UserID req) <= MaxIdentityLen -> slen (rq_DeviceID req) <= MaxIdentityLen ->
  slen (rq_ResourceID req) <= MaxIdentityLen -> 0 <= rq_MaxBytes req < 2 ^ 64 ->
  clock_ok t -> g_IssuedAt s - ClockSkewTolerance <= t <= g_ExpiresAt s + ClockSkewTolerance ->
  DecodeGrant (Encode s) = Ok s /\ Verify s (ed_public (i_key i)) t (rq_DeviceID req) = Ok tt.
Proof.
  intros Hs Hc Hc' HI Hb Hk Ho Hu Hd Hr Hm Ht Hwin.
  apply Issue_Ok_inv in HI as (-> & Ha & (b' & [= <-] & HS) & _); [|done].
  destruct (Evaluate_Allowed _ _ _ _ Ha) as (r & _ & _ & Et). rewrite Et in HS.
  pose proof (issue_ttl_range (rq_RequestedTTL req) (rule_ttl r) (rule_ttl_range r)) as (R1 & _).
  pose proof (rule_ttl_range r) as R0. pose proof (clock_ok_truncate _ Hc) as Hct.
  rewrite Add_clock in HS by (done || unfold MaxGrantTTL, Minute, Second, Millisecond in *; lia).
  destruct (Sign_Ok_inv _ _ _ HS) as (Es & _).
  assert (clock_ok (TruncateSecond now + issue_ttl (rq_RequestedTTL req) (rule_ttl r))) as Hce.
  { pose proof (TruncateSecond_le now). unfold clock_ok in *. lia. }
  pose proof (Sign_round_trip _ _ _ t HS) as HR. cbn in HR.
  rewrite Es in Hwin. cbn in Hwin. apply HR; try done.
  unfold grant_fields_ok. cbn. rewrite slen_app, slen_hex, Hb. done.
Qed.
End Properties.

(** ** Sessions *)

Lemma moves_End sid actor reason n1 nA n2 : moves evolves (Login.End sid actor reason n1 nA n2).
Proof.
  unfold Login.End, LookupSessionByID. repeat moves_step;
    first [apply moves_RevokeSession | apply moves_RevokeGrantsWhere].
Qed.

Lemma End_Ok_inv sid actor reason n1 nA n2 fl d l d' fl' :
  End sid actor reason n1 nA n2 fl d = (Ok l, d', fl') ->
  (exists r, operator_sessions d' !! sid = Some r /\ sr_revoked_at r <> None)
  /\ l = (fun kv => set_revoked (affected_of_row kv.1 kv.2) n2 reason)
         <$> List.filter (fun kv => cascade_where ScopeSession sid n2 kv.2) (map_to_list (grants d))
  /\ (forall id r, grants d !! id = Some r ->
        grants d' !! id = Some (if cascade_where ScopeSession sid n2 r then revoke_row n2 reason r else r)).
Proof.
  unfold End, db_bind, attempt.
  destruct (LookupSessionByID sid fl d) as [[[owner|e] d0] fl0] eqn:EL; [|done].
  assert (d0 = d) as ->.
  { revert EL. unfold LookupSessionByID, query, stmt. db_fault; [done|].
    destruct (operator_sessions d !! sid); by intros [= _ <- _]. }
  pose proof (RevokeSession_out sid reason
    (event (eventForReason reason) (actorRole actor (ss_UserID owner)) actor "" "" "" "" "" "") n1 nA fl0 d) as HR.
  destruct (RevokeSession _ _ _ _ _ fl0 d) as [[[rec|e] d1] fl1]; [|done].
  destruct HR as (-> & Hg & r & Hr & Hn).
  pose proof (RevokeGrantsWhere_all ScopeSession sid reason
    (event EventGrantRevoked (actorRole actor (ss_UserID owner)) actor "" "" "" "" "" "") n2 fl1 d1) as HA.
  pose proof (RevokeGrantsWhere_sessions ScopeSession sid reason
    (event EventGrantRevoked (actorRole actor (ss_UserID owner)) actor "" "" "" "" "" "") n2 fl1 d1) as HS.
  destruct (RevokeGrantsWhere _ _ _ _ _ fl1 d1) as [[[l1|e] d2] fl2]; [|done].
  intros [= <- <- <-]. destruct HA as (H1 & H2 & _). rewrite Hg in H1, H2. split_and!; auto.
  exists r. split; [|done]. by eapply session_evolves_revoked.
Qed.

Section SessionProperties.
Context (HashToken : string -> string).

(** Ending a session is complete and for ever: the session is revoked,
    every grant issued under it that had not expired is revoked, exactly those
    are reported, no other grant changes; and after any further sequence of
    storage operations and faults the session's token is still refused as
    revoked. *)
Theorem End_spec sid actor reason n1 nA n2 fl d l d' fl' h :
  End sid actor reason n1 nA n2 fl d = (Ok l, d', fl') ->
  (forall id r, grants d !! id = Some r ->
     grants d' !! id = Some (if cascade_where ScopeSession sid n2 r then revoke_row n2 reason r else r))
  /\ (gd_GrantID <$> l) ≡ₚ
       fst <$> List.filter (fun kv => cascade_where ScopeSession sid n2 kv.2) (map_to_list (grants d))
  /\ (forall token now fl2 rec err d2 fl2',
        Resolve HashToken token now fl2 (exec_all HashToken h d') = (Ok (rec, err), d2, fl2') ->
        ss_SessionID rec = sid -> err = Some (ESentinel ErrSessionRevoked)).
Proof.
  intros ((r & Hr & Hn) & -> & Hg)%End_Ok_inv. split_and!; [done| |].
  - rewrite <- list_fmap_compose. done.
  - intros token now fl2 rec err d2 fl2' HL Hid.
    assert (operator_sessions (exec_all HashToken h d') !! sid = Some r) as Hr'.
    { eapply session_evolves_revoked; [|done..]. apply ev_sessions, exec_all_evolves. }
    revert HL. unfold Resolve, LookupSession. case_bool_decide; [done|]. db_unfold. db_fault; [done|].
    unfold session_by_hash.
    destruct (head _) as [[id row]|] eqn:Eh; [|done]. intros [= <- <- <- <-]. cbn in Hid. subst id.
    apply head_Some_elem_of, list_elem_of_In, List.filter_In in Eh as [Eh _].
    apply list_elem_of_In, elem_of_map_to_list in Eh. rewrite Hr' in Eh. injection Eh as <-. cbn.
    destruct (sr_revoked_at r); [|done]. done.
Qed.

(** Ending a session does not fence it: a grant whose request was already
    past the session check when the session ended is still recorded under the
    ended session, and stays usable, because storing a grant only requires the
    session row to exist. *)
Theorem grant_after_session_end sid actor reason n1 nA n2 fl d l d' fl' g e now :
  End sid actor reason n1 nA n2 fl d = (Ok l, d', fl') ->
  gd_SessionID g = sid -> sid <> "" -> grants d' !! gd_GrantID g = None -> e_Event e <> "" ->
  exists d2, RecordGrant g e now [] d' = (Ok tt, d2, [])
    /\ StateOf (gd_GrantID g) [] d2 = (Ok (mkState true false sid (gd_UserID g)), d2, []).
Proof.
  intros ((r & Hr & _) & _ & _)%End_Ok_inv Hg Hs Hf He.
  unfold RecordGrant. db_unfold. cbn. rewrite Hf, Hg, bool_decide_eq_true_2 by done. cbn.
  rewrite Hr, bool_decide_eq_true_2, bool_decide_eq_false_2 by done. cbn.
  eexists. split; [reflexivity|].
  unfold StateOf, LookupGrant, attempt. db_unfold. cbn. by rewrite lookup_insert_eq.
Qed.
End SessionProperties.

Lemma session_by_hash_insert d id row :
  session_by_hash (sr_token_hash row) d = None ->
  session_by_hash (sr_token_hash row) (with_sessions (<[id := row]> (operator_sessions d)) d) = Some (id, row).
Proof.
  unfold session_by_hash. cbn [operator_sessions with_sessions]. intros Hnone.
  assert (forall k r, operator_sessions d !! k = Some r -> sr_token_hash r <> sr_token_hash row) as Hno.
  { intros k r Hk Hh. apply head_None in Hnone.
    assert ((k, r) ∈ List.filter (fun kv => bool_decide (sr_token_hash kv.2 = sr_token_hash row))
              (map_to_list (operator_sessions d))) as Hin; [|rewrite Hnone in Hin; by apply elem_of_nil in Hin].
    apply list_elem_of_In, List.filter_In. split; [by apply list_elem_of_In, elem_of_map_to_list|].
    by apply bool_decide_eq_true. }
  assert ((id, row) ∈ List.filter (fun kv => bool_decide (sr_token_hash kv.2 = sr_token_hash row))
            (map_to_list (<[id := row]> (operator_sessions d)))) as Hin.
  { apply list_elem_of_In, List.filter_In. split; [|by apply bool_decide_eq_true].
    apply list_elem_of_In, elem_of_map_to_list, lookup_insert_eq. }
  match goal with |- head ?l = _ => destruct (head l) as [[k r]|] eqn:Eh end.
  - apply head_Some_elem_of, list_elem_of_In, List.filter_In in Eh as [Eh Hb].
    apply list_elem_of_In, elem_of_map_to_list in Eh. apply bool_decide_eq_true in Hb. cbn in Hb.
    apply lookup_insert_Some in Eh as [[<- <-]|[_ Eh]]; [done|]. by destruct (Hno k r Eh).
  - apply head_None in Eh. rewrite Eh in Hin. by apply elem_of_nil in Hin.
Qed.

Lemma CreateSession_success r e now fl d d' fl' :
  CreateSession r e now fl d = (Ok tt, d', fl') ->
  session_by_hash (ss_TokenHash r) d = None /\ operator_sessions d !! ss_SessionID r = None
  /\ d' = insert_audit e now (with_sessions (<[ss_SessionID r := mkSessionRow (ss_TokenHash r) (ss_UserID r)
             (unix (ss_CreatedAt r)) (unix (ss_ExpiresAt r)) None (ss_Remote r)]> (operator_sessions d)) d).
Proof.
  unfold CreateSession. db_unfold. db_fault; [done|]. db_fault; [done|].
  destruct (operator_sessions d !! ss_SessionID r) eqn:E1; [done|].
  destruct (session_by_hash (ss_TokenHash r) d) eqn:E2; [done|]. cbv beta iota.
  case_bool_decide; [done|]. db_fault; [done|]. db_fault; [done|]. by intros [= <- _].
Qed.

Lemma fromUnix_unix t : time_wf t -> fromUnix (unix t) = TruncateSecond t.
Proof.
  intros. unfold fromUnix, unix. rewrite Unix_unixSeconds by by apply TruncateSecond_wf.
  apply TruncateSecond_idem.
Qed.

(** Logging in gives a token that resolves to a session of exactly that
    operator, until the session's expiry and no longer; the session lasts at
    most 24 hours whatever lifetime the deployment configured. *)
Theorem Begin_Resolve `{Base64} HashToken ttl user remote rnd1 rnd2 now nowA fl d s d' fl' :
  clock_ok now -> clock_ok (now + MaxSessionTTL) ->
  Begin HashToken (New ttl) user remote rnd1 rnd2 now nowA fl d = (Ok s, d', fl') ->
  exists rec,
    ss_UserID rec = user /\ ss_SessionID rec = ss_SessionID (lg_Record s)
    /\ ss_ExpiresAt rec = TruncateSecond now + TruncateSecond (New ttl)
    /\ 0 < New ttl <= MaxSessionTTL
    /\ forall t, Resolve HashToken (lg_Token s) t [] d'
         = (Ok (rec, if After t (ss_ExpiresAt rec) then Some (ESentinel ErrSessionExpired) else None), d', []).
Proof.
  intros Hc Hc'.
  assert (0 < New ttl <= MaxSessionTTL) as Httl.
  { unfold New. assert (DefaultTTL = 8 * Hour) by done. assert (MaxSessionTTL = 24 * Hour) by done.
    assert (0 < Hour) by done. cases; lia. }
  pose proof (clock_ok_truncate _ Hc) as Hct. pose proof (TruncateSecond_le now) as Hle.
  assert (Add (TruncateSecond now) (New ttl) = TruncateSecond now + New ttl) as Ha.
  { apply Add_clock; [done|]. unfold MaxSessionTTL, Hour, Minute, Second, Millisecond in *. lia. }
  unfold Begin, db_bind. case_bool_decide as Hu; [done|].
  destruct rnd1 as [b1|]; cbn [newToken lift db_ret db_err]; [|done].
  destruct rnd2 as [b2|]; cbn [newSessionID lift db_ret db_err]; [|done]. cbv zeta. rewrite Ha.
  set (tok := "sar_ses_" +:+ b64enc (string_of_bytes b1)). set (sid := "ses_" +:+ hex_EncodeToString b2).
  destruct (CreateSession _ _ _ fl d) as [[[[]|e] d1] fl1] eqn:EC; [|done].
  intros [= <- <- <-]. apply CreateSession_success in EC as (Hn & _ & ->). cbn in Hn |- *.
  eexists (session_of_row sid (mkSessionRow (HashToken tok) user (unix (TruncateSecond now))
    (unix (TruncateSecond now + New ttl)) None remote)). cbn.
  rewrite fromUnix_unix, TruncateSecond_add by (apply clock_ok_wf; unfold clock_ok in *; lia).
  split_and!; [done..|lia|lia|]. intros t. unfold Resolve, LookupSession.
  rewrite bool_decide_eq_false_2 by done. db_unfold. cbn.
  set (row := mkSessionRow (HashToken tok) user _ _ None remote).
  pose proof (session_by_hash_insert d sid row Hn) as Hb. unfold session_by_hash in Hb |- *. cbn in Hb |- *.
  rewrite Hb. cbn. rewrite fromUnix_unix, TruncateSecond_add by (apply clock_ok_wf; unfold clock_ok in *; lia).
  done.
Qed.

(** ** Witnesses *)

Definition cp_issuer : Issuer := WithStore (mkIssuer demo_key "k1" false).
Definition cp_rules : list Rule := [mkRule "p1" ["alice"] ["dev1"] ["web"] (10 * Minute) EffectAllow].
Definition cp_request : Request := mkRequest "org" "alice" "dev1" "web" (5 * Minute) 0 "ses_1".
Definition cp_random : list byte := repeat x01 16.
Definition cp_db : DB :=
  with_sessions {[ "ses_1" := mkSessionRow "h" "alice" 1700000000 1700028800 None "" ]} empty_db.
Definition cp_now : time := Unix 1700000000.

Definition cp_issued : res (Decision * res SignedGrant) * DB * list bool :=
  @Issue toy_ed cp_issuer cp_rules cp_request (Some cp_random) cp_now cp_now [] cp_db.

Definition cp_decision : Decision := Evaluate cp_rules "alice" "dev1" "web".

Definition cp_signed : SignedGrant :=
  match cp_issued.1.1 with Ok (_, Ok s) => s | _ => demo_signed end.

Lemma Issue_spec_witness :
  cp_issued = (Ok (cp_decision, Ok cp_signed), cp_issued.1.2, [])
  /\ g_IssuedAt cp_signed = TruncateSecond cp_now.
Proof.
  assert (cp_issued = (Ok (cp_decision, Ok cp_signed), cp_issued.1.2, [])) as E
    by (apply run_out; vm_compute; reflexivity).
  assert (clock_ok cp_now) as Hc by (vm_compute; intuition congruence).
  split; [exact E|].
  exact (proj1 (proj2 (proj2 (@Issue_spec toy_ed cp_issuer cp_rules cp_request (Some cp_random) cp_now
    cp_now [] cp_db cp_decision (Ok cp_signed) cp_issued.1.2 [] eq_refl Hc E)))).
Defined.

Lemma Issue_usable_witness :
  DecodeGrant (Encode cp_signed) = Ok cp_signed
  /\ @Verify toy_ed cp_signed (@ed_public toy_ed demo_key) (Unix 1700000100) "dev1" = Ok tt.
Proof.
  assert (cp_issued = (Ok (cp_decision, Ok cp_signed), cp_issued.1.2, [])) as E
    by (apply run_out; vm_compute; reflexivity).
  apply (@Issue_usable toy_ed toy_ed_laws cp_issuer cp_rules cp_request cp_random cp_now cp_now [] cp_db
           cp_decision cp_signed cp_issued.1.2 [] (Unix 1700000100)); try exact E;
    vm_compute; intuition congruence.
Defined.

Definition cp_ended : res (list GrantRecord) * DB * list bool :=
  End "ses_1" "alice" ReasonLogout cp_now cp_now cp_now [] cp_issued.1.2.

Definition cp_revoked : list GrantRecord := match cp_ended.1.1 with Ok l => l | Err _ => [] end.

Lemma End_spec_witness :
  cp_ended = (Ok cp_revoked, cp_ended.1.2, []) /\ length cp_revoked = 1%nat
  /\ exists r, grants cp_ended.1.2 !! g_GrantID cp_signed = Some r /\ gr_revoke_reason r = "logout".
Proof.
  assert (cp_ended = (Ok cp_revoked, cp_ended.1.2, [])) as E by (apply run_out; vm_compute; reflexivity).
  split; [exact E|]. split; [vm_compute; reflexivity|].
  eexists. split; [|shelve].
  apply (proj1 (End_spec demo_hash "ses_1" "alice" ReasonLogout cp_now cp_now cp_now [] cp_issued.1.2
                  cp_revoked cp_ended.1.2 [] [] E)).
  vm_compute. reflexivity.
  Unshelve. vm_compute. reflexivity.
Defined.

Definition cp_late : GrantRecord :=
  mkGrantRecord "grn_late" "org" "alice" "dev1" "web" "p1" "ses_1" cp_now (Unix 1700000300) 0 None "".

Definition cp_event : AuditEvent := event EventGrantCreated "" "" "" "" "" "" "" "".

Lemma grant_after_session_end_witness :
  exists d2, RecordGrant cp_late cp_event cp_now [] cp_ended.1.2 = (Ok tt, d2, [])
    /\ StateOf (gd_GrantID cp_late) [] d2 = (Ok (mkState true false "ses_1" (gd_UserID cp_late)), d2, []).
Proof.
  assert (cp_ended = (Ok cp_revoked, cp_ended.1.2, [])) as E by (apply run_out; vm_compute; reflexivity).
  assert (grants cp_ended.1.2 !! gd_GrantID cp_late = None) as Hf by (vm_compute; reflexivity).
  assert (e_Event cp_event <> "") as He by (vm_compute; congruence).
  assert ("ses_1" <> "") as Hs by congruence.
  exact (grant_after_session_end "ses_1" "alice" ReasonLogout cp_now cp_now cp_now [] cp_issued.1.2
           cp_revoked cp_ended.1.2 [] cp_late cp_event cp_now E eq_refl Hs Hf He).
Defined.

#[local] Instance plain_b64 : Base64 := {| b64enc s := s; b64dec s := Some s |}.

Definition cp_begun : res Session * DB * list bool :=
  Begin demo_hash (New 0) "alice" "10.0.0.1" (Some cp_random) (Some cp_random) cp_now cp_now [] cp_db.

Definition cp_login : Session :=
  match cp_begun.1.1 with Ok s => s | Err _ => mkLogin "" (mkSessionRecord "" "" "" 0 0 None "") end.

Lemma Begin_Resolve_witness :
  exists rec, ss_UserID rec = "alice" /\ ss_ExpiresAt rec = Unix 1700028800
    /\ Resolve demo_hash (lg_Token cp_login) (Unix 1700028800) [] cp_begun.1.2
       = (Ok (rec, None), cp_begun.1.2, []).
Proof.
  assert (cp_begun = (Ok cp_login, cp_begun.1.2, [])) as E by (apply run_out; vm_compute; reflexivity).
  destruct (Begin_Resolve demo_hash 0 "alice" "10.0.0.1" (Some cp_random) (Some cp_random) cp_now cp_now []
    cp_db cp_login cp_begun.1.2 [] ltac:(vm_compute; intuition congruence)
    ltac:(vm_compute; intuition congruence) E) as (rec & H1 & _ & H3 & _ & H5).
  assert (ss_ExpiresAt rec = Unix 1700028800) as H6 by (rewrite H3; vm_compute; reflexivity).
  exists rec. split; [exact H1|]. split; [exact H6|]. rewrite H5, H6. reflexivity.
Defined.
