(* ===== verification/NetAddr.v ===== *)
(** * Literal addresses

    What [src/internal/agent/agent.go] ([ValidateTarget]) and
    [src/internal/operator/forward.go] use of Go's [net] package: splitting
    "host:port", parsing a literal IP address and recognising loopback.  Strings
    are lists of bytes, a byte being its number. *)

From S2P Require Import Prelude GoErrors.

Definition code (s : string) : list Z := byte_to_Z <$> bytes_of_string s.

Definition c_dot : Z := 46.
Definition c_colon : Z := 58.
Definition c_lbrack : Z := 91.
Definition c_rbrack : Z := 93.
Definition c_percent : Z := 37.

(** ** net.SplitHostPort *)

(** [IndexByte] and [LastIndexByte]. *)
Fixpoint index_byte (c : Z) (l : list Z) : option nat :=
  match l with
  | [] => None
  | x :: l' => if x =? c then Some O else S <$> index_byte c l'
  end.

Definition last_index_byte (c : Z) (l : list Z) : option nat :=
  (fun k => (length l - 1 - k)%nat) <$> index_byte c (rev l).

Definition has_byte (c : Z) (l : list Z) : bool := existsb (Z.eqb c) l.

Definition SplitHostPort (hostport : list Z) : option (list Z * list Z) :=
  match last_index_byte c_colon hostport with
  | None => None                                   (* missing port in address *)
  | Some i =>
      let finish (host : list Z) (j k : nat) :=
        if has_byte c_lbrack (drop j hostport) then None
        else if has_byte c_rbrack (drop k hostport) then None
        else Some (host, drop (S i) hostport) in
      if bool_decide (head hostport = Some c_lbrack) then
        match index_byte c_rbrack hostport with
        | None => None                             (* missing ']' in address *)
        | Some e =>
            if (S e =? i)%nat then finish (take (e - 1) (drop 1 hostport)) 1%nat (S e)
            else None                              (* missing port, or too many colons *)
        end
      else
        let host := take i hostport in
        if has_byte c_colon host then None         (* too many colons in address *)
        else finish host 0%nat 0%nat
  end.

(** ** net.ParseIP *)

Definition digit (c : Z) : option Z := if (48 <=? c) && (c <=? 57) then Some (c - 48) else None.

Definition hexdigit (c : Z) : option Z :=
  if (48 <=? c) && (c <=? 57) then Some (c - 48)
  else if (97 <=? c) && (c <=? 102) then Some (c - 87)
  else if (65 <=? c) && (c <=? 70) then Some (c - 55)
  else None.

(** [parseIPv4Fields]: the loop at a position, with the finished fields, the
    value and length of the current one, and whether the previous byte was a
    dot (or there is none). *)
Fixpoint parseIPv4_loop (s : list Z) (fields : list Z) (val : Z) (digLen : nat) (after_dot : bool)
    : option (list Z) :=
  match s with
  | [] => if (length fields <? 3)%nat then None else Some (fields ++ [val])
  | c :: s' =>
      match digit c with
      | Some d =>
          if (digLen =? 1)%nat && (val =? 0) then None       (* leading zero *)
          else
            let val := val * 10 + d in
            if val >? 255 then None
            else parseIPv4_loop s' fields val (S digLen) false
      | None =>
          if c =? c_dot then
            if after_dot || bool_decide (s' = []) then None   (* empty field *)
            else if (length fields =? 3)%nat then None        (* too many fields *)
            else parseIPv4_loop s' (fields ++ [val]) 0 0 true
          else None
      end
  end.

Definition parseIPv4 (s : list Z) : option (list Z) := parseIPv4_loop s [] 0 0 true.

(** The leading hexadecimal digits, at most four of them: their value, their
    number and the rest. *)
Fixpoint hex_run (s : list Z) (off : nat) (acc : Z) : option (Z * nat * list Z) :=
  match s with
  | [] => Some (acc, off, [])
  | c :: s' =>
      match hexdigit c with
      | None => Some (acc, off, s)
      | Some d => if (3 <? off)%nat then None else hex_run s' (S off) (acc * 16 + d)
      end
  end.

(** One field at a time: the bytes so far, and where the "::" was.  Every round
    adds two bytes to at most sixteen, so eight rounds are enough. *)
Fixpoint parseIPv6_loop (fuel : nat) (s : list Z) (ip : list Z) (ellipsis : option nat)
    : option (list Z * option nat * list Z) :=
  match fuel with
  | O => Some (ip, ellipsis, s)
  | S fuel' =>
      match hex_run s 0 0 with
      | None => None
      | Some (acc, off, rest) =>
          if (off =? 0)%nat then None
          else if bool_decide (head rest = Some c_dot) then
            if bool_decide (ellipsis = None) && negb (length ip =? 12)%nat then None
            else if (16 <? length ip + 4)%nat then None
            else
              match parseIPv4 s with
              | None => None
              | Some q => Some (ip ++ q, ellipsis, [])
              end
          else
            let ip := ip ++ [acc / 256; acc mod 256] in
            match rest with
            | [] => Some (ip, ellipsis, [])
            | c :: s1 =>
                if negb (c =? c_colon) then None
                else
                  match s1 with
                  | [] => None                               (* colon must be followed *)
                  | c1 :: s2 =>
                      if c1 =? c_colon then
                        if bool_decide (ellipsis <> None) then None
                        else
                          match s2 with
                          | [] => Some (ip, Some (length ip), [])
                          | _ => parseIPv6_loop fuel' s2 ip (Some (length ip))
                          end
                      else parseIPv6_loop fuel' s1 ip ellipsis
                  end
            end
      end
  end.

Definition parseIPv6 (s : list Z) : option (list Z) :=
  let starts := bool_decide (take 2 s = [c_colon; c_colon]) in
  let s1 := if starts then drop 2 s else s in
  let e0 := if starts then Some O else None in
  if starts && bool_decide (s1 = []) then Some (repeat 0 16)
  else
    match parseIPv6_loop 8 s1 [] e0 with
    | None => None
    | Some (ip, ellipsis, rest) =>
        if negb (bool_decide (rest = [])) then None
        else if (length ip <? 16)%nat then
          match ellipsis with
          | None => None
          | Some e => Some (take e ip ++ repeat 0 (16 - length ip) ++ drop e ip)
          end
        else if bool_decide (ellipsis <> None) then None
        else Some ip
    end.

(** [netip.ParseAddr] chooses by the first of ".", ":" and "%". *)
Fixpoint ParseAddr_kind (s : list Z) : Z :=
  match s with
  | [] => 0
  | c :: s' => if (c =? c_dot) || (c =? c_colon) || (c =? c_percent) then c else ParseAddr_kind s'
  end.

(** The IPv4-mapped form in which [ParseIP] returns an IPv4 address. *)
Definition v4InV6Prefix : list Z := repeat 0 10 ++ [255; 255].

(** An address with a zone is refused. *)
Definition ParseIP (s : list Z) : option (list Z) :=
  if has_byte c_percent s then None
  else
    let k := ParseAddr_kind s in
    if k =? c_dot then (app v4InV6Prefix) <$> parseIPv4 s else if k =? c_colon then parseIPv6 s else None.

(** [IP.To4]: a four-byte address, or an IPv4-mapped one. *)
Definition To4 (ip : list Z) : option (list Z) :=
  if (length ip =? 4)%nat then Some ip
  else if bool_decide (take 12 ip = v4InV6Prefix) then Some (drop 12 ip)
  else None.

Definition IsLoopback (ip : list Z) : bool :=
  match To4 ip with
  | Some ip4 => bool_decide (head ip4 = Some 127)
  | None => bool_decide (ip = repeat 0 15 ++ [1])
  end.

(** ** agent.go: ValidateTarget *)

Definition ValidateTarget (addr : string) : res unit :=
  match SplitHostPort (code addr) with
  | None => Err (wrap ErrTargetNotLoopback "is not host:port")
  | Some (host, port) =>
      if bool_decide (port = []) then Err (wrap ErrTargetNotLoopback "has no port")
      else
        match ParseIP host with
        | None => Err (wrap ErrTargetNotLoopback "is a name, not a literal IP")
        | Some ip => if negb (IsLoopback ip) then Err (wrap ErrTargetNotLoopback "") else Ok tt
        end
  end.

(** Characters a literal address may have. *)
Definition addr_char (c : Z) : Prop := hexdigit c <> None \/ c = c_dot \/ c = c_colon.

(** The usual decimal notation of a byte, and of four of them. *)
Definition dec (n : Z) : list Z :=
  if n <? 10 then [48 + n]
  else if n <? 100 then [48 + n / 10; 48 + n mod 10]
  else [48 + n / 100; 48 + n / 10 mod 10; 48 + n mod 10].

Definition quad (a b c d : Z) : list Z :=
  dec a ++ [c_dot] ++ dec b ++ [c_dot] ++ dec c ++ [c_dot] ++ dec d.

Example target_ok : (fun s => match ValidateTarget s with Ok _ => true | Err _ => false end)
  <$> ["127.0.0.1:8080"; "[::1]:80"; "127.8.9.10:1"; "[::ffff:127.0.0.1]:80"; "[0:0:0:0:0:0:0:1]:http"]
  = [true; true; true; true; true].
Proof. vm_compute. reflexivity. Qed.

Example target_refused : (fun s => match ValidateTarget s with Ok _ => true | Err _ => false end)
  <$> ["localhost:80"; "10.0.0.1:80"; "127.0.0.1"; "127.0.0.1:"; "127.1:80"; "0127.0.0.1:80"; "[::2]:80";
       "[::1%lo]:80"; "::1:80"; "[::]:80"; "127.0.0.1.:80"; "[1:2:3:4:5:6:7::8]:1"; "0x7f.0.0.1:80"]
  = repeat false 13.
Proof. vm_compute. reflexivity. Qed.

(** ** Lemmas *)

Lemma digit_48 d : 0 <= d <= 9 -> digit (48 + d) = Some d.
Proof. intros. unfold digit. cases; [f_equal|]; lia. Qed.

Lemma digit_dot : digit c_dot = None.
Proof. done. Qed.

Lemma parse_dec n s fields a :
  0 <= n <= 255 ->
  parseIPv4_loop (dec n ++ s) fields 0 0 a = parseIPv4_loop s fields n (length (dec n)) false.
Proof.
  intros Hn. unfold dec. destruct (Z.ltb_spec n 10); [|destruct (Z.ltb_spec n 100)].
  - cbn [app parseIPv4_loop length]. rewrite digit_48 by lia. cbn [Nat.eqb andb].
    destruct (Z.gtb_spec (0 * 10 + n) 255); [lia|]. reflexivity.
  - pose proof (Z.div_mod n 10). pose proof (Z.mod_pos_bound n 10).
    assert (0 < n / 10 < 10) by lia.
    cbn [app parseIPv4_loop length]. rewrite digit_48 by lia. cbn [Nat.eqb andb].
    destruct (Z.gtb_spec (0 * 10 + n / 10) 255); [lia|]. rewrite digit_48 by lia.
    destruct (Z.eqb_spec (0 * 10 + n / 10) 0); [lia|]. cbn [Nat.eqb andb].
    replace ((0 * 10 + n / 10) * 10 + n mod 10) with n by lia.
    destruct (Z.gtb_spec n 255); [lia|]. reflexivity.
  - pose proof (Z.div_mod n 10). pose proof (Z.mod_pos_bound n 10).
    pose proof (Z.div_mod (n / 10) 10). pose proof (Z.mod_pos_bound (n / 10) 10).
    assert (n / 100 = n / 10 / 10) as E by by rewrite Z.div_div by done.
    assert (0 < n / 100 < 10) by lia.
    cbn [app parseIPv4_loop length]. rewrite digit_48 by lia. cbn [Nat.eqb andb].
    destruct (Z.gtb_spec (0 * 10 + n / 100) 255); [lia|]. rewrite digit_48 by lia.
    destruct (Z.eqb_spec (0 * 10 + n / 100) 0); [lia|]. cbn [Nat.eqb andb].
    replace ((0 * 10 + n / 100) * 10 + n / 10 mod 10) with (n / 10) by lia.
    destruct (Z.gtb_spec (n / 10) 255); [lia|]. rewrite digit_48 by lia. cbn [Nat.eqb andb].
    replace (n / 10 * 10 + n mod 10) with n by lia.
    destruct (Z.gtb_spec n 255); [lia|]. reflexivity.
Qed.

Lemma dec_nonempty n s : dec n ++ s <> [].
Proof. unfold dec. by cases. Qed.

Lemma parse_dot s fields val k :
  s <> [] -> (length fields < 3)%nat ->
  parseIPv4_loop (c_dot :: s) fields val k false = parseIPv4_loop s (fields ++ [val]) 0 0 true.
Proof.
  intros Hs Hl. cbn [parseIPv4_loop]. rewrite digit_dot. cbn [Z.eqb c_dot Pos.eqb orb].
  rewrite bool_decide_eq_false_2 by done. destruct (Nat.eqb_spec (length fields) 3); [lia|]. reflexivity.
Qed.

Lemma parseIPv4_quad a b c d :
  0 <= a <= 255 -> 0 <= b <= 255 -> 0 <= c <= 255 -> 0 <= d <= 255 ->
  parseIPv4 (quad a b c d) = Some [a; b; c; d].
Proof.
  intros Ha Hb Hc Hd. unfold parseIPv4, quad. cbn [app].
  rewrite parse_dec by done. rewrite parse_dot by (apply dec_nonempty || (cbn; lia)).
  rewrite parse_dec by done. rewrite parse_dot by (apply dec_nonempty || (cbn; lia)).
  rewrite parse_dec by done. rewrite parse_dot by ((cbn; lia) || (rewrite <- (app_nil_r (dec d)); apply dec_nonempty)).
  rewrite <- (app_nil_r (dec d)). rewrite parse_dec by done. reflexivity.
Qed.

(** *** Which characters an accepted address has *)

Lemma digit_hexdigit c d : digit c = Some d -> hexdigit c <> None.
Proof. unfold digit, hexdigit. by destruct (_ && _). Qed.

Lemma parseIPv4_loop_chars s fields val k a q :
  parseIPv4_loop s fields val k a = Some q -> Forall addr_char s.
Proof.
  revert fields val k a. induction s as [|c s IH]; intros fields val k a; cbn [parseIPv4_loop]; [done|].
  destruct (digit c) as [d|] eqn:Ed.
  - destruct (_ && _); [done|]. destruct (_ >? _); [done|]. intros H. constructor; [|by eapply IH].
    left. by eapply digit_hexdigit.
  - destruct (Z.eqb_spec c c_dot) as [->|]; [|done]. destruct (_ || _); [done|].
    destruct (_ =? _)%nat; [done|]. intros H. constructor; [right; by left|by eapply IH].
Qed.

Lemma hex_run_chars s off acc v k rest :
  hex_run s off acc = Some (v, k, rest) -> exists p, s = p ++ rest /\ Forall addr_char p.
Proof.
  revert off acc. induction s as [|c s IH]; intros off acc; cbn [hex_run].
  - intros [= _ _ <-]. by exists [].
  - destruct (hexdigit c) eqn:Eh.
    + destruct (_ <? _)%nat; [done|]. intros (p & -> & Hp)%IH. exists (c :: p).
      split; [done|]. constructor; [left; by rewrite Eh|done].
    + intros [= _ _ <-]. by exists [].
Qed.

Lemma parseIPv6_loop_chars fuel s ip e ip' e' :
  parseIPv6_loop fuel s ip e = Some (ip', e', []) -> Forall addr_char s.
Proof.
  revert s ip e. induction fuel as [|fuel IH]; intros s ip e; cbn [parseIPv6_loop]; [by intros [= _ _ ->]|].
  destruct (hex_run s 0 0) as [[[acc off] rest]|] eqn:Eh; [|done].
  destruct (hex_run_chars _ _ _ _ _ _ Eh) as (p & Es & Hp).
  destruct (off =? 0)%nat; [done|]. case_bool_decide.
  - destruct (_ && _); [done|]. destruct (_ <? _)%nat; [done|].
    destruct (parseIPv4 s) eqn:E4; [|done]. intros _. by eapply parseIPv4_loop_chars.
  - destruct rest as [|c s1]; [intros _; by rewrite Es, app_nil_r|].
    destruct (Z.eqb_spec c c_colon) as [->|]; cbn [negb]; [|done].
    assert (addr_char c_colon) as Hc by (right; by right).
    destruct s1 as [|c1 s2]; [done|]. destruct (Z.eqb_spec c1 c_colon) as [->|].
    + case_bool_decide; [done|]. destruct s2 as [|c2 s3].
      * intros _. rewrite Es. apply Forall_app; auto.
      * intros HH%IH. rewrite Es. apply Forall_app; auto.
    + intros HH%IH. rewrite Es. apply Forall_app; auto.
Qed.

Lemma ParseIP_chars s ip : ParseIP s = Some ip -> Forall addr_char s.
Proof.
  unfold ParseIP. destruct (has_byte _ _); [done|]. destruct (_ =? c_dot).
  - destruct (parseIPv4 s) eqn:E; [|done]. intros _. by eapply parseIPv4_loop_chars.
  - destruct (_ =? c_colon); [|done]. unfold parseIPv6.
    destruct (bool_decide_reflect (take 2 s = [c_colon; c_colon])) as [Ht|_]; cbn [andb].
    + assert (Forall addr_char (take 2 s)) as Hc by (rewrite Ht; repeat constructor; right; by right).
      case_bool_decide as Hd.
      * intros _. rewrite <- (take_drop 2 s), Hd, app_nil_r. done.
      * destruct (parseIPv6_loop _ _ _ _) as [[[ip0 e] rest]|] eqn:E; [|done].
        case_bool_decide as Hr; [|done]. subst rest. intros _.
        rewrite <- (take_drop 2 s). apply Forall_app. split; [done|]. by eapply parseIPv6_loop_chars.
    + destruct (parseIPv6_loop _ _ _ _) as [[[ip0 e] rest]|] eqn:E; [|done].
      case_bool_decide as Hr; [|done]. subst rest. intros _. by eapply parseIPv6_loop_chars.
Qed.

(** *** Splitting *)

Lemma has_byte_false c l : has_byte c l = false <-> Forall (fun x => x <> c) l.
Proof.
  unfold has_byte. induction l as [|x l IH]; cbn; [split; [constructor | done]|].
  rewrite orb_false_iff, IH, Forall_cons, Z.eqb_neq. naive_solver.
Qed.

Lemma index_byte_app c l1 l2 :
  Forall (fun x => x <> c) l1 -> index_byte c (l1 ++ c :: l2) = Some (length l1).
Proof.
  induction 1 as [|x l1 Hx _ IH]; cbn; [by rewrite Z.eqb_refl|].
  destruct (Z.eqb_spec x c); [done|]. by rewrite IH.
Qed.

(** A character that is neither a colon nor a bracket. *)
Definition plain_char (c : Z) : Prop := c <> c_colon /\ c <> c_lbrack /\ c <> c_rbrack.

Lemma plain_not (l : list Z) c :
  Forall plain_char l -> c = c_colon \/ c = c_lbrack \/ c = c_rbrack -> Forall (fun x => x <> c) l.
Proof. intros H Hc. eapply Forall_impl; [exact H|]. unfold plain_char. naive_solver. Qed.

Lemma SplitHostPort_plain host port :
  Forall plain_char host -> Forall plain_char port ->
  SplitHostPort (host ++ c_colon :: port) = Some (host, port).
Proof.
  intros Hh Hp. unfold SplitHostPort.
  assert (last_index_byte c_colon (host ++ c_colon :: port) = Some (length host)) as ->.
  { unfold last_index_byte. rewrite rev_app_distr. cbn [rev]. rewrite <- app_assoc. cbn [app].
    rewrite index_byte_app by (apply Forall_rev, plain_not; auto). cbn.
    rewrite length_app, length_rev. cbn. f_equal. lia. }
  cbv zeta.
  assert (forall c, c = c_lbrack \/ c = c_rbrack -> has_byte c (host ++ c_colon :: port) = false) as Hb.
  { intros c Hc. apply has_byte_false. apply Forall_app. split; [apply plain_not; tauto|].
    constructor; [|apply plain_not; tauto]. destruct Hc as [-> | ->]; done. }
  rewrite bool_decide_eq_false_2.
  2:{ destruct host as [|x host]; [done|]. apply Forall_cons in Hh as [(_ & Hx & _) _]. cbn. congruence. }
  rewrite take_app_length, (proj2 (has_byte_false _ _)) by (apply plain_not; auto).
  rewrite !drop_0, !Hb by auto.
  replace (drop (S (length host)) (host ++ c_colon :: port)) with port; [done|].
  rewrite <- (Nat.add_1_r (length host)), <- drop_drop, drop_app_length. done.
Qed.

Lemma dec_plain n : 0 <= n <= 255 -> Forall plain_char (dec n).
Proof.
  intros Hn. unfold dec, plain_char, c_colon, c_lbrack, c_rbrack.
  pose proof (Z.mod_pos_bound n 10). pose proof (Z.mod_pos_bound (n / 10) 10).
  destruct (Z.ltb_spec n 10); [|destruct (Z.ltb_spec n 100)].
  - repeat constructor; lia.
  - assert (n / 10 < 10) by (apply Z.div_lt_upper_bound; lia). repeat constructor; lia.
  - assert (n / 100 < 10) by (apply Z.div_lt_upper_bound; lia). repeat constructor; lia.
Qed.

Lemma quad_plain a b c d :
  0 <= a <= 255 -> 0 <= b <= 255 -> 0 <= c <= 255 -> 0 <= d <= 255 -> Forall plain_char (quad a b c d).
Proof.
  intros. unfold quad. assert (plain_char c_dot) by done.
  rewrite !Forall_app, !Forall_singleton. split_and!; auto using dec_plain.
Qed.

Lemma dec_digits n : 0 <= n <= 255 -> Forall (fun x => 48 <= x <= 57) (dec n) /\ dec n <> [].
Proof.
  intros Hn. unfold dec.
  pose proof (Z.mod_pos_bound n 10). pose proof (Z.mod_pos_bound (n / 10) 10).
  destruct (Z.ltb_spec n 10); [|destruct (Z.ltb_spec n 100)]; (split; [|done]).
  - repeat constructor; lia.
  - assert (0 <= n / 10 < 10) by (split; [apply Z.div_pos|apply Z.div_lt_upper_bound]; lia).
    repeat constructor; lia.
  - assert (0 <= n / 100 < 10) by (split; [apply Z.div_pos|apply Z.div_lt_upper_bound]; lia).
    repeat constructor; lia.
Qed.

Lemma ParseAddr_kind_digits l s :
  Forall (fun x => 48 <= x <= 57) l -> ParseAddr_kind (l ++ s) = ParseAddr_kind s.
Proof.
  induction 1 as [|x l Hx _ IH]; [done|]. cbn. unfold c_dot, c_colon, c_percent.
  destruct (Z.eqb_spec x 46), (Z.eqb_spec x 58), (Z.eqb_spec x 37); cbn; lia.
Qed.

Lemma ParseIP_quad a b c d :
  0 <= a <= 255 -> 0 <= b <= 255 -> 0 <= c <= 255 -> 0 <= d <= 255 ->
  ParseIP (quad a b c d) = Some (v4InV6Prefix ++ [a; b; c; d]).
Proof.
  intros Ha Hb Hc Hd. unfold ParseIP.
  rewrite (proj2 (has_byte_false _ _)).
  2:{ unfold quad.
      assert (forall n, 0 <= n <= 255 -> Forall (fun x => x <> c_percent) (dec n)) as Hp.
      { intros n Hn. eapply Forall_impl; [apply (dec_digits n Hn)|]. cbn. unfold c_percent. lia. }
      rewrite !Forall_app, !Forall_singleton. assert (c_dot <> c_percent) by done. auto 10. }
  cbv zeta.
  assert (ParseAddr_kind (quad a b c d) = c_dot) as ->.
  { unfold quad. rewrite ParseAddr_kind_digits by (by apply dec_digits). done. }
  rewrite Z.eqb_refl, parseIPv4_quad by done. done.
Qed.

(** ** Properties *)

(** A target the agent accepts is a literal address: its host part
    consists of hexadecimal digits, dots and colons only, so no name is ever
    looked up; it denotes a loopback address; and its port is explicit. *)
Theorem ValidateTarget_literal addr :
  ValidateTarget addr = Ok tt ->
  exists host port ip, SplitHostPort (code addr) = Some (host, port) /\ port <> []
    /\ Forall addr_char host /\ ParseIP host = Some ip /\ IsLoopback ip = true.
Proof.
  unfold ValidateTarget. destruct (SplitHostPort (code addr)) as [[host port]|] eqn:Es; [|done].
  case_bool_decide; [done|]. destruct (ParseIP host) as [ip|] eqn:Ep; [|done].
  destruct (IsLoopback ip) eqn:El; [|done]. intros _.
  exists host, port, ip. split_and!; auto. by eapply ParseIP_chars.
Qed.

(** Among dotted-quad targets with a port, exactly those in 127.0.0.0/8 are
    accepted. *)
Theorem ValidateTarget_quad addr a b c d port :
  0 <= a <= 255 -> 0 <= b <= 255 -> 0 <= c <= 255 -> 0 <= d <= 255 ->
  Forall plain_char port -> port <> [] -> code addr = quad a b c d ++ c_colon :: port ->
  (ValidateTarget addr = Ok tt <-> a = 127).
Proof.
  intros Ha Hb Hc Hd Hp Hn Ecode. unfold ValidateTarget.
  rewrite Ecode, SplitHostPort_plain by (done || by apply quad_plain).
  rewrite bool_decide_eq_false_2 by done. rewrite ParseIP_quad by done.
  change (IsLoopback (v4InV6Prefix ++ [a; b; c; d])) with (bool_decide (Some a = Some 127)).
  case_bool_decide; cbn [negb]; naive_solver.
Qed.

Lemma ValidateTarget_literal_witness :
  exists host port ip, SplitHostPort (code "[::1]:8443") = Some (host, port) /\ port <> []
    /\ Forall addr_char host /\ ParseIP host = Some ip /\ IsLoopback ip = true.
Proof. apply (ValidateTarget_literal "[::1]:8443"). vm_compute. reflexivity. Defined.

Lemma ValidateTarget_quad_witness :
  ValidateTarget "127.0.0.1:8080" = Ok tt <-> 127 = 127.
Proof.
  apply (ValidateTarget_quad "127.0.0.1:8080" 127 0 0 1 (code "8080")); try lia;
    [|vm_compute; congruence|vm_compute; reflexivity].
  apply (bool_decide_unpack _). vm_compute. reflexivity.
Defined.
