(* ===== verification/Duration.v ===== *)
(** * Durations as text

    The policy file ([src/internal/control/policy/duration.go]) and the agent's
    resource file ([src/internal/agent/resources.go]) write durations as people
    do: "30m", "1h15m30.5s".  Both go through package time: [Duration.String]
    and [ParseDuration], here with their loops, their overflow checks and the
    float64 arithmetic of the fraction.  Strings are lists of byte values. *)

From Stdlib Require Import Floats.SpecFloat.
From S2P Require Import Prelude GoErrors GoTime GoFloat NetAddr Grant Policy.

Definition Nanosecond : duration := 1.
Definition Microsecond : duration := 1000.

(** ** Duration.String

    The 32-byte buffer is filled from its end; a list stands for the part that
    is written. *)

(** The digits of [fmtInt]; twenty rounds write any [uint64]. *)
Fixpoint fmtInt_loop (fuel : nat) (v : Z) (buf : list Z) : list Z :=
  match fuel with
  | O => buf
  | S fuel => if v >? 0 then fmtInt_loop fuel (v / 10) (v mod 10 + 48 :: buf) else buf
  end.

Definition fmtInt (buf : list Z) (v : Z) : list Z := if v =? 0 then 48 :: buf else fmtInt_loop 20 v buf.

Fixpoint fmtFrac_loop (prec : nat) (v : Z) (print : bool) (buf : list Z) : list Z * Z * bool :=
  match prec with
  | O => (buf, v, print)
  | S prec =>
      let digit := v mod 10 in
      let print := print || negb (digit =? 0) in
      fmtFrac_loop prec (v / 10) print (if print then digit + 48 :: buf else buf)
  end.

(** The fraction of [v/10^prec] without its trailing zeros, and the whole part. *)
Definition fmtFrac (buf : list Z) (v : Z) (prec : nat) : list Z * Z :=
  let '(buf, v, print) := fmtFrac_loop prec v false buf in
  (if print then c_dot :: buf else buf, v).

(** Below a second, in nanoseconds, microseconds (the micro sign is two bytes)
    or milliseconds; [u] is positive. *)
Definition format_small (u : Z) : list Z :=
  let '(suffix, prec) :=
    if u <? Microsecond then ([110; 115], 0%nat)
    else if u <? Millisecond then ([194; 181; 115], 3%nat)
    else ([109; 115], 6%nat) in
  let '(buf, u) := fmtFrac suffix u prec in
  fmtInt buf u.

(** From a second on, in hours, minutes and seconds. *)
Definition format_large (u : Z) : list Z :=
  let '(buf, u) := fmtFrac [115] u 9 in
  let buf := fmtInt buf (u mod 60) in
  let u := u / 60 in
  if u >? 0 then
    let buf := fmtInt (109 :: buf) (u mod 60) in
    let u := u / 60 in
    if u >? 0 then fmtInt (104 :: buf) u else buf
  else buf.

Definition Duration_String (d : duration) : list Z :=
  let u := uwrap 64 d in
  let neg := d <? 0 in
  let u := if neg then uwrap 64 (- u) else u in
  if u =? 0 then [48; 115]
  else
    let buf := if u <? Second then format_small u else format_large u in
    if neg then 45 :: buf else buf.

(** ** ParseDuration *)

(** [leadingInt]: the value of the leading digits and the rest; [None] on
    overflow. *)
Fixpoint leadingInt (s : list Z) (x : Z) : option (Z * list Z) :=
  match s with
  | [] => Some (x, [])
  | c :: s' =>
      match digit c with
      | None => Some (x, s)
      | Some d =>
          if x >? 2 ^ 63 / 10 then None
          else
            let x := uwrap 64 (x * 10 + d) in
            if x >? 2 ^ 63 then None else leadingInt s' x
      end
  end.

(** [leadingFraction]: on overflow it only stops accumulating precision. *)
Fixpoint leadingFraction (s : list Z) (x : Z) (scale : float) (overflow : bool) : Z * float * list Z :=
  match s with
  | [] => (x, scale, [])
  | c :: s' =>
      match digit c with
      | None => (x, scale, s)
      | Some d =>
          if overflow then leadingFraction s' x scale true
          else if x >? (2 ^ 63 - 1) / 10 then leadingFraction s' x scale true
          else
            let y := uwrap 64 (x * 10 + d) in
            if y >? 2 ^ 63 then leadingFraction s' x scale true
            else leadingFraction s' y (f_mul scale (f_of_Z 10)) false
      end
  end.

(** The bytes up to the next dot or digit. *)
Fixpoint leadingUnit (s : list Z) : list Z * list Z :=
  match s with
  | [] => ([], [])
  | c :: s' =>
      if (c =? c_dot) || bool_decide (is_Some (digit c)) then ([], s)
      else let '(u, rest) := leadingUnit s' in (c :: u, rest)
  end.

Definition unitMap : list (list Z * Z) :=
  [ (code "ns", Nanosecond); (code "us", Microsecond); ([194; 181; 115], Microsecond);
    ([206; 188; 115], Microsecond); (code "ms", Millisecond); (code "s", Second);
    (code "m", Minute); (code "h", Hour) ].

Fixpoint unit_lookup (m : list (list Z * Z)) (u : list Z) : option Z :=
  match m with
  | [] => None
  | (k, v) :: m' => if bool_decide (k = u) then Some v else unit_lookup m' u
  end.

(** [uint64(float64(f) * (float64(unit) / scale))]: at most the nanoseconds of
    an hour, since [f < scale]. *)
Definition fraction_of (f unit : Z) (scale : float) : Z :=
  default 0 (f_to_int64 (f_mul (f_of_Z f) (f_div (f_of_Z unit) scale))).

Definition invalid {A} : res A := Err (EMsg "time: invalid duration").

(** One number with its unit: the nanoseconds and the rest. *)
Definition parse_item (s : list Z) : res (Z * list Z) :=
  let starts := match s with [] => false | c :: _ => (c =? c_dot) || bool_decide (is_Some (digit c)) end in
  if negb starts then invalid
  else
    match leadingInt s 0 with
    | None => invalid
    | Some (v, s1) =>
        let pre := negb (length s =? length s1)%nat in
        let '(f, scale, s2, post) :=
          match s1 with
          | c :: s1' =>
              if c =? c_dot then
                let '(f, scale, s2) := leadingFraction s1' 0 (f_of_Z 1) false in
                (f, scale, s2, negb (length s1' =? length s2)%nat)
              else (0, f_of_Z 1, s1, false)
          | [] => (0, f_of_Z 1, s1, false)
          end in
        if negb pre && negb post then invalid
        else
          let '(u, s3) := leadingUnit s2 in
          match u with
          | [] => Err (EMsg "time: missing unit in duration")
          | _ =>
              match unit_lookup unitMap u with
              | None => Err (EMsg "time: unknown unit")
              | Some unit =>
                  if v >? 2 ^ 63 / unit then invalid
                  else
                    let v := uwrap 64 (v * unit) in
                    if f >? 0 then
                      let v := uwrap 64 (v + fraction_of f unit scale) in
                      if v >? 2 ^ 63 then invalid else Ok (v, s3)
                    else Ok (v, s3)
              end
          end
    end.

(** The loop: every round consumes a unit, so one round per byte is enough. *)
Fixpoint parse_loop (fuel : nat) (s : list Z) (d : Z) : res Z :=
  match fuel, s with
  | _, [] => Ok d
  | O, _ => Err (EMsg "out of fuel")
  | S fuel, _ =>
      match parse_item s with
      | Err e => Err e
      | Ok (v, s') =>
          let d := uwrap 64 (d + v) in
          if d >? 2 ^ 63 then invalid else parse_loop fuel s' d
      end
  end.

Definition ParseDuration (orig : list Z) : res duration :=
  let '(neg, s) :=
    match orig with
    | c :: s' => if (c =? 45) || (c =? 43) then (c =? 45, s') else (false, orig)
    | [] => (false, orig)
    end in
  if bool_decide (s = [48]) then Ok 0
  else if bool_decide (s = []) then invalid
  else
    match parse_loop (length s) s 0 with
    | Err e => Err e
    | Ok d =>
        if neg : bool then Ok (swrap64 (- swrap64 d))
        else if d >? 2 ^ 63 - 1 then invalid
        else Ok (swrap64 d)
    end.

(** ** The JSON of a duration *)

(** [json.Unmarshal] into a string. *)
Class JSONString := json_string : list Z -> res (list Z).

(** A character that JSON text carries as it is: printable ASCII other than the
    quote, the backslash and what Go escapes for HTML, or the micro sign. *)
Definition plain_ascii (c : Z) : Prop :=
  32 <= c < 127 /\ c <> 34 /\ c <> 92 /\ c <> 60 /\ c <> 62 /\ c <> 38.

Inductive plain_text : list Z -> Prop :=
| plain_nil : plain_text []
| plain_char c s : plain_ascii c -> plain_text s -> plain_text (c :: s)
| plain_micro s : plain_text s -> plain_text (194 :: 181 :: s).

(** RFC 8259: plain characters between quotes are the string of them. *)
Class JSONLaws `{JSONString} := {
  json_plain : forall s, plain_text s -> json_string (34 :: s ++ [34]) = Ok s
}.

Section JSON.
Context `{JSONString}.

Definition unmarshalDuration (b : list Z) : res duration :=
  match json_string b with
  | Err e => Err (EWrap "duration must be a string" e)
  | Ok s =>
      match ParseDuration s with
      | Err e => Err (EWrap "invalid duration" e)
      | Ok d => Ok d
      end
  end.

(** [json.Marshal] of a string of plain characters. *)
Definition marshalDuration (d : duration) : res (list Z) := Ok (34 :: Duration_String d ++ [34]).

(** The agent's [Duration] repeats both for its resource file. *)
Definition agent_UnmarshalJSON (b : list Z) : res duration :=
  match json_string b with
  | Err e => Err (EWrap "duration must be a string" e)
  | Ok s =>
      match ParseDuration s with
      | Err e => Err (EWrap "invalid duration" e)
      | Ok parsed => Ok parsed
      end
  end.

Definition agent_MarshalJSON (d : duration) : res (list Z) := Ok (34 :: Duration_String d ++ [34]).
End JSON.

(** ** What the printer writes, the parser reads *)

Lemma leadingInt_digit c s x d :
  digit c = Some d -> 0 <= x <= 2 ^ 63 / 10 -> 0 <= x * 10 + d <= 2 ^ 63 ->
  leadingInt (c :: s) x = leadingInt s (x * 10 + d).
Proof.
  intros Hc Hx Hy. cbn [leadingInt]. rewrite Hc, uwrap_id by lia.
  replace (x >? 2 ^ 63 / 10) with false by lia. replace (x * 10 + d >? 2 ^ 63) with false by lia. done.
Qed.

Lemma leadingInt_fmtInt_loop n : forall v buf,
  0 <= v <= 2 ^ 63 -> v < 10 ^ Z.of_nat n -> leadingInt (fmtInt_loop n v buf) 0 = leadingInt buf v.
Proof.
  induction n as [|n IH]; intros v buf Hv Hn; cbn [fmtInt_loop]; [by replace v with 0 by lia|].
  destruct (Z.gtb_spec v 0); [|by replace v with 0 by lia].
  rewrite Nat2Z.inj_succ, Z.pow_succ_r in Hn by lia. rewrite IH by zlia.
  rewrite (leadingInt_digit _ _ _ (v mod 10)); [|rewrite Z.add_comm; apply digit_48; zlia|zlia..].
  f_equal. zlia.
Qed.

Lemma leadingInt_fmtInt buf v :
  0 <= v <= 2 ^ 63 -> leadingInt (fmtInt buf v) 0 = leadingInt buf v.
Proof.
  intros Hv. unfold fmtInt. destruct (Z.eqb_spec v 0) as [->|]; [done|].
  apply leadingInt_fmtInt_loop; [lia|]. change (10 ^ Z.of_nat 20) with 100000000000000000000. lia.
Qed.

(** The text starts with a digit, and grows in front of what was there. *)
Lemma fmtInt_loop_grows n : forall v buf,
  exists ds, fmtInt_loop n v buf = ds ++ buf /\ Forall (fun c => 48 <= c <= 57) ds
    /\ (0 < v -> (0 < n)%nat -> ds <> []) /\ (length ds <= n)%nat.
Proof.
  induction n as [|n IH]; intros v buf; cbn [fmtInt_loop]; [exists []; split_and!; [done..|lia|done]|].
  destruct (Z.gtb_spec v 0) as [Hv|]; [|exists []; split_and!; [done..|lia|cbn; lia]].
  destruct (IH (v / 10) (v mod 10 + 48 :: buf)) as (ds & -> & Hds & _ & Hl).
  exists (ds ++ [v mod 10 + 48]). rewrite <- app_assoc, length_app. cbn. split_and!; [done| |by destruct ds|lia].
  apply Forall_app; split; [done|]. constructor; [zlia|constructor].
Qed.

Lemma fmtInt_grows buf v :
  0 <= v -> exists c ds, fmtInt buf v = c :: ds ++ buf /\ Forall (fun c => 48 <= c <= 57) (c :: ds)
    /\ (length ds < 20)%nat.
Proof.
  intros Hv. unfold fmtInt. destruct (Z.eqb_spec v 0).
  - exists 48, []. split_and!; [done| |cbn; lia]. constructor; [lia|constructor].
  - destruct (fmtInt_loop_grows 20 v buf) as (ds & -> & Hds & Hne & Hl).
    destruct ds as [|c ds]; [destruct Hne; [lia..|done]|]. cbn in Hl. exists c, ds. split_and!; [done..|lia].
Qed.

Lemma digit_range c : 48 <= c <= 57 -> digit c = Some (c - 48).
Proof. intros H. unfold digit. destruct (Z.leb_spec 48 c), (Z.leb_spec c 57); [done|lia..]. Qed.

(** *** The fraction *)

Fixpoint scale_of (k : nat) : float :=
  match k with O => f_of_Z 1 | S k => f_mul (scale_of k) (f_of_Z 10) end.

Lemma leadingFraction_digit c s x k d :
  digit c = Some d -> 0 <= x -> 0 <= d -> x * 10 + d < 2 ^ 62 ->
  leadingFraction (c :: s) x (scale_of k) false = leadingFraction s (x * 10 + d) (scale_of (S k)) false.
Proof.
  intros Hc Hx Hd Hy. cbn [leadingFraction]. rewrite Hc, uwrap_id by lia.
  replace (x >? (2 ^ 63 - 1) / 10) with false by zlia.
  replace (x * 10 + d >? 2 ^ 63) with false by lia. done.
Qed.

Lemma mod_pow10_succ v n :
  v mod 10 ^ Z.of_nat (S n) = (v / 10) mod 10 ^ Z.of_nat n * 10 + v mod 10.
Proof. rewrite Nat2Z.inj_succ, Z.pow_succ_r, Z.rem_mul_r by lia. lia. Qed.

Lemma div_pow10_succ v n : v / 10 ^ Z.of_nat (S n) = v / 10 / 10 ^ Z.of_nat n.
Proof. rewrite Nat2Z.inj_succ, Z.pow_succ_r, Z.div_div by lia. done. Qed.

Lemma pow10_pos n : 0 < 10 ^ Z.of_nat n.
Proof. apply Z.pow_pos_nonneg; lia. Qed.

(** The digits of [n] places after one that was printed. *)
Lemma fmtFrac_loop_on n : forall v buf, 0 <= v ->
  exists ds, fmtFrac_loop n v true buf = (ds ++ buf, v / 10 ^ Z.of_nat n, true)
    /\ length ds = n /\ Forall (fun c => 48 <= c <= 57) ds
    /\ (forall x k, 0 <= x -> (x + 1) * 10 ^ Z.of_nat n <= 2 ^ 62 ->
        leadingFraction (ds ++ buf) x (scale_of k) false
        = leadingFraction buf (x * 10 ^ Z.of_nat n + v mod 10 ^ Z.of_nat n) (scale_of (n + k)) false).
Proof.
  induction n as [|n IH]; intros v buf Hv.
  { exists []. cbn [fmtFrac_loop]. split_and!; [by rewrite Z.div_1_r|done..|].
    intros x k _ _. rewrite Z.mod_1_r. f_equal. lia. }
  cbn [fmtFrac_loop orb]. destruct (IH (v / 10) (v mod 10 + 48 :: buf)) as (ds & -> & Hl & Hds & Hf); [zlia|].
  exists (ds ++ [v mod 10 + 48]). rewrite <- app_assoc. cbn [app]. split_and!.
  - by rewrite div_pow10_succ.
  - rewrite length_app, Hl. cbn. lia.
  - apply Forall_app; split; [done|]. constructor; [zlia|constructor].
  - intros x k Hx Hb. pose proof (pow10_pos n) as H10. rewrite Nat2Z.inj_succ, Z.pow_succ_r in Hb by lia.
    pose proof (Z.mod_pos_bound (v / 10) (10 ^ Z.of_nat n) H10).
    rewrite Hf by nia. rewrite (leadingFraction_digit _ _ _ _ (v mod 10)); cycle 1.
    { rewrite Z.add_comm. apply digit_48. zlia. } { nia. } { zlia. } { zlia. }
    rewrite mod_pow10_succ, Nat2Z.inj_succ, Z.pow_succ_r by lia. f_equal; lia.
Qed.

(** All [n] places: nothing for a zero fraction, else the digits up to the last
    that is not zero. *)
Lemma fmtFrac_loop_off n : forall v buf, 0 <= v -> (n <= 18)%nat ->
  (v mod 10 ^ Z.of_nat n = 0 /\ fmtFrac_loop n v false buf = (buf, v / 10 ^ Z.of_nat n, false))
  \/ exists k ds w, (k < n)%nat /\ 0 < w < 10 ^ Z.of_nat (n - k) /\ v mod 10 ^ Z.of_nat n = w * 10 ^ Z.of_nat k
    /\ fmtFrac_loop n v false buf = (ds ++ buf, v / 10 ^ Z.of_nat n, true)
    /\ length ds = (n - k)%nat /\ Forall (fun c => 48 <= c <= 57) ds
    /\ leadingFraction (ds ++ buf) 0 (f_of_Z 1) false = leadingFraction buf w (scale_of (n - k)) false.
Proof.
  induction n as [|n IH]; intros v buf Hv Hn.
  { left. cbn. by rewrite Z.mod_1_r, Z.div_1_r. }
  cbn [fmtFrac_loop orb]. rewrite mod_pow10_succ, div_pow10_succ.
  destruct (Z.eqb_spec (v mod 10) 0) as [E|E]; cbn [negb].
  - destruct (IH (v / 10) buf) as [[E1 ->]|(k & ds & w & Hk & Hw & E1 & -> & Hr)]; [zlia|lia| |].
    + left. split; [lia|done].
    + right. exists (S k), ds, w. rewrite E1, Nat2Z.inj_succ, Z.pow_succ_r by lia. split_and!; first [lia | done | apply Hw | apply Hr].
  - right. destruct (fmtFrac_loop_on n (v / 10) (v mod 10 + 48 :: buf)) as (ds & -> & Hl & Hds & Hf); [zlia|].
    exists 0%nat, (ds ++ [v mod 10 + 48]), ((v / 10) mod 10 ^ Z.of_nat n * 10 + v mod 10).
    pose proof (pow10_pos n) as H10. pose proof (Z.mod_pos_bound (v / 10) (10 ^ Z.of_nat n) H10).
    rewrite Nat.sub_0_r, <- app_assoc, length_app, Hl. cbn [app length]. split_and!; try done; try lia; try zlia.
    + rewrite Nat2Z.inj_succ, Z.pow_succ_r by lia. zlia.
    + apply Forall_app; split; [done|]. constructor; [zlia|constructor].
    + assert (10 ^ Z.of_nat n <= 10 ^ 17) by (apply Z.pow_le_mono_r; lia).
      change (f_of_Z 1) with (scale_of 0). rewrite Hf by lia.
      rewrite (leadingFraction_digit _ _ _ _ (v mod 10)); cycle 1.
      { rewrite Z.add_comm. apply digit_48. zlia. } { lia. } { zlia. } { zlia. }
      rewrite Nat.add_0_r. f_equal.
Qed.

(** The unit over the scale is a power of ten, and the product is exact. *)
Lemma fraction_of_exact n k w :
  (n <= 9)%nat -> (k <= n)%nat -> 0 < w < 10 ^ Z.of_nat (n - k) ->
  fraction_of w (10 ^ Z.of_nat n) (scale_of (n - k)) = w * 10 ^ Z.of_nat k.
Proof.
  intros Hn Hk Hw. unfold fraction_of.
  assert (f_div (f_of_Z (10 ^ Z.of_nat n)) (scale_of (n - k)) = f_of_Z (10 ^ Z.of_nat k)) as ->.
  { do 10 (destruct n as [|n]; [do 10 (destruct k as [|k]; [first [lia | vm_compute; done]|]); lia|]). lia. }
  assert (w * 10 ^ Z.of_nat k < 10 ^ Z.of_nat n).
  { assert (10 ^ Z.of_nat n = 10 ^ Z.of_nat (n - k) * 10 ^ Z.of_nat k) as ->
      by (rewrite <- Z.pow_add_r by lia; f_equal; lia).
    pose proof (pow10_pos k). nia. }
  assert (10 ^ Z.of_nat n <= 10 ^ 9) by (apply Z.pow_le_mono_r; lia).
  pose proof (pow10_pos k). destruct w as [|a|a]; [lia| |lia].
  destruct (10 ^ Z.of_nat k) as [|b|b]; [lia| |lia]. rewrite f_mul_exact by lia. done.
Qed.

(** *** One number with its unit *)

(** The word [u] of a unit, and what follows it: nothing or another number. *)
Definition unit_word (u rest : list Z) (unit : Z) : Prop :=
  unit_lookup unitMap u = Some unit /\ leadingUnit (u ++ rest) = (u, rest).

Lemma unit_word_ne u rest unit : unit_word u rest unit -> exists c u', u = c :: u' /\ digit c = None /\ c <> c_dot.
Proof.
  intros [H1 H2]. destruct u as [|c u]; [done|]. exists c, u. split; [done|]. cbn in H2.
  destruct (Z.eqb_spec c c_dot); cbn [orb] in H2; [done|]. case_bool_decide as Hd; [done|].
  split; [|done]. destruct (digit c); [by destruct Hd|done].
Qed.

Lemma digit_not_dot c : 48 <= c <= 57 -> (c =? c_dot) = false.
Proof. unfold c_dot. lia. Qed.

(** Reading back the digits of [i]. *)
Lemma parse_item_int i u rest unit :
  unit_word u rest unit -> 0 < unit -> 0 <= i -> i * unit <= 2 ^ 63 ->
  parse_item (fmtInt (u ++ rest) i) = Ok (i * unit, rest).
Proof.
  intros Hu Hunit Hi Hb. destruct (unit_word_ne _ _ _ Hu) as (c & u' & -> & Hc & Hdot). destruct Hu as [Hl Hlead].
  assert (i <= 2 ^ 63 / unit) by (apply Z.div_le_lower_bound; lia).
  destruct (fmtInt_grows ((c :: u') ++ rest) i Hi) as (c0 & ds & E & Hds & _). unfold parse_item.
  rewrite leadingInt_fmtInt by nia. rewrite E. inversion_clear Hds as [|? ? Hc0 _].
  rewrite (digit_range c0 Hc0), (bool_decide_true (is_Some _)), orb_true_r by eauto. cbn [negb app leadingInt].
  rewrite Hc. cbn [app]. rewrite (proj2 (Z.eqb_neq _ _) Hdot).
  replace (length (c0 :: ds ++ c :: u' ++ rest) =? length (c :: u' ++ rest))%nat with false
    by (symmetry; apply Nat.eqb_neq; cbn [length]; rewrite !length_app; cbn [length]; rewrite !length_app; lia).
  cbn [negb andb]. cbn [app] in Hlead. rewrite Hlead. rewrite Hl.
  replace (i >? 2 ^ 63 / unit) with false by lia. replace (0 >? 0) with false by done. rewrite uwrap_id by lia. done.
Qed.

Lemma parse_item_frac i v n u rest :
  unit_word u rest (10 ^ Z.of_nat n) -> (n <= 9)%nat -> 0 <= v -> 0 <= i ->
  i * 10 ^ Z.of_nat n + v mod 10 ^ Z.of_nat n <= 2 ^ 63 ->
  parse_item (fmtInt (fmtFrac (u ++ rest) v n).1 i) = Ok (i * 10 ^ Z.of_nat n + v mod 10 ^ Z.of_nat n, rest).
Proof.
  intros Hu Hn Hv Hi Hb. pose proof (pow10_pos n) as H10. pose proof (Z.mod_pos_bound v _ H10) as Hm. unfold fmtFrac.
  destruct (fmtFrac_loop_off n v (u ++ rest)) as [[E ->]|(k & ds & w & Hk & Hw & E & -> & Hl & Hds & Hf)];
    [lia|lia|rewrite E, Z.add_0_r; cbn [fst]; apply parse_item_int; [done|lia..]|]. cbn [fst].
  assert (i <= 2 ^ 63 / 10 ^ Z.of_nat n) by (apply Z.div_le_lower_bound; lia).
  destruct (unit_word_ne _ _ _ Hu) as (c & u' & -> & Hc & Hdot). destruct Hu as [Hlk Hlead].
  destruct (fmtInt_grows (c_dot :: ds ++ (c :: u') ++ rest) i Hi) as (c0 & es & E0 & Hes & _). unfold parse_item.
  rewrite leadingInt_fmtInt by nia. rewrite E0. inversion_clear Hes as [|? ? Hc0 _].
  rewrite (digit_range c0 Hc0), (bool_decide_true (is_Some _)), orb_true_r by eauto. cbn [negb leadingInt].
  rewrite digit_dot. rewrite Z.eqb_refl, Hf. cbn [app leadingFraction]. rewrite Hc.
  replace (length (ds ++ c :: u' ++ rest) =? length (c :: u' ++ rest))%nat with false
    by (symmetry; apply Nat.eqb_neq; rewrite length_app; lia).
  cbn [negb]. rewrite andb_false_r. cbn [app] in Hlead. rewrite Hlead, Hlk.
  replace (i >? 2 ^ 63 / 10 ^ Z.of_nat n) with false by lia. replace (w >? 0) with true by lia.
  rewrite fraction_of_exact by lia. rewrite <- E, (uwrap_id 64 (i * _)), uwrap_id by lia.
  replace (i * 10 ^ Z.of_nat n + v mod 10 ^ Z.of_nat n >? 2 ^ 63) with false by lia. done.
Qed.

(** *** The loop *)

Lemma leadingInt_shorter s : forall x v r, leadingInt s x = Some (v, r) -> (length r <= length s)%nat.
Proof.
  induction s as [|c s IH]; intros x v r; cbn; [by intros [= <- <-]|].
  destruct (digit c); [|by intros [= <- <-]]. destruct (x >? _); [done|]. destruct (_ >? 2 ^ 63); [done|].
  intros H%IH. lia.
Qed.

Lemma leadingFraction_shorter s : forall x sc o, (length (leadingFraction s x sc o).2 <= length s)%nat.
Proof.
  induction s as [|c s IH]; intros x sc o; cbn; [done|]. destruct (digit c); [|done].
  destruct o; [|destruct (x >? _); [|destruct (_ >? 2 ^ 63)]]; etrans; [apply IH|lia|apply IH|lia|apply IH|lia|apply IH|lia].
Qed.

Lemma leadingUnit_app s : s = (leadingUnit s).1 ++ (leadingUnit s).2.
Proof.
  induction s as [|c s IH]; cbn; [done|]. destruct (_ || _); [done|].
  destruct (leadingUnit s) as [u r]. cbn in *. by f_equal.
Qed.

(** Every round consumes something. *)
Lemma parse_item_shorter s v r : parse_item s = Ok (v, r) -> (length r < length s)%nat.
Proof.
  unfold parse_item, invalid. intros H. if_split H.
  destruct (leadingInt s 0) as [[w s1]|] eqn:E1; [|done]. apply leadingInt_shorter in E1.
  set (X := match s1 with [] => _ | _ => _ end) in H.
  assert (HX : (length X.1.2 <= length s1)%nat).
  { subst X. destruct s1 as [|c s1]; [done|]. destruct (c =? c_dot); [|done].
    pose proof (leadingFraction_shorter s1 0 (f_of_Z 1) false) as Hf.
    destruct (leadingFraction s1 0 (f_of_Z 1) false) as [[f sc] s2]. cbn in *. lia. }
  destruct X as [[[f sc] s2] post]. cbn in HX. if_split H. pose proof (leadingUnit_app s2) as Hs2.
  destruct (leadingUnit s2) as [u s3]. cbn in Hs2. apply (f_equal length) in Hs2. rewrite length_app in Hs2.
  destruct u as [|c u]; [done|]. cbn in Hs2.
  destruct (unit_lookup unitMap (c :: u)); [|done]. if_split H. destruct (f >? 0).
  - if_split H. injection H as _ <-. lia.
  - injection H as _ <-. lia.
Qed.

(** More rounds than bytes change nothing: the fuel is never used up. *)
Lemma parse_loop_fuel f1 : forall f2 s d,
  (length s <= f1)%nat -> (length s <= f2)%nat -> parse_loop f1 s d = parse_loop f2 s d.
Proof.
  induction f1 as [|f1 IH]; intros [|f2] [|c s] d H1 H2; cbn in H1, H2; try done; try lia.
  cbn [parse_loop]. destruct (parse_item (c :: s)) as [[v r]|] eqn:E; [|done]. apply parse_item_shorter in E. cbn in E.
  destruct (_ >? _); [done|]. apply IH; lia.
Qed.

Lemma parse_loop_item s v r d :
  parse_item s = Ok (v, r) -> 0 <= d + v <= 2 ^ 63 ->
  parse_loop (length s) s d = parse_loop (length r) r (d + v).
Proof.
  intros H Hb. pose proof (parse_item_shorter _ _ _ H) as Hs. destruct s as [|c s]; [cbn in Hs; lia|].
  cbn [length parse_loop]. rewrite H, uwrap_id by lia. replace (d + v >? 2 ^ 63) with false by lia.
  cbn in Hs. apply parse_loop_fuel; lia.
Qed.

(** *** Whole durations *)

Lemma unit_word_end u unit : unit_lookup unitMap u = Some unit -> unit_word u [] unit.
Proof.
  intros H. split; [done|]. rewrite app_nil_r.
  assert (Hall : Forall (fun kv => leadingUnit kv.1 = (kv.1, [])) unitMap)
    by (repeat constructor).
  revert H Hall. generalize unitMap. induction l as [|[k v] l IH]; cbn; [done|].
  case_bool_decide as Hk; [|intros H Hall; inversion_clear Hall; auto].
  intros _ Hall. inversion_clear Hall as [|? ? Hd _]. by subst.
Qed.

Lemma unit_word_digit u unit c rest :
  unit_lookup unitMap u = Some unit -> 48 <= c <= 57 -> unit_word u (c :: rest) unit.
Proof.
  intros H Hc. destruct (unit_word_end u unit H) as [_ E]. split; [done|]. rewrite app_nil_r in E.
  revert E. clear H. induction u as [|x u IH]; cbn.
  { intros _. rewrite (digit_not_dot c Hc), (digit_range c Hc). by rewrite bool_decide_true by eauto. }
  destruct (_ || _); [done|]. destruct (leadingUnit u) as [a b]. intros [= <- ->]. rewrite IH by done. done.
Qed.

Lemma format_small_parses u :
  0 < u < Second -> parse_loop (length (format_small u)) (format_small u) 0 = Ok u.
Proof.
  intros Hu. unfold format_small.
  assert (Hgo : forall n sfx, (n <= 9)%nat -> unit_lookup unitMap sfx = Some (10 ^ Z.of_nat n) ->
    let '(buf, v) := fmtFrac sfx u n in parse_loop (length (fmtInt buf v)) (fmtInt buf v) 0 = Ok u).
  { intros n sfx Hn Hl. pose proof (pow10_pos n) as H10.
    assert (fmtFrac sfx u n = ((fmtFrac (sfx ++ []) u n).1, u / 10 ^ Z.of_nat n)) as ->.
    { rewrite app_nil_r. unfold fmtFrac. destruct (fmtFrac_loop_off n u sfx) as [[_ ->]|(? & ? & ? & _ & _ & _ & -> & _)]; [lia|lia|done..]. }
    pose proof (Z.div_mod u (10 ^ Z.of_nat n) ltac:(lia)) as Ed. pose proof (Z.mod_pos_bound u _ H10).
    assert (0 <= u / 10 ^ Z.of_nat n) by (apply Z.div_pos; lia).
    assert (Second <= 2 ^ 63) by done.
    rewrite (parse_loop_item _ (u / 10 ^ Z.of_nat n * 10 ^ Z.of_nat n + u mod 10 ^ Z.of_nat n) []); [cbn; f_equal; lia| |lia].
    apply parse_item_frac; [by apply unit_word_end|lia..]. }
  destruct (u <? Microsecond); [by apply (Hgo 0%nat [110; 115]); [lia|]|].
  destruct (u <? Millisecond); [by apply (Hgo 3%nat [194; 181; 115]); [lia|]|by apply (Hgo 6%nat [109; 115]); [lia|]].
Qed.

Lemma fmtFrac_whole buf v n : 0 <= v -> (n <= 18)%nat -> (fmtFrac buf v n).2 = v / 10 ^ Z.of_nat n.
Proof.
  intros. unfold fmtFrac. by destruct (fmtFrac_loop_off n v buf) as [[_ ->]|(? & ? & ? & _ & _ & _ & -> & _)].
Qed.

(** A number in front of text that starts with a digit. *)
Lemma parse_loop_before u unit buf i d :
  unit_lookup unitMap u = Some unit -> 0 < unit -> 0 <= i -> 0 <= d -> d + i * unit <= 2 ^ 63 ->
  (exists c s, buf = c :: s /\ 48 <= c <= 57) ->
  parse_loop (length (fmtInt (u ++ buf) i)) (fmtInt (u ++ buf) i) d = parse_loop (length buf) buf (d + i * unit).
Proof.
  intros Hl Hu Hi Hd Hb (c & s & -> & Hc). apply parse_loop_item; [|nia].
  apply parse_item_int; [by apply unit_word_digit|done|done|nia].
Qed.

Lemma fmtInt_starts buf i : 0 <= i -> exists c s, fmtInt buf i = c :: s /\ 48 <= c <= 57.
Proof.
  intros Hi. destruct (fmtInt_grows buf i Hi) as (c & ds & -> & Hds & _). inversion_clear Hds. eauto.
Qed.

Lemma format_large_parses u :
  Second <= u <= 2 ^ 63 -> parse_loop (length (format_large u)) (format_large u) 0 = Ok u.
Proof.
  intros Hu. unfold format_large. destruct (fmtFrac [115] u 9) as [buf w] eqn:E.
  assert (0 < Second) by done. assert (Hw : w = u / Second).
  { transitivity (fmtFrac [115] u 9).2; [by rewrite E|]. rewrite fmtFrac_whole by lia. done. }
  assert (Hbuf : buf = (fmtFrac ([115] ++ []) u 9).1) by (cbn [app]; by rewrite E). clear E.
  assert (Hend : forall d, 0 <= d -> d + (w mod 60 * Second + u mod Second) <= 2 ^ 63 ->
    parse_loop (length (fmtInt buf (w mod 60))) (fmtInt buf (w mod 60)) d = Ok (d + (w mod 60 * Second + u mod Second))).
  { intros d H0 Hd. rewrite (parse_loop_item _ (w mod 60 * Second + u mod Second) []); [done| |unfold Second, Millisecond in *; zlia].
    rewrite Hbuf. change Second with (10 ^ Z.of_nat 9) in *.
    apply parse_item_frac; [by apply unit_word_end|lia| |zlia|]; [change (10 ^ Z.of_nat 9) with 1000000000 in *; lia|].
    lia. }
  assert (Hs : forall i, 0 <= i -> exists c s, fmtInt buf i = c :: s /\ 48 <= c <= 57) by (intros; by apply fmtInt_starts).
  assert (Hu0 : u = w * 1000000000 + u mod Second /\ 0 <= w /\ 0 <= u mod Second < Second)
    by (rewrite Hw; unfold Second, Millisecond in *; zlia).
  clear Hbuf Hw. destruct (Z.gtb_spec (w / 60) 0) as [Hm|Hm].
  2:{ rewrite Hend by (change Second with 1000000000 in *; zlia). f_equal. change Second with 1000000000 in *. zlia. }
  change (109 :: fmtInt buf (w mod 60)) with ([109] ++ fmtInt buf (w mod 60)).
  change Second with 1000000000 in *.
  assert (Hmin : forall d, 0 <= d -> d + (w / 60 mod 60 * Minute + (w mod 60 * 1000000000 + u mod 1000000000)) <= 2 ^ 63 ->
    let buf := fmtInt ([109] ++ fmtInt buf (w mod 60)) (w / 60 mod 60) in
    parse_loop (length buf) buf d = Ok (d + (w / 60 mod 60 * Minute + (w mod 60 * 1000000000 + u mod 1000000000)))).
  { intros d H0 Hd. cbv zeta. change Minute with 60000000000 in *.
    rewrite (parse_loop_before [109] Minute); [|done|done|zlia|done|change Minute with 60000000000; zlia|apply Hs; zlia].
    change Minute with 60000000000. rewrite Hend by zlia. f_equal. lia. }
  destruct (Z.gtb_spec (w / 60 / 60) 0).
  2:{ rewrite Hmin by (change Minute with 60000000000; zlia). f_equal. change Minute with 60000000000. zlia. }
  change (104 :: ?b) with ([104] ++ b). change Minute with 60000000000 in *.
  rewrite (parse_loop_before [104] Hour);
    [|done|done|zlia|done|change Hour with 3600000000000; zlia|apply fmtInt_starts; zlia].
  change Hour with 3600000000000. rewrite Hmin by zlia. f_equal. zlia.
Qed.

(** The text of [u] nanoseconds, [u] positive: a digit, then more. *)
Definition format (u : Z) : list Z := if u <? Second then format_small u else format_large u.

Lemma fmtInt_two x buf i : 0 <= i -> exists c c' s, fmtInt (x :: buf) i = c :: c' :: s /\ 48 <= c <= 57.
Proof.
  intros Hi. destruct (fmtInt_grows (x :: buf) i Hi) as (c & ds & -> & Hds & _). inversion_clear Hds.
  destruct ds as [|c' ds]; cbn; eauto.
Qed.

Lemma fmtFrac_cons x buf v n : exists y b, (fmtFrac (x :: buf) v n).1 = y :: b.
Proof.
  unfold fmtFrac. assert (H : exists y b, (fmtFrac_loop n v false (x :: buf)).1.1 = y :: b).
  { generalize false. revert v x buf. induction n as [|n IH]; intros v x buf p; cbn; [eauto|].
    destruct (p || _); apply IH. }
  destruct (fmtFrac_loop n v false (x :: buf)) as [[b w] p]. cbn in *. destruct p; eauto.
Qed.

Lemma format_starts u : 0 < u -> exists c c' s, format u = c :: c' :: s /\ 48 <= c <= 57.
Proof.
  intros Hu. unfold format, format_small, format_large.
  assert (Hfr : forall x buf n, (n <= 9)%nat -> exists y b w, fmtFrac (x :: buf) u n = (y :: b, w) /\ 0 <= w).
  { intros x buf n Hn. destruct (fmtFrac_cons x buf u n) as (y & b & E). exists y, b, (fmtFrac (x :: buf) u n).2.
    split; [rewrite <- E; by destruct (fmtFrac _ _ _)|]. rewrite fmtFrac_whole by lia.
    apply Z.div_pos; [lia|apply pow10_pos]. }
  destruct (u <? Second).
  - destruct (u <? Microsecond); [|destruct (u <? Millisecond)];
      (edestruct Hfr as (y & b & w & -> & Hw); [|by apply fmtInt_two]); lia.
  - destruct (Hfr 115 [] 9%nat) as (y & b & w & -> & Hw); [lia|].
    destruct (w / 60 >? 0); [destruct (w / 60 / 60 >? 0) eqn:E|]; apply fmtInt_two; zlia.
Qed.

Lemma format_parses u : 0 < u <= 2 ^ 63 -> parse_loop (length (format u)) (format u) 0 = Ok u.
Proof.
  intros Hu. unfold format. destruct (Z.ltb_spec u Second).
  - apply format_small_parses. lia.
  - apply format_large_parses. lia.
Qed.

(** Every duration, the smallest [int64] included, is read back from its own
    text. *)
Lemma ParseDuration_String d :
  - 2 ^ 63 <= d < 2 ^ 63 -> ParseDuration (Duration_String d) = Ok d.
Proof.
  intros Hd. unfold Duration_String. destruct (Z.ltb_spec d 0) as [Hneg|Hpos].
  - assert (uwrap 64 (- uwrap 64 d) = - d) as ->.
    { unfold uwrap. change (2 ^ 64) with 18446744073709551616. zlia. }
    replace (- d =? 0) with false by lia. fold (format (- d)). unfold ParseDuration. cbn [Z.eqb Pos.eqb orb].
    destruct (format_starts (- d)) as (c & c' & s & E & Hc); [lia|].
    rewrite !bool_decide_false by (rewrite E; congruence). rewrite format_parses by lia.
    f_equal. unfold swrap64. change (2 ^ 64) with 18446744073709551616. change (2 ^ 63) with 9223372036854775808 in *. zlia.
  - rewrite uwrap_id by lia. destruct (Z.eqb_spec d 0) as [->|Hne]; [done|]. fold (format d). unfold ParseDuration.
    destruct (format_starts d) as (c & c' & s & E & Hc); [lia|].
    pose proof (format_parses d ltac:(lia)) as Hp. rewrite E in *.
    replace ((c =? 45) || (c =? 43)) with false by lia. cbv iota beta. rewrite !bool_decide_false by congruence.
    rewrite Hp. replace (d >? 2 ^ 63 - 1) with false by lia. rewrite swrap64_id by lia. done.
Qed.

(** Whatever the text, a parsed duration is an [int64]. *)
Lemma ParseDuration_range s d : ParseDuration s = Ok d -> - 2 ^ 63 <= d < 2 ^ 63.
Proof.
  unfold ParseDuration. destruct (match s with [] => _ | _ => _ end) as [neg r].
  case_bool_decide; [by intros [= <-]|]. case_bool_decide; [done|].
  destruct (parse_loop _ _ _) as [x|]; [|done].
  destruct neg; [|destruct (x >? _); [done|]]; intros [= <-]; apply swrap64_range.
Qed.

(** *** The buffer, and the characters *)

Lemma fmtInt_loop_length fuel : forall k v buf,
  v < 10 ^ Z.of_nat k -> (length (fmtInt_loop fuel v buf) <= k + length buf)%nat.
Proof.
  induction fuel as [|fuel IH]; intros k v buf Hk; cbn [fmtInt_loop]; [lia|].
  destruct (Z.gtb_spec v 0); [|lia]. destruct k as [|k]; [cbn in Hk; lia|].
  rewrite Nat2Z.inj_succ, Z.pow_succ_r in Hk by lia. etrans; [apply (IH k); zlia|cbn; lia].
Qed.

Lemma fmtInt_length k v buf :
  v < 10 ^ Z.of_nat k -> (0 < k)%nat -> (length (fmtInt buf v) <= k + length buf)%nat.
Proof.
  intros Hv Hk. unfold fmtInt. destruct (v =? 0); [cbn; lia|]. by apply fmtInt_loop_length.
Qed.

Lemma fmtFrac_length buf v n : 0 <= v -> (n <= 18)%nat -> (length (fmtFrac buf v n).1 <= 1 + n + length buf)%nat.
Proof.
  intros Hv Hn. unfold fmtFrac. destruct (fmtFrac_loop_off n v buf) as [[_ ->]|(k & ds & w & Hk & _ & _ & -> & Hl & _)];
    [done|done|cbn; lia|]. cbn. rewrite length_app. lia.
Qed.

(** Go writes the text into a [\[32\]byte], and an index outside it would panic. *)
Lemma format_length u : 0 < u <= 2 ^ 63 -> (length (format u) <= 31)%nat.
Proof.
  intros Hu. unfold format, format_small, format_large. destruct (Z.ltb_spec u Second) as [Hs|Hs].
  - assert (Hgo : forall n sfx, (n <= 9)%nat -> (length sfx <= 3)%nat ->
      (length (let '(buf, v) := fmtFrac sfx u n in fmtInt buf v) <= 31)%nat).
    { intros n sfx Hn Hl. pose proof (fmtFrac_length sfx u n ltac:(lia) ltac:(lia)) as H1.
      pose proof (fmtFrac_whole sfx u n ltac:(lia) ltac:(lia)) as H2. destruct (fmtFrac sfx u n) as [buf v]. cbn in *.
      assert (v <= u) by (subst v; apply Z.div_le_upper_bound; [apply pow10_pos|pose proof (pow10_pos n); nia]).
      pose proof (fmtInt_length 10 v buf ltac:(unfold Second, Millisecond in *; change (10 ^ Z.of_nat 10) with 10000000000; lia) ltac:(lia)). lia. }
    destruct (u <? Microsecond); [|destruct (u <? Millisecond)]; apply Hgo; cbn; lia.
  - pose proof (fmtFrac_length [115] u 9 ltac:(lia) ltac:(lia)) as H1.
    pose proof (fmtFrac_whole [115] u 9 ltac:(lia) ltac:(lia)) as H2. destruct (fmtFrac [115] u 9) as [buf w].
    cbn [fst snd length] in *. change (10 ^ Z.of_nat 9) with 1000000000 in H2.
    pose proof (fmtInt_length 2 (w mod 60) buf ltac:(change (10 ^ Z.of_nat 2) with 100; zlia) ltac:(lia)).
    destruct (_ >? 0); [|lia].
    pose proof (fmtInt_length 2 (w / 60 mod 60) (109 :: fmtInt buf (w mod 60))
      ltac:(change (10 ^ Z.of_nat 2) with 100; zlia) ltac:(lia)) as H3. cbn [length] in H3.
    destruct (_ >? 0); [|lia]. set (b := fmtInt (109 :: _) _) in *.
    pose proof (fmtInt_length 7 (w / 60 / 60) (104 :: b) ltac:(change (10 ^ Z.of_nat 7) with 10000000; zlia) ltac:(lia)) as H4.
    cbn [length] in H4. lia.
Qed.

Lemma plain_digits ds buf : Forall (fun c => 48 <= c <= 57) ds -> plain_text buf -> plain_text (ds ++ buf).
Proof. induction 1; [done|]. intros. cbn. constructor; [unfold plain_ascii; lia|auto]. Qed.

Lemma plain_fmtInt buf v : 0 <= v -> plain_text buf -> plain_text (fmtInt buf v).
Proof.
  intros Hv Hb. destruct (fmtInt_grows buf v Hv) as (c & ds & -> & Hds & _).
  change (c :: ds ++ buf) with ((c :: ds) ++ buf). by apply plain_digits.
Qed.

Lemma plain_fmtFrac buf v n : 0 <= v -> (n <= 18)%nat -> plain_text buf -> plain_text (fmtFrac buf v n).1.
Proof.
  intros Hv Hn Hb. unfold fmtFrac.
  destruct (fmtFrac_loop_off n v buf) as [[_ ->]|(k & ds & w & _ & _ & _ & -> & _ & Hds & _)]; [done|done|done|].
  cbn. constructor; [done|]. by apply plain_digits.
Qed.

Lemma plain_format u : 0 < u -> plain_text (format u).
Proof.
  intros Hu. unfold format, format_small, format_large. destruct (u <? Second).
  - assert (Hgo : forall n sfx, (n <= 9)%nat -> plain_text sfx ->
      plain_text (let '(buf, v) := fmtFrac sfx u n in fmtInt buf v)).
    { intros n sfx Hn Hl. pose proof (plain_fmtFrac sfx u n ltac:(lia) ltac:(lia) Hl) as H1.
      pose proof (fmtFrac_whole sfx u n ltac:(lia) ltac:(lia)) as H2. destruct (fmtFrac sfx u n) as [buf v]. cbn in *.
      apply plain_fmtInt; [|done]. subst v. apply Z.div_pos; [lia|apply pow10_pos]. }
    destruct (u <? Microsecond); [|destruct (u <? Millisecond)]; apply Hgo; try lia; by repeat constructor.
  - pose proof (plain_fmtFrac [115] u 9 ltac:(lia) ltac:(lia) ltac:(by repeat constructor)) as H1.
    pose proof (fmtFrac_whole [115] u 9 ltac:(lia) ltac:(lia)) as H2. destruct (fmtFrac [115] u 9) as [buf w]. cbn [fst snd] in *.
    assert (0 <= w) by (subst w; apply Z.div_pos; [lia|apply pow10_pos]).
    destruct (_ >? 0); [destruct (_ >? 0)|];
      repeat first [apply plain_fmtInt; [zlia|] | apply plain_char; [by repeat split|] | exact H1].
Qed.

Lemma Duration_String_text d :
  - 2 ^ 63 <= d < 2 ^ 63 -> plain_text (Duration_String d) /\ (length (Duration_String d) <= 32)%nat.
Proof.
  intros Hd. unfold Duration_String.
  assert (Hr : 0 <= (if d <? 0 then uwrap 64 (- uwrap 64 d) else uwrap 64 d) <= 2 ^ 63).
  { unfold uwrap. change (2 ^ 64) with 18446744073709551616. destruct (Z.ltb_spec d 0); zlia. }
  set (u := if d <? 0 then _ else _) in *. destruct (Z.eqb_spec u 0); [split; [by repeat constructor|cbn; lia]|].
  fold (format u). pose proof (plain_format u ltac:(lia)). pose proof (format_length u ltac:(lia)).
  destruct (d <? 0); [|split; [done|lia]]. split; [by apply plain_char|cbn; lia].
Qed.

(** ** Properties *)

(** C32.  A limit written to a file is the limit read from it: the JSON of any
    duration, from the smallest [int64] to the largest, fits Go's 32-byte buffer
    and is read back exactly, fractions included although they go through
    float64, by the control plane and by the agent alike. *)
Theorem duration_file_roundtrip `{JSONLaws} d :
  - 2 ^ 63 <= d < 2 ^ 63 ->
  exists b, marshalDuration d = Ok b /\ agent_MarshalJSON d = Ok b
    /\ unmarshalDuration b = Ok d /\ agent_UnmarshalJSON b = Ok d /\ (length (Duration_String d) <= 32)%nat.
Proof.
  intros Hd. destruct (Duration_String_text d Hd) as [Hp Hl].
  eexists. split; [done|]. split; [done|]. unfold unmarshalDuration, agent_UnmarshalJSON.
  by rewrite json_plain, ParseDuration_String.
Qed.

(** Whatever a file says, a duration that was accepted is an [int64], and text
    without a unit, other than a plain zero, is not accepted. *)
Lemma unmarshalDuration_sound `{JSONString} b d :
  unmarshalDuration b = Ok d ->
  - 2 ^ 63 <= d < 2 ^ 63 /\ exists s, json_string b = Ok s /\ ParseDuration s = Ok d.
Proof.
  unfold unmarshalDuration. destruct (json_string b) as [s|]; [|done].
  destruct (ParseDuration s) as [d'|] eqn:E; [|done]. intros [= <-]. eauto using ParseDuration_range.
Qed.

(** A negative limit in the policy file is accepted and lifts the limit: the
    rule then allows grants as long as the system allows at all. *)
Theorem negative_max_ttl :
  exists d r, ParseDuration (code "-5m") = Ok d /\ d < 0 /\ MaxTTL r = d /\ LoadRules_check [r] = Ok tt
    /\ Evaluate [r] "usr" "dev" "res" = mkDecision true MaxGrantTTL "pol" Proto.ReasonOK.
Proof.
  exists (- 300000000000), (mkRule "pol" ["usr"] ["dev"] ["res"] (- 300000000000) EffectAllow).
  split_and!; vm_compute; reflexivity.
Qed.

(** ** Witnesses *)

(** A JSON reader that takes the text between the quotes. *)
Definition demo_json : JSONString := fun b =>
  match b with
  | 34 :: s => match rev s with 34 :: s' => Ok (rev s') | _ => Err (EMsg "json") end
  | _ => Err (EMsg "json")
  end.

#[local] Instance demo_json_laws : @JSONLaws demo_json.
Proof. split. intros s _. unfold json_string, demo_json. rewrite rev_app_distr. cbn. by rewrite rev_involutive. Qed.

Lemma duration_file_roundtrip_witness :
  - 2 ^ 63 <= - 2 ^ 63 < 2 ^ 63
  /\ exists b, @marshalDuration (- 2 ^ 63) = Ok b /\ agent_MarshalJSON (- 2 ^ 63) = Ok b
    /\ @unmarshalDuration demo_json b = Ok (- 2 ^ 63) /\ @agent_UnmarshalJSON demo_json b = Ok (- 2 ^ 63)
    /\ (length (Duration_String (- 2 ^ 63)) <= 32)%nat.
Proof. split; [lia|]. apply (@duration_file_roundtrip demo_json demo_json_laws (- 2 ^ 63)). lia. Defined.
