(* ===== verification/Agent.v ===== *)
(** * The endpoint agent

    [src/internal/agent/agent.go] and [resources.go] (the local allowlist, and
    the enforcement point [handleStream]), with the inner session of
    [src/internal/e2ee/e2ee.go] the agent requires before it dials anything.

    What the outside world answers (the TLS handshake, the dial, the copying)
    is an argument; a run is the sequence of things the agent does to the
    stream, to the inner session and to the local service, oldest first. *)

From S2P Require Import Prelude GoErrors GoTime Proto Handshake Grant Proc Bridge Enrollment NetAddr.

(** ** resources.go *)

Record Resource := mkResource {
  rs_ResourceID : string;
  rs_Name : string;
  rs_Protocol : string;
  rs_Target : string;
  rs_MaxBytes : Z;              (* uint64 *)
  rs_MaxDuration : duration
}.

Abbreviation Allowlist := (gmap string Resource).

Definition validateResource (r : Resource) : res unit :=
  if bool_decide (rs_ResourceID r = "") then Err (EMsg "resource_id is required")
  else if negb (bool_decide (rs_Protocol r = "tcp")) then Err (EMsg "protocol is not supported")
  else
    match ValidateTarget (rs_Target r) with
    | Err e => Err e
    | Ok _ => if rs_MaxDuration r <? 0 then Err (EMsg "max_duration is negative") else Ok tt
    end.

(** The loop of [LoadAllowlist] over the declared resources. *)
Fixpoint load_loop (declared : list Resource) (l : Allowlist) : res Allowlist :=
  match declared with
  | [] => Ok l
  | r :: rest =>
      match validateResource r with
      | Err e => Err (EWrap "resource" e)
      | Ok _ =>
          match l !! rs_ResourceID r with
          | Some _ => Err (EMsg "resource is declared more than once")
          | None => load_loop rest (<[rs_ResourceID r := r]> l)
          end
      end
  end.

(** [LoadAllowlist] on the outcome of reading ([None]: unreadable) and parsing
    ([None]: not the expected JSON) the file. *)
Definition LoadAllowlist (file : option (option (list Resource))) : res Allowlist :=
  match file with
  | None => Err (EMsg "read resources")
  | Some None => Err (EMsg "parse resources")
  | Some (Some declared) =>
      match load_loop declared ∅ with
      | Err e => Err e
      | Ok l => if bool_decide (l = ∅) then Err (EMsg "declares no resources") else Ok l
      end
  end.

Definition Allowlist_Lookup (a : Allowlist) (resourceID : string) : res Resource :=
  match a !! resourceID with
  | None => Err (wrap ErrResourceUnknown resourceID)
  | Some r =>
      match ValidateTarget (rs_Target r) with
      | Err e => Err e
      | Ok _ => Ok r
      end
  end.

(** ** e2ee.go *)

Definition ALPN : string := "sar/e2ee/1".

Section E2EE.
(** [leaf.Verify]: does the chain lead to this deployment's authority, for the
    key usage asked for? *)
Context (chain_ok : Cert -> list Cert -> bool).

Definition verifyPeer (expect : Identity) (peer : list Cert) : res unit :=
  match peer with
  | [] => Err (wrap ErrPeerIdentity "peer presented no certificate")
  | leaf :: intermediates =>
      if negb (chain_ok leaf intermediates) then Err (wrap ErrPeerIdentity "chain")
      else
        match IdentityOf leaf with
        | Err _ => Err (wrap ErrPeerIdentity "identity")
        | Ok got =>
            if negb (bool_decide (got = expect)) then Err (wrap ErrPeerIdentity "presented, expected")
            else Ok tt
        end
  end.

(** What the TLS handshake comes to: it fails on its own (network, version,
    deadline), or it reaches [VerifyConnection] with the peer's certificates
    and, if that accepts, ends with a negotiated protocol. *)
Inductive tls_outcome :=
| TlsFails
| TlsPeer (certs : list Cert) (protocol : string).

(** [Client] and [Server] differ in the configuration they hand to the library
    only; both end in [finish]. *)
Definition finish (expect : Identity) (o : tls_outcome) : res Identity :=
  match o with
  | TlsFails => Err (wrap ErrHandshake "handshake")
  | TlsPeer certs protocol =>
      match verifyPeer expect certs with
      | Err e => Err (EWrap2 (ESentinel ErrHandshake) e)
      | Ok _ =>
          if negb (bool_decide (protocol = ALPN)) then Err (wrap ErrHandshake "negotiated")
          else Ok expect
      end
  end.

(** ** agent.go *)

Record Self := mkSelf {
  self_ID : Identity;
  self_GrantKey : list byte;
  self_ServerName : string
}.

Definition smallerLimit (a b : Z) : Z :=
  if a =? 0 then b else if b =? 0 then a else if a <? b then a else b.

(** [Agent.New]'s checks: every target loopback, a grant key present. *)
Definition agent_New (identity : option Self) (resources : Allowlist) : res unit :=
  match identity with
  | None => Err (EMsg "agent: not enrolled; run enroll first")
  | Some id =>
      if bool_decide (resources = ∅) then Err (EMsg "agent: no resources declared")
      else if negb (forallb (fun kv => match ValidateTarget (rs_Target kv.2) with
                                       | Ok _ => true | Err _ => false end) (map_to_list resources))
      then Err (wrap ErrTargetNotLoopback "resource")
      else if bool_decide (self_GrantKey id = []) then Err (EMsg "agent: no grant verification key")
      else Ok tt
  end.

(** [serverName]. *)
Definition agent_serverName (id : Self) (relayAddr : string) : list Z :=
  if negb (bool_decide (self_ServerName id = "")) then code (self_ServerName id)
  else match SplitHostPort (code relayAddr) with
       | Some (host, _) => host
       | None => code relayAddr
       end.

Inductive action :=
| AReset (r : reason)                                (* st.Reset *)
| AHandshake (expect : Identity) (deadline : time)   (* e2ee.Server under streamCtx *)
| ADial (target : string) (deadline : time)          (* the local service, under streamCtx *)
| AJoin (budget : Z)                                 (* bridge.JoinWithBudget *)
| ACloseTarget                                       (* target.Close by the expiry guard *)
| ACloseSecure                                       (* deferred secure.Close *)
| AEnd (r : reason).                                 (* the reason logged at the end *)

(** The dial: connected, refused, or stopped by its deadline. *)
Inductive dial_outcome := Dialled | DialFailed (deadline_exceeded : bool).

(** The end of [JoinWithBudget]: its error, whether the stream's deadline passed
    while it ran, and whether the agent itself was being stopped by then. *)
Record join_outcome := mkJoinOutcome {
  jo_err : option error;
  jo_deadline_exceeded : bool;
  jo_stopping : bool
}.

(** The stream's deadline: [clock 1] to [clock 4] are the readings of the clock,
    in the order the expression evaluates them. *)
Definition stream_deadline (g : SignedGrant) (r : Resource) (clock : nat -> time) : time :=
  let deadline := Add (clock 1%nat) (Remaining g (clock 2%nat)) in
  let d := rs_MaxDuration r in
  if (d >? 0) && Before (Add (clock 3%nat) d) deadline then Add (clock 4%nat) d else deadline.

(** The closing reason. *)
Definition close_reason (j : join_outcome) : reason :=
  if jo_deadline_exceeded j then ReasonGrantExpired
  else match jo_err j with
       | None => ReasonOK
       | Some e => if errors_Is e ErrBudgetExhausted then ReasonLimitBytesExceeded else ReasonShutdown
       end.

Definition handleStream `{Ed25519} (id : Self) (resources : Allowlist) (payload : list byte)
    (clock : nat -> time) (tls : tls_outcome) (dial : dial_outcome) (join : join_outcome) : list action :=
  if (length payload =? 0)%nat then [AReset ReasonPolicyDenied]
  else
    match DecodeGrant payload with
    | Err e => [AReset (ReasonForGrant (Some e))]
    | Ok grant =>
        match Verify grant (self_GrantKey id) (clock 0%nat) (id_ID (self_ID id)) with
        | Err e => [AReset (ReasonForGrant (Some e))]
        | Ok _ =>
            match Allowlist_Lookup resources (g_ResourceID grant) with
            | Err e =>
                [AReset (if errors_Is e ErrTargetNotLoopback then ReasonResourceTargetNotLoopback
                         else ReasonResourceUnknown)]
            | Ok resource =>
                let deadline := stream_deadline grant resource clock in
                let budget := smallerLimit (g_MaxBytes grant) (rs_MaxBytes resource) in
                let expect := mkIdentity Enrollment.RoleOperator (g_UserID grant) in
                AHandshake expect deadline ::
                match finish expect tls with
                | Err _ => [AReset ReasonAuthFailed]
                | Ok _ =>
                    ADial (rs_Target resource) deadline ::
                    match dial with
                    | DialFailed timeout =>
                        [AReset (if (timeout : bool) then ReasonTargetTimeout
                                 else ReasonTargetConnectionRefused); ACloseSecure]
                    | Dialled =>
                        [AJoin budget]
                        ++ (if jo_deadline_exceeded join && negb (jo_stopping join)
                            then [AReset ReasonGrantExpired; ACloseTarget] else [])
                        ++ [AEnd (close_reason join); ACloseSecure]
                    end
                end
            end
        end
    end.
End E2EE.

(** ** Lemmas *)

Lemma validateResource_Ok r :
  validateResource r = Ok tt <->
  rs_ResourceID r <> "" /\ rs_Protocol r = "tcp" /\ ValidateTarget (rs_Target r) = Ok tt
  /\ 0 <= rs_MaxDuration r.
Proof.
  unfold validateResource. destruct (bool_decide_reflect (rs_ResourceID r = "")); [naive_solver|].
  destruct (bool_decide_reflect (rs_Protocol r = "tcp")); cbn [negb]; [|naive_solver].
  destruct (ValidateTarget (rs_Target r)) as [[]|]; [|split; [done | by intros (_ & _ & ? & _)]].
  destruct (Z.ltb_spec (rs_MaxDuration r) 0); [|naive_solver]. split; [done|]. intros (_ & _ & _ & ?). lia.
Qed.

Lemma load_loop_spec declared l l' :
  load_loop declared l = Ok l' ->
  Forall (fun r => validateResource r = Ok tt) declared
  /\ NoDup (rs_ResourceID <$> declared)
  /\ (forall id r, l' !! id = Some r <-> l !! id = Some r \/ r ∈ declared /\ rs_ResourceID r = id)
  /\ (forall r, r ∈ declared -> l !! rs_ResourceID r = None).
Proof.
  revert l. induction declared as [|r rest IH]; intros l; cbn [load_loop].
  { intros [= <-]. split_and!; [constructor..| |]; set_solver. }
  destruct (validateResource r) as [[]|] eqn:Ev; [|done].
  destruct (l !! rs_ResourceID r) eqn:El; [done|]. intros (H1 & H2 & H3 & H4)%IH.
  assert (rs_ResourceID r ∉ rs_ResourceID <$> rest) as Hnew.
  { intros (r2 & E & Hr2)%list_elem_of_fmap. specialize (H4 r2 Hr2).
    rewrite <- E, lookup_insert_eq in H4. done. }
  split_and!.
  - by constructor.
  - by constructor.
  - intros id r2. rewrite H3, lookup_insert_Some, elem_of_cons.
    split; [intros [[[<- <-]|[Hn ?]]|[??]]; auto|].
    intros [Hl|[[->|?] <-]]; auto. destruct (decide (rs_ResourceID r = id)) as [<-|]; [congruence|auto].
  - intros r2 [->|Hr2]%elem_of_cons; [done|]. specialize (H4 r2 Hr2).
    rewrite lookup_insert_None in H4. tauto.
Qed.

Lemma smallerLimit_spec a b :
  0 <= a -> 0 <= b ->
  (smallerLimit a b = 0 <-> a = 0 /\ b = 0)
  /\ (a <> 0 -> smallerLimit a b <= a) /\ (b <> 0 -> smallerLimit a b <= b)
  /\ (smallerLimit a b = a \/ smallerLimit a b = b).
Proof. intros. unfold smallerLimit. cases; lia. Qed.

Lemma Lookup_Ok a id r :
  Allowlist_Lookup a id = Ok r <-> a !! id = Some r /\ ValidateTarget (rs_Target r) = Ok tt.
Proof.
  unfold Allowlist_Lookup. destruct (a !! id) as [r0|] eqn:E; [|naive_solver].
  destruct (ValidateTarget (rs_Target r0)) as [[]|e] eqn:Ev.
  - split; [by intros [= <-] | by intros [[= <-] _]].
  - split; [done|]. intros [[= <-] Hv]. by rewrite Ev in Hv.
Qed.

Lemma finish_Ok chain_ok expect o p :
  finish chain_ok expect o = Ok p <->
  p = expect /\ exists leaf rest, o = TlsPeer (leaf :: rest) ALPN
    /\ chain_ok leaf rest = true /\ IdentityOf leaf = Ok expect.
Proof.
  unfold finish, verifyPeer. destruct o as [|certs proto]; [split; [done | by intros (_ & ? & ? & [=] & _)]|].
  destruct certs as [|leaf rest]; [split; [done | by intros (_ & ? & ? & [=] & _)]|].
  split.
  - destruct (chain_ok leaf rest) eqn:Ec; cbn [negb]; [|done].
    destruct (IdentityOf leaf) as [got|] eqn:Ei; [|done].
    case_bool_decide as Hg; cbn [negb]; [|done]. case_bool_decide as Hp; cbn [negb]; [|done].
    intros [= <-]. subst. split; [done|]. eauto 10.
  - intros (-> & ? & ? & [= <- <- ->] & Hc & Hi). rewrite Hc, Hi. cbn [negb].
    by rewrite !bool_decide_eq_true_2.
Qed.

Lemma Remaining_le g t :
  0 <= Remaining g t /\ (Remaining g t = 0 \/ Remaining g t <= g_ExpiresAt g - t).
Proof. unfold Remaining, Sub. cases; lia. Qed.

(** The checks a stream has passed by the time the local service is dialled. *)
Definition authorized `{Ed25519} (chain_ok : Cert -> list Cert -> bool) (id : Self) (resources : Allowlist)
    (payload : list byte) (now : time) (tls : tls_outcome) (g : SignedGrant) (r : Resource) : Prop :=
  DecodeGrant payload = Ok g
  /\ Verify g (self_GrantKey id) now (id_ID (self_ID id)) = Ok tt
  /\ resources !! g_ResourceID g = Some r /\ ValidateTarget (rs_Target r) = Ok tt
  /\ exists leaf rest, tls = TlsPeer (leaf :: rest) ALPN /\ chain_ok leaf rest = true
     /\ IdentityOf leaf = Ok (mkIdentity Enrollment.RoleOperator (g_UserID g)).

Section HandleStream.
Context `{Ed : Ed25519} (chain_ok : Cert -> list Cert -> bool).

(** A run either refuses, possibly after the handshake, or has passed every
    check. *)
Lemma handleStream_cases id resources payload clock tls dial join :
  let t := handleStream chain_ok id resources payload clock tls dial join in
  (exists x, t = [AReset x]) \/ (exists e dl x, t = [AHandshake e dl; AReset x])
  \/ exists g r, authorized chain_ok id resources payload (clock 0%nat) tls g r
     /\ t = AHandshake (mkIdentity Enrollment.RoleOperator (g_UserID g)) (stream_deadline g r clock)
            :: ADial (rs_Target r) (stream_deadline g r clock)
            :: match dial with
               | DialFailed timeout =>
                   [AReset (if timeout : bool then ReasonTargetTimeout else ReasonTargetConnectionRefused);
                    ACloseSecure]
               | Dialled =>
                   [AJoin (smallerLimit (g_MaxBytes g) (rs_MaxBytes r))]
                   ++ (if jo_deadline_exceeded join && negb (jo_stopping join)
                       then [AReset ReasonGrantExpired; ACloseTarget] else [])
                   ++ [AEnd (close_reason join); ACloseSecure]
               end.
Proof.
  cbv zeta. unfold handleStream. destruct (_ =? _)%nat; [eauto|].
  destruct (DecodeGrant payload) as [g|] eqn:Ed0; [|eauto].
  destruct (Verify g _ _ _) as [[]|] eqn:Ev; [|eauto].
  destruct (Allowlist_Lookup _ _) as [r|] eqn:El; [|eauto].
  apply Lookup_Ok in El as [El Et].
  destruct (finish _ _ _) as [p|] eqn:Ef; [|eauto 10].
  apply finish_Ok in Ef as (_ & leaf & rest & -> & Hc & Hi).
  right. right. exists g, r. unfold authorized. split_and!; eauto 10.
Qed.

(** What a run that dials has checked. *)
Lemma handleStream_dials id resources payload clock tls dial join target dl :
  ADial target dl ∈ handleStream chain_ok id resources payload clock tls dial join ->
  exists g r, authorized chain_ok id resources payload (clock 0%nat) tls g r /\ target = rs_Target r.
Proof.
  destruct (handleStream_cases id resources payload clock tls dial join)
    as [[x ->]|[(e & d & x & ->)|(g & r & Ha & ->)]]; [set_solver..|].
  intros [?|[[= -> _]|H]%elem_of_cons]%elem_of_cons; [done|eauto|].
  exfalso. destruct dial as [|[]]; [|set_solver..]. destruct (_ && _) in H; set_solver.
Qed.

(** C3.  Nothing reaches a local service unless the agent itself has checked
    everything: whenever a run dials, the grant decodes from the bytes
    presented and verifies against the key the agent enrolled with, for this
    device, now; the address dialled is the one its own allowlist has for the
    resource the grant names, and is loopback; and the peer has proved, through
    the relay, to be the operator the grant names. *)
Theorem handleStream_authorized id resources payload clock tls dial join target dl :
  ADial target dl ∈ handleStream chain_ok id resources payload clock tls dial join ->
  exists g r, authorized chain_ok id resources payload (clock 0%nat) tls g r /\ target = rs_Target r.
Proof. apply handleStream_dials. Qed.


(** The byte limits hold on the wire: when a run copies, the bridge is given
    the stricter of the grant's and the resource's non-zero limits, and then,
    whatever the two ends send and however the two copying goroutines
    interleave, no more bytes than either limit are delivered in total. *)
Theorem handleStream_budget id resources payload clock tls dial join b :
  AJoin b ∈ handleStream chain_ok id resources payload clock tls dial join ->
  exists g r, DecodeGrant payload = Ok g /\ resources !! g_ResourceID g = Some r
    /\ b = smallerLimit (g_MaxBytes g) (rs_MaxBytes r)
    /\ forall canReset canCloseWrite scripts s ps limit,
         0 <= g_MaxBytes g -> 0 <= rs_MaxBytes r -> 0 < limit ->
         limit = g_MaxBytes g \/ limit = rs_MaxBytes r ->
         (forall x, Forall foreign (scripts x)) ->
         rtc (pool_step (fun _ => False))
           (init, [direction b canReset canCloseWrite B (scripts B);
                   direction b canReset canCloseWrite A (scripts A)]) (s, ps) ->
         zlen (to s A) + zlen (to s B) <= limit.
Proof.
  intros HJ. destruct (handleStream_cases id resources payload clock tls dial join)
    as [[x E]|[(e & d & x & E)|(g & r & (H1 & _ & H3 & _) & E)]]; rewrite E in HJ; [set_solver..|].
  exists g, r. assert (b = smallerLimit (g_MaxBytes g) (rs_MaxBytes r)) as ->.
  { apply elem_of_cons in HJ as [?|[?|H]%elem_of_cons]; [done..|].
    destruct dial as [|[]]; [|set_solver..].
    apply elem_of_app in H as [H%list_elem_of_singleton|H]; [by injection H|].
    destruct (_ && _) in H; set_solver. }
  split_and!; [done..|]. intros canReset canCloseWrite scripts s ps limit Hg Hr Hl Hor Hf Hrun.
  destruct (smallerLimit_spec (g_MaxBytes g) (rs_MaxBytes r) Hg Hr) as (Hz & Ha & Hb & Hv).
  assert (0 < smallerLimit (g_MaxBytes g) (rs_MaxBytes r)) as Hpos by lia.
  pose proof (budget_total _ _ _ _ _ _ Hpos Hf Hrun) as Ht. lia.
Qed.

(** The skew tolerance does not extend access at the agent: a grant that
    expired by the agent's clock, but is still within the tolerance and so
    verifies, gets a deadline that has already passed; since a handshake under
    a past deadline fails, the stream is refused as an authentication failure
    and nothing is dialled. *)
Theorem skew_window_refused id resources payload clock tls dial join g r :
  DecodeGrant payload = Ok g ->
  Verify g (self_GrantKey id) (clock 0%nat) (id_ID (self_ID id)) = Ok tt ->
  Allowlist_Lookup resources (g_ResourceID g) = Ok r ->
  (forall i j, (i <= j)%nat -> clock i <= clock j) ->
  clock_ok (clock 0%nat) -> clock_ok (clock 4%nat) -> rs_MaxDuration r < 2 ^ 61 * Second ->
  g_ExpiresAt g <= clock 0%nat ->
  (stream_deadline g r clock <= clock 4%nat -> tls = TlsFails) ->
  handleStream chain_ok id resources payload clock tls dial join
  = [AHandshake (mkIdentity Enrollment.RoleOperator (g_UserID g)) (clock 1%nat); AReset ReasonAuthFailed].
Proof.
  intros Hd Hv Hl Hm Hc0 Hc4 Hmax He Htls.
  pose proof (Hm 0 1 ltac:(lia))%nat. pose proof (Hm 1 2 ltac:(lia))%nat.
  pose proof (Hm 1 3 ltac:(lia))%nat. pose proof (Hm 3 4 ltac:(lia))%nat.
  assert (stream_deadline g r clock = clock 1%nat) as Edl.
  { pose proof (Remaining_le g (clock 2%nat)) as HR.
    assert (Remaining g (clock 2%nat) = 0) as HR0 by lia. unfold stream_deadline. rewrite HR0.
    unfold clock_ok in *.
    rewrite (Add_clock (clock 1%nat) 0) by (unfold clock_ok, Second, Millisecond in *; lia).
    unfold Before. cbv zeta. destruct (Z.gtb_spec (rs_MaxDuration r) 0); cbn [andb]; [|lia].
    rewrite !Add_clock by (unfold clock_ok; lia). cases; lia. }
  unfold handleStream. destruct (Nat.eqb_spec (length payload) 0) as [Hz|_].
  { apply nil_length_inv in Hz. subst payload. done. }
  rewrite Hd, Hv, Hl, Edl, (Htls ltac:(lia)). done.
Qed.
End HandleStream.

(** The allowlist is exactly what was declared: loading succeeds only when
    every resource is valid (an identifier, TCP, a literal loopback target, no
    negative duration) and no identifier is declared twice, and then each
    identifier resolves to the one resource declared under it. *)
Theorem LoadAllowlist_spec declared l :
  LoadAllowlist (Some (Some declared)) = Ok l ->
  declared <> [] /\ Forall (fun r => validateResource r = Ok tt) declared
  /\ NoDup (rs_ResourceID <$> declared)
  /\ (forall r, r ∈ declared -> Allowlist_Lookup l (rs_ResourceID r) = Ok r)
  /\ (forall id r, Allowlist_Lookup l id = Ok r -> r ∈ declared /\ rs_ResourceID r = id).
Proof.
  unfold LoadAllowlist. destruct (load_loop declared ∅) as [l0|] eqn:EL; [|done].
  case_bool_decide as Hne; [done|]. intros [= <-].
  destruct (load_loop_spec _ _ _ EL) as (H1 & H2 & H3 & _).
  split_and!; auto.
  - intros ->. injection EL as <-. done.
  - intros r Hr. apply Lookup_Ok. split; [apply H3; auto|].
    rewrite Forall_forall in H1. by apply validateResource_Ok, H1.
  - intros id r [Hr _]%Lookup_Ok. apply H3 in Hr as [Hr|?]; [|done].
    by rewrite lookup_empty in Hr.
Qed.

(** ** Witnesses *)

Definition ag_self : Self := mkSelf (mkIdentity RoleDevice "dev_panel_01") demo_key "".
Definition ag_resource : Resource := mkResource "res_diag" "diag" "tcp" "127.0.0.1:8080" 100 (10 * Minute).
Definition ag_allow : Allowlist := {[ "res_diag" := ag_resource ]}.
Definition ag_payload : list byte := Encode demo_signed.
Definition ag_clock (n : nat) : time := Unix 1700000600 + Z.of_nat n.
Definition ag_late (n : nat) : time := Unix 1700001215 + Z.of_nat n.
Definition ag_peer : tls_outcome :=
  TlsPeer [mkCert [Identity_URI (mkIdentity Enrollment.RoleOperator "usr_maria")] 1 0 0 false] ALPN.
Definition ag_chain (leaf : Cert) (rest : list Cert) : bool := true.
Definition ag_join : join_outcome := mkJoinOutcome None false false.

Definition ag_run : list action :=
  @handleStream ag_chain toy_ed ag_self ag_allow ag_payload ag_clock ag_peer Dialled ag_join.

Definition ag_deadline : time := stream_deadline demo_signed ag_resource ag_clock.

Lemma ag_run_dials : ADial "127.0.0.1:8080" ag_deadline ∈ ag_run /\ AJoin 100 ∈ ag_run.
Proof.
  assert (ag_run = [AHandshake (mkIdentity Enrollment.RoleOperator "usr_maria") ag_deadline;
    ADial "127.0.0.1:8080" ag_deadline; AJoin 100; AEnd ReasonOK; ACloseSecure]) as ->
    by (vm_compute; reflexivity).
  set_solver.
Qed.

Lemma handleStream_authorized_witness :
  exists g r, @authorized toy_ed ag_chain ag_self ag_allow ag_payload (ag_clock 0) ag_peer g r
    /\ "127.0.0.1:8080" = rs_Target r.
Proof.
  exact (@handleStream_authorized toy_ed ag_chain ag_self ag_allow ag_payload ag_clock ag_peer Dialled
    ag_join "127.0.0.1:8080" ag_deadline (proj1 ag_run_dials)).
Defined.

Lemma ag_clock_mono i j : (i <= j)%nat -> ag_clock i <= ag_clock j.
Proof. unfold ag_clock. lia. Qed.

Lemma ag_late_mono i j : (i <= j)%nat -> ag_late i <= ag_late j.
Proof. unfold ag_late. lia. Qed.


Lemma handleStream_budget_witness :
  exists g r, DecodeGrant ag_payload = Ok g /\ ag_allow !! g_ResourceID g = Some r
    /\ 100 = smallerLimit (g_MaxBytes g) (rs_MaxBytes r).
Proof.
  destruct (@handleStream_budget toy_ed ag_chain ag_self ag_allow ag_payload ag_clock ag_peer Dialled
    ag_join 100 (proj2 ag_run_dials)) as (g & r & H1 & H2 & H3 & _).
  exists g, r. split; [exact H1|]. split; [exact H2 | exact H3].
Defined.

Lemma skew_window_refused_witness :
  @handleStream ag_chain toy_ed ag_self ag_allow ag_payload ag_late TlsFails Dialled ag_join
  = [AHandshake (mkIdentity Enrollment.RoleOperator "usr_maria") (ag_late 1); AReset ReasonAuthFailed].
Proof.
  apply (@skew_window_refused toy_ed ag_chain ag_self ag_allow ag_payload ag_late TlsFails Dialled ag_join
           demo_signed ag_resource); try exact ag_late_mono; try (intros; reflexivity);
    try (vm_compute; reflexivity); vm_compute; intuition congruence.
Defined.

Lemma LoadAllowlist_spec_witness :
  exists l, LoadAllowlist (Some (Some [ag_resource])) = Ok l
    /\ Allowlist_Lookup l "res_diag" = Ok ag_resource.
Proof.
  assert (LoadAllowlist (Some (Some [ag_resource])) = Ok ag_allow) as E by (vm_compute; reflexivity).
  exists ag_allow. split; [exact E|].
  destruct (LoadAllowlist_spec [ag_resource] ag_allow E) as (_ & _ & _ & H & _).
  exact (H ag_resource (list_elem_of_here _ _)).
Defined.
