(* ===== verification/Transport.v ===== *)
(** * Connections

    [src/internal/transport]: TLS configurations and handshakes (tls.go), the
    framed connection with its draining close and its cancellation (conn.go),
    and [deadlineGuard] of [src/internal/mux/session.go], which bounds a
    handshake with them.

    Of crypto/tls the model has what the program relies on: given a
    configuration and what the far end offers, a handshake completes exactly
    when the version, the application protocol, the certificates, the proof that
    the peer holds the key of its leaf, and the [VerifyConnection] callback all
    pass.  Chain verification is crypto/x509's and stays a parameter. *)

From S2P Require Import Prelude GoErrors GoTime Proc Enrollment.
Open Scope proc_scope.

(** ** crypto/tls *)

Inductive ExtKeyUsage := ExtKeyUsageServerAuth | ExtKeyUsageClientAuth.

Inductive ClientAuthType :=
| NoClientCert
| RequestClientCert
| RequireAnyClientCert
| VerifyClientCertIfGiven
| RequireAndVerifyClientCert.

Definition VersionTLS12 : Z := 771.
Definition VersionTLS13 : Z := 772.

(** [leaf.Verify]: does the chain lead to a root of the pool, for this usage and,
    when a name is given, for this host? *)
Class ChainVerify := {
  Pool : Type;
  chain_Verify : Pool -> ExtKeyUsage -> option (list Z) -> Cert -> list Cert -> bool
}.

Section TLS.
Context `{ChainVerify}.

Record ConnectionState := mkState {
  cs_Version : Z;
  cs_PeerCertificates : list Cert;
  cs_NegotiatedProtocol : string
}.

(** [tls.Config], the fields the program sets; the certificate presented is the
    leaf first. *)
Record tls_Config := mkTLS {
  t_Certificate : list Cert;
  t_MinVersion : Z;
  t_NextProtos : list string;
  t_ClientAuth : ClientAuthType;
  t_ClientCAs : option Pool;
  t_RootCAs : option Pool;
  t_ServerName : list Z;
  t_InsecureSkipVerify : bool;
  t_VerifyConnection : option (ConnectionState -> res unit)
}.

(** What the far end brings. *)
Record tls_peer := mkPeer {
  tp_Version : Z;              (* the newest version it speaks *)
  tp_Protos : list string;
  tp_Certs : list Cert;
  tp_HoldsKey : bool           (* it can sign with the key of its leaf *)
}.

(** [negotiateALPN] on the server: the first of its own protocols that the
    client offers; no protocol when either side has no preference. *)
Fixpoint first_common (mine theirs : list string) : option string :=
  match mine with
  | [] => None
  | p :: mine' => if bool_decide (p ∈ theirs) then Some p else first_common mine' theirs
  end.

Definition server_alpn (mine theirs : list string) : option string :=
  match mine, theirs with
  | [], _ | _, [] => Some ""
  | _, _ => first_common mine theirs
  end.

(** The client learns the server's choice, or that it made none. *)
Definition client_alpn (mine theirs : list string) : option string :=
  match mine, theirs with
  | [], _ | _, [] => Some ""
  | _, _ => first_common theirs mine
  end.

Definition verified (roots : option Pool) (usage : ExtKeyUsage) (name : option (list Z)) (certs : list Cert) : bool :=
  match roots, certs with
  | Some r, leaf :: inter => chain_Verify r usage name leaf inter
  | _, _ => false
  end.

(** The certificates of a client, under the server's [ClientAuth]. *)
Definition client_certs_ok (cfg : tls_Config) (certs : list Cert) : bool :=
  match t_ClientAuth cfg with
  | NoClientCert | RequestClientCert => true
  | RequireAnyClientCert => negb (bool_decide (certs = []))
  | VerifyClientCertIfGiven =>
      bool_decide (certs = []) || verified (t_ClientCAs cfg) ExtKeyUsageClientAuth None certs
  | RequireAndVerifyClientCert => verified (t_ClientCAs cfg) ExtKeyUsageClientAuth None certs
  end.

Definition server_certs_ok (cfg : tls_Config) (certs : list Cert) : bool :=
  negb (bool_decide (certs = []))
  && (t_InsecureSkipVerify cfg
      || verified (t_RootCAs cfg) ExtKeyUsageServerAuth (Some (t_ServerName cfg)) certs).

(** The end of a handshake of either side. *)
Definition tls_finish (cfg : tls_Config) (certs_ok : list Cert -> bool) (certs : list Cert)
    (alpn : option string) (p : tls_peer) : res ConnectionState :=
  if tp_Version p <? t_MinVersion cfg then Err (EMsg "tls: protocol version not supported")
  else
    match alpn with
    | None => Err (EMsg "tls: no application protocol")
    | Some proto =>
        if negb (certs_ok certs) then Err (EMsg "tls: bad certificate")
        else if negb (bool_decide (certs = [])) && negb (tp_HoldsKey p) then Err (EMsg "tls: invalid signature")
        else
          let st := mkState (Z.min VersionTLS13 (tp_Version p)) certs proto in
          match t_VerifyConnection cfg with
          | None => Ok st
          | Some f => match f st with Err e => Err e | Ok _ => Ok st end
          end
    end.

(** A server asks for a certificate unless it is configured not to. *)
Definition tls_Server (cfg : tls_Config) (p : tls_peer) : res ConnectionState :=
  tls_finish cfg (client_certs_ok cfg)
    (match t_ClientAuth cfg with NoClientCert => [] | _ => tp_Certs p end)
    (server_alpn (t_NextProtos cfg) (tp_Protos p)) p.

Definition tls_Client (cfg : tls_Config) (p : tls_peer) : res ConnectionState :=
  tls_finish cfg (server_certs_ok cfg) (tp_Certs p) (client_alpn (t_NextProtos cfg) (tp_Protos p)) p.

(** ** tls.go *)

Definition MinTLSVersion : Z := VersionTLS13.

Definition ServerTLS (cert : list Cert) (clientCAs : Pool) : tls_Config :=
  mkTLS cert MinTLSVersion [] RequireAndVerifyClientCert (Some clientCAs) None [] false None.

Definition ClientTLS (cert : list Cert) (roots : Pool) (serverName : list Z) : tls_Config :=
  mkTLS cert MinTLSVersion [] NoClientCert None (Some roots) serverName false None.

(** A [net.Conn]: plain, or TLS with the state of its handshake. *)
Inductive net_Conn :=
| PlainConn
| TLSConn (state : option ConnectionState).

(** [DialTLS]: [dialled] is the error of the TCP connection, or the server that
    answered. *)
Definition DialTLS (cfg : tls_Config) (dialled : res tls_peer) : res net_Conn :=
  match dialled with
  | Err e => Err (EWrap "tls dial" e)
  | Ok server =>
      match tls_Client cfg server with
      | Err e => Err (EWrap "tls dial" e)
      | Ok st => Ok (TLSConn (Some st))
      end
  end.

(** [CompleteHandshake] on an accepted connection; [client] is what the far end
    does before the deadline, or the error of the deadline or the network. *)
Definition CompleteHandshake (cfg : tls_Config) (c : net_Conn) (client : res tls_peer) : res unit * net_Conn :=
  match c with
  | PlainConn => (Err (EMsg "transport: connection is not TLS"), c)
  | TLSConn (Some _) => (Ok tt, c)
  | TLSConn None =>
      match client with
      | Err e => (Err (EWrap "tls handshake" e), c)
      | Ok p =>
          match tls_Server cfg p with
          | Err e => (Err (EWrap "tls handshake" e), c)
          | Ok st => (Ok tt, TLSConn (Some st))
          end
      end
  end.

Definition PeerCertificate (c : net_Conn) : res Cert :=
  match c with
  | PlainConn => Err (EMsg "transport: connection is not TLS")
  | TLSConn st =>
      match (match st with Some s => cs_PeerCertificates s | None => [] end) with
      | [] => Err (EMsg "transport: peer presented no certificate")
      | leaf :: _ => Ok leaf
      end
  end.

(** The first steps of the relay's [serve]: the peer certificate of a completed
    handshake. *)
Definition serve_tls (cfg : tls_Config) (client : res tls_peer) : res Cert :=
  match CompleteHandshake cfg (TLSConn None) client with
  | (Err e, _) => Err e
  | (Ok _, c) => PeerCertificate c
  end.

(** ** Lemmas *)

Lemma tls_finish_Ok cfg ok certs alpn p st :
  tls_finish cfg ok certs alpn p = Ok st ->
  t_MinVersion cfg <= tp_Version p /\ ok certs = true /\ (certs <> [] -> tp_HoldsKey p = true)
  /\ alpn = Some (cs_NegotiatedProtocol st) /\ cs_PeerCertificates st = certs
  /\ cs_Version st = Z.min VersionTLS13 (tp_Version p)
  /\ (forall f, t_VerifyConnection cfg = Some f -> f st = Ok tt).
Proof.
  unfold tls_finish. destruct (Z.ltb_spec (tp_Version p) (t_MinVersion cfg)); [done|]. destruct alpn as [pr|]; [|done].
  destruct (ok certs) eqn:Ec; cbn [negb]; [|done].
  destruct (bool_decide_reflect (certs = [])); cbn [negb andb]; [|destruct (tp_HoldsKey p) eqn:Hk; cbn [negb]; [|done]];
    (destruct (t_VerifyConnection cfg) as [f|]; [destruct (f _) as [[]|] eqn:Ef; [|done]|]);
    intros [= <-]; cbn; split_and!; naive_solver.
Qed.

Lemma first_common_in mine theirs p : first_common mine theirs = Some p -> p ∈ mine /\ p ∈ theirs.
Proof.
  induction mine as [|q mine IH]; cbn; [done|]. case_bool_decide; [|set_solver]. intros [= ->]. set_solver.
Qed.
End TLS.

(** ** conn.go: draining and cancelling *)

(** What arrives on a connection, in order, with the times. *)
Abbreviation arrivals := (list (time * list byte)).

(** The loop of [DrainAndClose]: each [Read] returns what arrives before the
    deadline, and fails at the deadline; the time it ends and what is left. *)
Fixpoint drain (deadline now : time) (inp : arrivals) : time * arrivals :=
  match inp with
  | [] => (Z.max now deadline, [])
  | (t, b) :: rest => if Before (Z.max now t) deadline then drain deadline (Z.max now t) rest else (Z.max now deadline, inp)
  end.

(** The connection is closed when the drain is over. *)
Definition DrainAndClose (within : duration) (now : time) (inp : arrivals) : time * arrivals :=
  drain (Add now within) now inp.

(** A peer that keeps talking cannot hold the connection open, and everything
    that came before the deadline was read before the close. *)
Lemma DrainAndClose_bounded within now inp :
  exists read, inp = read ++ (DrainAndClose within now inp).2
    /\ (DrainAndClose within now inp).1 = Z.max now (Add now within)
    /\ Forall (fun a => a.1 < Add now within) read
    /\ (forall t b, head (DrainAndClose within now inp).2 = Some (t, b) -> Add now within <= Z.max now t).
Proof.
  unfold DrainAndClose. generalize (Add now within) as dl. intros dl. revert now.
  induction inp as [|[t b] inp IH]; intros now; cbn; [exists []; split_and!; naive_solver|].
  unfold Before. destruct (Z.ltb_spec (Z.max now t) dl).
  - destruct (IH (Z.max now t)) as (read & E & H1 & H2 & H3). exists ((t, b) :: read). rewrite H1.
    split_and!; [cbn; by f_equal|lia|constructor; [cbn; lia|done]|]. intros t' b' Hh. specialize (H3 t' b' Hh). lia.
  - exists []. cbn. split_and!; [done|done|constructor|]. intros t' b' [= <- <-]. done.
Qed.

(** [CloseOnContext]: a goroutine that closes the connection when the context is
    done, unless it is stopped; when both have happened the runtime picks. *)
Record guard := mkGuard {
  gd_ctx : bool;              (* the context is done *)
  gd_stopped : bool;          (* the done channel is closed *)
  gd_closed : bool;           (* nc.Close was called *)
  gd_deadline : option time;  (* the read deadline *)
  gd_panics : bool            (* a closed channel was closed again *)
}.

Definition watch_context (pick_ctx : bool) : proc guard unit :=
  do fired <- await (fun g =>
    if gd_ctx g && (pick_ctx || negb (gd_stopped g)) then Some (true, g)
    else if gd_stopped g then Some (false, g) else None);
  if (fired : bool)
  then modify (fun g => mkGuard (gd_ctx g) (gd_stopped g) true (gd_deadline g) (gd_panics g))
  else Ret tt.

(** [stop]: [close(done)] panics when the channel is closed already. *)
Definition stop_watch : proc guard unit :=
  modify (fun g => mkGuard (gd_ctx g) true (gd_closed g) (gd_deadline g) (gd_panics g || gd_stopped g)).

Definition SetReadDeadline (t : option time) : proc guard unit :=
  modify (fun g => mkGuard (gd_ctx g) (gd_stopped g) (gd_closed g) t (gd_panics g)).

(** [deadlineGuard], and the function it returns. *)
Definition deadlineGuard (now : time) (d : duration) : proc guard unit := SetReadDeadline (Some (Add now d)).

Definition deadlineGuard_stop : proc guard unit := do _ <- stop_watch; SetReadDeadline None.

Definition cancel_context : proc guard unit :=
  modify (fun g => mkGuard true (gd_stopped g) (gd_closed g) (gd_deadline g) (gd_panics g)).

(** While a guarded handshake waits, its read is bounded: the deadline is set
    until it is stopped, and a cancelled context closes the connection; after it
    was stopped, undisturbed, the connection is open and without a deadline. *)
Lemma deadlineGuard_bounds now d pick :
  let g0 := mkGuard false false false None false in
  (exists g, run (do _ <- deadlineGuard now d; do _ <- cancel_context; watch_context pick) g0 = Some (tt, g)
    /\ gd_closed g = true /\ gd_deadline g = Some (Add now d))
  /\ (exists g, run (do _ <- deadlineGuard now d; do _ <- deadlineGuard_stop; watch_context pick) g0 = Some (tt, g)
    /\ gd_closed g = false /\ gd_deadline g = None /\ gd_panics g = false).
Proof. destruct pick; split; eexists; split_and!; reflexivity. Qed.

(** ** What the configurations guarantee *)

Section Guarantees.
Context `{ChainVerify}.


(** A peer never talks to a relay that this deployment's authority has not
    vouched for under the name it expects. *)
Lemma DialTLS_authenticates cert roots name dialled c :
  DialTLS (ClientTLS cert roots name) dialled = Ok c ->
  exists p leaf inter, dialled = Ok p /\ VersionTLS13 <= tp_Version p /\ tp_Certs p = leaf :: inter
    /\ chain_Verify roots ExtKeyUsageServerAuth (Some name) leaf inter = true /\ tp_HoldsKey p = true
    /\ PeerCertificate c = Ok leaf.
Proof.
  unfold DialTLS. destruct dialled as [p|e]; [|done]. destruct (tls_Client _ p) as [st|] eqn:E; [|done]. intros [= <-].
  unfold tls_Client in E. apply tls_finish_Ok in E as (Hv & Hc & Hk & _ & Hcs & _).
  unfold server_certs_ok, verified in Hc. cbn in Hc, Hv.
  destruct (tp_Certs p) as [|leaf inter] eqn:Ep; [done|]. cbn in Hc. exists p, leaf, inter. cbn. rewrite Hcs.
  split_and!; auto.
Qed.
End Guarantees.
