(* ===== verification/E2ee.v ===== *)
(** * The inner session

    [src/internal/e2ee/e2ee.go]: a second TLS session inside the stream the
    relay carries.  [Client] and [Server] are configurations of the handshake of
    Transport.v, completed by [finish]; [streamConn] adapts a stream of
    MuxSession.v to what crypto/tls expects of a connection, and
    [HandshakeContext] interrupts a handshake by closing that connection. *)

From S2P Require Import Prelude GoErrors GoTime Proto Frame Proc Enrollment Transport Agent MuxStream MuxSession.
Open Scope proc_scope.

(** ** Client and Server *)

Section Session.
Context `{ChainVerify}.

(** What an end needs of its identity: the certificate with its chain, and the
    pool of the deployment's authority. *)
Record end_identity := mkEnd {
  en_Certificate : list Cert;
  en_CAPool : Pool
}.

(** [verifyPeer] of Agent.v on the pool and for the usage asked for. *)
Definition verify_callback (roots : Pool) (expect : Identity) (usage : ExtKeyUsage) (st : ConnectionState) : res unit :=
  verifyPeer (fun leaf inter => chain_Verify roots usage None leaf inter) expect (cs_PeerCertificates st).

Definition Client_config (id : end_identity) (expect : Identity) : tls_Config :=
  mkTLS (en_Certificate id) VersionTLS13 [ALPN] NoClientCert None None [] true
    (Some (verify_callback (en_CAPool id) expect ExtKeyUsageServerAuth)).

Definition Server_config (id : end_identity) (expect : Identity) : tls_Config :=
  mkTLS (en_Certificate id) VersionTLS13 [ALPN] RequireAnyClientCert None None [] false
    (Some (verify_callback (en_CAPool id) expect ExtKeyUsageClientAuth)).

(** [finish] on the outcome of the handshake: the identity the session carries. *)
Definition finish_inner (expect : Identity) (hs : res ConnectionState) : res Identity :=
  match hs with
  | Err e => Err (EWrap2 (ESentinel ErrHandshake) e)
  | Ok st =>
      if negb (bool_decide (cs_NegotiatedProtocol st = ALPN)) then Err (wrap ErrHandshake "negotiated")
      else Ok expect
  end.

(** [peer] is what the far end does, or the error of the network, of a deadline
    or of a cancelled context. *)
Definition e2ee_Client (id : end_identity) (expect : Identity) (peer : res tls_peer) : res Identity :=
  finish_inner expect (match peer with Err e => Err e | Ok p => tls_Client (Client_config id expect) p end).

Definition e2ee_Server (id : end_identity) (expect : Identity) (peer : res tls_peer) : res Identity :=
  finish_inner expect (match peer with Err e => Err e | Ok p => tls_Server (Server_config id expect) p end).

(** What an honest end offers the other. *)
Definition offer (certs : list Cert) : tls_peer := mkPeer VersionTLS13 [ALPN] certs true.

(** The outcome Agent.v's [finish] starts from. *)
Definition outcome_of (side : tls_Config -> tls_peer -> res ConnectionState) (cfg : tls_Config) (peer : res tls_peer)
    : tls_outcome :=
  match peer with
  | Err _ => TlsFails
  | Ok p =>
      match side (mkTLS (t_Certificate cfg) (t_MinVersion cfg) (t_NextProtos cfg) (t_ClientAuth cfg) (t_ClientCAs cfg)
                    (t_RootCAs cfg) (t_ServerName cfg) (t_InsecureSkipVerify cfg) None) p with
      | Err _ => TlsFails
      | Ok st => TlsPeer (cs_PeerCertificates st) (cs_NegotiatedProtocol st)
      end
  end.

(** ** Lemmas *)

Lemma verify_callback_Ok roots expect usage st :
  verify_callback roots expect usage st = Ok tt <->
  exists leaf inter, cs_PeerCertificates st = leaf :: inter
    /\ chain_Verify roots usage None leaf inter = true /\ IdentityOf leaf = Ok expect.
Proof.
  unfold verify_callback, verifyPeer. split.
  - destruct (cs_PeerCertificates st) as [|leaf inter]; [done|].
    destruct (chain_Verify roots usage None leaf inter) eqn:E; cbn [negb]; [|done].
    destruct (IdentityOf leaf) as [got|] eqn:Ei; [|done].
    destruct (bool_decide_reflect (got = expect)) as [->|]; cbn [negb]; [|done]. eauto 10.
  - intros (leaf & inter & -> & -> & ->). cbn [negb]. by rewrite bool_decide_true.
Qed.

Lemma finish_inner_Ok expect hs got :
  finish_inner expect hs = Ok got <->
  got = expect /\ exists st, hs = Ok st /\ cs_NegotiatedProtocol st = ALPN.
Proof.
  unfold finish_inner. destruct hs as [st|e]; [|naive_solver].
  destruct (bool_decide_reflect (cs_NegotiatedProtocol st = ALPN)); cbn [negb]; naive_solver.
Qed.

(** What both ends' handshakes come to, given the certificates they look at and
    the usage they verify them for. *)
Lemma inner_finish_Ok id expect usage skip auth certs p ok alpn got :
  finish_inner expect (tls_finish (mkTLS (en_Certificate id) VersionTLS13 [ALPN] auth None None [] skip
      (Some (verify_callback (en_CAPool id) expect usage))) ok certs alpn p) = Ok got ->
  got = expect /\ VersionTLS13 <= tp_Version p /\ alpn = Some ALPN /\ tp_HoldsKey p = true
  /\ exists leaf inter, certs = leaf :: inter
    /\ chain_Verify (en_CAPool id) usage None leaf inter = true /\ IdentityOf leaf = Ok expect.
Proof.
  intros (-> & st & E & Ha)%finish_inner_Ok. apply tls_finish_Ok in E as (Hv & _ & Hk & Hp & Hc & _ & Hcb).
  specialize (Hcb _ eq_refl). apply verify_callback_Ok in Hcb as (leaf & inter & E & H1 & H2). rewrite Hc in E.
  cbn in Hv. split_and!; [done|done|by rewrite Hp, Ha|apply Hk; by rewrite E|eauto].
Qed.

Lemma inner_finish_accepts id expect usage skip auth leaf inter p (ok : list Cert -> bool) :
  VersionTLS13 <= tp_Version p -> tp_HoldsKey p = true -> ok (leaf :: inter) = true ->
  chain_Verify (en_CAPool id) usage None leaf inter = true -> IdentityOf leaf = Ok expect ->
  finish_inner expect (tls_finish (mkTLS (en_Certificate id) VersionTLS13 [ALPN] auth None None [] skip
      (Some (verify_callback (en_CAPool id) expect usage))) ok (leaf :: inter) (Some ALPN) p) = Ok expect.
Proof.
  intros Hv Hk Hok Hch Hid. unfold tls_finish. cbn [t_MinVersion t_VerifyConnection].
  replace (tp_Version p <? VersionTLS13) with false by lia. rewrite Hok, Hk. cbn [negb andb]. rewrite andb_false_r.
  set (st := mkState _ (leaf :: inter) ALPN).
  assert (verify_callback (en_CAPool id) expect usage st = Ok tt) as -> by (apply verify_callback_Ok; eauto 10).
  done.
Qed.

Lemma server_alpn_ALPN protos : server_alpn [ALPN] protos = Some ALPN <-> ALPN ∈ protos.
Proof.
  unfold server_alpn. destruct protos as [|q protos]; [split; [done|by intros ?%elem_of_nil]|]. cbn [first_common].
  case_bool_decide; split; done.
Qed.

(** C5.  What the inner session proves, and that it can be had.  The agent
    accepts a far end exactly when it speaks TLS 1.3 and this protocol, its
    certificate chains to the deployment's authority for client authentication
    and names the operator of the grant, and it proved possession of the key, so
    a relay with a captured grant is refused. *)
Theorem e2ee_Server_iff id expect peer :
  is_ok (e2ee_Server id expect peer) = true <->
  exists p leaf inter, peer = Ok p /\ VersionTLS13 <= tp_Version p /\ ALPN ∈ tp_Protos p
    /\ tp_Certs p = leaf :: inter /\ tp_HoldsKey p = true
    /\ chain_Verify (en_CAPool id) ExtKeyUsageClientAuth None leaf inter = true /\ IdentityOf leaf = Ok expect.
Proof.
  unfold e2ee_Server. split.
  - destruct peer as [p|e]; [|done]. destruct (finish_inner _ _) as [got|] eqn:E; [|done]. intros _.
    apply inner_finish_Ok in E as (-> & Hv & Ha & Hk & leaf & inter & Hc & H1 & H2). cbn in Hc, Ha.
    exists p, leaf, inter. split_and!; auto. by apply server_alpn_ALPN.
  - intros (p & leaf & inter & -> & Hv & Ha & Hc & Hk & H1 & H2).
    unfold tls_Server, Server_config. cbn [t_ClientAuth t_NextProtos]. rewrite Hc.
    rewrite (proj2 (server_alpn_ALPN _) Ha). by rewrite inner_finish_accepts.
Qed.

(** Two honest ends whose certificates the authority signed, each expecting the
    other, agree; and if either is somebody else, neither end of the pair goes on
    believing otherwise. *)
Lemma e2ee_agreement op ag opID agID :
  (exists leaf inter, en_Certificate op = leaf :: inter /\ IdentityOf leaf = Ok opID
    /\ chain_Verify (en_CAPool ag) ExtKeyUsageClientAuth None leaf inter = true) ->
  (exists leaf inter, en_Certificate ag = leaf :: inter /\ IdentityOf leaf = Ok agID
    /\ chain_Verify (en_CAPool op) ExtKeyUsageServerAuth None leaf inter = true) ->
  (forall expect, is_ok (e2ee_Server ag expect (Ok (offer (en_Certificate op)))) = true <-> expect = opID)
  /\ (forall expect, is_ok (e2ee_Client op expect (Ok (offer (en_Certificate ag)))) = true <-> expect = agID).
Proof.
  intros (l1 & i1 & E1 & Hi1 & Hc1) (l2 & i2 & E2 & Hi2 & Hc2). split; intros expect; split.
  - rewrite e2ee_Server_iff. intros (p & leaf & inter & [= <-] & _ & _ & Hc & _ & _ & Hid). cbn in Hc. congruence.
  - intros ->. apply e2ee_Server_iff. exists (offer (en_Certificate op)), l1, i1. cbn. rewrite E1.
    split_and!; [done|done|set_solver|done..].
  - unfold e2ee_Client. destruct (finish_inner _ _) as [got|] eqn:E; [|done]. intros _.
    apply inner_finish_Ok in E as (-> & _ & _ & _ & leaf & inter & Hc & _ & Hid). cbn in Hc. congruence.
  - intros ->. unfold e2ee_Client, tls_Client, Client_config. cbn [offer tp_Certs tp_Protos t_NextProtos]. rewrite E2.
    assert (client_alpn [ALPN] [ALPN] = Some ALPN) as -> by reflexivity.
    by rewrite inner_finish_accepts.
Qed.

(** The agent's model of the handshake (Agent.v) is this one. *)
Lemma e2ee_Server_outcome id expect peer :
  is_ok (e2ee_Server id expect peer)
  = is_ok (finish (fun leaf inter => chain_Verify (en_CAPool id) ExtKeyUsageClientAuth None leaf inter) expect
             (outcome_of tls_Server (Server_config id expect) peer)).
Proof.
  unfold e2ee_Server, outcome_of, finish. destruct peer as [p|e]; [|done].
  unfold tls_Server, tls_finish. cbn [t_MinVersion t_ClientAuth t_NextProtos Server_config t_VerifyConnection].
  destruct (tp_Version p <? VersionTLS13); [done|]. destruct (server_alpn _ _) as [pr|]; [|done].
  unfold client_certs_ok. cbn [t_ClientAuth].
  destruct (bool_decide_reflect (tp_Certs p = [])); cbn [negb andb]; [done|].
  destruct (tp_HoldsKey p); cbn [negb]; [|done]. unfold verify_callback. cbn [cs_PeerCertificates cs_NegotiatedProtocol].
  destruct (verifyPeer _ expect (tp_Certs p)) as [[]|]; [|done]. cbn. by destruct (bool_decide (pr = ALPN)).
Qed.
End Session.

(** ** streamConn, and interrupting a handshake *)

Definition streamConn_Read (p n : nat) : M (list byte * option error) := Stream_Read p n.
Definition streamConn_Write (p : nat) (b : list byte) : M (option (Z * option error)) := Stream_Write p b.
Definition streamConn_Close (p : nat) : M (res unit) := Stream_Close p.

(** The deadline methods report success and do nothing. *)
Definition streamConn_SetDeadline (t : time) : M (res unit) := Ret (Ok tt).

(** [Conn.Reset] when the carrier is a stream. *)
Definition Conn_Reset (p : nat) (r : reason) : M (res unit) := Stream_Reset p r.

(** A handshake, as far as its connection is concerned: it reads and writes until
    it has a result. *)
Inductive handshake (A : Type) :=
| HsDone (a : A)
| HsRead (n : nat) (k : list byte * option error -> handshake A)
| HsWrite (b : list byte) (k : option (Z * option error) -> handshake A).
Arguments HsDone {A} _.
Arguments HsRead {A} _ _.
Arguments HsWrite {A} _ _.

Fixpoint drive {A} (p : nat) (h : handshake A) : M A :=
  match h with
  | HsDone a => Ret a
  | HsRead n k => do r <- streamConn_Read p n; drive p (k r)
  | HsWrite b k => do r <- streamConn_Write p b; drive p (k r)
  end.

(** What [HandshakeContext] does when its context is done: close the connection. *)
Definition interrupt (p : nat) : M unit := ignore (streamConn_Close p).

(** The peer has sent nothing that is still unread and has not ended the
    stream: a read waits. *)
Definition silent (p : nat) (s : Session) : Prop :=
  exists st, s_heap s !! p = Some st /\ st_buf st = [] /\ st_reset st = false /\ st_remoteClosed st = false.

(** What may run meanwhile: interrupts and writes on the stream, and whatever
    readers, writers and closers do with other streams. *)
Inductive meanwhile (p : nat) : M unit -> Prop :=
| mw_interrupt : meanwhile p (interrupt p)
| mw_close q r : meanwhile p (ignore (closeWith q r))
| mw_write q b : meanwhile p (ignore (Stream_Write q b))
| mw_read q n : q <> p -> meanwhile p (ignore (Stream_Read q n))
| mw_reset q r : q <> p -> meanwhile p (ignore (Stream_Reset q r)).

Lemma silent_heap p s s' : s_heap s' = s_heap s -> silent p s -> silent p s'.
Proof. unfold silent. by intros ->. Qed.

Lemma silent_insert p q st st' s :
  s_heap s !! q = Some st ->
  (q = p -> st_buf st' = st_buf st /\ st_reset st' = st_reset st /\ st_remoteClosed st' = st_remoteClosed st) ->
  silent p s -> silent p (with_heap (<[q := st']> (s_heap s)) s).
Proof.
  intros Hq Hst (sp & Hp & H1 & H2 & H3). unfold silent. cbn. destruct (decide (q = p)) as [->|Hne].
  - rewrite lookup_insert_eq. destruct (Hst eq_refl) as (E1 & E2 & E3). simplify_eq. exists st'. by rewrite E1, E2, E3.
  - rewrite lookup_insert_ne by done. eauto.
Qed.

Section Keep.
Context (p : nat).

Lemma silent_WriteFrame t id b : keeps (silent p) (conn_WriteFrame t id b).
Proof. apply keeps_act. intros s Hs. destruct (WriteFrame _ _ _ _). exact Hs. Qed.

Lemma silent_sendClose id r : keeps (silent p) (sendClose id r).
Proof.
  unfold sendClose, isClosed, conn_WriteClose. repeat keeps_step; try done.
  apply keeps_act. intros s Hs. destruct (WriteClose _ _ _). exact Hs.
Qed.

Lemma silent_sendData id b : keeps (silent p) (sendData id b).
Proof. unfold sendData, isClosed, Session_Err. repeat keeps_step; try done. apply silent_WriteFrame. Qed.

Lemma silent_sendWindowUpdate id c : keeps (silent p) (sendWindowUpdate id c).
Proof. unfold sendWindowUpdate, isClosed, Session_Err. repeat keeps_step; try done. apply silent_WriteFrame. Qed.

Lemma silent_retire id : keeps (silent p) (retire id).
Proof. apply keeps_modify. intros s. by apply silent_heap. Qed.

Lemma silent_closeWith q r : keeps (silent p) (closeWith q r).
Proof.
  unfold closeWith. apply keeps_bind.
  - apply keeps_act. intros s Hs. destruct (s_heap s !! q) as [st|] eqn:E; [|done].
    unfold close_locked. destruct (_ || _); [done|]. cbn. by eapply silent_insert.
  - intros [id|]; [|done]. apply keeps_bind; [apply silent_sendClose|intros ?].
    unfold retireIfDone. repeat keeps_step; try done.
Qed.

Lemma silent_Write q b : keeps (silent p) (Stream_Write q b).
Proof.
  unfold Stream_Write. generalize (length b) as fuel, 0 as written. induction fuel as [|fuel IH]; intros written; cbn -[zlen].
  { apply keeps_if; done. }
  apply keeps_if; [done|]. apply keeps_bind.
  - apply keeps_await. intros s y s' Hs. destruct (s_heap s !! q) as [st|] eqn:E; [|done].
    destruct (write_locked _ _ st) as [|e|n st'] eqn:R; [done|by intros [= _ <-]|]. intros [= _ <-].
    revert R. unfold write_locked. destruct (st_reset st), (st_localClosed st), (negb (st_sendWindow st >? 0)); try done. intros [= _ <-]. by eapply silent_insert.
  - intros [e|[id n]]; [done|]. apply keeps_bind; [apply silent_sendData|]. intros [|]; [apply IH | done].
Qed.

Lemma silent_Read_other q n : q <> p -> keeps (silent p) (Stream_Read q n).
Proof.
  intros Hq. unfold Stream_Read. apply keeps_if; [done|]. apply keeps_bind.
  - apply keeps_await. intros s y s' Hs. destruct (s_heap s !! q) as [st|] eqn:E; [|done].
    destruct (read_locked _ n st); [done|by intros [= _ <-]|]. intros [= _ <-]. by eapply silent_insert.
  - intros [e|[[id data] c]]; [done|]. apply keeps_if; [|done]. apply keeps_bind; [apply silent_sendWindowUpdate|done].
Qed.

Lemma silent_Reset_other q r : q <> p -> keeps (silent p) (Stream_Reset q r).
Proof.
  intros Hq. unfold Stream_Reset. apply keeps_bind.
  - apply keeps_act. intros s Hs. destruct (s_heap s !! q) as [st|] eqn:E; [|done].
    unfold reset_locked. destruct (st_reset st); [done|]. cbn. by eapply silent_insert.
  - intros [id|]; [|done]. apply keeps_bind; [apply silent_sendClose|intros ?].
    apply keeps_bind; [apply silent_retire|done].
Qed.

Lemma silent_ignore {A} (q : M A) : keeps (silent p) q -> keeps (silent p) (ignore q).
Proof. intros Hq. unfold ignore. by apply keeps_bind. Qed.

Lemma silent_meanwhile q : meanwhile p q -> keeps (silent p) q.
Proof.
  intros [|x r|x b|x n Hx|x r Hx]; apply silent_ignore;
    auto using silent_closeWith, silent_Write, silent_Read_other, silent_Reset_other. apply silent_closeWith.
Qed.
End Keep.

(** A handshake that waits for a silent peer goes on waiting. *)
Lemma handshake_blocked {A} p n (k : list byte * option error -> handshake A) s ps s' ps' :
  silent p s -> Forall (meanwhile p) ps ->
  rtc (pool_step (meanwhile p)) (s, ignore (drive p (HsRead (S n) k)) :: ps) (s', ps') ->
  (exists ps1, ps' = ignore (drive p (HsRead (S n) k)) :: ps1) /\ silent p s'.
Proof.
  intros Hs Hps Hr. unfold ignore in *. cbn [drive proc_bind streamConn_Read Stream_Read Nat.eqb await] in *.
  unfold await in *. cbn [proc_bind] in *.
  match type of Hr with rtc _ (_, Act ?f :: _) _ => destruct (blocked_pool (silent p) (meanwhile p) f s ps s' ps') as [HI Hp] end;
    auto using silent_meanwhile.
  - intros x (st & Hx & H1 & H2 & H3). rewrite Hx. unfold read_locked. by rewrite H1, H2, H3.
  - eapply Forall_impl; [done|]. apply silent_meanwhile.
Qed.

Lemma interrupt_keeps_slot p id s :
  silent p s -> s_streams s !! id = Some p -> forall s', run (interrupt p) s = Some (tt, s') -> s_streams s' !! id = Some p.
Proof.
  intros (st & Hp & H1 & H2 & H3) Ht s'. unfold interrupt, ignore, streamConn_Close, Stream_Close, closeWith.
  rewrite !run_bind, run_act, Hp. unfold close_locked. rewrite H2, orb_false_r.
  destruct (st_localClosed st); cbn [run]; [by intros [= <-]|].
  unfold sendClose, isClosed. rewrite !run_bind, run_gets.
  destruct (s_done _); [|unfold conn_WriteClose; rewrite run_act; destruct (WriteClose _ _ _)]; cbn [run fst snd];
    unfold retireIfDone; rewrite !run_bind, run_gets; unfold finished_at; cbn; rewrite lookup_insert_eq; unfold finished; cbn;
    rewrite H2, H3; cbn; by intros [= <-].
Qed.

(** A reset ends the wait. *)
Lemma reset_unblocks p n r s :
  silent p s ->
  exists x s' e, run (Conn_Reset p r) s = Some (x, s') /\ run (streamConn_Read p (S n)) s' = Some (([], Some e), s').
Proof.
  intros (st & Hp & H1 & H2 & H3). unfold Conn_Reset, Stream_Reset. rewrite !run_bind, run_act, Hp. unfold reset_locked.
  rewrite H2. cbv iota beta. unfold sendClose, isClosed. rewrite !run_bind, run_gets.
  destruct (s_done _); [|unfold conn_WriteClose; rewrite run_act; destruct (WriteClose _ _ _)]; cbn [run];
    unfold retire; rewrite run_bind, run_modify; do 3 eexists; (split; [reflexivity|]);
    unfold streamConn_Read, Stream_Read; cbn [Nat.eqb]; rewrite run_bind, run_await; cbn; rewrite lookup_insert_eq; reflexivity.
Qed.


(** ** Witnesses *)

