(* ===== verification/Relay.v ===== *)
(** * The relay

    [src/internal/relay/relay.go]: authenticating connections, registering
    agents, and authorizing and joining operator streams, over the registers of
    Registry.v and, through the interfaces the relay is given, the control
    plane's database.

    Handlers are processes (Proc.v) over one shared state: every access to a
    register, to the database or to a stream is one step, and anything may
    happen between two steps.  What is outside (the TLS and multiplexer
    handshakes, opening a stream on the agent's session, the copying) is an
    argument of the handler.  [w_log] is what the relay did, oldest first;
    logging itself is not represented.  Connections, sessions and streams are
    addresses; a session has the address of its connection. *)

From S2P Require Import Prelude GoErrors GoTime Proto Handshake Grant Proc Registry Db Storage Enrollment ControlPlane.
Open Scope proc_scope.

Inductive relay_event :=
| RDrop (conn : nat)                                  (* conn.Close before any session *)
| RRefuse (conn : nat) (r : reason)                   (* h.Refuse *)
| RRegister (deviceID : string) (conn : nat)          (* registry.Add *)
| RAdmit (conn : nat) (userID deviceID : string)      (* an operator session *)
| RReset (stream : nat) (r : reason)
| ROpen (op sess : nat) (payload : list byte)         (* agentSess.Open for the operator's stream *)
| RJoin (op agent : nat).                             (* bridge.Join *)

Record World := mkWorld {
  w_db : DB;
  w_live : Live.LiveStreams;
  w_reg : Sessions.Registry;
  w_log : list relay_event
}.

Definition log (e : relay_event) (w : World) : World :=
  mkWorld (w_db w) (w_live w) (w_reg w) (w_log w ++ [e]).

Definition set_db (d : DB) (w : World) : World := mkWorld d (w_live w) (w_reg w) (w_log w).
Definition set_live (l : Live.LiveStreams) (w : World) : World := mkWorld (w_db w) l (w_reg w) (w_log w).
Definition set_reg (r : Sessions.Registry) (w : World) : World := mkWorld (w_db w) (w_live w) r (w_log w).

Definition emit (e : relay_event) : proc World unit := modify (log e).

(** One call into the database, with its faults. *)
Definition db_call {A} (m : dbM A) (fl : list bool) : proc World (res A) :=
  act (fun w => let '(r, d, _) := m fl (w_db w) in (r, set_db d w)).

(** What the relay is configured with, as far as its decisions depend on it. *)
Record relay_config := mkRelayConfig {
  rc_GrantKey : list byte;
  rc_Grants : bool;              (* is a GrantChecker attached? *)
  rc_Audit : bool                (* is an auditor attached? *)
}.

(** [New]: TLS, a verifier and a grant key are required. *)
Definition relay_New (tls verify : bool) (grantKey : option (list byte)) : res unit :=
  if negb tls then Err (EMsg "relay: refusing to start without TLS")
  else if negb verify then Err (EMsg "relay: refusing to start without a certificate verifier")
  else match grantKey with
       | None => Err (EMsg "relay: refusing to start without a grant verification key")
       | Some _ => Ok tt
       end.

Definition audit_proc (cfg : relay_config) (e : AuditEvent) (now : time) (fl : list bool) : proc World unit :=
  if rc_Audit cfg then (do _ <- db_call (Record_event true e now now) fl; Ret tt) else Ret tt.

(** [TerminateGrants]: the register is emptied under its lock, the streams are
    reset after. *)
Fixpoint reset_all (l : list (nat * reason)) : proc World unit :=
  match l with
  | [] => Ret tt
  | (st, r) :: l' => do _ <- emit (RReset st r); reset_all l'
  end.

Definition TerminateGrants (grantIDs : list string) : proc World unit :=
  do resets <- act (fun w =>
    let '(_, resets, l) := Live.Terminate grantIDs ReasonGrantRevoked (w_live w) in (resets, set_live l w));
  reset_all resets.

Definition roleMatches (certRole : string) (helloRole : Z) : bool :=
  if bool_decide (certRole = Enrollment.RoleDevice) then helloRole =? Handshake.RoleAgent
  else if bool_decide (certRole = Enrollment.RoleOperator) then helloRole =? Handshake.RoleOperator
  else false.

(** What the multiplexer's handshake brought: the peer's role and claims. *)
Record peer_hello := mkPeerHello {
  ph_role : Z;
  ph_device : string
}.

(** [serveAgent]; [sessionID] is the identifier [newSessionID] gave, [admitted] is whether [Admit] succeeded.  The handler then
    waits for the session to end, or for shutdown ([ctx_done]). *)
Definition serveAgent (cfg : relay_config) (conn : nat) (sessionID : string) (h : peer_hello) (id : Identity) (admitted : bool)
    (ctx_done : World -> bool) (now : time) (fl : list bool) : proc World unit :=
  if negb (bool_decide (ph_device h = "")) && negb (bool_decide (ph_device h = id_ID id)) then
    emit (RRefuse conn ReasonAuthFailed)
  else if negb admitted then Ret tt
  else
    do replaced <- act (fun w =>
      let '(old, reg) := Sessions.Add (id_ID id) conn (w_reg w) in
      (old, log (RRegister (id_ID id) conn) (set_reg reg w)));
    do _ <- match replaced with
            | Some old => modify (fun w => set_reg (Sessions.session_Close old ReasonSessionReplaced (w_reg w)) w)
            | None => Ret tt
            end;
    do _ <- audit_proc cfg (DeviceConnected (id_ID id) ("session " +:+ sessionID)) now fl;
    do _ <- await (fun w =>
      if bool_decide (is_Some (Sessions.ended (w_reg w) !! conn)) || ctx_done w then Some (tt, w) else None);
    do _ <- modify (fun w => set_reg (Sessions.Remove (id_ID id) conn (w_reg w)) w);
    do _ <- modify (fun w => set_reg (Sessions.session_Close conn ReasonShutdown (w_reg w)) w);
    do why <- gets (fun w => default ReasonOK (Sessions.ended (w_reg w) !! conn));
    audit_proc cfg (DeviceDisconnected (id_ID id) why) now fl.

(** [serveOperator] up to its accept loop: each stream it accepts is a
    [joinStream]. *)
Definition serveOperator (conn : nat) (h : peer_hello) (id : Identity) (admitted : bool) : proc World unit :=
  if bool_decide (ph_device h = "") then emit (RRefuse conn ReasonAuthFailed)
  else
    do r <- act (fun w => let '(r, reg) := Sessions.Get (ph_device h) (w_reg w) in (r, set_reg reg w));
    match r with
    | Err _ => emit (RRefuse conn ReasonNoAgent)
    | Ok agentSess =>
        if negb admitted then Ret tt else emit (RAdmit conn (id_ID id) (ph_device h))
    end.

(** [serve]: [tls] is the peer certificate of a completed TLS handshake, [mux]
    the outcome of the multiplexer's. *)
Definition serve (cfg : relay_config) (conn : nat) (sessionID : string) (tls : option Cert) (mux : option peer_hello)
    (admitted : bool) (ctx_done : World -> bool) (now : time) (fl : list bool) : proc World unit :=
  match tls with
  | None => emit (RDrop conn)
  | Some cert =>
      do v <- db_call (VerifyEnrolled cert) fl;
      match v with
      | Err _ => emit (RDrop conn)
      | Ok id =>
          match mux with
          | None => emit (RDrop conn)
          | Some h =>
              if negb (roleMatches (id_Role id) (ph_role h)) then emit (RRefuse conn ReasonAuthFailed)
              else if bool_decide (id_Role id = Enrollment.RoleDevice) then
                serveAgent cfg conn sessionID h id admitted ctx_done now fl
              else if bool_decide (id_Role id = Enrollment.RoleOperator) then
                serveOperator conn h id admitted
              else emit (RRefuse conn ReasonAuthFailed)
          end
      end
  end.

(** What happens outside during one [joinStream]. *)
Record join_env := mkJoinEnv {
  je_now : time;
  je_check_faults : list bool;
  je_audit_faults : list bool;
  je_open : res nat;                       (* agentSess.Open *)
  je_stats : Z * Z;
  je_join_err : option error;
  je_elapsed : duration
}.

Definition auditDenied (cfg : relay_config) (g : SignedGrant) (r : reason) (detail : string) (env : join_env)
    : proc World unit :=
  audit_proc cfg (StreamDenied (g_UserID g) (g_DeviceID g) (g_ResourceID g) (g_GrantID g) r detail)
    (je_now env) (je_audit_faults env).

(** The part of [joinStream] after the revocation check. *)
Definition open_and_join (cfg : relay_config) (op agentSess : nat) (payload : list byte) (g : SignedGrant)
    (sessionID : string) (env : join_env) : proc World unit :=
  do _ <- emit (ROpen op agentSess payload);
  match je_open env with
  | Err e =>
      let r := if errors_Is e ErrTooManyStreams || errors_Is e ErrStreamRefused
               then ReasonLimitStreamsExceeded else ReasonNoAgent in
      do _ <- auditDenied cfg g r "open" env;
      emit (RReset op r)
  | Ok agentStream =>
      do h <- act (fun w =>
        let '(h, l) := Live.Add (g_GrantID g) op agentStream (w_live w) in (h, set_live l w));
      do _ <- audit_proc cfg (StreamOpened (g_UserID g) (g_DeviceID g) (g_ResourceID g) (g_GrantID g) sessionID)
                (je_now env) (je_audit_faults env);
      do _ <- emit (RJoin op agentStream);
      let r := match je_join_err env with None => ReasonOK | Some _ => ReasonShutdown end in
      do _ <- audit_proc cfg (StreamClosed (g_UserID g) (g_DeviceID g) (g_ResourceID g) (g_GrantID g)
                (uwrap 64 (je_stats env).1) (uwrap 64 (je_stats env).2) (je_elapsed env) r)
                (je_now env) (je_audit_faults env);
      modify (fun w => set_live (Live.release h (w_live w)) w)
  end.

Definition joinStream `{Ed25519} (cfg : relay_config) (op agentSess : nat) (deviceID userID : string)
    (payload : list byte) (env : join_env) : proc World unit :=
  if (length payload =? 0)%nat then emit (RReset op ReasonPolicyDenied)
  else
    match DecodeGrant payload with
    | Err e => emit (RReset op (ReasonForGrant (Some e)))
    | Ok g =>
        match Verify g (rc_GrantKey cfg) (je_now env) (g_DeviceID g) with
        | Err e => emit (RReset op (ReasonForGrant (Some e)))
        | Ok _ =>
            if negb (bool_decide (g_UserID g = userID)) then emit (RReset op ReasonPolicyDenied)
            else if negb (bool_decide (g_DeviceID g = deviceID)) then
              emit (RReset op ReasonGrantDeviceMismatch)
            else if rc_Grants cfg then
              do st <- db_call (Grants.StateOf (g_GrantID g)) (je_check_faults env);
              match st with
              | Err _ => open_and_join cfg op agentSess payload g "" env
              | Ok state =>
                  if negb (Grants.st_Known state) then open_and_join cfg op agentSess payload g "" env
                  else if Grants.st_Revoked state then
                    do _ <- auditDenied cfg g ReasonGrantRevoked "grant revoked before expiry" env;
                    emit (RReset op ReasonGrantRevoked)
                  else open_and_join cfg op agentSess payload g (Grants.st_SessionID state) env
              end
            else open_and_join cfg op agentSess payload g "" env
        end
    end.

(** A logout as the control plane performs it: end the session, then have the
    relay drop the streams of the grants that were revoked. *)
Definition end_session_proc (sid actor reason : string) (n1 nA n2 : time) (fl : list bool) : proc World unit :=
  do r <- db_call (Login.End sid actor reason n1 nA n2) fl;
  match r with
  | Ok revoked => TerminateGrants (gd_GrantID <$> revoked)
  | Err _ => Ret tt
  end.

(** ** Lemmas *)

(** What every handler keeps, whatever runs beside it. *)
Section Keeps.
Context (I : World -> Prop).

Lemma keeps_emit e : (forall w, I w -> I (log e w)) -> keeps I (emit e).
Proof. intros H. by apply keeps_modify. Qed.

Lemma keeps_db_call {A B} (m : dbM A) fl (k : res A -> proc World B) :
  (forall w, I w -> I (set_db (m fl (w_db w)).1.2 w) /\ keeps I (k (m fl (w_db w)).1.1)) ->
  keeps I (do r <- db_call m fl; k r).
Proof.
  intros H. apply keeps_act_bind. intros w Hw. specialize (H w Hw).
  by destruct (m fl (w_db w)) as [[r d] fl'].
Qed.

Lemma keeps_audit cfg e now fl :
  (forall w, I w -> I (set_db (Record_event true e now now fl (w_db w)).1.2 w)) ->
  keeps I (audit_proc cfg e now fl).
Proof.
  intros H. unfold audit_proc. apply keeps_if; [|done]. apply keeps_db_call.
  intros w Hw. split; [by apply H | done].
Qed.

Lemma keeps_reset_all l : (forall st r w, I w -> I (log (RReset st r) w)) -> keeps I (reset_all l).
Proof.
  intros H. induction l as [|[st r] l IH]; [done|]. apply keeps_bind; [|done].
  apply keeps_emit. intros w. apply H.
Qed.
End Keeps.

Section Sound.
Context `{Ed : Ed25519} (cfg : relay_config).
(** Which certificate a connection presented, and, for an operator's stream,
    who its connection authenticated as and which device it asked for. *)
Context (cert_of : nat -> option Cert) (user_of device_of : nat -> string).

(** Conditions on what happens outside during a [joinStream]. *)
Context (ok_env : join_env -> Prop).

(** Every handler the relay can be running. *)
Inductive relay_proc : proc World unit -> Prop :=
| rp_serve conn sid mux admitted ctx_done now fl :
    relay_proc (serve cfg conn sid (cert_of conn) mux admitted ctx_done now fl)
| rp_join op sess payload env :
    ok_env env -> relay_proc (joinStream cfg op sess (device_of op) (user_of op) payload env)
| rp_terminate gs : relay_proc (TerminateGrants gs)
| rp_end sid actor reason n1 nA n2 fl : relay_proc (end_session_proc sid actor reason n1 nA n2 fl).

(** What must have held for the relay to do something. *)
Definition event_ok (e : relay_event) : Prop :=
  match e with
  | RRegister d c =>
      exists cert, cert_of c = Some cert /\ IdentityOf cert = Ok (mkIdentity Enrollment.RoleDevice d)
  | RAdmit c u d =>
      d <> "" /\ exists cert, cert_of c = Some cert
        /\ IdentityOf cert = Ok (mkIdentity Enrollment.RoleOperator u)
  | ROpen op sess p =>
      exists g now, DecodeGrant p = Ok g /\ Verify g (rc_GrantKey cfg) now (g_DeviceID g) = Ok tt
        /\ g_UserID g = user_of op /\ g_DeviceID g = device_of op
  | _ => True
  end.

Definition log_ok (w : World) : Prop := Forall event_ok (w_log w).

Lemma log_ok_log e w : event_ok e -> log_ok w -> log_ok (log e w).
Proof. intros. apply Forall_app. split; [done|]. by apply Forall_singleton. Qed.

Lemma log_ok_emit e : event_ok e -> keeps log_ok (emit e).
Proof. intros. apply keeps_emit. intros w. by apply log_ok_log. Qed.

Lemma log_ok_audit e now fl : keeps log_ok (audit_proc cfg e now fl).
Proof. by apply keeps_audit. Qed.

Lemma log_ok_open op sess payload g sid env :
  event_ok (ROpen op sess payload) -> keeps log_ok (open_and_join cfg op sess payload g sid env).
Proof.
  intros Hok. unfold open_and_join. apply keeps_bind; [by apply log_ok_emit|]. intros _.
  destruct (je_open env) as [ag|e].
  - apply keeps_act_bind. intros w Hw.
    destruct (Live.Add (g_GrantID g) op ag (w_live w)) as [h l]. split; [done|]. cbn [fst].
    apply keeps_bind; [apply log_ok_audit|]. intros _.
    apply keeps_bind; [by apply log_ok_emit|]. intros _.
    apply keeps_bind; [apply log_ok_audit|]. intros _. by apply keeps_modify.
  - apply keeps_bind; [apply log_ok_audit|]. intros _. by apply log_ok_emit.
Qed.

Lemma log_ok_join op sess payload env :
  keeps log_ok (joinStream cfg op sess (device_of op) (user_of op) payload env).
Proof.
  unfold joinStream. destruct (_ =? _)%nat; [by apply log_ok_emit|].
  destruct (DecodeGrant payload) as [g|] eqn:Ed0; [|by apply log_ok_emit].
  destruct (Verify g _ _ _) as [[]|] eqn:Ev; [|by apply log_ok_emit].
  case_bool_decide as Hu; cbn [negb]; [|by apply log_ok_emit].
  case_bool_decide as Hd; cbn [negb]; [|by apply log_ok_emit].
  assert (event_ok (ROpen op sess payload)) as Hok by (exists g, (je_now env); auto).
  apply keeps_if; [|by apply log_ok_open]. apply keeps_db_call. intros w Hw. split; [done|].
  destruct (_.1.1) as [st|e]; [|by apply log_ok_open].
  apply keeps_if; [by apply log_ok_open|]. apply keeps_if; [|by apply log_ok_open].
  apply keeps_bind; [apply log_ok_audit|]. intros _. by apply log_ok_emit.
Qed.

Lemma log_ok_serve conn sid mux admitted ctx_done now fl :
  keeps log_ok (serve cfg conn sid (cert_of conn) mux admitted ctx_done now fl).
Proof.
  unfold serve. destruct (cert_of conn) as [cert|] eqn:Ec; [|by apply log_ok_emit].
  apply keeps_db_call. intros w Hw. split; [done|].
  destruct (VerifyEnrolled cert fl (w_db w)) as [[[id|e] d] fl'] eqn:EV; cbn [fst];
    [|by apply log_ok_emit].
  apply VerifyEnrolled_success in EV as (r & Hid & _).
  destruct mux as [h|]; [|by apply log_ok_emit].
  apply keeps_if; [by apply log_ok_emit|].
  destruct id as [role i]. cbn [id_Role id_ID].
  case_bool_decide as Hdev; [|case_bool_decide as Hop; [|by apply log_ok_emit]].
  - unfold serveAgent. apply keeps_if; [by apply log_ok_emit|]. apply keeps_if; [done|].
    apply keeps_act_bind. intros w1 Hw1. unfold Sessions.Add. cbn [fst snd id_ID]. split.
    { apply log_ok_log; [|done]. exists cert. by rewrite <- Hdev. }
    apply keeps_bind; [destruct (_ !! _); [by apply keeps_modify|done]|]. intros _.
    apply keeps_bind; [apply log_ok_audit|]. intros _.
    apply keeps_bind; [apply keeps_await; intros s a s' Hs; case_match; [by intros [= _ <-]|done]|]. intros _.
    apply keeps_bind; [by apply keeps_modify|]. intros _.
    apply keeps_bind; [by apply keeps_modify|]. intros _.
    apply keeps_bind; [apply keeps_gets|]. intros why. apply log_ok_audit.
  - unfold serveOperator. case_bool_decide as Hne; [by apply log_ok_emit|].
    apply keeps_act_bind. intros w1 Hw1. destruct (Sessions.Get (ph_device h) (w_reg w1)) as [r1 reg].
    split; [done|]. cbn [fst]. destruct r1 as [s|]; [|by apply log_ok_emit].
    apply keeps_if; [done|]. apply log_ok_emit. split; [done|]. exists cert. by rewrite <- Hop.
Qed.

Lemma log_ok_terminate gs : keeps log_ok (TerminateGrants gs).
Proof.
  apply keeps_act_bind. intros w Hw. destruct (Live.Terminate gs ReasonGrantRevoked (w_live w)) as [[n rs] l].
  split; [done|]. apply keeps_reset_all. intros st r w1. by apply log_ok_log.
Qed.

Lemma relay_proc_log_ok p : relay_proc p -> keeps log_ok p.
Proof.
  intros [conn sid mux admitted ctx_done now fl | op sess payload env _ | gs | sid actor reason n1 nA n2 fl].
  - apply log_ok_serve.
  - apply log_ok_join.
  - apply log_ok_terminate.
  - apply keeps_db_call. intros w Hw. split; [done|].
    destruct (_.1.1); [apply log_ok_terminate | done].
Qed.


(** *** Revocation *)

Definition is_revoked (gid : string) (d : DB) : Prop :=
  exists r, grants d !! gid = Some r /\ gr_revoked_at r <> None.

Lemma is_revoked_evolves gid d d' : evolves d d' -> is_revoked gid d -> is_revoked gid d'.
Proof.
  intros [_ _ Hg _] (r & Hr & Hn). destruct (Hg gid r Hr) as (r' & Hr' & [-> |[? _]]); [|done].
  by exists r.
Qed.

Lemma moves_Record_event b e now nowA : moves evolves (Record_event b e now nowA).
Proof.
  unfold Record_event. destruct b; cbn [negb]; [|apply moves_ret]. cbv zeta.
  apply moves_bind; [apply moves_attempt, moves_appendAudit|]. intros. apply moves_ret.
Qed.

Lemma moves_VerifyEnrolled cert : moves evolves (VerifyEnrolled cert).
Proof.
  intros fl d. unfold VerifyEnrolled, lift. destruct (IdentityOf cert) as [id|e]; [|done].
  assert (moves evolves (db_bind (Lookup (id_Role id) (id_ID id)) (fun rec =>
    if bool_decide (r_SerialHex rec = c_SerialHex cert) then db_ret id
    else if negb (bool_decide (r_PendingSerialHex rec = ""))
            && bool_decide (r_PendingSerialHex rec = c_SerialHex cert)
    then db_bind (PromoteSerial (id_Role id) (id_ID id) (c_SerialHex cert)) (fun _ => db_ret id)
    else db_err (wrap ErrNotEnrolled "certificate superseded by a later enrollment")))) as H; [|apply H].
  unfold Lookup, lookupAny, PromoteSerial. repeat moves_step. apply moves_update_identity.
Qed.

Lemma StateOf_db gid fl d : (Grants.StateOf gid fl d).1.2 = d.
Proof.
  unfold Grants.StateOf, LookupGrant, attempt, query, stmt, db_bind. destruct (next_fault fl) as [[|] fl1]; [done|].
  destruct (grants d !! gid); cbn; done.
Qed.

Lemma StateOf_revoked gid d :
  is_revoked gid d ->
  exists sid u, (Grants.StateOf gid [] d).1.1 = Ok (Grants.mkState true true sid u).
Proof.
  intros (r & Hr & Hn). unfold Grants.StateOf, LookupGrant, attempt, query, stmt, db_bind. cbn. rewrite Hr. cbn.
  unfold Revoked. cbn. rewrite bool_decide_eq_true_2; [eauto|]. by destruct (gr_revoked_at r).
Qed.

Section Revoked.
Context (gid : string).

(** The grant is revoked and no stream has been forwarded with it. *)
Definition fenced (w : World) : Prop :=
  is_revoked gid (w_db w)
  /\ forall op sess p g, ROpen op sess p ∈ w_log w -> DecodeGrant p = Ok g -> g_GrantID g <> gid.

Definition not_open (e : relay_event) : Prop :=
  match e with ROpen _ _ p => forall g, DecodeGrant p = Ok g -> g_GrantID g <> gid | _ => True end.

Lemma fenced_log e w : not_open e -> fenced w -> fenced (log e w).
Proof.
  intros He [H1 H2]. split; [done|]. intros op sess p g [Hin|Hin%list_elem_of_singleton]%elem_of_app;
    [by eapply H2|]. subst e. apply He.
Qed.

Lemma fenced_emit e : not_open e -> keeps fenced (emit e).
Proof. intros. apply keeps_emit. intros w. by apply fenced_log. Qed.

Lemma fenced_db {A} (m : dbM A) fl w : moves evolves m -> fenced w -> fenced (set_db (m fl (w_db w)).1.2 w).
Proof. intros Hm [H1 H2]. split; [|done]. eapply is_revoked_evolves; [apply Hm|done]. Qed.

Lemma fenced_audit e now fl : keeps fenced (audit_proc cfg e now fl).
Proof. apply keeps_audit. intros w. apply fenced_db, moves_Record_event. Qed.

Lemma fenced_open op sess payload g sid env :
  not_open (ROpen op sess payload) -> keeps fenced (open_and_join cfg op sess payload g sid env).
Proof.
  intros Hok. unfold open_and_join. apply keeps_bind; [by apply fenced_emit|]. intros _.
  destruct (je_open env) as [ag|e].
  - apply keeps_act_bind. intros w Hw.
    destruct (Live.Add (g_GrantID g) op ag (w_live w)) as [h l]. split; [done|]. cbn [fst].
    apply keeps_bind; [apply fenced_audit|]. intros _.
    apply keeps_bind; [by apply fenced_emit|]. intros _.
    apply keeps_bind; [apply fenced_audit|]. intros _. by apply keeps_modify.
  - apply keeps_bind; [apply fenced_audit|]. intros _. by apply fenced_emit.
Qed.

Lemma fenced_join op sess payload env :
  rc_Grants cfg = true -> je_check_faults env = [] ->
  keeps fenced (joinStream cfg op sess (device_of op) (user_of op) payload env).
Proof.
  intros Hg Hf. unfold joinStream. destruct (_ =? _)%nat; [by apply fenced_emit|].
  destruct (DecodeGrant payload) as [g|] eqn:Ed0; [|by apply fenced_emit].
  destruct (Verify g _ _ _) as [[]|] eqn:Ev; [|by apply fenced_emit].
  apply keeps_if; [by apply fenced_emit|]. apply keeps_if; [by apply fenced_emit|].
  rewrite Hg, Hf. apply keeps_db_call. intros w Hw. split.
  { rewrite StateOf_db. by destruct w. }
  destruct (decide (g_GrantID g = gid)) as [Heq|Hne].
  - rewrite Heq. destruct (StateOf_revoked gid (w_db w) (proj1 Hw)) as (sid & u & ->). cbn.
    apply keeps_bind; [apply fenced_audit|]. intros _. by apply fenced_emit.
  - assert (not_open (ROpen op sess payload)) as Hok by (intros g' Hg'; congruence).
    destruct (_.1.1) as [st|e]; [|by apply fenced_open].
    apply keeps_if; [by apply fenced_open|]. apply keeps_if; [|by apply fenced_open].
    apply keeps_bind; [apply fenced_audit|]. intros _. by apply fenced_emit.
Qed.

Lemma fenced_terminate gs : keeps fenced (TerminateGrants gs).
Proof.
  apply keeps_act_bind. intros w Hw. destruct (Live.Terminate gs ReasonGrantRevoked (w_live w)) as [[n rs] l].
  split; [done|]. apply keeps_reset_all. intros st r w1. by apply fenced_log.
Qed.

Lemma fenced_serve conn sid mux admitted ctx_done now fl :
  keeps fenced (serve cfg conn sid (cert_of conn) mux admitted ctx_done now fl).
Proof.
  unfold serve. destruct (cert_of conn) as [cert|]; [|by apply fenced_emit].
  apply keeps_db_call. intros w Hw. split; [apply fenced_db; [apply moves_VerifyEnrolled | done]|].
  destruct (_.1.1) as [id|e]; [|by apply fenced_emit]. destruct mux as [h|]; [|by apply fenced_emit].
  apply keeps_if; [by apply fenced_emit|].
  apply keeps_if; [|apply keeps_if; [|by apply fenced_emit]].
  - unfold serveAgent. apply keeps_if; [by apply fenced_emit|]. apply keeps_if; [done|].
    apply keeps_act_bind. intros w1 Hw1. unfold Sessions.Add. cbn [fst snd]. split.
    { apply fenced_log; [done|]. exact Hw1. }
    apply keeps_bind; [destruct (_ !! _); [by apply keeps_modify|done]|]. intros _.
    apply keeps_bind; [apply fenced_audit|]. intros _.
    apply keeps_bind; [apply keeps_await; intros s a s' Hs; case_match; [by intros [= _ <-]|done]|]. intros _.
    apply keeps_bind; [by apply keeps_modify|]. intros _.
    apply keeps_bind; [by apply keeps_modify|]. intros _.
    apply keeps_bind; [apply keeps_gets|]. intros why. apply fenced_audit.
  - unfold serveOperator. apply keeps_if; [by apply fenced_emit|].
    apply keeps_act_bind. intros w1 Hw1. destruct (Sessions.Get (ph_device h) (w_reg w1)) as [r1 reg].
    split; [exact Hw1|]. cbn [fst]. destruct r1 as [s|]; [|by apply fenced_emit].
    apply keeps_if; [done|]. by apply fenced_emit.
Qed.

End Revoked.
End Sound.

(** ** Forwarding *)

Section Forward.
Context `{Ed : Ed25519} (cfg : relay_config).

Lemma run_audit e now fl w :
  exists w', run (audit_proc cfg e now fl) w = Some (tt, w') /\ w_log w' = w_log w.
Proof.
  unfold audit_proc. destruct (rc_Audit cfg); [|by exists w]. unfold db_call. rewrite run_bind, run_act.
  destruct (Record_event true e now now fl (w_db w)) as [[r d] fl']. by eexists.
Qed.

Ltac audited w' L :=
  match goal with |- context [run (audit_proc ?c ?e ?n ?f) ?x] => destruct (run_audit e n f x) as (w' & -> & L) end.

Lemma run_open_and_join op sess payload g sid env w :
  exists w', run (open_and_join cfg op sess payload g sid env) w = Some (tt, w')
    /\ ROpen op sess payload ∈ w_log w' /\ (forall st, je_open env = Ok st -> RJoin op st ∈ w_log w').
Proof.
  unfold open_and_join, emit. rewrite run_bind, run_modify. destruct (je_open env) as [st|e].
  - rewrite run_bind, run_act. cbn [w_live log].
    destruct (Live.Add (g_GrantID g) op st (w_live w)) as [h l]. rewrite run_bind.
    audited w1 L1.
    rewrite run_bind, run_modify, run_bind.
    audited w2 L2.
    rewrite run_modify. eexists. split; [done|]. cbn in L1, L2 |- *. rewrite L2, L1. split; [set_solver|].
    intros st' [= <-]. set_solver.
  - unfold auditDenied. rewrite run_bind.
    audited w1 L1.
    eexists. split; [done|]. cbn in L1 |- *. rewrite L1. split; [set_solver|done].
Qed.

(** A grant that verifies, presented by its operator for its device and not
    revoked, is forwarded as it is. *)
Lemma joinStream_forwards op sess payload env w g :
  DecodeGrant payload = Ok g -> Verify g (rc_GrantKey cfg) (je_now env) (g_DeviceID g) = Ok tt ->
  ~ is_revoked (g_GrantID g) (w_db w) ->
  exists w', run (joinStream cfg op sess (g_DeviceID g) (g_UserID g) payload env) w = Some (tt, w')
    /\ ROpen op sess payload ∈ w_log w' /\ (forall st, je_open env = Ok st -> RJoin op st ∈ w_log w').
Proof.
  intros Hd Hv Hr. unfold joinStream. destruct payload as [|b payload]; [done|]. cbn [length Nat.eqb]. rewrite Hd, Hv.
  rewrite !bool_decide_eq_true_2 by done. cbn [negb]. destruct (rc_Grants cfg); [|apply run_open_and_join].
  unfold db_call. rewrite run_bind, run_act.
  destruct (Grants.StateOf (g_GrantID g) (je_check_faults env) (w_db w)) as [[[st|e] d] fl] eqn:ES; [|apply run_open_and_join].
  destruct (Grants.st_Known st); cbn [negb]; [|apply run_open_and_join].
  destruct (Grants.st_Revoked st) eqn:Er; [|apply run_open_and_join]. exfalso. apply Hr. revert ES.
  unfold Grants.StateOf, LookupGrant, attempt, query, stmt, db_bind. destruct (next_fault _) as [[|] fl1]; cbn; [done|].
  unfold is_revoked. destruct (grants (w_db w) !! g_GrantID g) as [r|]; cbn; [|by intros [= <- _ _]]. intros [= <- _ _].
  exists r. split; [done|]. cbn in Er. unfold Revoked in Er. cbn in Er. apply bool_decide_eq_true in Er. by destruct (gr_revoked_at r).
Qed.
End Forward.

(** ** The window between the check and the registration *)

Definition rl_config : relay_config := mkRelayConfig (@ed_public toy_ed demo_key) true false.

Definition rl_world : World := mkWorld cp_issued.1.2 Live.NewLiveStreams Sessions.NewRegistry [].

Definition rl_env : join_env := mkJoinEnv (Unix 1700000010) [] [] (Ok 7%nat) (0, 0) None 0.

Definition rl_payload : list byte := Encode cp_signed.

(** An operator's stream being joined while that operator logs out. *)
Definition rl_procs : list (proc World unit) :=
  [@joinStream toy_ed rl_config 5 6 "dev1" "alice" rl_payload rl_env;
   end_session_proc "ses_1" "alice" Login.ReasonLogout cp_now cp_now cp_now []].

(** The check; the whole logout; then opening, registering and joining. *)
Definition rl_order : list nat := [0; 1; 1; 0; 0; 0]%nat.

(** What can be seen of the outcome: what the relay did, how many streams run
    under the grant, the grant's state, and whether the logout is finished. *)
Definition rl_observe (x : World * list (proc World unit))
    : list relay_event * Z * res Grants.State * bool :=
  (w_log x.1, Live.CountFor (g_GrantID cp_signed) (w_live x.1),
   (Grants.StateOf (g_GrantID cp_signed) [] (w_db x.1)).1.1,
   match x.2 !! 1%nat with Some (Ret _) => true | _ => false end).

(** C38.  A revocation can miss a stream: the relay checks a grant's state before
    it opens and registers the stream, so a logout that runs to completion in
    between finds nothing registered to reset, and the stream is joined and
    keeps running under a grant that is revoked. *)
Theorem revocation_misses_joining_stream :
  exists x, rtc (pool_step (fun _ => False)) (rl_world, rl_procs) x
    /\ rl_observe x = ([ROpen 5 6 rl_payload; RJoin 5 7], 1, Ok (Grants.mkState true true "ses_1" "alice"), true).
Proof.
  assert (rl_observe <$> sched rl_order rl_world rl_procs
    = Some ([ROpen 5 6 rl_payload; RJoin 5 7], 1, Ok (Grants.mkState true true "ses_1" "alice"), true)) as E
    by (vm_compute; reflexivity).
  destruct (sched rl_order rl_world rl_procs) as [x|] eqn:Es; [|done].
  exists x. split; [exact (sched_steps _ _ _ _ _ Es) | exact (Some_inj _ _ E)].
Qed.

(** ** Witnesses *)

Definition rl_user (op : nat) : string := "alice".
Definition rl_device (op : nat) : string := "dev1".
Definition rl_certs (conn : nat) : option Cert := None.

Lemma rl_reaches ok_env :
  ok_env rl_env ->
  exists w ps, rtc (pool_step (@relay_proc toy_ed rl_config rl_certs rl_user rl_device ok_env)) (rl_world, []) (w, ps)
    /\ w_log w = [ROpen 5 6 rl_payload; RJoin 5 7].
Proof.
  intros Hok.
  assert ((fun x => w_log x.1) <$> sched rl_order rl_world rl_procs
    = Some [ROpen 5 6 rl_payload; RJoin 5 7]) as E by (vm_compute; reflexivity).
  destruct (sched rl_order rl_world rl_procs) as [[w ps]|] eqn:Es; [|done].
  exists w, ps. split; [|exact (Some_inj _ _ E)].
  trans (rl_world, rl_procs); [|exact (sched_steps _ _ _ _ _ Es)].
  apply (spawn_steps _ _ rl_procs []). unfold rl_procs.
  apply Forall_cons_2; [|apply Forall_cons_2; [apply rp_end | apply Forall_nil_2]].
  exact (rp_join rl_config rl_certs rl_user rl_device ok_env 5 6 rl_payload rl_env Hok).
Qed.


(** The same relay, with another grant revoked from the start. *)
Definition rl_revoked_world : World :=
  mkWorld (with_grants (<["grn_x" := revoke_row 0 "lost" (row_of_grant cp_late)]> (grants cp_issued.1.2)) cp_issued.1.2)
    Live.NewLiveStreams Sessions.NewRegistry [].

Lemma rl_revoked_reaches :
  exists w ps, rtc (pool_step (@relay_proc toy_ed rl_config rl_certs rl_user rl_device (fun e => je_check_faults e = [])))
      (rl_revoked_world, []) (w, ps)
    /\ w_log w = [ROpen 5 6 rl_payload; RJoin 5 7].
Proof.
  assert ((fun x => w_log x.1) <$> sched rl_order rl_revoked_world rl_procs
    = Some [ROpen 5 6 rl_payload; RJoin 5 7]) as E by (vm_compute; reflexivity).
  destruct (sched rl_order rl_revoked_world rl_procs) as [[w ps]|] eqn:Es; [|done].
  exists w, ps. split; [|exact (Some_inj _ _ E)].
  trans (rl_revoked_world, rl_procs); [|exact (sched_steps _ _ _ _ _ Es)].
  apply (spawn_steps _ _ rl_procs []). unfold rl_procs.
  apply Forall_cons_2; [|apply Forall_cons_2; [apply rp_end | apply Forall_nil_2]].
  exact (rp_join rl_config rl_certs rl_user rl_device (fun e => je_check_faults e = []) 5 6 rl_payload rl_env eq_refl).
Qed.

