(* ===== verification/RelayRun.v ===== *)
(** * The relay's life

    [src/internal/relay/relay.go]: [Run] with its accept loop, [Shutdown],
    [stopping] and [newSessionID], together with what the handler of an agent
    does to the registry while the relay goes down.  The state is that of one
    [Server]; every step is one critical section, system call or channel
    operation of one of its goroutines, and the goroutines interleave freely.

    A connection's handler is the part of [serveAgent] (Relay.v) that touches
    what [Shutdown] touches: it registers the session, closes the one it
    replaced, waits for the session or the context to end, deregisters, closes
    the session and records the disconnection. *)

From S2P Require Import Prelude GoErrors GoTime Proto Registry NetAddr Duration.

(** ** Session identifiers *)

(** [fmt.Sprintf("%s_%d", prefix, s.nextSession.Add(1))]: the counter is a
    [uint64]. *)
Definition newSessionID (prefix : list Z) (nextSession : Z) : list Z * Z :=
  let n := uwrap 64 (nextSession + 1) in
  (prefix ++ 95 :: fmtInt [] n, n).

(** ** The state *)

(** Where the handler of a connection is. *)
Inductive phase :=
| PServing                                  (* TLS and protocol handshakes *)
| PRefused                                  (* turned away, never registered *)
| PReplacing (d : string) (old : nat)       (* registered; the old session not closed yet *)
| PRegistered (d : string)                  (* waiting for the session or the context *)
| PLeaving (d : string)                     (* deregistered *)
| PClosed (d : string)                      (* the session closed; nothing recorded yet *)
| PDone.

Record Server := mkServer {
  sv_ctx : bool;                            (* the context is cancelled *)
  sv_ln : option bool;                      (* the listener: absent, open, closed *)
  sv_closed : bool;                         (* Server.closed *)
  sv_sweep : bool;                          (* Shutdown still has to call CloseAll *)
  sv_reg : Sessions.Registry;
  sv_conns : gmap nat phase;
  sv_returned : bool;                       (* Run has returned *)
  sv_store : bool;                          (* the database is open *)
  sv_recorded : list (nat * string)         (* disconnections in the audit trail *)
}.

Definition New_server : Server := mkServer false None false false Sessions.NewRegistry ∅ false true [].

Definition with_conn_phase (c : nat) (p : phase) (s : Server) : Server :=
  mkServer (sv_ctx s) (sv_ln s) (sv_closed s) (sv_sweep s) (sv_reg s) (<[c := p]> (sv_conns s)) (sv_returned s)
    (sv_store s) (sv_recorded s).

Definition with_reg (r : Sessions.Registry) (s : Server) : Server :=
  mkServer (sv_ctx s) (sv_ln s) (sv_closed s) (sv_sweep s) r (sv_conns s) (sv_returned s) (sv_store s) (sv_recorded s).

Definition with_stop (ctx : bool) (ln : option bool) (closed sweep : bool) (s : Server) : Server :=
  mkServer ctx ln closed sweep (sv_reg s) (sv_conns s) (sv_returned s) (sv_store s) (sv_recorded s).

Definition with_return (returned store : bool) (s : Server) : Server :=
  mkServer (sv_ctx s) (sv_ln s) (sv_closed s) (sv_sweep s) (sv_reg s) (sv_conns s) returned store (sv_recorded s).

Definition with_record (r : list (nat * string)) (s : Server) : Server :=
  mkServer (sv_ctx s) (sv_ln s) (sv_closed s) (sv_sweep s) (sv_reg s) (sv_conns s) (sv_returned s) (sv_store s) r.

(** ** Run *)

(** [tls.Listen]; [None]: it failed and [Run] returned an error. *)
Definition Run_listen (s : Server) : option Server :=
  match sv_ln s with
  | None => Some (with_stop (sv_ctx s) (Some true) (sv_closed s) (sv_sweep s) s)
  | Some _ => None
  end.

(** [ln.Accept] returned a connection: [go s.serve(ctx, nc)]. *)
Definition Run_accept (c : nat) (s : Server) : option Server :=
  match sv_ln s, sv_conns s !! c with
  | Some true, None => if sv_returned s then None else Some (with_conn_phase c PServing s)
  | _, _ => None
  end.

(** [stopping]: does an accept error mean shutdown? *)
Definition stopping (ctx_done err_closed : bool) : bool := err_closed || ctx_done.

(** [ln.Accept] failed, with [net.ErrClosed] exactly when the listener is
    closed: [Run] returns or goes round again at once. *)
Definition Run_accept_error (s : Server) : option Server :=
  match sv_ln s with
  | Some open =>
      if sv_returned s then None
      else if stopping (sv_ctx s) (negb open) then Some (with_return true (sv_store s) s) else Some s
  | None => None
  end.

(** What [Run] returns once it is stopping: [ctx.Err()]. *)
Definition Run_result (s : Server) : option error := if sv_ctx s then Some (ESentinel CtxCanceled) else None.

(** The process ends: [cmdRun]'s deferred [dep.close]. *)
Definition close_store (s : Server) : option Server :=
  if sv_returned s then Some (with_return true false s) else None.

(** ** Shutdown *)

Definition cancel (s : Server) : option Server := Some (with_stop true (sv_ln s) (sv_closed s) (sv_sweep s) s).

(** The critical section and [ln.Close]; a second call does nothing. *)
Definition Shutdown_begin (s : Server) : option Server :=
  if sv_closed s then None
  else Some (with_stop (sv_ctx s) (match sv_ln s with Some _ => Some false | None => None end) true true s).

(** [s.registry.CloseAll(proto.ReasonShutdown)]. *)
Definition Shutdown_sweep (s : Server) : option Server :=
  if sv_sweep s
  then Some (with_reg (Sessions.CloseAll ReasonShutdown (sv_reg s)) (with_stop (sv_ctx s) (sv_ln s) (sv_closed s) false s))
  else None.

(** ** The handler of an agent *)

Definition agent_refused (c : nat) (s : Server) : option Server :=
  match sv_conns s !! c with
  | Some PServing => Some (with_conn_phase c PRefused s)
  | _ => None
  end.

Definition agent_register (c : nat) (d : string) (s : Server) : option Server :=
  match sv_conns s !! c with
  | Some PServing =>
      let '(replaced, reg) := Sessions.Add d c (sv_reg s) in
      Some (with_conn_phase c (match replaced with Some old => PReplacing d old | None => PRegistered d end) (with_reg reg s))
  | _ => None
  end.

Definition agent_replace (c : nat) (s : Server) : option Server :=
  match sv_conns s !! c with
  | Some (PReplacing d old) =>
      Some (with_conn_phase c (PRegistered d) (with_reg (Sessions.session_Close old ReasonSessionReplaced (sv_reg s)) s))
  | _ => None
  end.

(** The far end goes away: the session ends by itself. *)
Definition agent_dies (c : nat) (r : reason) (s : Server) : option Server :=
  match sv_conns s !! c with
  | Some (PReplacing _ _) | Some (PRegistered _) => Some (with_reg (Sessions.session_Close c r (sv_reg s)) s)
  | _ => None
  end.

(** The [select], then [registry.Remove]. *)
Definition agent_leave (c : nat) (s : Server) : option Server :=
  match sv_conns s !! c with
  | Some (PRegistered d) =>
      if sv_ctx s || bool_decide (is_Some (Sessions.ended (sv_reg s) !! c))
      then Some (with_conn_phase c (PLeaving d) (with_reg (Sessions.Remove d c (sv_reg s)) s))
      else None
  | _ => None
  end.

Definition agent_close (c : nat) (s : Server) : option Server :=
  match sv_conns s !! c with
  | Some (PLeaving d) =>
      Some (with_conn_phase c (PClosed d) (with_reg (Sessions.session_Close c ReasonShutdown (sv_reg s)) s))
  | _ => None
  end.

(** [DeviceDisconnected]: written if the database is still open. *)
Definition agent_record (c : nat) (s : Server) : option Server :=
  match sv_conns s !! c with
  | Some (PClosed d) =>
      Some (with_conn_phase c PDone
              (if sv_store s then with_record (sv_recorded s ++ [(c, d)]) s else s))
  | _ => None
  end.

(** ** Steps *)

Inductive event :=
| EListen | EAccept (c : nat) | EAcceptError | ECancel | EShutdown | ESweep | EExit
| ERefuse (c : nat) | ERegister (c : nat) (d : string) | EReplace (c : nat) | EDie (c : nat) (r : reason)
| ELeave (c : nat) | EClose (c : nat) | ERecord (c : nat).

Definition step (e : event) : Server -> option Server :=
  match e with
  | EListen => Run_listen
  | EAccept c => Run_accept c
  | EAcceptError => Run_accept_error
  | ECancel => cancel
  | EShutdown => Shutdown_begin
  | ESweep => Shutdown_sweep
  | EExit => close_store
  | ERefuse c => agent_refused c
  | ERegister c d => agent_register c d
  | EReplace c => agent_replace c
  | EDie c r => agent_dies c r
  | ELeave c => agent_leave c
  | EClose c => agent_close c
  | ERecord c => agent_record c
  end.

Fixpoint steps (es : list event) (s : Server) : option Server :=
  match es with
  | [] => Some s
  | e :: es' => match step e s with Some s' => steps es' s' | None => None end
  end.

Definition reaches (s s' : Server) : Prop := exists es, steps es s = Some s'.

(** The handler's own next step. *)
Definition handler_event (c : nat) (p : phase) : option event :=
  match p with
  | PServing => Some (ERefuse c)
  | PReplacing _ _ => Some (EReplace c)
  | PRegistered _ => Some (ELeave c)
  | PLeaving _ => Some (EClose c)
  | PClosed _ => Some (ERecord c)
  | PRefused | PDone => None
  end.

(** ** Lemmas *)

(** A registered session belongs to a handler that will deregister it. *)
Definition owned (s : Server) : Prop :=
  forall d c, Sessions.agents (sv_reg s) !! d = Some c ->
    sv_conns s !! c = Some (PRegistered d) \/ exists old, sv_conns s !! c = Some (PReplacing d old).

Definition ended_of (s : Server) (c : nat) : Prop := is_Some (Sessions.ended (sv_reg s) !! c).

Definition after_close (p : phase) : bool := match p with PClosed _ | PDone => true | _ => false end.

(** A session whose handler got past closing it is closed, and what is recorded
    is over. *)
Definition settled (s : Server) : Prop :=
  (forall c p, sv_conns s !! c = Some p -> after_close p = true -> ended_of s c)
  /\ (forall c d, (c, d) ∈ sv_recorded s -> ended_of s c /\ sv_conns s !! c = Some PDone).

Definition life_inv (s : Server) : Prop := owned s /\ settled s.

Lemma ended_session_Close c r reg c' :
  is_Some (Sessions.ended (Sessions.session_Close c r reg) !! c')
  <-> c' = c \/ is_Some (Sessions.ended reg !! c').
Proof.
  unfold Sessions.session_Close. destruct (Sessions.ended reg !! c) as [x|] eqn:E; cbn.
  - split; [auto|]. intros [->|]; [by rewrite E|done].
  - destruct (decide (c' = c)) as [->|]; [rewrite lookup_insert_eq; naive_solver|].
    rewrite lookup_insert_ne by done. naive_solver.
Qed.

Lemma agents_session_Close c r reg : Sessions.agents (Sessions.session_Close c r reg) = Sessions.agents reg.
Proof. unfold Sessions.session_Close. by destruct (Sessions.ended reg !! c). Qed.

Lemma agents_Remove d c reg d' c' :
  Sessions.agents (Sessions.Remove d c reg) !! d' = Some c' <->
  Sessions.agents reg !! d' = Some c' /\ ~ (d' = d /\ c' = c).
Proof.
  unfold Sessions.Remove. destruct (Sessions.agents reg !! d) as [cur|] eqn:E; [|naive_solver].
  destruct (Nat.eqb_spec cur c) as [->|Hc]; cbn; [|naive_solver].
  rewrite lookup_delete_Some. naive_solver.
Qed.

Lemma ended_Remove d c reg : Sessions.ended (Sessions.Remove d c reg) = Sessions.ended reg.
Proof. unfold Sessions.Remove. destruct (Sessions.agents reg !! d) as [cur|]; [|done]. by destruct (_ =? _)%nat. Qed.

Lemma ended_CloseAll_mono r reg c : is_Some (Sessions.ended reg !! c) -> is_Some (Sessions.ended (Sessions.CloseAll r reg) !! c).
Proof. apply (Sessions.ended_mono (Sessions.ShutDown r)). Qed.

Lemma life_inv_init : life_inv New_server.
Proof. split; [intros d c; cbn; by rewrite lookup_empty|]. split; [intros c d; cbn; by rewrite lookup_empty|]. by intros c d ?%elem_of_nil. Qed.

(** Moving one handler along: what must be checked. *)
Lemma phase_inv s c p p' reg rec :
  life_inv s -> sv_conns s !! c = Some p -> p <> PDone ->
  (forall d c', Sessions.agents reg !! d = Some c' -> c' <> c -> Sessions.agents (sv_reg s) !! d = Some c') ->
  (forall d, Sessions.agents reg !! d = Some c -> p' = PRegistered d \/ exists old, p' = PReplacing d old) ->
  (forall c', ended_of s c' -> is_Some (Sessions.ended reg !! c')) ->
  (after_close p' = true -> is_Some (Sessions.ended reg !! c)) ->
  (rec = sv_recorded s \/ (exists d, rec = sv_recorded s ++ [(c, d)] /\ p' = PDone /\ is_Some (Sessions.ended reg !! c))) ->
  life_inv (with_record rec (with_conn_phase c p' (with_reg reg s))).
Proof.
  intros [Ho [Hc Hr]] Hp Hnd Ha1 Ha2 He Hcl Hrec. split; [|split]; cbn.
  - intros d c'. cbn. destruct (decide (c' = c)) as [->|Hne]; intros Hd.
    + rewrite lookup_insert_eq. destruct (Ha2 d Hd) as [->|[old ->]]; eauto.
    + rewrite lookup_insert_ne by done. apply Ho, Ha1; done.
  - intros c' q. unfold ended_of. cbn. destruct (decide (c' = c)) as [->|Hne].
    + rewrite lookup_insert_eq. intros [= ->]. auto.
    + rewrite lookup_insert_ne by done. intros H1 H2. by eapply He, Hc.
  - intros c' d. unfold ended_of. cbn.
    assert (Hold : (c', d) ∈ sv_recorded s -> is_Some (Sessions.ended reg !! c') /\ <[c:=p']> (sv_conns s) !! c' = Some PDone).
    { intros [H1 H2]%Hr. split; [by apply He|]. rewrite lookup_insert_ne; [done|]. congruence. }
    destruct Hrec as [->|(d0 & -> & -> & Hec)]; [done|]. rewrite elem_of_app, list_elem_of_singleton.
    intros [?|[= -> ->]]; [auto|]. by rewrite lookup_insert_eq.
Qed.

(** Steps that leave handlers, registry entries and records alone. *)
Lemma idle_inv s s' :
  life_inv s -> sv_conns s' = sv_conns s -> sv_recorded s' = sv_recorded s ->
  (forall d c, Sessions.agents (sv_reg s') !! d = Some c -> Sessions.agents (sv_reg s) !! d = Some c) ->
  (forall c, ended_of s c -> ended_of s' c) -> life_inv s'.
Proof.
  intros [Ho [Hc Hr]] E1 E2 Ha He. unfold life_inv, owned, settled. rewrite E1, E2. split; [|split].
  - intros d c Hd. by apply Ho, Ha.
  - intros c p Hp Hac. by eapply He, Hc.
  - intros c d Hin. destruct (Hr c d Hin) as [H1 H2]. auto.
Qed.

Lemma with_record_id s c p reg : with_record (sv_recorded s) (with_conn_phase c p (with_reg reg s)) = with_conn_phase c p (with_reg reg s).
Proof. done. Qed.

Lemma accept_inv s c : life_inv s -> sv_conns s !! c = None -> life_inv (with_conn_phase c PServing s).
Proof.
  intros [Ho [Hc Hr]] Hn. split; [|split]; cbn.
  - intros d c' Hd. cbn. destruct (decide (c' = c)) as [->|]; [|rewrite lookup_insert_ne by done; auto].
    destruct (Ho d c Hd) as [E|[? E]]; congruence.
  - intros c' q. destruct (decide (c' = c)) as [->|]; [rewrite lookup_insert_eq; by intros [= <-]|]. rewrite lookup_insert_ne by done. apply Hc.
  - intros c' d Hin. destruct (Hr c' d Hin) as [H1 H2]. split; [done|]. rewrite lookup_insert_ne; [done|congruence].
Qed.

Lemma step_inv e s s' : life_inv s -> step e s = Some s' -> life_inv s'.
Proof.
  intros HI. pose proof HI as [Ho [Hc Hr]].
  destruct e as [|c| | | | | |c|c d|c|c r|c|c|c]; cbn.
  - unfold Run_listen. destruct (sv_ln s); [done|]. intros [= <-]. by apply (idle_inv s).
  - unfold Run_accept. destruct (sv_ln s) as [[]|]; [|done|done]. destruct (sv_conns s !! c) eqn:E; [done|].
    destruct (sv_returned s); [done|]. intros [= <-]. by apply accept_inv.
  - unfold Run_accept_error. destruct (sv_ln s); [|done]. destruct (sv_returned s); [done|].
    destruct (stopping _ _); intros [= <-]; [by apply (idle_inv s)|done].
  - intros [= <-]. by apply (idle_inv s).
  - unfold Shutdown_begin. destruct (sv_closed s); [done|]. intros [= <-]. by apply (idle_inv s).
  - unfold Shutdown_sweep. destruct (sv_sweep s); [|done]. intros [= <-]. apply (idle_inv s); [done..| |].
    + intros d c. cbn. rewrite Sessions.agents_CloseAll. by rewrite lookup_empty.
    + intros c. apply ended_CloseAll_mono.
  - unfold close_store. destruct (sv_returned s); [|done]. intros [= <-]. by apply (idle_inv s).
  - unfold agent_refused. destruct (sv_conns s !! c) as [[]|] eqn:E; try done. intros [= <-].
    apply (phase_inv s c PServing PRefused (sv_reg s) (sv_recorded s)); auto; [|done].
    intros d Hd. destruct (Ho d c Hd) as [E'|[? E']]; congruence.
  - unfold agent_register. destruct (sv_conns s !! c) as [[]|] eqn:E; try done. cbn. intros [= <-].
    apply (phase_inv s c PServing _ _ (sv_recorded s)); cbn; auto.
    + intros d' c' Hd Hne. apply lookup_insert_Some in Hd as [[_ ?]|[_ ?]]; [congruence|done].
    + intros d' [[-> _]|[_ Hd]]%lookup_insert_Some; [destruct (Sessions.agents (sv_reg s) !! d'); eauto|].
      destruct (Ho d' c Hd) as [E'|[? E']]; congruence.
    + by destruct (Sessions.agents (sv_reg s) !! d).
  - unfold agent_replace. destruct (sv_conns s !! c) as [[| |d old| | | |]|] eqn:E; try done. intros [= <-].
    apply (phase_inv s c (PReplacing d old) (PRegistered d) (Sessions.session_Close old ReasonSessionReplaced (sv_reg s)) (sv_recorded s)); auto; [| | |done].
    + intros d' c'. by rewrite agents_session_Close.
    + intros d' Hd. rewrite agents_session_Close in Hd. destruct (Ho d' c Hd) as [E'|[? E']]; [congruence|]. left. congruence.
    + intros c' Hc'. apply ended_session_Close. auto.
  - unfold agent_dies. assert (HI' : life_inv (with_reg (Sessions.session_Close c r (sv_reg s)) s)).
    { apply (idle_inv s); [done..| |]; [intros d c'; cbn; by rewrite agents_session_Close|].
      intros c' Hc'. apply ended_session_Close. auto. }
    destruct (sv_conns s !! c) as [[]|]; try done; by intros [= <-].
  - unfold agent_leave. destruct (sv_conns s !! c) as [[| | |d| | |]|] eqn:E; try done. destruct (_ || _); [|done]. intros [= <-].
    apply (phase_inv s c (PRegistered d) (PLeaving d) (Sessions.Remove d c (sv_reg s)) (sv_recorded s)); auto; [| | |done].
    + intros d' c' Hd _. apply agents_Remove in Hd as [Hd _]. exact Hd.
    + intros d' [Hd Hn]%agents_Remove. destruct Hn. split; [|done]. destruct (Ho d' c Hd) as [E'|[? E']]; congruence.
    + intros c'. by rewrite ended_Remove.
  - unfold agent_close. destruct (sv_conns s !! c) as [[| | | |d| |]|] eqn:E; try done. intros [= <-].
    apply (phase_inv s c (PLeaving d) (PClosed d) (Sessions.session_Close c ReasonShutdown (sv_reg s)) (sv_recorded s)); auto.
    + intros d' c'. by rewrite agents_session_Close.
    + intros d'. rewrite agents_session_Close. intros Hd. destruct (Ho d' c Hd) as [E'|[? E']]; congruence.
    + intros c' Hc'. apply ended_session_Close. auto.
    + intros _. apply ended_session_Close. auto.
  - unfold agent_record. destruct (sv_conns s !! c) as [[| | | | |d|]|] eqn:E; try done. intros [= <-].
    assert (Hn : forall d', Sessions.agents (sv_reg s) !! d' = Some c -> PDone = PRegistered d' \/ exists old, PDone = PReplacing d' old).
    { intros d' Hd. destruct (Ho d' c Hd) as [E'|[? E']]; congruence. }
    pose proof (Hc c (PClosed d) E eq_refl) as He. destruct (sv_store s).
    + apply (phase_inv s c (PClosed d) PDone (sv_reg s) (sv_recorded s ++ [(c, d)])); auto; try done.
      right. eauto.
    + apply (phase_inv s c (PClosed d) PDone (sv_reg s) (sv_recorded s)); auto.
Qed.

Lemma reaches_inv s s' : life_inv s -> reaches s s' -> life_inv s'.
Proof.
  intros HI [es Hs]. revert s HI Hs. induction es as [|e es IH]; intros s HI; cbn; [by intros [= <-]|].
  destruct (step e s) as [s1|] eqn:E; [|done]. apply IH. by eapply step_inv.
Qed.

(** *** Work left to the handlers *)

Definition weight (p : phase) : nat :=
  match p with
  | PServing => 5
  | PReplacing _ _ => 4
  | PRegistered _ => 3
  | PLeaving _ => 2
  | PClosed _ => 1
  | PRefused | PDone => 0
  end.

Definition work (s : Server) : nat := map_fold (fun _ p n => weight p + n)%nat 0%nat (sv_conns s).

Definition is_handler (e : event) : bool :=
  match e with
  | ERefuse _ | ERegister _ _ | EReplace _ | ELeave _ | EClose _ | ERecord _ => true
  | _ => false
  end.

Lemma work_insert (m : gmap nat phase) c p p' :
  m !! c = Some p ->
  (map_fold (fun _ p n => weight p + n) 0 (<[c := p']> m) + weight p
   = map_fold (fun _ p n => weight p + n) 0 m + weight p')%nat.
Proof.
  intros Hm. rewrite <- (insert_delete_id m c p Hm) at 2. rewrite <- insert_delete_eq.
  rewrite !map_fold_insert_L by (try (intros; lia); apply lookup_delete_eq). lia.
Qed.

(** A handler that has returned. *)
Definition over (p : phase) : Prop := p = PDone \/ p = PRefused.

Lemma weight_zero p : weight p = 0%nat <-> over p.
Proof. unfold over. destruct p; cbn; naive_solver lia. Qed.

(** Every step of a handler leaves less to do. *)
Lemma handler_step_works e s s' : step e s = Some s' -> is_handler e = true -> (work s' < work s)%nat /\ sv_ctx s' = sv_ctx s.
Proof.
  assert (Hgo : forall c p p' s1, sv_conns s !! c = Some p -> (weight p' < weight p)%nat ->
    sv_conns s1 = <[c := p']> (sv_conns s) -> (work s1 < work s)%nat).
  { intros c p p' s1 Hp Hw E. unfold work. rewrite E. pose proof (work_insert _ c p p' Hp). lia. }
  destruct e as [| | | | | | |c|c d|c|c r|c|c|c]; try done; cbn; intros H _.
  - unfold agent_refused in H. destruct (sv_conns s !! c) as [[]|] eqn:E; try done. injection H as <-.
    split; [eapply (Hgo c PServing PRefused); [exact E|cbn; lia|done]|done].
  - unfold agent_register in H. destruct (sv_conns s !! c) as [[]|] eqn:E; try done. injection H as <-. split; [|done].
    destruct (Sessions.agents (sv_reg s) !! d) as [old|];
      [eapply (Hgo c PServing (PReplacing d old)); [exact E|cbn; lia|done]|eapply (Hgo c PServing (PRegistered d)); [exact E|cbn; lia|done]].
  - unfold agent_replace in H. destruct (sv_conns s !! c) as [[| |d old| | | |]|] eqn:E; try done. injection H as <-.
    split; [eapply (Hgo c (PReplacing d old) (PRegistered d)); [exact E|cbn; lia|done]|done].
  - unfold agent_leave in H. destruct (sv_conns s !! c) as [[| | |d| | |]|] eqn:E; try done. destruct (_ || _); [|done].
    injection H as <-. split; [eapply (Hgo c (PRegistered d) (PLeaving d)); [exact E|cbn; lia|done]|done].
  - unfold agent_close in H. destruct (sv_conns s !! c) as [[| | | |d| |]|] eqn:E; try done. injection H as <-.
    split; [eapply (Hgo c (PLeaving d) (PClosed d)); [exact E|cbn; lia|done]|done].
  - unfold agent_record in H. destruct (sv_conns s !! c) as [[| | | | |d|]|] eqn:E; try done. injection H as <-.
    split; [|by destruct (sv_store s)]. eapply (Hgo c (PClosed d) PDone); [exact E|cbn; lia|by destruct (sv_store s)].
Qed.

(** Once the context is cancelled no handler waits. *)
Lemma handler_enabled s c p :
  sv_ctx s = true -> sv_conns s !! c = Some p -> ~ over p ->
  exists e s', handler_event c p = Some e /\ is_handler e = true /\ step e s = Some s'.
Proof.
  intros Hctx Hp Hnd. unfold over in Hnd.
  destruct p; try (destruct Hnd; by auto); do 2 eexists; (split; [reflexivity|]); (split; [reflexivity|]); cbn.
  - unfold agent_refused. by rewrite Hp.
  - unfold agent_replace. by rewrite Hp.
  - unfold agent_leave. by rewrite Hp, Hctx.
  - unfold agent_close. by rewrite Hp.
  - unfold agent_record. by rewrite Hp.
Qed.

Lemma steps_app es1 es2 s s1 s2 : steps es1 s = Some s1 -> steps es2 s1 = Some s2 -> steps (es1 ++ es2) s = Some s2.
Proof.
  revert s. induction es1 as [|e es IH]; intros s; cbn; [by intros [= ->]|]. destruct (step e s); [|done]. apply IH.
Qed.

Definition quiet (s : Server) : Prop := forall c p, sv_conns s !! c = Some p -> over p.

Lemma quiet_or s : quiet s \/ exists c p, sv_conns s !! c = Some p /\ ~ over p.
Proof.
  destruct (decide (map_Forall (fun _ p => weight p = 0%nat) (sv_conns s))) as [H|H].
  - left. intros c p Hp. by apply weight_zero, (H c p).
  - right. apply map_not_Forall in H as (c & p & Hp & Hw); [|apply _]. exists c, p. split; [done|].
    by rewrite <- weight_zero.
Qed.

Lemma handlers_finish n : forall s,
  sv_ctx s = true -> (work s <= n)%nat ->
  exists es s', steps es s = Some s' /\ Forall (fun e => is_handler e = true) es /\ quiet s'.
Proof.
  induction n as [|n IH]; intros s Hctx Hn.
  - destruct (quiet_or s) as [Hq|(c & p & Hp & Hnd)]; [by exists [], s|].
    destruct (handler_enabled s c p Hctx Hp Hnd) as (e & s' & _ & He & Hs).
    apply handler_step_works in Hs; [lia|done].
  - destruct (quiet_or s) as [Hq|(c & p & Hp & Hnd)]; [by exists [], s|].
    destruct (handler_enabled s c p Hctx Hp Hnd) as (e & s1 & _ & He & Hs).
    destruct (handler_step_works _ _ _ Hs He) as [Hw Hc].
    destruct (IH s1) as (es & s' & H1 & H2 & H3); [congruence|lia|].
    exists (e :: es), s'. cbn. rewrite Hs. split_and!; [done|by constructor|done].
Qed.

Lemma handlers_bounded es : forall s s',
  steps es s = Some s' -> Forall (fun e => is_handler e = true) es -> (length es + work s' <= work s)%nat.
Proof.
  induction es as [|e es IH]; intros s s'; cbn; [by intros [= <-]|].
  destruct (step e s) as [s1|] eqn:E; [|done]. intros H1 H2. inversion_clear H2 as [|? ? He Hes].
  destruct (handler_step_works _ _ _ E He). specialize (IH s1 s' H1 Hes). lia.
Qed.

Lemma recorded_after_exit e s s' :
  step e s = Some s' -> sv_store s = false -> sv_store s' = false /\ sv_recorded s' = sv_recorded s.
Proof.
  intros H Hst. destruct e; cbn in H;
    unfold Run_listen, Run_accept, Run_accept_error, cancel, Shutdown_begin, Shutdown_sweep, close_store, agent_refused,
      agent_register, agent_replace, agent_dies, agent_leave, agent_close, agent_record in H;
    repeat case_match; simplify_eq/=; done || congruence.
Qed.

Lemma work_bound s : (work s <= 5 * size (sv_conns s))%nat.
Proof.
  unfold work. apply (map_fold_weak_ind (fun n m => n <= 5 * size m)%nat); [cbn; lia|].
  intros c p m n Hc IH. rewrite map_size_insert_None by done. assert (weight p <= 5)%nat by (destruct p; cbn; lia). lia.
Qed.

(** ** Properties *)


(** Two agents, one of which replaces the session of the other. *)
Definition demo_life : list event :=
  [EListen; EAccept 0; ERegister 0 "dev"; EAccept 1; ERegister 1 "dev"; ECancel; EShutdown].


(** The handler's record of a disconnection can be lost: [Run] returns as soon
    as the listener is closed and waits for no handler, so the process may close
    the database and exit while agents are still registered; what was not
    recorded by then never is. *)
Theorem shutdown_loses_disconnections :
  exists s c d, reaches New_server s /\ sv_returned s = true /\ sv_store s = false
    /\ sv_conns s !! c = Some (PRegistered d) /\ Sessions.agents (sv_reg s) !! d = Some c
    /\ forall s', reaches s s' -> (c, d) ∉ sv_recorded s'.
Proof.
  set (es := [EListen; EAccept 0; ERegister 0 "dev"; ECancel; EShutdown; EAcceptError; EExit]).
  destruct (steps es New_server) as [s|] eqn:E; [|vm_compute in E; discriminate].
  exists s, 0%nat, "dev". assert (Hr : reaches New_server s) by (by exists es).
  vm_compute in E. injection E as <-. split_and!; [done|done|done|reflexivity|reflexivity|].
  intros s' [es' Hs']. match type of Hs' with steps _ ?x = _ => set (s0 := x) in Hs' end.
  assert (Hgo : forall es s, sv_store s = false -> sv_recorded s = [] -> forall s', steps es s = Some s' -> sv_recorded s' = []).
  { clear. induction es as [|e es IH]; intros s H1 H2 s'; cbn; [by intros [= <-]|].
    destruct (step e s) as [s1|] eqn:E; [|done]. destruct (recorded_after_exit _ _ _ E H1) as [H3 H4].
    apply IH; [done|congruence]. }
  rewrite (Hgo es' s0 eq_refl eq_refl s' Hs'). by intros ?%elem_of_nil.
Qed.

Lemma fmtInt_inj n m : 0 <= n <= 2 ^ 63 -> 0 <= m <= 2 ^ 63 -> fmtInt [] n = fmtInt [] m -> n = m.
Proof.
  intros Hn Hm E. pose proof (leadingInt_fmtInt [] n Hn) as H1. rewrite E, leadingInt_fmtInt in H1 by done.
  cbn in H1. congruence.
Qed.

(** Session identifiers do not repeat: neither two of the same kind nor an
    agent's and an operator's are ever equal, until the counter has gone half
    way round. *)
Lemma newSessionID_unique p q n m :
  p = code "age" \/ p = code "opr" -> q = code "age" \/ q = code "opr" ->
  0 <= n < 2 ^ 63 -> 0 <= m < 2 ^ 63 ->
  (newSessionID p n).1 = (newSessionID q m).1 -> p = q /\ n = m.
Proof.
  intros Hp Hq Hn Hm E. unfold newSessionID in E. cbn in E. rewrite !uwrap_id in E by lia.
  assert (length p = 3%nat /\ length q = 3%nat) as [Hlp Hlq] by (destruct Hp as [->| ->], Hq as [->| ->]; done).
  apply app_inj_1 in E as [-> E]; [|congruence]. split; [done|]. injection E as E.
  apply fmtInt_inj in E; lia.
Qed.
