(* ===== verification/HttpApi.v ===== *)
(** * The control plane's HTTP interface

    [src/internal/control/httpapi]: enrollment, renewal, login, logout and grant
    requests, over the services of ControlPlane.v and Enrollment.v.  HTTP, TLS
    and JSON are outside: a request is what the handler reads of it ([None] for
    a body that does not decode), a response is its status and what it carries.
    Timestamps in responses and audit details go through [fmtTime]
    ([time.RFC3339]).  A handler also says which grants it had the relay
    terminate.  All readings of the clock during one request give the same
    instant [now]. *)

From S2P Require Import Prelude GoErrors GoTime Proto Handshake Grant Policy Db Storage Enrollment ControlPlane NetAddr.
Import Login Grants.
Open Scope db_scope.

Record http_request := mkRequestHTTP {
  hr_TLS : option Cert;            (* the client certificate, if one was presented *)
  hr_RemoteAddr : string;
  hr_Authorization : string
}.

Section Handlers.
Context `{X509} `{Ed25519} `{Base64} (HashToken : string -> string) (fmtTime : time -> string).

Inductive response :=
| RespError (status : Z) (msg : string)
| RespEnroll (cert ca : PEM) (identity notAfter : string) (grantKey : list byte)
| RespLogin (token sessionID userID expiresAt : string)
| RespLogout (sessionID : string) (grantsRevoked : Z)
| RespGrant (grant : list byte) (grantID expiresAt policyID sessionID : string).

(** [Server], as far as its handlers depend on it. *)
Record server := mkServer {
  h_enroll : Service;
  h_issuer : option Issuer;
  h_login : option duration;       (* the login service's session lifetime *)
  h_audit : bool;
  h_rules : list Rule;
  h_terminate : bool
}.

Definition text (l : list Z) : string := string_of_bytes (byte_of_Z <$> l).

Definition remoteHost (r : http_request) : string :=
  match SplitHostPort (code (hr_RemoteAddr r)) with
  | Some (host, _) => text host
  | None => hr_RemoteAddr r
  end.

Definition bearerPrefix : string := "Bearer ".

(** ASCII lower case; the prefix has no letter with other case variants. *)
Definition lower (c : Z) : Z := if (65 <=? c) && (c <=? 90) then c + 32 else c.

Definition bearerToken (r : http_request) : string :=
  let v := code (hr_Authorization r) in
  let p := code bearerPrefix in
  if (length v <=? length p)%nat || negb (bool_decide (lower <$> take (length p) v = lower <$> p)) then ""
  else TrimSpace (text (drop (length p) v)).

(** A handler's outcome: the response and the grants handed to [terminate]. *)
Definition reply (r : response) : dbM (response * list string) := db_ret (r, []).

Definition record (s : server) (e : AuditEvent) (now : time) : dbM unit := Record_event (h_audit s) e now now.

(** ** httpapi.go *)

Definition token_error (e : error) : bool :=
  errors_Is e ErrTokenUnknown || errors_Is e ErrTokenConsumed || errors_Is e ErrTokenExpired.

Definition enroll_response (res : Result) : response :=
  RespEnroll (res_CertificatePEM res) (res_CAPEM res) (Identity_String (res_Identity res))
    (fmtTime (res_NotAfter res)) (res_GrantPublicKey res).

Definition handleEnroll (s : server) (r : http_request) (body : option (string * option CSR))
    (serial : option Z) (now : time) : dbM (response * list string) :=
  match body with
  | None => reply (RespError 400 "malformed request")
  | Some (token, csr) =>
      do out <- attempt (Enroll HashToken (h_enroll s) token csr serial now now now now);
      match out with
      | Err e =>
          if token_error e then
            do _ <- record s (EnrollDenied (remoteHost r) "token_refused") now;
            reply (RespError 403 "enrollment refused")
          else if errors_Is e ErrInvalidCSR then
            do _ <- record s (EnrollDenied (remoteHost r) "invalid_csr") now;
            reply (RespError 400 "invalid certificate request")
          else reply (RespError 500 "enrollment failed")
      | Ok result =>
          do _ <- record s (Enrolled (id_Role (res_Identity result)) (id_ID (res_Identity result))
                    ("from " +:+ remoteHost r +:+ ", certificate valid until " +:+ fmtTime (res_NotAfter result))) now;
          reply (enroll_response result)
      end
  end.

(** ** renew.go *)

Definition recordRenewDenied (s : server) (r : http_request) (reason : string) (now : time) : dbM unit :=
  record s (event EventRenewDenied RoleSystem "" "" "" "" "" reason ("from " +:+ remoteHost r)) now.

Definition handleRenew (s : server) (r : http_request) (body : option (option CSR))
    (serial : option Z) (now : time) : dbM (response * list string) :=
  match hr_TLS r with
  | None => reply (RespError 401 "a client certificate is required")
  | Some cert =>
      match body with
      | None => reply (RespError 400 "malformed request")
      | Some csr =>
          do out <- attempt (Renew (h_enroll s) cert csr serial now now);
          match out with
          | Err e =>
              if errors_Is e ErrRevoked || errors_Is e ErrNotEnrolled then
                do _ <- recordRenewDenied s r "not_recognised" now;
                reply (RespError 403 "not recognised")
              else if errors_Is e ErrInvalidCSR then
                do _ <- recordRenewDenied s r "invalid_csr" now;
                reply (RespError 400 "invalid certificate request")
              else reply (RespError 500 "renewal failed")
          | Ok result =>
              do _ <- record s (Renewed (id_Role (res_Identity result)) (id_ID (res_Identity result))
                        ("from " +:+ remoteHost r +:+ ", valid until " +:+ fmtTime (res_NotAfter result))) now;
              reply (enroll_response result)
          end
      end
  end.

(** ** login.go *)

(** The local function [deny] of [authenticateOperator]. *)
Definition deny (s : server) (r : http_request) (deniedEvent : string) (status : Z) (msg reason : string)
    (now : time) : dbM (response + Identity) :=
  do _ <- (if negb (bool_decide (deniedEvent = "")) then
             record s (event deniedEvent RoleSystem "" "" "" "" "" reason ("from " +:+ remoteHost r)) now
           else db_ret tt);
  db_ret (inl (RespError status msg)).

(** The response to send, or the operator. *)
Definition authenticateOperator (s : server) (r : http_request) (deniedEvent : string) (now : time)
    : dbM (response + Identity) :=
  match hr_TLS r with
  | None => deny s r deniedEvent 401 "a client certificate is required" "no_certificate" now
  | Some cert =>
      do v <- attempt (VerifyEnrolled cert);
      match v with
      | Err _ => deny s r deniedEvent 403 "not recognised" "not_enrolled" now
      | Ok id =>
          if negb (bool_decide (id_Role id = RoleOperator)) then
            deny s r deniedEvent 403 "not an operator" "not_an_operator" now
          else db_ret (inr id)
      end
  end.

Definition requireSession (r : http_request) (id : Identity) (now : time)
    : dbM (response + SessionRecord) :=
  let token := bearerToken r in
  if bool_decide (token = "") then
    db_ret (inl (RespError 401 "a session is required; run login first"))
  else
    do out <- attempt (Resolve HashToken token now);
    match out with
    | Ok (rec, None) =>
        if negb (bool_decide (ss_UserID rec = id_ID id)) then
          db_ret (inl (RespError 403 "session not recognised"))
        else db_ret (inr rec)
    | Ok (_, Some e) | Err e =>
        if errors_Is e ErrSessionExpired then
          db_ret (inl (RespError 401 "session expired; run login again"))
        else if errors_Is e ErrSessionRevoked then
          db_ret (inl (RespError 403 "session was revoked"))
        else db_ret (inl (RespError 401 "session not recognised"))
    end.

(** The body, with the lifetime asked for, is decoded and not used. *)
Definition handleLogin (s : server) (r : http_request) (ttl_seconds : Z) (rnd1 rnd2 : option (list byte))
    (now : time) : dbM (response * list string) :=
  match h_login s with
  | None => reply (RespError 501 "sessions are not configured")
  | Some ttl =>
      do a <- authenticateOperator s r EventOperatorLoginDenied now;
      match a with
      | inl resp => reply resp
      | inr id =>
          do out <- attempt (Begin HashToken ttl (id_ID id) (remoteHost r) rnd1 rnd2 now now);
          match out with
          | Err _ => reply (RespError 500 "could not open a session")
          | Ok sess =>
              reply (RespLogin (lg_Token sess) (ss_SessionID (lg_Record sess)) (ss_UserID (lg_Record sess))
                       (fmtTime (ss_ExpiresAt (lg_Record sess))))
          end
      end
  end.

(** [dropRevoked]: which grants the relay is asked to terminate. *)
Definition dropRevoked (s : server) (revoked : list GrantRecord) : list string :=
  if h_terminate s then gd_GrantID <$> revoked else [].

Definition handleLogout (s : server) (r : http_request) (now : time) : dbM (response * list string) :=
  match h_login s with
  | None => reply (RespError 501 "sessions are not configured")
  | Some _ =>
      do a <- authenticateOperator s r "" now;
      match a with
      | inl resp => reply resp
      | inr id =>
          do out <- attempt (Resolve HashToken (bearerToken r) now);
          match out with
          | Err _ | Ok (_, Some _) => reply (RespLogout "" 0)
          | Ok (rec, None) =>
              if negb (bool_decide (ss_UserID rec = id_ID id)) then
                reply (RespError 403 "not your session")
              else
                do ended <- attempt (End (ss_SessionID rec) (id_ID id) ReasonLogout now now now);
                match ended with
                | Err _ => reply (RespError 500 "could not end the session")
                | Ok revoked =>
                    db_ret (RespLogout (ss_SessionID rec) (zlen revoked), dropRevoked s revoked)
                end
          end
      end
  end.

(** ** grants.go *)

Record grant_request := mkGrantRequest {
  gq_DeviceID : string;
  gq_ResourceID : string;
  gq_TTLSeconds : Z              (* int *)
}.

(** [time.Duration(n) * time.Second] wraps around. *)
Definition grant_ttl (n : Z) : duration :=
  let ttl := swrap64 (n * Second) in
  if ttl <=? 0 then MaxGrantTTL else ttl.

Definition issue_for (s : server) (i : Issuer) (id : Identity) (sessionID : string)
    (body : option grant_request) (rnd : option (list byte)) (now : time) : dbM (response * list string) :=
  match body with
  | None => reply (RespError 400 "malformed request")
  | Some q =>
      do out <- Issue i (h_rules s)
                  (mkRequest "" (id_ID id) (gq_DeviceID q) (gq_ResourceID q) (grant_ttl (gq_TTLSeconds q)) 0 sessionID)
                  rnd now now;
      match out with
      | (decision, Err e) =>
          if errors_Is e ErrDenied then reply (RespError 403 ReasonPolicyDenied)
          else reply (RespError 500 "could not issue a grant")
      | (decision, Ok signed) =>
          reply (RespGrant (Encode signed) (g_GrantID signed) (fmtTime (g_ExpiresAt signed))
                   (d_PolicyID decision) sessionID)
      end
  end.

Definition handleGrant (s : server) (r : http_request) (body : option grant_request)
    (rnd : option (list byte)) (now : time) : dbM (response * list string) :=
  match h_issuer s with
  | None => reply (RespError 501 "grants are not configured")
  | Some i =>
      do a <- authenticateOperator s r EventGrantDenied now;
      match a with
      | inl resp => reply resp
      | inr id =>
          match h_login s with
          | None => issue_for s i id "" body rnd now
          | Some _ =>
              do sess <- requireSession r id now;
              match sess with
              | inl resp => reply resp
              | inr rec => issue_for s i id (ss_SessionID rec) body rnd now
              end
          end
      end
  end.

End Handlers.

(** ** Lemmas *)

Section Lemmas.
Context `{X : X509} `{Ed : Ed25519} `{B : Base64} (HashToken : string -> string) (fmtTime : time -> string).

Lemma deny_inl s r ev status msg reason now fl d :
  exists d' fl', deny s r ev status msg reason now fl d = (Ok (inl (RespError status msg)), d', fl').
Proof.
  unfold deny, record, db_bind. destruct (negb _); [|by eexists _, _].
  destruct (Record_event_spec (h_audit s) (event ev RoleSystem "" "" "" "" "" reason
    ("from " +:+ remoteHost r)) now now fl d) as (d1 & fl1 & -> & _). by eexists _, _.
Qed.

(** An operator was authenticated: by an acceptable certificate of theirs. *)
Lemma authenticateOperator_inr s r ev now fl d id d' fl' :
  authenticateOperator s r ev now fl d = (Ok (inr id), d', fl') ->
  exists cert, hr_TLS r = Some cert /\ IdentityOf cert = Ok id /\ id_Role id = RoleOperator
    /\ acceptable d id (c_SerialHex cert)
    /\ operator_sessions d' = operator_sessions d /\ grants d' = grants d.
Proof.
  unfold authenticateOperator. destruct (hr_TLS r) as [cert|].
  2:{ destruct (deny_inl s r ev 401 "a client certificate is required" "no_certificate" now fl d)
        as (d1 & fl1 & ->). done. }
  unfold db_bind, attempt. destruct (VerifyEnrolled cert fl d) as [[[i|e] d1] fl1] eqn:EV.
  2:{ destruct (deny_inl s r ev 403 "not recognised" "not_enrolled" now fl1 d1) as (d2 & fl2 & ->). done. }
  case_bool_decide as Hr; cbn [negb].
  2:{ destruct (deny_inl s r ev 403 "not an operator" "not_an_operator" now fl1 d1) as (d2 & fl2 & ->). done. }
  intros [= <- <- <-]. apply VerifyEnrolled_success in EV as (row & Hi & Hrow & Hn & Hc).
  exists cert. split_and!; auto.
  - exists row. split_and!; auto. destruct Hc as [[? _]|(_ & ? & ? & _)]; auto.
  - by destruct Hc as [[_ ->]|(_ & _ & _ & ->)].
  - by destruct Hc as [[_ ->]|(_ & _ & _ & ->)].
Qed.

Lemma authenticateOperator_inl s r ev now fl d resp d' fl' :
  authenticateOperator s r ev now fl d = (Ok (inl resp), d', fl') ->
  exists status msg, resp = RespError status msg.
Proof.
  unfold authenticateOperator, db_bind, attempt. destruct (hr_TLS r) as [cert|].
  - destruct (VerifyEnrolled cert fl d) as [[[i|e] d1] fl1]; [destruct (negb _); [|done]|].
    + destruct (deny_inl s r ev 403 "not an operator" "not_an_operator" now fl1 d1) as (d2 & fl2 & ->).
      intros [= <- _ _]. eauto.
    + destruct (deny_inl s r ev 403 "not recognised" "not_enrolled" now fl1 d1) as (d2 & fl2 & ->).
      intros [= <- _ _]. eauto.
  - destruct (deny_inl s r ev 401 "a client certificate is required" "no_certificate" now fl d)
      as (d1 & fl1 & ->). intros [= <- _ _]. eauto.
Qed.

(** A live session of that operator was presented. *)
Definition live_session (token : string) (user : string) (now : time) (sid : string) (d : DB) : Prop :=
  exists row, operator_sessions d !! sid = Some row /\ sr_token_hash row = HashToken token
    /\ sr_user_id row = user /\ sr_revoked_at row = None /\ now <= fromUnix (sr_expires_at row).

Lemma Resolve_active token now fl d rec d' fl' :
  Resolve HashToken token now fl d = (Ok (rec, None), d', fl') ->
  d' = d /\ live_session token (ss_UserID rec) now (ss_SessionID rec) d.
Proof.
  unfold Resolve, LookupSession. case_bool_decide; [done|]. db_unfold. db_fault; [done|].
  destruct (session_by_hash (HashToken token) d) as [[id row]|] eqn:Eh; [|done].
  unfold session_by_hash in Eh. apply head_Some_elem_of, list_elem_of_In, List.filter_In in Eh as [Hin Hh].
  apply list_elem_of_In, elem_of_map_to_list in Hin. apply bool_decide_eq_true in Hh. cbn in Hh.
  intros [= <- E <- <-]. split; [done|]. exists row. cbn in E |- *.
  destruct (sr_revoked_at row); cbn in E; [done|].
  unfold After in E. destruct (Z.gtb_spec now (fromUnix (sr_expires_at row))); [done|]. done.
Qed.

Lemma requireSession_inr r id now fl d rec d' fl' :
  requireSession HashToken r id now fl d = (Ok (inr rec), d', fl') ->
  d' = d /\ live_session (bearerToken r) (id_ID id) now (ss_SessionID rec) d.
Proof.
  unfold requireSession. cbv zeta. case_bool_decide; [done|]. unfold db_bind, attempt.
  destruct (Resolve HashToken (bearerToken r) now fl d) as [[[[rc [e|]]|e] d1] fl1] eqn:ER.
  - by repeat case_match.
  - case_bool_decide as Hu; cbn [negb]; [|done]. intros [= <- <- <-].
    apply Resolve_active in ER as [-> Hl]. by rewrite <- Hu.
  - by repeat case_match.
Qed.

Lemma requireSession_inl r id now fl d resp d' fl' :
  requireSession HashToken r id now fl d = (Ok (inl resp), d', fl') ->
  exists status msg, resp = RespError status msg.
Proof.
  unfold requireSession. cbv zeta. case_bool_decide; [intros [= <- _ _]; eauto|]. unfold db_bind, attempt.
  destruct (Resolve HashToken (bearerToken r) now fl d) as [[[[rc [e|]]|e] d1] fl1].
  all: repeat case_match; intros [= <- _ _]; eauto.
Qed.

Lemma issue_for_grant s i id sid body rnd now fl d gb gid ex pol sid' l d' fl' :
  i_store i = true ->
  issue_for fmtTime s i id sid body rnd now fl d = (Ok (RespGrant gb gid ex pol sid', l), d', fl') ->
  sid' = sid /\ l = [] /\ exists q g dec, body = Some q /\ gb = Encode g /\ gid = g_GrantID g
    /\ Issue i (h_rules s) (mkRequest "" (id_ID id) (gq_DeviceID q) (gq_ResourceID q)
          (grant_ttl (gq_TTLSeconds q)) 0 sid) rnd now now fl d = (Ok (dec, Ok g), d', fl').
Proof.
  intros Hst. unfold issue_for. destruct body as [q|]; [|done]. unfold db_bind, reply, db_ret.
  destruct (Issue i (h_rules s) _ rnd now now fl d) as [[[[dec [g|e]]|e] d1] fl1] eqn:EI; [| |done].
  - intros [= <- <- <- <- <- <- <- <-]. split_and!; auto. exists q, g, dec. auto.
  - by case_match.
Qed.

(** ** Properties *)

(** What an answer with a grant says: who asked, under which rule, and what was
    signed and stored. *)
Lemma handleGrant_inv s r body rnd now fl d gb gid ex pol sid l d' fl' i ttl :
  h_issuer s = Some i -> i_store i = true -> h_login s = Some ttl ->
  handleGrant HashToken fmtTime s r body rnd now fl d
  = (Ok (RespGrant gb gid ex pol sid, l), d', fl') ->
  exists cert user q g rule,
    hr_TLS r = Some cert /\ IdentityOf cert = Ok (mkIdentity RoleOperator user)
    /\ acceptable d (mkIdentity RoleOperator user) (c_SerialHex cert)
    /\ live_session (bearerToken r) user now sid d
    /\ body = Some q /\ rule ∈ h_rules s /\ matches user (gq_DeviceID q) (gq_ResourceID q) rule
    /\ gb = Encode g /\ gid = g_GrantID g /\ l = []
    /\ (exists b, rnd = Some b /\ Sign (mkGrant 0 (i_keyID i) ("grn_" +:+ hex_EncodeToString b) "" user (gq_DeviceID q) (gq_ResourceID q)
                         (TruncateSecond now)
                         (Add (TruncateSecond now) (issue_ttl (grant_ttl (gq_TTLSeconds q)) (rule_ttl rule))) 0) (i_key i) = Ok g)
    /\ exists row, grants d' !! gid = Some row /\ gr_session_id row = (if bool_decide (sid <> "") then Some sid else None)
         /\ gr_user_id row = user /\ gr_revoked_at row = None.
Proof.
  intros Hi Hst Hlg. unfold handleGrant. rewrite Hi, Hlg. unfold db_bind.
  destruct (authenticateOperator s r EventGrantDenied now fl d) as [[[[resp|id]|e] d1] fl1] eqn:EA; [| |done].
  { apply authenticateOperator_inl in EA as (st & m & ->). done. }
  apply authenticateOperator_inr in EA as (cert & Ht & Hid & Hrole & Hacc & Hses & Hgr).
  destruct (requireSession HashToken r id now fl1 d1) as [[[[resp|rec]|e] d2] fl2] eqn:ES; [| |done].
  { apply requireSession_inl in ES as (st & m & ->). done. }
  apply requireSession_inr in ES as [-> Hlive].
  intros (-> & -> & q & g & dec & -> & -> & -> & HI)%issue_for_grant; [|done].
  destruct id as [role user]. cbn in Hrole, Hlive |- *. subst role.
  apply Issue_Ok_inv in HI as (-> & Ha & (b & -> & HS) & _ & _ & ->); [|done].
  destruct (Sign_Ok_inv _ _ _ HS) as (Eg & _). cbn in Ha, Eg, HS |- *.
  destruct (Evaluate_Allowed _ _ _ _ Ha) as (rule & Hr & Hm & Et). rewrite Et in HS.
  exists cert, user, q, g, rule. split_and!; auto.
  - unfold live_session in *. by rewrite <- Hses.
  - eauto.
  - eexists. split; [apply lookup_insert_eq|]. by rewrite Eg.
Qed.

(** The path from a certificate to a grant: when a server with sessions
    answers a request with a grant, the caller presented a certificate of a
    live operator identity that is currently accepted, and the token of a live,
    unexpired session of that same operator; a rule allows that operator the
    device and resource asked for; and the grant sent back names them and is
    stored, under that session. *)
Theorem handleGrant_spec s r body rnd now fl d gb gid ex pol sid l d' fl' i ttl :
  h_issuer s = Some i -> i_store i = true -> h_login s = Some ttl ->
  handleGrant HashToken fmtTime s r body rnd now fl d
  = (Ok (RespGrant gb gid ex pol sid, l), d', fl') ->
  exists cert user q g rule,
    hr_TLS r = Some cert /\ IdentityOf cert = Ok (mkIdentity RoleOperator user)
    /\ acceptable d (mkIdentity RoleOperator user) (c_SerialHex cert)
    /\ live_session (bearerToken r) user now sid d
    /\ body = Some q /\ rule ∈ h_rules s /\ matches user (gq_DeviceID q) (gq_ResourceID q) rule
    /\ gb = Encode g /\ gid = g_GrantID g /\ l = []
    /\ (g_UserID g, g_DeviceID g, g_ResourceID g) = (user, gq_DeviceID q, gq_ResourceID q)
    /\ exists row, grants d' !! gid = Some row /\ gr_session_id row = (if bool_decide (sid <> "") then Some sid else None)
         /\ gr_user_id row = user /\ gr_revoked_at row = None.
Proof.
  intros Hi Hst Hlg (cert & user & q & g & rule & H1 & H2 & H3 & H4 & H5 & H6 & H7 & H8 & H9 & H10 & (b & _ & HS) & H12)%(handleGrant_inv _ _ _ _ _ _ _ _ _ _ _ _ _ _ _ i ttl); [|done..].
  exists cert, user, q, g, rule. split_and!; auto. by apply Sign_Ok_inv in HS as [-> _].
Qed.

(** A logout that names a session did end it: the token presented was that
    of a live session of the very operator who authenticated, the session is
    revoked, every unexpired grant issued under it is revoked, and the relay
    was told to terminate exactly those. *)
Theorem handleLogout_spec s r now fl d sid n l d' fl' :
  handleLogout HashToken s r now fl d = (Ok (RespLogout sid n, l), d', fl') -> sid <> "" ->
  exists cert user,
    hr_TLS r = Some cert /\ IdentityOf cert = Ok (mkIdentity RoleOperator user)
    /\ live_session (bearerToken r) user now sid d
    /\ (exists row, operator_sessions d' !! sid = Some row /\ sr_revoked_at row <> None)
    /\ (forall id g, grants d !! id = Some g ->
          grants d' !! id = Some (if cascade_where ScopeSession sid now g
                                  then revoke_row now ReasonLogout g else g))
    /\ (h_terminate s = true ->
        l = (List.filter (fun kv => cascade_where ScopeSession sid now kv.2) (map_to_list (grants d))).*1
        /\ n = zlen l).
Proof.
  unfold handleLogout. destruct (h_login s); [|done]. unfold db_bind.
  destruct (authenticateOperator s r "" now fl d) as [[[[resp|id]|e] d1] fl1] eqn:EA; [| |done].
  { apply authenticateOperator_inl in EA as (st & m & ->). done. }
  apply authenticateOperator_inr in EA as (cert & Ht & Hid & Hrole & _ & Hses & Hgr).
  unfold attempt at 1.
  destruct (Resolve HashToken (bearerToken r) now fl1 d1) as [[[[rec [e|]]|e] d2] fl2] eqn:ER;
    [by intros [= <- _ _ _ _] [] | | by intros [= <- _ _ _ _] []].
  apply Resolve_active in ER as [-> Hlive].
  case_bool_decide as Hu; cbn [negb]; [|done]. unfold attempt.
  destruct (End (ss_SessionID rec) (id_ID id) ReasonLogout now now now fl2 d1) as [[[revoked|e] d3] fl3] eqn:EE;
    [|done].
  intros [= <- <- <- <- <-] _. apply End_Ok_inv in EE as (Hrev & -> & Hg). rewrite Hgr in Hg |- *.
  destruct id as [role user]. cbn in Hrole, Hu. subst role. exists cert, user.
  split_and!; auto.
  - unfold live_session in *. by rewrite <- Hses, <- Hu.
  - unfold dropRevoked. intros ->. rewrite <- list_fmap_compose. split; [done|].
    unfold zlen. by rewrite !length_fmap.
Qed.

(** A logout can also report success without ending anything: when reading
    the session fails for a reason of the database's own, the handler answers
    as if the session were already gone, and the session stays live. *)
Theorem handleLogout_fault s r now d cert user row sid ttl :
  h_login s = Some ttl -> hr_TLS r = Some cert ->
  IdentityOf cert = Ok (mkIdentity RoleOperator user) ->
  identities d !! (RoleOperator, user) = Some row -> ir_revoked_at row = None ->
  ir_serial_hex row = c_SerialHex cert ->
  bearerToken r <> "" -> live_session (bearerToken r) user now sid d ->
  handleLogout HashToken s r now [false; true] d = (Ok (RespLogout "" 0, []), d, [])
  /\ live_session (bearerToken r) user now sid (handleLogout HashToken s r now [false; true] d).1.2.
Proof.
  intros Hlg Ht Hid Hrow Hrev Hser Htok Hlive.
  assert (handleLogout HashToken s r now [false; true] d = (Ok (RespLogout "" 0, []), d, [])) as ->; [|done].
  assert (authenticateOperator s r "" now [false; true] d
          = (Ok (inr (mkIdentity RoleOperator user)), d, [true])) as HA.
  { unfold authenticateOperator. rewrite Ht. unfold VerifyEnrolled, lift, Lookup, lookupAny, attempt, query, stmt, db_bind.
    rewrite Hid. cbn. rewrite Hrow. cbn. rewrite Hrev. cbn. by rewrite bool_decide_eq_true_2. }
  unfold handleLogout. rewrite Hlg. unfold db_bind at 1. rewrite HA.
  unfold Resolve. rewrite (bool_decide_eq_false_2 (bearerToken r = "")) by done. done.
Qed.

(** Refused enrollments are indistinguishable: whether the token is unknown,
    already used or expired, the answer is one and the same, and beyond the
    audit trail the database is as the refusal left it. *)
Theorem handleEnroll_uniform s r token csr serial now fl d e d1 fl1 :
  Enroll HashToken (h_enroll s) token csr serial now now now now fl d = (Err e, d1, fl1) ->
  e = ESentinel ErrTokenUnknown \/ e = ESentinel ErrTokenConsumed \/ e = ESentinel ErrTokenExpired ->
  exists d' fl', handleEnroll HashToken fmtTime s r (Some (token, csr)) serial now fl d
                 = (Ok (RespError 403 "enrollment refused", []), d', fl')
    /\ identities d' = identities d1 /\ tokens d' = tokens d1
    /\ operator_sessions d' = operator_sessions d1 /\ grants d' = grants d1.
Proof.
  intros HE He. unfold handleEnroll, db_bind, attempt. rewrite HE.
  assert (token_error e = true) as -> by (destruct He as [-> |[-> | ->]]; done).
  unfold record. destruct (Record_event_spec (h_audit s) (EnrollDenied (remoteHost r) "token_refused") now now fl1 d1)
    as (d2 & fl2 & -> & H1 & H2 & H3 & H4).
  exists d2, fl2. split_and!; done.
Qed.
End Lemmas.

(** ** Witnesses *)

#[local] Existing Instance toy_x509.
#[local] Existing Instance toy_ed.
#[local] Existing Instance plain_b64.

Definition ha_cert : Cert := mkCert [Identity_URI (mkIdentity RoleOperator "alice")] 5 0 0 false.
Definition ha_request : http_request := mkRequestHTTP (Some ha_cert) "192.0.2.7:50123" "bearer tok".
Definition ha_server : server :=
  mkServer demo_service (Some cp_issuer) (Some (New 0)) true cp_rules true.
Definition ha_db : DB :=
  with_sessions {[ "ses_1" := mkSessionRow (demo_hash "tok") "alice" 1700000000 1700028800 None "" ]}
    (with_identities {[ (RoleOperator, "alice") := mkIdentityRow 1690000000 (Text16 5) None "" None ]} empty_db).
Definition ha_fmt (t : time) : string := "".

Definition ha_granted : res (response * list string) * DB * list bool :=
  handleGrant demo_hash ha_fmt ha_server ha_request (Some (mkGrantRequest "dev1" "web" 300)) (Some cp_random)
    cp_now [] ha_db.

Definition ha_grant : list byte * string * string :=
  match ha_granted.1.1 with
  | Ok (RespGrant g gid _ _ sid, _) => (g, gid, sid)
  | _ => ([], "", "")
  end.

Lemma handleGrant_spec_witness :
  exists rule, rule ∈ cp_rules /\ matches "alice" "dev1" "web" rule.
Proof.
  assert (ha_granted = (Ok (RespGrant ha_grant.1.1 ha_grant.1.2 "" "p1" "ses_1", []), ha_granted.1.2, [])) as E
    by (apply run_out; reflexivity).
  destruct (handleGrant_spec demo_hash ha_fmt ha_server ha_request (Some (mkGrantRequest "dev1" "web" 300))
    (Some cp_random) cp_now [] ha_db ha_grant.1.1 ha_grant.1.2 "" "p1" "ses_1" [] ha_granted.1.2 [] cp_issuer (New 0)
    eq_refl eq_refl eq_refl E) as (cert & user & q & g & rule & Hc & Hi & _ & _ & Hb & Hr & Hm & _).
  injection Hc as <-. vm_compute in Hi. injection Hi as <-. injection Hb as <-.
  exists rule. split; [exact Hr | exact Hm].
Defined.

Definition ha_logout : res (response * list string) * DB * list bool :=
  handleLogout demo_hash ha_server ha_request cp_now [] ha_granted.1.2.

Lemma handleLogout_spec_witness :
  ha_logout = (Ok (RespLogout "ses_1" 1, [ha_grant.1.2]), ha_logout.1.2, [])
  /\ exists row, operator_sessions ha_logout.1.2 !! "ses_1" = Some row /\ sr_revoked_at row <> None.
Proof.
  assert (ha_logout = (Ok (RespLogout "ses_1" 1, [ha_grant.1.2]), ha_logout.1.2, [])) as E
    by (apply run_out; reflexivity).
  split; [exact E|].
  destruct (handleLogout_spec demo_hash ha_server ha_request cp_now [] ha_granted.1.2 "ses_1" 1 [ha_grant.1.2]
    ha_logout.1.2 [] E ltac:(discriminate)) as (cert & user & _ & _ & _ & H & _).
  exact H.
Defined.

Lemma ha_live : live_session demo_hash (bearerToken ha_request) "alice" cp_now "ses_1" ha_db.
Proof. eexists. split; [vm_compute; reflexivity|]. vm_compute. intuition congruence. Qed.

Lemma handleLogout_fault_witness :
  handleLogout demo_hash ha_server ha_request cp_now [false; true] ha_db = (Ok (RespLogout "" 0, []), ha_db, []).
Proof.
  refine (proj1 (handleLogout_fault demo_hash ha_server ha_request cp_now ha_db ha_cert "alice"
    (mkIdentityRow 1690000000 (Text16 5) None "" None) "ses_1" (New 0) eq_refl eq_refl _ _ eq_refl eq_refl _ ha_live)).
  - reflexivity.
  - vm_compute. reflexivity.
  - vm_compute. congruence.
Defined.

Definition ha_enroll : res Result * DB * list bool :=
  Enroll demo_hash demo_service "nope" demo_csr (Some 1) cp_now cp_now cp_now cp_now [] ha_db.

Lemma handleEnroll_uniform_witness :
  exists d' fl', handleEnroll demo_hash ha_fmt ha_server ha_request (Some ("nope", demo_csr)) (Some 1) cp_now [] ha_db
                 = (Ok (RespError 403 "enrollment refused", []), d', fl').
Proof.
  assert (ha_enroll = (Err (ESentinel ErrTokenUnknown), ha_enroll.1.2, [])) as E by (apply run_out; reflexivity).
  destruct (handleEnroll_uniform demo_hash ha_fmt ha_server ha_request "nope" demo_csr (Some 1) cp_now [] ha_db
    (ESentinel ErrTokenUnknown) ha_enroll.1.2 [] E (or_introl eq_refl)) as (d' & fl' & H & _).
  exists d', fl'. exact H.
Defined.
