(* ===== verification/Keystore.v ===== *)
(** * Files, and keys at rest

    The calls of Go's [os] package the repository makes on its state
    directories, and [src/internal/keystore] (keystore.go, keystore_other.go,
    keystore_windows.go).

    A file system is a finite map from paths to contents.  Every system call is
    one action, so a process that is killed leaves one of the states its run
    passes through ([visited]).  Which calls fail is a list read one entry per
    call: [Some k] is a failure, for a write one after [k] bytes; when the list
    is used up calls succeed.  Directories, modes and open descriptors are not
    represented; two processes writing one file at the same time are outside
    the model. *)

From S2P Require Import Prelude GoErrors Proc.

Abbreviation files := (gmap string (list byte)).

Record FS := mkFS {
  fs_files : files;
  fs_faults : list (option nat)
}.

Abbreviation fsM := (proc FS).

(** ** System calls *)

Definition next_call (l : list (option nat)) : option nat * list (option nat) :=
  match l with [] => (None, []) | o :: l' => (o, l') end.

Definition syscall {A} (f : option nat -> files -> A * files) : fsM A :=
  act (fun s => let '(o, rest) := next_call (fs_faults s) in
                let '(a, m) := f o (fs_files s) in (a, mkFS m rest)).

Definition os_error (op : string) : error := EMsg op.

Definition MkdirAll : fsM (res unit) :=
  syscall (fun o m => match o with None => (Ok tt, m) | Some _ => (Err (os_error "mkdir"), m) end).

Definition ReadFile (path : string) : fsM (res (list byte)) :=
  syscall (fun o m =>
    match o, m !! path with
    | Some _, _ => (Err (os_error "read"), m)
    | None, Some b => (Ok b, m)
    | None, None => (Err (ESentinel OsErrNotExist), m)
    end).

(** [os.WriteFile]: the file is opened and truncated, then written.  A failure
    after all bytes is one of [Close]. *)
Definition WriteFile (path : string) (b : list byte) : fsM (res unit) :=
  do opened <- syscall (fun o m =>
    match o with
    | None => (Ok tt, <[path := []]> m)
    | Some _ => (Err (os_error "open"), m)
    end);
  match opened with
  | Err e => Ret (Err e)
  | Ok _ =>
      syscall (fun o m =>
        match o with
        | None => (Ok tt, <[path := b]> m)
        | Some k => (Err (os_error "write"), <[path := take k b]> m)
        end)
  end.

Definition Rename (old new : string) : fsM (res unit) :=
  syscall (fun o m =>
    match o, m !! old with
    | None, Some b => (Ok tt, <[new := b]> (delete old m))
    | None, None => (Err (ESentinel OsErrNotExist), m)
    | Some _, _ => (Err (os_error "rename"), m)
    end).

Definition Remove (path : string) : fsM (res unit) :=
  syscall (fun o m =>
    match o, m !! path with
    | None, Some _ => (Ok tt, delete path m)
    | None, None => (Err (ESentinel OsErrNotExist), m)
    | Some _, _ => (Err (os_error "remove"), m)
    end).

(** ** How key material is protected *)

Definition ProtectionDPAPI : string := "dpapi".
Definition ProtectionFilePermissions : string := "file-permissions".

(** The two build variants of [seal] and [open]. *)
Class Keyring := {
  seal : list byte -> res (list byte * string);
  unseal : list byte -> res (list byte * string)
}.

Class KeyringLaws (K : Keyring) := {
  seal_unseal m s p : seal m = Ok (s, p) -> unseal s = Ok (m, p);
  unseal_found s e : unseal s = Err e -> errors_Is e ErrKeyNotFound = false
}.

(** keystore_other.go: stored as written. *)
Definition file_permissions : Keyring := {|
  seal material := Ok (material, ProtectionFilePermissions);
  unseal sealed := Ok (sealed, ProtectionFilePermissions)
|}.

#[global] Instance file_permissions_laws : KeyringLaws file_permissions.
Proof. constructor; [by intros m s p [= <- <-] | done]. Qed.

(** keystore_windows.go, on crypt32's two functions of the data and the
    entropy. *)
Definition entropy : list byte := bytes_of_string "secure-access-relay/device-key/v1".

Section Dpapi.
Context (CryptProtectData CryptUnprotectData : list byte -> list byte -> option (list byte)).

Definition dpapi : Keyring := {|
  seal material :=
    match CryptProtectData material entropy with
    | Some out => Ok (out, ProtectionDPAPI)
    | None => Err (EMsg "CryptProtectData")
    end;
  unseal sealed :=
    match CryptUnprotectData sealed entropy with
    | Some out => Ok (out, ProtectionDPAPI)
    | None => Err (EMsg "CryptUnprotectData (key may belong to another account or machine)")
    end
|}.

(** The documented behaviour of the pair, for one account and machine. *)
Lemma dpapi_laws :
  (forall m e s, CryptProtectData m e = Some s -> CryptUnprotectData s e = Some m) ->
  KeyringLaws dpapi.
Proof.
  intros H. constructor.
  - intros m s p. cbn [seal unseal dpapi].
    destruct (CryptProtectData m entropy) as [out|] eqn:E; [|done]. intros [= <- <-].
    by rewrite (H _ _ _ E).
  - intros s e. cbn [unseal dpapi]. destruct (CryptUnprotectData s entropy); [done|]. by intros [= <-].
Qed.
End Dpapi.

(** ** keystore.go *)

Section Keystore.
Context `{K : Keyring}.

Definition tmp_of (path : string) : string := path +:+ ".tmp".

Definition Save (path : string) (material : list byte) : fsM (res string) :=
  do made <- MkdirAll;
  match made with
  | Err e => Ret (Err (EWrap "create key directory" e))
  | Ok _ =>
      match seal material with
      | Err e => Ret (Err e)
      | Ok (sealed, protection) =>
          do written <- WriteFile (tmp_of path) sealed;
          match written with
          | Err e => Ret (Err (EWrap "write key" e))
          | Ok _ =>
              do renamed <- Rename (tmp_of path) path;
              match renamed with
              | Err e => do _ <- Remove (tmp_of path); Ret (Err (EWrap "install key" e))
              | Ok _ => Ret (Ok protection)
              end
          end
      end
  end.

Definition Load (path : string) : fsM (res (list byte * string)) :=
  do r <- ReadFile path;
  match r with
  | Err e => if errors_Is e OsErrNotExist then Ret (Err (ESentinel ErrKeyNotFound))
             else Ret (Err (EWrap "read key" e))
  | Ok sealed => Ret (unseal sealed)
  end.

(** ** Lemmas *)

Lemma tmp_of_neq path : tmp_of path <> path.
Proof.
  unfold tmp_of. induction path as [|c path IH]; [done|]. intros H. apply IH. by injection H.
Qed.

(** A call that runs alone: two cases, failing or not. *)
Lemma alone_syscall {A} (I : FS -> Prop) (Q : A -> FS -> Prop) f s :
  (forall o l, I (mkFS (f o (fs_files s)).2 l) /\ Q (f o (fs_files s)).1 (mkFS (f o (fs_files s)).2 l)) ->
  alone I Q (syscall f) s.
Proof.
  intros H. apply alone_act; destruct (next_call (fs_faults s)) as [o l];
    destruct (H o l) as [H1 H2]; by destruct (f o (fs_files s)).
Qed.

(** [m'] differs from [m] in nothing but [path]. *)
Definition same_but (path : string) (m m' : files) : Prop :=
  forall q, q <> path -> m' !! q = m !! q.

Lemma same_but_insert path m m' b : same_but path m m' -> same_but path m (<[path := b]> m').
Proof. intros H q Hq. by rewrite lookup_insert_ne; [apply H|]. Qed.

(** [path] holds what it held in [m], or the beginning of [b]. *)
Definition writing (path : string) (b : list byte) (m m' : files) : Prop :=
  same_but path m m' /\ (m' !! path = m !! path \/ exists k, m' !! path = Some (take k b)).

Lemma writing_insert path b m m' k : same_but path m m' -> writing path b m (<[path := take k b]> m').
Proof. intros H. split; [by apply same_but_insert|]. right. exists k. apply lookup_insert_eq. Qed.

Lemma alone_WriteFile (I : FS -> Prop) path b s :
  (forall m' l, writing path b (fs_files s) m' -> I (mkFS m' l)) ->
  alone I (fun r s' => writing path b (fs_files s) (fs_files s')
                       /\ (is_ok r = true -> fs_files s' !! path = Some b)) (WriteFile path b) s.
Proof.
  intros HI. unfold WriteFile.
  eapply alone_bind; [apply (alone_syscall I (fun r s' => writing path b (fs_files s) (fs_files s')))|].
  - assert (writing path b (fs_files s) (fs_files s)) as H0 by (split; [done | by left]).
    assert (writing path b (fs_files s) (<[path := []]> (fs_files s))) as H1
      by exact (writing_insert path b _ _ 0 (fun q Hq => eq_refl)).
    intros [k|] l; cbn; (split; [apply HI|]); done.
  - intros [[]|e] s' Hs; [|by apply alone_ret]. apply alone_syscall. destruct Hs as [Hs _].
    assert (forall k, writing path b (fs_files s) (<[path := take k b]> (fs_files s'))) as Hk
      by (intros k; by apply writing_insert).
    pose proof (Hk (length b)) as Hb. rewrite take_ge in Hb by done.
    intros [k|] l; cbn; (split; [by apply HI|]);
      (split; [done|]); [done | intros _; apply lookup_insert_eq].
Qed.

Lemma alone_MkdirAll (I : FS -> Prop) s :
  (forall l, I (mkFS (fs_files s) l)) ->
  alone I (fun _ s' => fs_files s' = fs_files s) MkdirAll s.
Proof. intros HI. apply alone_syscall. intros [k|] l; cbn; auto. Qed.

Lemma alone_ReadFile (I : FS -> Prop) path s :
  (forall l, I (mkFS (fs_files s) l)) ->
  alone I (fun r s' => fs_files s' = fs_files s /\ (forall b, r = Ok b -> fs_files s !! path = Some b))
    (ReadFile path) s.
Proof.
  intros HI. apply alone_syscall. intros [k|] l; cbn; [by repeat split; auto|].
  destruct (fs_files s !! path) as [c|]; cbn; repeat split; auto; naive_solver.
Qed.

(** What a key file may look like while [Save] runs: as before, or complete. *)
Record saving (path : string) (m : files) (material : list byte) (s : FS) : Prop := {
  sv_key : fs_files s !! path = m !! path
           \/ exists sealed p, seal material = Ok (sealed, p) /\ fs_files s !! path = Some sealed;
  sv_rest : forall q, q <> path -> q <> tmp_of path -> fs_files s !! q = m !! q
}.

Lemma saving_same path m material s :
  same_but (tmp_of path) m (fs_files s) -> saving path m material s.
Proof.
  intros H. split; [|intros q _ Hq; by apply H]. left. apply H.
  intros E. by apply (tmp_of_neq path).
Qed.

Lemma same_but_eq path m m' : m' = m -> same_but path m m'.
Proof. by intros ->. Qed.

Lemma alone_Save path material s :
  alone (saving path (fs_files s) material)
    (fun r s' => saving path (fs_files s) material s'
      /\ (forall p, r = Ok p -> exists sealed, seal material = Ok (sealed, p)
                               /\ fs_files s' !! path = Some sealed)) (Save path material) s.
Proof.
  unfold Save. eapply alone_bind; [apply alone_MkdirAll; intros l; by apply saving_same|].
  intros [u|e] s1 E1; [|by apply alone_ret; split; [apply saving_same, same_but_eq|]].
  destruct (seal material) as [[sealed p]|e] eqn:Es;
    [|by apply alone_ret; split; [apply saving_same, same_but_eq|]].
  eapply alone_bind; [apply alone_WriteFile; rewrite E1; intros m' l [H _]; by apply saving_same|].
  intros [[]|e] s2 [[H2 _] Hw]; rewrite E1 in H2;
    [|by apply alone_ret; split; [apply saving_same|]].
  specialize (Hw eq_refl).
  eapply alone_bind; [apply (alone_syscall _ (fun r s' => saving path (fs_files s) material s'
     /\ (is_ok r = true -> fs_files s' !! path = Some sealed)
     /\ (is_ok r = false -> same_but (tmp_of path) (fs_files s) (fs_files s'))))|].
  - intros [k|] l; cbn; [by repeat split; try apply saving_same|].
    rewrite Hw. cbn.
    assert (saving path (fs_files s) material (mkFS (<[path := sealed]> (delete (tmp_of path) (fs_files s2))) l)) as H.
    { split; cbn; [right; eexists _, _; split; [done | apply lookup_insert_eq]|].
      intros q H1 H3. rewrite lookup_insert_ne, lookup_delete_ne by done. by apply H2. }
    repeat split; try apply H; [intros _; apply lookup_insert_eq | done].
  - intros [[]|e] s3 (H3 & Hok & Herr).
    + apply alone_ret. split; [done|]. intros ? [= <-]. eauto.
    + specialize (Herr eq_refl).
      eapply alone_bind; [apply (alone_syscall _ (fun _ s' => same_but (tmp_of path) (fs_files s) (fs_files s')))|].
      * intros [k|] l; cbn; [split; [by apply saving_same | done]|].
        destruct (fs_files s3 !! tmp_of path); cbn; [|split; [by apply saving_same | done]].
        assert (same_but (tmp_of path) (fs_files s) (delete (tmp_of path) (fs_files s3))) as H
          by (intros q Hq; rewrite lookup_delete_ne by done; by apply Herr).
        split; [by apply saving_same | done].
      * intros r4 s4 H4. apply alone_ret. split; [by apply saving_same | done].
Qed.

(** *** No call blocks *)

Lemma total_MkdirAll : total MkdirAll.
Proof. apply total_act. Qed.

Lemma total_ReadFile path : total (ReadFile path).
Proof. apply total_act. Qed.

Lemma total_WriteFile path b : total (WriteFile path b).
Proof. unfold WriteFile, syscall. repeat total_step. Qed.

Lemma total_Remove path : total (Remove path).
Proof. apply total_act. Qed.

Lemma total_Save path material : total (Save path material).
Proof.
  unfold Save, WriteFile, MkdirAll, Rename, Remove, syscall. repeat total_step.
Qed.

(** *** With no call failing *)

Lemma run_ReadFile m path b :
  m !! path = Some b -> run (ReadFile path) (mkFS m []) = Some (Ok b, mkFS m []).
Proof. intros H. unfold ReadFile, syscall. rewrite run_act. cbn [fs_faults fs_files next_call]. by rewrite H. Qed.

Lemma run_Save m path material sealed p :
  seal material = Ok (sealed, p) ->
  run (Save path material) (mkFS m [])
  = Some (Ok p, mkFS (<[path := sealed]> (delete (tmp_of path)
                        (<[tmp_of path := sealed]> (<[tmp_of path := []]> m)))) []).
Proof.
  intros H. unfold Save. rewrite run_bind. unfold MkdirAll, syscall at 1. rewrite run_act.
  cbn [fs_faults fs_files next_call]. rewrite H, run_bind. unfold WriteFile. rewrite run_bind.
  unfold syscall at 1 2. rewrite !run_act. cbn [fs_faults fs_files next_call]. rewrite run_act.
  cbn [fs_faults fs_files next_call]. rewrite run_bind. unfold Rename, syscall. rewrite run_act.
  cbn [fs_faults fs_files next_call]. by rewrite lookup_insert_eq.
Qed.

(** ** Properties *)

(** C27.  Saving a key is atomic: whichever calls fail and wherever the process is
    killed, the key file holds what it held before or the complete new key,
    sealed, and no file but the key's and its temporary one has changed; when
    [Save] reports success the new key is the one that loads. *)
Theorem Save_atomic `{!KeyringLaws K} path material s :
  (forall s', s' ∈ visited (Save path material) s -> saving path (fs_files s) material s')
  /\ forall p s', run (Save path material) s = Some (Ok p, s') -> fs_faults s' = [] ->
     run (Load path) s' = Some (Ok (material, p), s').
Proof.
  assert (saving path (fs_files s) material s) as H0 by (by apply saving_same).
  destruct (alone_sound _ _ _ s H0 (alone_Save path material s)) as [H1 H2].
  split; [by apply Forall_forall|]. intros p s' Hr Hf.
  destruct (H2 _ _ Hr) as [_ H3]. destruct (H3 p eq_refl) as (sealed & Es & Hk).
  unfold Load, ReadFile, syscall, act. cbn. rewrite Hf. cbn. rewrite Hk. cbn.
  rewrite (seal_unseal _ _ _ Es). destruct s' as [m fl]. cbn in *. by subst.
Qed.
End Keystore.

Definition demo_fs : FS := mkFS (<["k" := bytes_of_string "old"]> ∅) [None; None; None; Some 0%nat].

(** A failed rename: the old key is still there. *)
Lemma Save_atomic_witness :
  Forall (@saving file_permissions "k" (fs_files demo_fs) (bytes_of_string "new"))
    (visited (@Save file_permissions "k" (bytes_of_string "new")) demo_fs).
Proof.
  apply Forall_forall.
  apply (@Save_atomic file_permissions file_permissions_laws "k" (bytes_of_string "new") demo_fs).
Defined.
