(* ===== verification/PeerIdentity.v ===== *)
(** * A peer's own credentials

    [src/internal/identity] (identity.go, renew.go): the files of a state
    directory, loading them, enrolling, and renewing a certificate before it
    expires.  Keys, certificates and PEM are the class [PeerCrypto]; generated
    keys and what the control plane answers are arguments ([None] is a source of
    randomness that fails). *)

From S2P Require Import Prelude GoErrors GoTime Proto Proc Keystore Db Storage Enrollment NetAddr.
Open Scope proc_scope.

Definition keyFile : string := "identity.key".
Definition certFile : string := "identity.crt".
Definition caFile : string := "ca.crt".
Definition metaFile : string := "identity.json".
Definition grantKeyFile : string := "grant-signing.pub".

(** [filepath.Join(dir, f)] for a clean [dir]. *)
Definition path_join (dir f : string) : string := dir +:+ "/" +:+ f.

(** [type Identity]. *)
Record PeerID := mkPeerID {
  p_CertPEM : list byte;             (* Certificate: the pair that was loaded *)
  p_KeyPEM : list byte;
  p_CAPEM : list byte;               (* CAPool *)
  p_ID : Identity;
  p_ServerName : string;
  p_Protection : string;
  p_NotAfter : time;
  p_GrantKey : option (list byte)
}.

Record enrollResponse := mkEnrollResponse {
  er_Certificate : string;
  er_CA : string;
  er_GrantKey : string;
  er_Error : string
}.

(** What became of an HTTP request: no answer, or a status and a body ([None]:
    not the expected JSON). *)
Inductive http_result :=
| HttpFails
| HttpReply (status : Z) (body : option enrollResponse).

Definition PublicKeySize : nat := 32.

(** [crypto/tls], [crypto/x509], [encoding/pem], [encoding/base64] and
    [encoding/json] as far as this package reads their results. *)
Class PeerCrypto := {
  X509KeyPair : list byte -> list byte -> bool;          (* certificate, key: do they belong together *)
  pem_Decode : list byte -> option (string * list byte); (* type and contents of the first block *)
  x509_Parse : list byte -> res Cert;
  AppendCertsFromPEM : list byte -> bool;
  b64std_Decode : string -> option (list byte);
  meta_Marshal : string -> list byte;
  meta_Unmarshal : list byte -> string;                  (* the server name, empty when absent *)
  Fingerprint : Cert -> string;
  server_chain_ok : Cert -> string -> Cert -> bool       (* root, DNS name, leaf *)
}.

Section Peer.
Context `{K : Keyring} `{PC : PeerCrypto}.

(** ** Loading *)

Definition leafOf (certPEM : list byte) : res Cert :=
  match pem_Decode certPEM with
  | Some (ty, der) =>
      if bool_decide (ty = "CERTIFICATE") then x509_Parse der
      else Err (EMsg "identity: stored certificate is not a CERTIFICATE block")
  | None => Err (EMsg "identity: stored certificate is not a CERTIFICATE block")
  end.

(** A missing file means that nobody enrolled here. *)
Definition missing (msg : string) (e : error) : error :=
  if errors_Is e OsErrNotExist then ESentinel ErrIdentityNotEnrolled else EWrap msg e.

Definition grant_key_of (contents : res (list byte)) : option (list byte) :=
  match contents with
  | Err _ => None
  | Ok b =>
      match b64std_Decode (TrimSpace (string_of_bytes b)) with
      | Some raw => if (length raw =? PublicKeySize)%nat then Some raw else None
      | None => None
      end
  end.

Definition Load (dir : string) : fsM (res PeerID) :=
  do k <- Keystore.Load (path_join dir keyFile);
  match k with
  | Err e => Ret (Err (if errors_Is e ErrKeyNotFound then ESentinel ErrIdentityNotEnrolled else e))
  | Ok (keyPEM, protection) =>
      do c <- ReadFile (path_join dir certFile);
      match c with
      | Err e => Ret (Err (missing "read certificate" e))
      | Ok certPEM =>
          do a <- ReadFile (path_join dir caFile);
          match a with
          | Err e => Ret (Err (missing "read authority certificate" e))
          | Ok caPEM =>
              if negb (X509KeyPair certPEM keyPEM) then Ret (Err (EMsg "load key pair"))
              else
                match leafOf certPEM with
                | Err e => Ret (Err e)
                | Ok leaf =>
                    match IdentityOf leaf with
                    | Err e => Ret (Err e)
                    | Ok id =>
                        if negb (AppendCertsFromPEM caPEM) then
                          Ret (Err (EMsg "identity: stored authority certificate is unusable"))
                        else
                          do m <- ReadFile (path_join dir metaFile);
                          let serverName := match m with Ok b => meta_Unmarshal b | Err _ => "" end in
                          do g <- ReadFile (path_join dir grantKeyFile);
                          Ret (Ok (mkPeerID certPEM keyPEM caPEM id serverName protection
                                     (c_NotAfter leaf) (grant_key_of g)))
                    end
                end
          end
      end
  end.

(** ** Enrolling *)

(** The certificates the server presented, parsed ([None]: not a certificate). *)
Fixpoint parse_all (raw : list (option Cert)) : option (list Cert) :=
  match raw with
  | [] => Some []
  | None :: _ => None
  | Some c :: raw' => match parse_all raw' with Some cs => Some (c :: cs) | None => None end
  end.

Fixpoint find_authority (cs : list Cert) (fingerprint : string) : option Cert :=
  match cs with
  | [] => None
  | c :: cs' => if c_IsCA c && VerifyFingerprint (Fingerprint c) fingerprint then Some c
                else find_authority cs' fingerprint
  end.

Definition verifyAgainstFingerprint (raw : list (option Cert)) (code : Code) : res unit :=
  if (length raw =? 0)%nat then Err (EMsg "server presented no certificate")
  else
    match parse_all raw with
    | None => Err (EMsg "parse server certificate")
    | Some certs =>
        match find_authority certs (cd_CAFingerprint code), certs with
        | Some authority, leaf :: _ =>
            if server_chain_ok authority (cd_ServerName code) leaf then Ok tt
            else Err (EMsg "server certificate")
        | _, _ => Err (EMsg "server certificate does not chain to the authority named by the enrollment code")
        end
    end.

(** The far end of an enrollment: unreachable, or a server that presents a chain
    and, if the request reaches it, answers. *)
Inductive enroll_server :=
| Unreachable
| Presents (raw : list (option Cert)) (answer : http_result).

(** The response, and whether the request (and the token in it) was sent. *)
Definition postEnroll (code : Code) (srv : enroll_server) : res enrollResponse * bool :=
  match srv with
  | Unreachable => (Err (EMsg "enrollment request"), false)
  | Presents raw answer =>
      match verifyAgainstFingerprint raw code with
      | Err e => (Err (EWrap "control plane verification failed" e), false)
      | Ok _ =>
          (match answer with
           | HttpFails => Err (EMsg "enrollment request")
           | HttpReply _ None => Err (EMsg "decode enrollment response")
           | HttpReply status (Some out) =>
               if negb (status =? 200) then
                 Err (EMsg (if bool_decide (er_Error out = "") then "enrollment refused: status"
                            else "enrollment refused: " +:+ er_Error out))
               else if bool_decide (er_Certificate out = "") || bool_decide (er_CA out = "") then
                 Err (EMsg "enrollment response is missing a certificate")
               else Ok out
           end, true)
      end
  end.

(** Write [b] to [f], if [cond], then go on. *)
Definition store (cond : bool) (dir f : string) (b : list byte) (msg : string)
    (k : fsM (res PeerID)) : fsM (res PeerID) :=
  if cond then
    (do r <- WriteFile (path_join dir f) b;
     match r with Err e => Ret (Err (EWrap msg e)) | Ok _ => k end)
  else k.

(** [Enroll]; [key] is the new private key, PEM encoded, and [csr_ok] whether
    [makeCSR] succeeded on it. *)
Definition Enroll (code : Code) (dir : string) (key : option (list byte)) (csr_ok : bool)
    (srv : enroll_server) : fsM (res PeerID) :=
  match key with
  | None => Ret (Err (EMsg "generate key"))
  | Some keyPEM =>
      if negb csr_ok then Ret (Err (EMsg "create certificate request"))
      else
        match (postEnroll code srv).1 with
        | Err e => Ret (Err e)
        | Ok resp =>
            do made <- MkdirAll;
            match made with
            | Err e => Ret (Err (EWrap "create state directory" e))
            | Ok _ =>
                do saved <- Save (path_join dir keyFile) keyPEM;
                match saved with
                | Err e => Ret (Err e)
                | Ok _ =>
                    store true dir certFile (bytes_of_string (er_Certificate resp)) "write certificate"
                    (store true dir caFile (bytes_of_string (er_CA resp)) "write authority certificate"
                    (store true dir metaFile (meta_Marshal (cd_ServerName code)) "write identity metadata"
                    (store (negb (bool_decide (er_GrantKey resp = ""))) dir grantKeyFile
                       (bytes_of_string (er_GrantKey resp)) "write grant verification key"
                    (Load dir))))
                end
            end
        end
  end.

(** ** renew.go *)

Definition RenewBefore : duration := 10 * 24 * Hour.
Definition RenewCheckInterval : duration := Hour.

Definition DueForRenewal (i : PeerID) (now : time) : bool :=
  if IsZero (p_NotAfter i) then false
  else if negb (Before now (p_NotAfter i)) then false
  else Sub (p_NotAfter i) now <? RenewBefore.

Definition Expired (i : PeerID) (now : time) : bool :=
  negb (IsZero (p_NotAfter i)) && negb (Before now (p_NotAfter i)).

Definition hostOf (addr : string) : list Z :=
  match SplitHostPort (code addr) with
  | Some (host, _) => host
  | None => code addr
  end.

(** The name the control plane's certificate is verified against. *)
Definition renew_serverName (current : PeerID) (controlAddr : string) : list Z :=
  if bool_decide (p_ServerName current = "") then hostOf controlAddr else code (p_ServerName current).

Definition postRenew (answer : http_result) : res enrollResponse :=
  match answer with
  | HttpFails => Err (EMsg "request renewal")
  | HttpReply status body =>
      if negb (status =? 200) then
        let msg := match body with Some out => er_Error out | None => "" end in
        Err (EMsg (if bool_decide (msg = "") then "renewal refused: status" else "renewal refused: " +:+ msg))
      else
        match body with
        | None => Err (EMsg "decode renewal response")
        | Some out => if bool_decide (er_Certificate out = "") then Err (EMsg "renewal returned no certificate")
                      else Ok out
        end
  end.

(** The writes of [Renew], in their order: key, certificate, authority, grant
    key. *)
Definition renew_store (dir : string) (keyPEM : list byte) (resp : enrollResponse) : fsM (res PeerID) :=
  do made <- MkdirAll;
  match made with
  | Err e => Ret (Err (EWrap "create state directory" e))
  | Ok _ =>
      do saved <- Save (path_join dir keyFile) keyPEM;
      match saved with
      | Err e => Ret (Err e)
      | Ok _ =>
          store true dir certFile (bytes_of_string (er_Certificate resp)) "write renewed certificate"
          (store (negb (bool_decide (er_CA resp = ""))) dir caFile (bytes_of_string (er_CA resp))
             "write authority certificate"
          (store (negb (bool_decide (er_GrantKey resp = ""))) dir grantKeyFile
             (bytes_of_string (er_GrantKey resp)) "write grant verification key"
          (Load dir)))
      end
  end.

Definition Renew (dir : string) (key : option (list byte)) (csr_ok : bool) (answer : http_result)
    : fsM (res PeerID) :=
  match key with
  | None => Ret (Err (EMsg "generate key"))
  | Some keyPEM =>
      if negb csr_ok then Ret (Err (EMsg "create certificate request"))
      else
        match postRenew answer with
        | Err e => Ret (Err e)
        | Ok resp =>
            if negb (X509KeyPair (bytes_of_string (er_Certificate resp)) keyPEM) then
              Ret (Err (EMsg "renewed certificate does not match the new key"))
            else renew_store dir keyPEM resp
        end
  end.

(** The identity to keep using, whether it is new, and the error. *)
Definition RenewIfDue (current : PeerID) (controlAddr dir : string) (now : time)
    (key : option (list byte)) (csr_ok : bool) (answer : http_result)
    : fsM (PeerID * bool * option error) :=
  if bool_decide (controlAddr = "") || negb (DueForRenewal current now) then Ret (current, false, None)
  else
    do r <- Renew dir key csr_ok answer;
    Ret (match r with
         | Err e => (current, false, Some e)
         | Ok renewed => (renewed, true, None)
         end).

(** ** Specification *)

(** What starting again on these files comes to. *)
Definition restart (dir : string) (m : files) : res PeerID :=
  match run (Load dir) (mkFS m []) with Some (r, _) => r | None => Err (EMsg "blocked") end.

(** [id] is what the files say. *)
Record loaded (dir : string) (m : files) (id : PeerID) : Prop := {
  ld_key : exists sealed, m !! path_join dir keyFile = Some sealed
                          /\ unseal sealed = Ok (p_KeyPEM id, p_Protection id);
  ld_cert : m !! path_join dir certFile = Some (p_CertPEM id);
  ld_ca : m !! path_join dir caFile = Some (p_CAPEM id);
  ld_pair : X509KeyPair (p_CertPEM id) (p_KeyPEM id) = true;
  ld_leaf : exists leaf, leafOf (p_CertPEM id) = Ok leaf /\ IdentityOf leaf = Ok (p_ID id)
                         /\ p_NotAfter id = c_NotAfter leaf
}.

(** ** Lemmas *)

Lemma path_join_inj dir f g : path_join dir f = path_join dir g -> f = g.
Proof.
  unfold path_join. induction dir as [|c dir IH]; cbn; intros H; injection H; auto.
Qed.

Lemma path_join_ne dir f g : f <> g -> path_join dir f <> path_join dir g.
Proof. intros Hn H. by apply path_join_inj in H. Qed.

Lemma append_assoc (a b c : string) : (a +:+ b) +:+ c = a +:+ (b +:+ c).
Proof. induction a as [|x a IH]; [done|]. exact (f_equal (String x) IH). Qed.

Lemma tmp_of_join dir f : tmp_of (path_join dir f) = path_join dir (f +:+ ".tmp").
Proof. unfold tmp_of, path_join. by rewrite !append_assoc. Qed.

Lemma alone_KeyLoad (I : FS -> Prop) path s :
  (forall l, I (mkFS (fs_files s) l)) ->
  alone I (fun r s' => fs_files s' = fs_files s
    /\ (forall k, r = Ok k -> exists sealed, fs_files s !! path = Some sealed /\ unseal sealed = Ok k))
    (Keystore.Load path) s.
Proof.
  intros HI. unfold Keystore.Load. eapply alone_bind; [by apply alone_ReadFile|].
  intros [b|e] s' [H1 H2].
  - apply alone_ret. split; [done|]. intros k Hk. exists b. split; [by apply H2 | done].
  - destruct (errors_Is e OsErrNotExist); by apply alone_ret.
Qed.

Lemma alone_Load (I : FS -> Prop) dir s :
  (forall l, I (mkFS (fs_files s) l)) ->
  alone I (fun r s' => fs_files s' = fs_files s /\ (forall id, r = Ok id -> loaded dir (fs_files s) id))
    (Load dir) s.
Proof.
  intros HI. unfold Load.
  assert (forall s1 path, fs_files s1 = fs_files s ->
    alone I (fun r s' => fs_files s' = fs_files s /\ (forall b, r = Ok b -> fs_files s !! path = Some b))
      (ReadFile path) s1) as HR.
  { intros s1 path E. rewrite <- E in *. by apply alone_ReadFile. }
  eapply alone_bind; [by apply alone_KeyLoad|].
  intros [[keyPEM prot]|e] s1 [E1 Hk]; [|by apply alone_ret].
  eapply alone_bind; [by apply HR|]. intros [certPEM|e] s2 [E2 Hc]; [|by apply alone_ret].
  eapply alone_bind; [by apply HR|]. intros [caPEM|e] s3 [E3 Ha]; [|by apply alone_ret].
  destruct (X509KeyPair certPEM keyPEM) eqn:Ep; cbn [negb]; [|by apply alone_ret].
  destruct (leafOf certPEM) as [leaf|e] eqn:El; [|by apply alone_ret].
  destruct (IdentityOf leaf) as [id|e] eqn:Ei; [|by apply alone_ret].
  destruct (AppendCertsFromPEM caPEM); cbn [negb]; [|by apply alone_ret].
  eapply alone_bind; [by apply HR|]. intros rm s4 [E4 _].
  eapply alone_bind; [by apply HR|]. intros rg s5 [E5 _].
  apply alone_ret. split; [done|]. intros ? [= <-].
  destruct (Hk _ eq_refl) as (sealed & H1 & H2). split; cbn; eauto 10.
Qed.

Lemma restart_loaded dir m id : restart dir m = Ok id -> loaded dir m id.
Proof.
  unfold restart. intros H.
  destruct (alone_sound (fun _ => True) _ (Load dir) (mkFS m []) Logic.I
    (alone_Load _ dir (mkFS m []) (fun _ => Logic.I))) as [_ HS].
  destruct (run (Load dir) (mkFS m [])) as [[r s']|]; [|done]. by apply (HS r s' eq_refl).
Qed.

(** With no call failing, a pair that does not match is noticed, and reported. *)
Lemma restart_mismatch dir m sealed keyPEM prot certPEM caPEM :
  m !! path_join dir keyFile = Some sealed -> unseal sealed = Ok (keyPEM, prot) ->
  m !! path_join dir certFile = Some certPEM -> m !! path_join dir caFile = Some caPEM ->
  X509KeyPair certPEM keyPEM = false ->
  restart dir m = Err (EMsg "load key pair").
Proof.
  intros H1 H2 H3 H4 H5. unfold restart, Load, Keystore.Load.
  rewrite !run_bind, (run_ReadFile _ _ _ H1). cbn [run]. rewrite H2.
  rewrite run_bind, (run_ReadFile _ _ _ H3), run_bind, (run_ReadFile _ _ _ H4), H5. done.
Qed.

(** The part of a run that stores what was issued: while [renewing], the files
    are as before, or the key is the new one and the certificate is the old one
    or the beginning of the new one. *)
Definition renewing (dir : string) (m : files) (keyPEM certPEM : list byte) (s : FS) : Prop :=
  (forall f, f ∈ [keyFile; certFile; caFile; metaFile; grantKeyFile] ->
     fs_files s !! path_join dir f = m !! path_join dir f)
  \/ (exists sealed p, seal keyPEM = Ok (sealed, p) /\ fs_files s !! path_join dir keyFile = Some sealed)
     /\ (fs_files s !! path_join dir certFile = m !! path_join dir certFile
         \/ exists k, fs_files s !! path_join dir certFile = Some (take k certPEM)).

Lemma saving_renewing dir m keyPEM certPEM s :
  saving (path_join dir keyFile) m keyPEM s -> renewing dir m keyPEM certPEM s.
Proof.
  intros [Hk Hr]. rewrite tmp_of_join in Hr.
  assert (forall f, f <> keyFile -> f <> "identity.key.tmp" ->
    fs_files s !! path_join dir f = m !! path_join dir f) as Hf.
  { intros f H1 H2. apply Hr; by apply path_join_ne. }
  destruct Hk as [Hk|Hk]; [|right; split; [done | left; by apply Hf]].
  left. intros f Hin. destruct (decide (f = keyFile)) as [->|]; [done|].
  apply Hf; [done|]. set_solver.
Qed.

(** A [store] of a file other than the key, once the key is in place. *)
Lemma alone_store (I : FS -> Prop) (Q : res PeerID -> FS -> Prop) cond dir f b msg k s :
  (forall m' l, writing (path_join dir f) b (fs_files s) m' -> I (mkFS m' l)) ->
  (forall s' e, writing (path_join dir f) b (fs_files s) (fs_files s') -> Q (Err e) s') ->
  (forall s', writing (path_join dir f) b (fs_files s) (fs_files s') ->
     (cond = true -> fs_files s' !! path_join dir f = Some b) -> (cond = false -> s' = s) ->
     alone I Q k s') ->
  alone I Q (store cond dir f b msg k) s.
Proof.
  intros HI He Hk. unfold store. destruct cond.
  - eapply alone_bind; [by apply alone_WriteFile|]. intros [[]|e] s' [H1 H2]; [|by apply alone_ret, He].
    apply Hk; [done | by intros; apply H2 | done].
  - apply Hk; [split; [done | by left] | done | done].
Qed.


(** The new key and the new certificate are in place. *)
Definition stored (dir : string) (keyPEM certPEM : list byte) (s : FS) : Prop :=
  (exists sealed p, seal keyPEM = Ok (sealed, p) /\ fs_files s !! path_join dir keyFile = Some sealed)
  /\ fs_files s !! path_join dir certFile = Some certPEM.

Lemma stored_renewing dir m keyPEM certPEM s :
  stored dir keyPEM certPEM s -> renewing dir m keyPEM certPEM s.
Proof.
  intros [Hk Hc]. right. split; [done|]. right. exists (length certPEM). by rewrite take_ge.
Qed.

Lemma stored_writing dir keyPEM certPEM f b s m' l :
  f <> keyFile -> f <> certFile -> stored dir keyPEM certPEM s ->
  writing (path_join dir f) b (fs_files s) m' -> stored dir keyPEM certPEM (mkFS m' l).
Proof.
  intros Hf1 Hf2 [(sealed & p & H1 & H2) H3] [Hw _].
  assert (forall g, g <> f -> m' !! path_join dir g = fs_files s !! path_join dir g) as H
    by (intros g Hg; apply Hw; by apply path_join_ne).
  split; cbn; [exists sealed, p; split; [done|]|]; rewrite H by done; done.
Qed.

(** The certificate is stored, then [k] goes on from a [stored] state. *)
Lemma alone_store_cert (Q : res PeerID -> FS -> Prop) dir m keyPEM certPEM msg k s :
  saving (path_join dir keyFile) m keyPEM s ->
  (exists sealed p, seal keyPEM = Ok (sealed, p) /\ fs_files s !! path_join dir keyFile = Some sealed) ->
  (forall s' e, Q (Err e) s') ->
  (forall s', stored dir keyPEM certPEM s' -> alone (renewing dir m keyPEM certPEM) Q k s') ->
  alone (renewing dir m keyPEM certPEM) Q (store true dir certFile certPEM msg k) s.
Proof.
  intros Hs (sealed & p & H1 & H2) He Hk.
  assert (forall m', writing (path_join dir certFile) certPEM (fs_files s) m' ->
    m' !! path_join dir keyFile = Some sealed) as Hkey.
  { intros m' [Hw _]. rewrite Hw; [done | by apply path_join_ne]. }
  apply alone_store; [|auto|].
  - intros m' l Hw. right. cbn. split; [exists sealed, p; auto|]. destruct Hw as [_ [->|Hw]]; [|auto].
    left. apply (sv_rest _ _ _ _ Hs); [by apply path_join_ne|]. rewrite tmp_of_join. by apply path_join_ne.
  - intros s' Hw Hc _. apply Hk. split; [exists sealed, p; auto | by apply Hc].
Qed.

(** A further file is stored, from a [stored] state to a [stored] state. *)
Lemma alone_store_more (Q : res PeerID -> FS -> Prop) cond dir m keyPEM certPEM f b msg k s :
  f <> keyFile -> f <> certFile -> stored dir keyPEM certPEM s ->
  (forall s' e, Q (Err e) s') ->
  (forall s', stored dir keyPEM certPEM s' -> alone (renewing dir m keyPEM certPEM) Q k s') ->
  alone (renewing dir m keyPEM certPEM) Q (store cond dir f b msg k) s.
Proof.
  intros Hf1 Hf2 Hs He Hk. apply alone_store; [|auto|].
  - intros m' l Hw. apply stored_renewing. by eapply stored_writing.
  - intros s' Hw _ _. apply Hk. destruct s'. by eapply stored_writing.
Qed.

(** What a successful run of [Enroll] or [Renew] returns. *)
Definition obtained (dir : string) (keyPEM certPEM : list byte) (r : res PeerID) (s' : FS) : Prop :=
  forall id, r = Ok id -> loaded dir (fs_files s') id /\ stored dir keyPEM certPEM s'.

Lemma alone_load_stored dir m keyPEM certPEM s :
  stored dir keyPEM certPEM s ->
  alone (renewing dir m keyPEM certPEM) (obtained dir keyPEM certPEM) (Load dir) s.
Proof.
  intros Hs. eapply alone_weaken; [apply alone_Load|].
  - intros l. apply stored_renewing. exact Hs.
  - intros r s' [E Hl] id ->. specialize (Hl id eq_refl). rewrite <- E in Hl. split; [done|].
    unfold stored in *. by rewrite E.
Qed.

Lemma obtained_err dir keyPEM certPEM e s : obtained dir keyPEM certPEM (Err e) s.
Proof. by intros id [=]. Qed.

(** [MkdirAll] and [Save], then [k] from a state with the new key in place. *)
Lemma alone_save_then dir s keyPEM certPEM (k : fsM (res PeerID)) :
  (forall s', saving (path_join dir keyFile) (fs_files s) keyPEM s' ->
     (exists sealed p, seal keyPEM = Ok (sealed, p) /\ fs_files s' !! path_join dir keyFile = Some sealed) ->
     alone (renewing dir (fs_files s) keyPEM certPEM) (obtained dir keyPEM certPEM) k s') ->
  alone (renewing dir (fs_files s) keyPEM certPEM) (obtained dir keyPEM certPEM)
    (do made <- MkdirAll;
     match made with
     | Err e => Ret (Err (EWrap "create state directory" e))
     | Ok _ =>
         do saved <- Save (path_join dir keyFile) keyPEM;
         match saved with
         | Err e => Ret (Err e)
         | Ok _ => k
         end
     end) s.
Proof.
  intros Hk. eapply alone_bind; [apply alone_MkdirAll; intros l; by left|].
  intros [u|e] s1 E1; [|apply alone_ret, obtained_err].
  eapply alone_bind.
  - pose proof (alone_Save (path_join dir keyFile) keyPEM s1) as HS. rewrite E1 in HS.
    refine (alone_mono _ _ _ _ _ (saving_renewing dir _ _ _) _ HS). by apply saving_same, same_but_eq.
  - intros [p|e] s2 [H1 H2]; [|apply alone_ret, obtained_err].
    apply Hk; [done|]. destruct (H2 p eq_refl) as (sealed & ? & ?). eauto.
Qed.


Lemma alone_renew_store dir s keyPEM resp :
  alone (renewing dir (fs_files s) keyPEM (bytes_of_string (er_Certificate resp)))
    (obtained dir keyPEM (bytes_of_string (er_Certificate resp))) (renew_store dir keyPEM resp) s.
Proof.
  apply alone_save_then. intros s1 H1 H2.
  apply alone_store_cert; [done | done | intros; apply obtained_err|]. intros s2 H3.
  apply alone_store_more; [done | done | done | intros; apply obtained_err|]. intros s3 H4.
  apply alone_store_more; [done | done | done | intros; apply obtained_err|]. intros s4 H5.
  by apply alone_load_stored.
Qed.

(** The five files decide what a restart finds. *)
Lemma restart_ext dir m m' :
  (forall f, f ∈ [keyFile; certFile; caFile; metaFile; grantKeyFile] ->
     m' !! path_join dir f = m !! path_join dir f) ->
  restart dir m' = restart dir m.
Proof.
  intros H.
  assert (forall f, f ∈ [keyFile; certFile; caFile; metaFile; grantKeyFile] ->
    exists r, run (ReadFile (path_join dir f)) (mkFS m' []) = Some (r, mkFS m' [])
              /\ run (ReadFile (path_join dir f)) (mkFS m []) = Some (r, mkFS m [])) as HR.
  { intros f Hf. unfold ReadFile, syscall. rewrite !run_act. cbn [fs_faults fs_files next_call].
    rewrite (H f Hf). destruct (m !! path_join dir f); eauto. }
  unfold restart, Load, Keystore.Load.
  destruct (HR keyFile) as (rk & K1 & K2); [set_solver|].
  destruct (HR certFile) as (rc & C1 & C2); [set_solver|].
  destruct (HR caFile) as (ra & A1 & A2); [set_solver|].
  destruct (HR metaFile) as (rm & M1 & M2); [set_solver|].
  destruct (HR grantKeyFile) as (rg & G1 & G2); [set_solver|].
  rewrite !run_bind, K1, K2. destruct rk as [sealed|e]; [|by destruct (errors_Is e OsErrNotExist)].
  cbn [run]. destruct (unseal sealed) as [[k p]|]; [|done].
  rewrite !run_bind, C1, C2. destruct rc as [c|]; [|done].
  rewrite !run_bind, A1, A2. destruct ra as [a|]; [|done].
  destruct (negb (X509KeyPair c k)); [done|]. destruct (leafOf c) as [leaf|]; [|done].
  destruct (IdentityOf leaf); [|done]. destruct (negb (AppendCertsFromPEM a)); [done|].
  by rewrite !run_bind, M1, M2, !run_bind, G1, G2.
Qed.

Lemma renewing_restart `{!KeyringLaws K} dir m keyPEM certPEM s :
  renewing dir m keyPEM certPEM s ->
  restart dir (fs_files s) = restart dir m
  \/ forall id, restart dir (fs_files s) = Ok id ->
     p_KeyPEM id = keyPEM /\ X509KeyPair (p_CertPEM id) keyPEM = true.
Proof.
  intros [H|[(sealed & p & H1 & H2) _]]; [left; by apply restart_ext|]. right.
  intros id Hl%restart_loaded. destruct (ld_key _ _ _ Hl) as (sealed' & E1 & E2).
  rewrite H2 in E1. injection E1 as <-. rewrite (seal_unseal _ _ _ H1) in E2. injection E2 as -> _.
  split; [done|]. apply (ld_pair _ _ _ Hl).
Qed.

Lemma obtained_facts `{!KeyringLaws K} dir keyPEM certPEM r s id :
  obtained dir keyPEM certPEM r s -> r = Ok id ->
  loaded dir (fs_files s) id /\ p_KeyPEM id = keyPEM /\ p_CertPEM id = certPEM.
Proof.
  intros H ->. destruct (H id eq_refl) as [Hl [(sealed & p & H1 & H2) H3]]. split; [done|].
  destruct (ld_key _ _ _ Hl) as (sealed' & E1 & E2). rewrite H2 in E1. injection E1 as <-.
  rewrite (seal_unseal _ _ _ H1) in E2. injection E2 as -> _. split; [done|].
  pose proof (ld_cert _ _ _ Hl) as E3. rewrite H3 in E3. by injection E3.
Qed.

(** Returning an error at once does nothing. *)
Lemma refused_run e s (P : PeerID -> FS -> Prop) (P2 : FS -> Prop) :
  P2 s ->
  (forall id s', run (Ret (Err e) : fsM (res PeerID)) s = Some (Ok id, s') -> P id s')
  /\ forall s', s' ∈ visited (Ret (Err e) : fsM (res PeerID)) s -> P2 s'.
Proof. intros H. split; [done|]. by intros s' ->%list_elem_of_singleton. Qed.

(** ** Properties *)

(** C24.  Renewing: on success the peer holds the key it generated with the
    certificate it was sent, which belong together and are what the files now
    say.  Wherever the process is killed and whichever calls fail, starting again
    finds the old identity, or the new key with a certificate that belongs to it,
    or an error; never an old certificate with a new key, never the key of
    somebody else. *)
Theorem Renew_spec `{!KeyringLaws K} dir key csr_ok answer s :
  (forall id s', run (Renew dir key csr_ok answer) s = Some (Ok id, s') ->
     loaded dir (fs_files s') id /\ key = Some (p_KeyPEM id)
     /\ exists resp, postRenew answer = Ok resp /\ p_CertPEM id = bytes_of_string (er_Certificate resp))
  /\ forall s', s' ∈ visited (Renew dir key csr_ok answer) s ->
     restart dir (fs_files s') = restart dir (fs_files s)
     \/ forall id, restart dir (fs_files s') = Ok id ->
        key = Some (p_KeyPEM id) /\ X509KeyPair (p_CertPEM id) (p_KeyPEM id) = true.
Proof.
  unfold Renew. destruct key as [keyPEM|]; [|by apply refused_run; left].
  destruct csr_ok; cbn [negb]; [|by apply refused_run; left]. destruct (postRenew answer) as [resp|e]; [|by apply refused_run; left].
  destruct (X509KeyPair (bytes_of_string (er_Certificate resp)) keyPEM); cbn [negb]; [|by apply refused_run; left].
  assert (renewing dir (fs_files s) keyPEM (bytes_of_string (er_Certificate resp)) s) as H0 by (by left).
  destruct (alone_sound _ _ _ s H0 (alone_renew_store dir s keyPEM resp)) as [H1 H2].
  split.
  - intros id s' Hr. destruct (obtained_facts _ _ _ _ _ id (H2 _ _ Hr) eq_refl) as (? & <- & Ec).
    split; [done|]. split; [done|]. eauto.
  - intros s' Hv. rewrite Forall_forall in H1. destruct (renewing_restart _ _ _ _ _ (H1 s' Hv)) as [?|H3]; [by left|].
    right. intros id Hid. destruct (H3 id Hid) as [<- ?]. done.
Qed.

(** C37.  Losing power during a renewal can cost the identity: the new key replaces
    the old one before the new certificate is written, so a process killed
    between the two leaves a key and a certificate that do not belong together,
    and the peer cannot start again, although the old certificate had still been
    good. *)
Theorem Renew_crash_loses_identity `{!KeyringLaws K} dir m current keyPEM answer resp sealed p :
  restart dir m = Ok current ->
  postRenew answer = Ok resp -> X509KeyPair (bytes_of_string (er_Certificate resp)) keyPEM = true ->
  seal keyPEM = Ok (sealed, p) -> X509KeyPair (p_CertPEM current) keyPEM = false ->
  exists s', s' ∈ visited (Renew dir (Some keyPEM) true answer) (mkFS m [])
    /\ restart dir (fs_files s') = Err (EMsg "load key pair").
Proof.
  intros Hl%restart_loaded Ha Hp Hs Hn.
  set (tmp := tmp_of (path_join dir keyFile)).
  set (m' := <[path_join dir keyFile := sealed]> (delete tmp (<[tmp := sealed]> (<[tmp := []]> m)))).
  exists (mkFS m' []). split.
  - unfold Renew. cbn [negb]. rewrite Ha, Hp. cbn [negb]. unfold renew_store.
    eapply visited_bind_r; [unfold MkdirAll, syscall; rewrite run_act; reflexivity|]. cbn iota.
    eapply visited_bind_r; [apply run_Save, Hs|]. apply visited_refl.
  - assert (forall f, f <> keyFile -> f <> "identity.key.tmp" -> m' !! path_join dir f = m !! path_join dir f) as Hm.
    { intros f H1 H2. unfold m', tmp. rewrite tmp_of_join.
      rewrite lookup_insert_ne by (by apply not_eq_sym, path_join_ne).
      rewrite lookup_delete_ne, !lookup_insert_ne by (by apply not_eq_sym, path_join_ne). done. }
    cbn [fs_files]. eapply restart_mismatch with (sealed := sealed) (certPEM := p_CertPEM current).
    + apply lookup_insert_eq.
    + by apply seal_unseal.
    + rewrite Hm by done. apply (ld_cert _ _ _ Hl).
    + rewrite Hm by done. apply (ld_ca _ _ _ Hl).
    + done.
Qed.


Lemma find_authority_Some cs fp c :
  find_authority cs fp = Some c -> c ∈ cs /\ c_IsCA c = true /\ Fingerprint c = fp.
Proof.
  induction cs as [|x cs IH]; cbn; [done|].
  destruct (c_IsCA x && VerifyFingerprint (Fingerprint x) fp) eqn:E.
  - intros [= ->]. apply andb_true_iff in E as [E1 E2]. apply VerifyFingerprint_iff in E2. by split; [left|].
  - intros (H1 & H2)%IH. split; [by right | done].
Qed.

(** C25.  The token leaves the machine only towards the pinned authority: if the
    enrollment request was sent, the server had presented a chain that contains
    a certificate authority whose fingerprint is the one in the code, and its own
    certificate had verified against that authority alone, for the name in the
    code. *)
Theorem postEnroll_pinned code srv :
  (postEnroll code srv).2 = true ->
  exists raw answer leaf rest authority, srv = Presents raw answer
    /\ parse_all raw = Some (leaf :: rest) /\ authority ∈ leaf :: rest /\ c_IsCA authority = true
    /\ Fingerprint authority = cd_CAFingerprint code
    /\ server_chain_ok authority (cd_ServerName code) leaf = true.
Proof.
  unfold postEnroll, verifyAgainstFingerprint. destruct srv as [|raw answer]; [done|].
  destruct (length raw =? 0)%nat; [done|]. destruct (parse_all raw) as [certs|] eqn:Ep; [|done].
  destruct (find_authority certs (cd_CAFingerprint code)) as [a|] eqn:Ea; [|done].
  destruct certs as [|leaf rest]; [done|].
  destruct (server_chain_ok a (cd_ServerName code) leaf) eqn:Ev; [|done].
  intros _. apply find_authority_Some in Ea as (H1 & H2 & H3). exists raw, answer, leaf, rest, a. done.
Qed.

Lemma alone_enroll_store dir s keyPEM code resp :
  alone (renewing dir (fs_files s) keyPEM (bytes_of_string (er_Certificate resp)))
    (obtained dir keyPEM (bytes_of_string (er_Certificate resp)))
    (do made <- MkdirAll;
     match made with
     | Err e => Ret (Err (EWrap "create state directory" e))
     | Ok _ =>
         do saved <- Save (path_join dir keyFile) keyPEM;
         match saved with
         | Err e => Ret (Err e)
         | Ok _ =>
             store true dir certFile (bytes_of_string (er_Certificate resp)) "write certificate"
             (store true dir caFile (bytes_of_string (er_CA resp)) "write authority certificate"
             (store true dir metaFile (meta_Marshal (cd_ServerName code)) "write identity metadata"
             (store (negb (bool_decide (er_GrantKey resp = ""))) dir grantKeyFile
                (bytes_of_string (er_GrantKey resp)) "write grant verification key"
             (Load dir))))
         end
     end) s.
Proof.
  apply alone_save_then. intros s1 H1 H2.
  apply alone_store_cert; [done | done | intros; apply obtained_err|]. intros s2 H3.
  do 3 (apply alone_store_more; [done | done | done | intros; apply obtained_err|]; intros ? ?).
  by apply alone_load_stored.
Qed.

(** Enrolling: on success the peer holds the key it generated itself with the
    certificate the pinned server answered, and they belong together.  If the
    process is killed at any point, a directory that held no identity yields
    none, or one with the generated key and a certificate for it. *)
Theorem Enroll_spec `{!KeyringLaws K} code dir key csr_ok srv s :
  (forall id s', run (Enroll code dir key csr_ok srv) s = Some (Ok id, s') ->
     loaded dir (fs_files s') id /\ key = Some (p_KeyPEM id)
     /\ exists resp, postEnroll code srv = (Ok resp, true)
                     /\ p_CertPEM id = bytes_of_string (er_Certificate resp))
  /\ forall s', s' ∈ visited (Enroll code dir key csr_ok srv) s ->
     restart dir (fs_files s') = restart dir (fs_files s)
     \/ forall id, restart dir (fs_files s') = Ok id ->
        key = Some (p_KeyPEM id) /\ X509KeyPair (p_CertPEM id) (p_KeyPEM id) = true.
Proof.
  unfold Enroll. destruct key as [keyPEM|]; [|by apply refused_run; left].
  destruct csr_ok; cbn [negb]; [|by apply refused_run; left].
  destruct (postEnroll code srv) as [[resp|e] sent] eqn:Ep; cbn [fst]; [|by apply refused_run; left].
  assert (sent = true) as ->.
  { revert Ep. unfold postEnroll. destruct srv as [|raw answer]; [done|].
    destruct (verifyAgainstFingerprint raw code); [|done]. by intros [= _ <-]. }
  assert (renewing dir (fs_files s) keyPEM (bytes_of_string (er_Certificate resp)) s) as H0 by (by left).
  destruct (alone_sound _ _ _ s H0 (alone_enroll_store dir s keyPEM code resp)) as [H1 H2].
  split.
  - intros id s' Hr. destruct (obtained_facts _ _ _ _ _ id (H2 _ _ Hr) eq_refl) as (? & <- & Ec).
    split; [done|]. split; [done|]. eauto.
  - intros s' Hv. rewrite Forall_forall in H1. destruct (renewing_restart _ _ _ _ _ (H1 s' Hv)) as [?|H3]; [by left|].
    right. intros id Hid. destruct (H3 id Hid) as [<- ?]. done.
Qed.

(** A certificate is renewed while it can still authenticate the renewal, and
    only in its last ten days; a peer is never due and expired at once. *)
Theorem DueForRenewal_iff i now :
  p_NotAfter i <> 0 ->
  (DueForRenewal i now = true <-> 0 < p_NotAfter i - now < RenewBefore)
  /\ (Expired i now = true <-> p_NotAfter i <= now).
Proof.
  intros H0. unfold DueForRenewal, Expired, IsZero, Before, Sub, RenewBefore, Hour, Minute, Second, Millisecond.
  destruct (Z.eqb_spec (p_NotAfter i) 0); [done|].
  destruct (Z.ltb_spec now (p_NotAfter i)); cbn [negb andb]; rewrite ?Z.ltb_lt; lia.
Qed.

(** A failed renewal changes nothing in memory: the identity stays, and it is
    reported whether a new one is in use. *)
Lemma RenewIfDue_result current controlAddr dir now key csr_ok answer s id renewed err s' :
  run (RenewIfDue current controlAddr dir now key csr_ok answer) s = Some ((id, renewed, err), s') ->
  (renewed = false -> id = current) /\ (renewed = true -> DueForRenewal current now = true /\ err = None
    /\ run (Renew dir key csr_ok answer) s = Some (Ok id, s')).
Proof.
  unfold RenewIfDue. destruct (bool_decide (controlAddr = "")); cbn [orb]; [by intros [= <- <- <- <-]|].
  destruct (DueForRenewal current now); cbn [negb]; [|by intros [= <- <- <- <-]].
  rewrite run_bind. destruct (run (Renew dir key csr_ok answer) s) as [[[r|e] s1]|]; [| |done];
    cbn; by intros [= <- <- <- <-].
Qed.
End Peer.

(** ** Witnesses: certificates and keys that match when their bytes are equal *)

Definition toy_id : Identity := mkIdentity RoleDevice "dev1".

Definition toy_crypto : PeerCrypto := {|
  X509KeyPair c k := bool_decide (c = k);
  pem_Decode b := Some ("CERTIFICATE", b);
  x509_Parse b := Ok (mkCert [Identity_URI toy_id] 1 0 100 false);
  AppendCertsFromPEM b := true;
  b64std_Decode s := Some (bytes_of_string s);
  meta_Marshal := bytes_of_string;
  meta_Unmarshal := string_of_bytes;
  Fingerprint c := "fp";
  server_chain_ok root name leaf := true
|}.

Definition toy_code : Code := mkCode "c:1" "token" "fp" "server".

Definition toy_answer : http_result := HttpReply 200 (Some (mkEnrollResponse "new" "ca" "" "")).

Definition toy_server : enroll_server := Presents [Some (mkCert [] 1 0 100 true)] toy_answer.

Definition toy_enrolled : option (res PeerID * FS) :=
  run (@Enroll file_permissions toy_crypto toy_code "d" (Some (bytes_of_string "new")) true toy_server) (mkFS ∅ []).

(** The files of a peer that enrolled with the key "old". *)
Definition toy_files : files :=
  <["d/identity.key" := bytes_of_string "old"]> (<["d/identity.crt" := bytes_of_string "old"]>
    (<["d/ca.crt" := bytes_of_string "ca"]> ∅)).

Definition toy_peer : PeerID :=
  mkPeerID (bytes_of_string "old") (bytes_of_string "old") (bytes_of_string "ca") toy_id ""
    ProtectionFilePermissions 100 None.

Definition toy_renew : fsM (res PeerID) :=
  @Renew file_permissions toy_crypto "d" (Some (bytes_of_string "new")) true toy_answer.

Definition toy_new (serverName : string) : PeerID :=
  mkPeerID (bytes_of_string "new") (bytes_of_string "new") (bytes_of_string "ca") toy_id serverName
    ProtectionFilePermissions 100 None.

Lemma Renew_spec_witness :
  exists s', run toy_renew (mkFS toy_files []) = Some (Ok (toy_new ""), s')
    /\ @loaded file_permissions toy_crypto "d" (fs_files s') (toy_new "").
Proof.
  destruct (run toy_renew (mkFS toy_files [])) as [[r s']|] eqn:E; [|discriminate].
  assert (r = Ok (toy_new "")) as ->.
  { apply Some_inj. transitivity (fst <$> run toy_renew (mkFS toy_files [])); [by rewrite E | reflexivity]. }
  exists s'. split; [reflexivity|].
  exact (proj1 (proj1 (@Renew_spec file_permissions toy_crypto file_permissions_laws "d"
    (Some (bytes_of_string "new")) true toy_answer (mkFS toy_files [])) (toy_new "") s' E)).
Defined.

Lemma Renew_crash_loses_identity_witness :
  exists s', s' ∈ visited toy_renew (mkFS toy_files [])
    /\ @restart file_permissions toy_crypto "d" (fs_files s') = Err (EMsg "load key pair").
Proof.
  apply (@Renew_crash_loses_identity file_permissions toy_crypto file_permissions_laws "d" toy_files toy_peer
    (bytes_of_string "new") toy_answer (mkEnrollResponse "new" "ca" "" "") (bytes_of_string "new")
    ProtectionFilePermissions); reflexivity.
Defined.

Lemma postEnroll_pinned_witness :
  (@postEnroll toy_crypto toy_code toy_server).2 = true
  /\ exists raw answer leaf rest authority, toy_server = Presents raw answer
    /\ parse_all raw = Some (leaf :: rest) /\ authority ∈ leaf :: rest /\ c_IsCA authority = true
    /\ @Fingerprint toy_crypto authority = cd_CAFingerprint toy_code
    /\ @server_chain_ok toy_crypto authority (cd_ServerName toy_code) leaf = true.
Proof. split; [reflexivity | apply (@postEnroll_pinned toy_crypto toy_code toy_server); reflexivity]. Defined.

Lemma Enroll_spec_witness :
  exists s', toy_enrolled = Some (Ok (toy_new "server"), s')
    /\ @loaded file_permissions toy_crypto "d" (fs_files s') (toy_new "server").
Proof.
  destruct toy_enrolled as [[r s']|] eqn:E; [|discriminate].
  assert (r = Ok (toy_new "server")) as ->.
  { apply Some_inj. transitivity (fst <$> toy_enrolled); [by rewrite E | reflexivity]. }
  exists s'. split; [reflexivity|].
  exact (proj1 (proj1 (@Enroll_spec file_permissions toy_crypto file_permissions_laws toy_code "d"
    (Some (bytes_of_string "new")) true toy_server (mkFS ∅ [])) (toy_new "server") s' E)).
Defined.

Lemma DueForRenewal_iff_witness :
  (DueForRenewal toy_peer 50 = true <-> 0 < 100 - 50 < RenewBefore) /\ (Expired toy_peer 50 = true <-> 100 <= 50).
Proof. apply (DueForRenewal_iff toy_peer 50). discriminate. Defined.
