(* ===== verification/Operator.v ===== *)
(** * The operator's forward

    [src/internal/operator] (forward.go, grant.go, session.go): a forwarder
    accepts local connections and carries each as a stream of one relay session,
    established lazily and redialled under a backoff; grants are cached and
    replaced as they age; operator sessions are opened, cached on disk and
    closed.

    Handlers run concurrently: each is a [proc] over the forwarder's fields, one
    action per critical section ([sessMu] for [session], [grants.mu] for
    [grant]) or per effect.  What the outside answers (the dial, the control
    plane, the inner handshake, the copying) and how long it takes is fixed per
    connection by [answers]; the clock and the death of sessions are other
    members of the pool. *)

From S2P Require Import Prelude GoErrors GoTime GoFloat Backoff Proto Handshake Grant Proc Keystore Enrollment NetAddr PeerIdentity Agent.
Open Scope proc_scope.

(** ** Configuration *)

Record Config := mkConfig {
  cf_RelayAddr : string;
  cf_ListenAddr : string;
  cf_Identity : option PeerID;
  cf_Resource : string;
  cf_DeviceID : string;
  cf_ControlAddr : string;
  cf_GrantTTL : duration;
  cf_Session : bool;               (* a session provider is configured *)
  cf_KeepAlive : duration;
  cf_IdleTimeout : duration
}.

Definition validateListenAddr (addr : string) : res unit :=
  match SplitHostPort (NetAddr.code addr) with
  | None => Err (wrap ErrListenNotLoopback "is not host:port")
  | Some (host, port) =>
      match port, host with
      | [], _ => Err (wrap ErrListenNotLoopback "has no port")
      | _, [] => Err (wrap ErrListenNotLoopback "binds all interfaces; use 127.0.0.1")
      | _, _ =>
          match ParseIP host with
          | Some ip => if IsLoopback ip then Ok tt else Err (wrap ErrListenNotLoopback addr)
          | None => Err (wrap ErrListenNotLoopback addr)
          end
      end
  end.

(** The configuration a forwarder runs with, and the credentials in it. *)
Definition operator_New (cfg : Config) : res (Config * PeerID) :=
  let idle := if cf_IdleTimeout cfg =? 0 then IdleTimeout else cf_IdleTimeout cfg in
  let keepalive := if cf_KeepAlive cfg =? 0 then Z.quot idle 3 else cf_KeepAlive cfg in
  match cf_Identity cfg with
  | None => Err (EMsg "operator: not enrolled; run enroll first")
  | Some id =>
      if bool_decide (cf_DeviceID cfg = "") then Err (EMsg "operator: device id is required")
      else if bool_decide (cf_Resource cfg = "") then Err (EMsg "operator: resource is required")
      else
        let ttl := if cf_GrantTTL cfg <=? 0 then MaxGrantTTL else cf_GrantTTL cfg in
        match validateListenAddr (cf_ListenAddr cfg) with
        | Err e => Err e
        | Ok _ =>
            Ok (mkConfig (cf_RelayAddr cfg) (cf_ListenAddr cfg) (Some id) (cf_Resource cfg) (cf_DeviceID cfg)
                  (cf_ControlAddr cfg) ttl (cf_Session cfg) keepalive idle, id)
        end
  end.

(** [serverName]. *)
Definition operator_serverName (cfg : Config) (id : PeerID) : list Z :=
  if negb (bool_decide (p_ServerName id = "")) then NetAddr.code (p_ServerName id)
  else match SplitHostPort (NetAddr.code (cf_RelayAddr cfg)) with
       | Some (host, _) => host
       | None => NetAddr.code (cf_RelayAddr cfg)
       end.

(** ** The forwarder's fields, and the world it runs in *)

Inductive dial_end :=
| DialUp (sid : nat)                       (* a session, by number *)
| DialDown (delay : duration).             (* the backoff window opened by the failure *)

Record dial := mkDial { d_start : time; d_finish : time; d_end : dial_end }.

Inductive event :=
| EvGrant (conn : nat) (at_ : time) (encoded : list byte) (cached : bool)
| EvOpen (conn sid : nat) (encoded : list byte)
| EvReset (conn : nat) (r : reason)
| EvJoin (conn sid : nat) (encoded : list byte)
| EvEnd (conn : nat) (r : reason)
| EvCloseSecure (conn : nat)
| EvCloseLocal (conn : nat)
| EvCloseSession (sid : nat).

Record Forwarder := mkForwarder {
  f_active : Z;
  f_sess : option nat;
  f_retry : State;
  f_notBefore : time;
  f_lastErr : option error;
  f_encoded : list byte;
  f_grant : option SignedGrant;
  w_now : time;
  w_done : list nat;               (* the sessions whose [Done] is closed *)
  w_next : nat;
  w_dials : list dial;             (* newest first *)
  w_log : list event               (* newest first *)
}.

Definition forwarder_init (now : time) : Forwarder :=
  mkForwarder 0 None (New (mkPolicy 0 0 (f_of_Z 0))) 0 None [] None now [] 0 [] [].

Definition set_active (n : Z) (f : Forwarder) : Forwarder :=
  mkForwarder n (f_sess f) (f_retry f) (f_notBefore f) (f_lastErr f) (f_encoded f) (f_grant f)
    (w_now f) (w_done f) (w_next f) (w_dials f) (w_log f).
Definition set_sess (s : option nat) (f : Forwarder) : Forwarder :=
  mkForwarder (f_active f) s (f_retry f) (f_notBefore f) (f_lastErr f) (f_encoded f) (f_grant f)
    (w_now f) (w_done f) (w_next f) (w_dials f) (w_log f).
Definition set_cache (encoded : list byte) (g : option SignedGrant) (f : Forwarder) : Forwarder :=
  mkForwarder (f_active f) (f_sess f) (f_retry f) (f_notBefore f) (f_lastErr f) encoded g
    (w_now f) (w_done f) (w_next f) (w_dials f) (w_log f).
Definition pass (d : duration) (f : Forwarder) : Forwarder :=
  mkForwarder (f_active f) (f_sess f) (f_retry f) (f_notBefore f) (f_lastErr f) (f_encoded f) (f_grant f)
    (w_now f + Z.max 0 d) (w_done f) (w_next f) (w_dials f) (w_log f).
Definition die (sid : nat) (f : Forwarder) : Forwarder :=
  mkForwarder (f_active f) (f_sess f) (f_retry f) (f_notBefore f) (f_lastErr f) (f_encoded f) (f_grant f)
    (w_now f) (sid :: w_done f) (w_next f) (w_dials f) (w_log f).
Definition record_event (e : event) (f : Forwarder) : Forwarder :=
  mkForwarder (f_active f) (f_sess f) (f_retry f) (f_notBefore f) (f_lastErr f) (f_encoded f) (f_grant f)
    (w_now f) (w_done f) (w_next f) (w_dials f) (e :: w_log f).

Abbreviation fwM A := (proc Forwarder A).
Definition emit (e : event) : fwM unit := modify (record_event e).

(** ** What the outside answers to one connection *)

Inductive relay_answer :=
| RelayUnreachable (e : error)     (* transport.DialTLS *)
| RelayRefuses (e : error)         (* mux.Dial *)
| RelayAccepts.

Record grantResponse := mkGrantResponse { gr_Grant : string; gr_Error : string }.

(** The control plane's answer to a grant request: none, or a status and a body
    ([None]: not the expected JSON). *)
Inductive grant_answer :=
| GrantNoAnswer
| GrantReply (status : Z) (body : option grantResponse).

Record answers := mkAnswers {
  an_relay : relay_answer;
  an_dial_took : duration;
  an_rand : Z -> option Z;         (* rand.Int64N *)
  an_url_ok : bool;                (* http.NewRequest accepts the URL *)
  an_token : res string;           (* cfg.Session *)
  an_grant : grant_answer;
  an_grant_took : duration;
  an_open : option error;          (* sess.Open *)
  an_tls : tls_outcome;
  an_join : option error           (* bridge.Join *)
}.

(** ** Sessions with the relay *)

(** [failed]; [None] is a panic of the random generator. *)
Definition failed (rand : Z -> option Z) (start : time) (e : error) (f : Forwarder) : option (error * Forwarder) :=
  match Next rand (f_retry f) with
  | (None, _) => None
  | (Some delay, retry) =>
      Some (e, mkForwarder (f_active f) (f_sess f) retry (Add (w_now f) delay) (Some e) (f_encoded f) (f_grant f)
                 (w_now f) (w_done f) (w_next f) (mkDial start (w_now f) (DialDown delay) :: w_dials f) (w_log f))
  end.

Definition established (start : time) (f : Forwarder) : Forwarder :=
  mkForwarder (f_active f) (Some (w_next f)) (Reset (f_retry f)) 0 None (f_encoded f) (f_grant f)
    (w_now f) (w_done f) (S (w_next f)) (mkDial start (w_now f) (DialUp (w_next f)) :: w_dials f) (w_log f).

(** [session], under [sessMu]. *)
Definition session_step (a : answers) (f : Forwarder) : option (res nat * Forwarder) :=
  let live := match f_sess f with
              | Some sid => if bool_decide (sid ∈ w_done f) then None else Some sid
              | None => None
              end in
  match live with
  | Some sid => Some (Ok sid, f)
  | None =>
      let f := set_sess None f in
      if Before (w_now f) (f_notBefore f) then
        Some (Err (match f_lastErr f with
                   | Some e => EWrap "relay unreachable, next attempt in" e
                   | None => EMsg "relay unreachable, next attempt in"
                   end), f)
      else
        let start := w_now f in
        let f := pass (an_dial_took a) f in
        match an_relay a with
        | RelayUnreachable e =>
            match failed (an_rand a) start (EWrap "connect to relay" e) f with
            | Some (e', f') => Some (Err e', f') | None => None
            end
        | RelayRefuses e =>
            match failed (an_rand a) start (EWrap "relay handshake" e) f with
            | Some (e', f') => Some (Err e', f') | None => None
            end
        | RelayAccepts => Some (Ok (w_next f), established start f)
        end
  end.

Definition session (a : answers) : fwM (res nat) := await (session_step a).

Definition closeSession : fwM unit :=
  modify (fun f =>
    match f_sess f with
    | Some sid => set_sess None (die sid (record_event (EvCloseSession sid) f))
    | None => f
    end).

(** ** Grants *)

Definition grantRefreshMargin : duration := 60 * Second.

Record grantRequest := mkGrantRequest {
  gq_DeviceID : string;
  gq_ResourceID : string;
  gq_TTLSeconds : option Z         (* [int(ttl.Seconds())] *)
}.

Section Forward.
Context `{Ed : Ed25519} `{PC : PeerCrypto} (chain_ok : Cert -> list Cert -> bool).
Context (cfg : Config) (id : PeerID).

Definition grant_request : grantRequest :=
  mkGrantRequest (cf_DeviceID cfg) (cf_Resource cfg) (f_to_int64 (Seconds (cf_GrantTTL cfg))).

(** What is done with the control plane's answer, when it arrives at [now]. *)
Definition read_grant (now : time) (answer : grant_answer) : res (list byte * SignedGrant) :=
  match answer with
  | GrantNoAnswer => Err (EMsg "request grant")
  | GrantReply _ None => Err (EMsg "decode grant response")
  | GrantReply status (Some out) =>
      if negb (status =? 200) then
        Err (EMsg (if bool_decide (gr_Error out = "") then "grant refused: status"
                   else "grant refused: " +:+ gr_Error out))
      else
        match b64std_Decode (gr_Grant out) with
        | None => Err (EMsg "decode grant")
        | Some encoded =>
            match DecodeGrant encoded with
            | Err e => Err (EWrap "control plane returned an unusable grant" e)
            | Ok signed =>
                match p_GrantKey id with
                | Some key =>
                    match Verify signed key now (g_DeviceID signed) with
                    | Err e => Err (EWrap "control plane returned a grant that does not verify" e)
                    | Ok _ => Ok (encoded, signed)
                    end
                | None => Ok (encoded, signed)
                end
            end
        end
  end.

(** The result, and the request that was sent with its bearer token, if one was. *)
Definition requestGrant (a : answers) (now : time)
    : res (list byte * SignedGrant) * option (grantRequest * option string) :=
  if bool_decide (cf_ControlAddr cfg = "") then
    (Err (EMsg "operator: no control-plane address configured; cannot obtain a grant"), None)
  else if negb (an_url_ok a) then (Err (EMsg "new request"), None)
  else if cf_Session cfg then
    match an_token a with
    | Err e => (Err (EWrap "no operator session" e), None)
    | Ok token => (read_grant now (an_grant a), Some (grant_request, Some token))
    end
  else (read_grant now (an_grant a), Some (grant_request, None)).

(** [grant], under [grants.mu]. *)
Definition grant_step (conn : nat) (a : answers) (f : Forwarder) : res (list byte) * Forwarder :=
  let fresh :=
    let f := pass (an_grant_took a) f in
    match (requestGrant a (w_now f)).1 with
    | Err e => (Err e, f)
    | Ok (encoded, signed) =>
        (Ok encoded, record_event (EvGrant conn (w_now f) encoded false) (set_cache encoded (Some signed) f))
    end in
  match f_grant f with
  | Some g => if Remaining g (w_now f) >? grantRefreshMargin
              then (Ok (f_encoded f), record_event (EvGrant conn (w_now f) (f_encoded f) true) f)
              else fresh
  | None => fresh
  end.

Definition grant (conn : nat) (a : answers) : fwM (res (list byte)) := act (grant_step conn a).

(** ** One local connection *)

(** The endpoint the operator asked for. *)
Definition endpoint : Identity := mkIdentity RoleDevice (cf_DeviceID cfg).

Definition handle_stream (conn : nat) (a : answers) (sid : nat) (encoded : list byte) : fwM unit :=
  do _ <- emit (EvOpen conn sid encoded);
  match an_open a with
  | Some _ => emit (EvCloseLocal conn)
  | None =>
      match finish chain_ok endpoint (an_tls a) with
      | Err _ =>
          do _ <- emit (EvReset conn ReasonAuthFailed);
          emit (EvCloseLocal conn)
      | Ok _ =>
          do _ <- emit (EvJoin conn sid encoded);
          do _ <- emit (EvEnd conn (match an_join a with None => ReasonOK | Some _ => ReasonShutdown end));
          emit (EvCloseSecure conn)
      end
  end.

Definition handle (conn : nat) (a : answers) : fwM unit :=
  do _ <- modify (fun f => set_active (f_active f + 1) f);
  do s <- session a;
  do _ <- match s with
          | Err _ => emit (EvCloseLocal conn)
          | Ok sid =>
              do g <- grant conn a;
              match g with
              | Err _ => emit (EvCloseLocal conn)
              | Ok encoded => handle_stream conn a sid encoded
              end
          end;
  modify (fun f => set_active (f_active f - 1) f).

(** ** Accepting *)

Inductive accept_outcome :=
| Accepted (conn : nat)
| AcceptFails (cancelled closed : bool).   (* ctx.Err() is set; errors.Is(err, net.ErrClosed) *)

(** The connections handed to a goroutine, and whether the loop returned, with
    the context's error or none. *)
Fixpoint accept_loop (outcomes : list accept_outcome) : list nat * option (option error) :=
  match outcomes with
  | [] => ([], None)
  | Accepted conn :: rest => let '(conns, r) := accept_loop rest in (conn :: conns, r)
  | AcceptFails cancelled closed :: rest =>
      if cancelled || closed then ([], Some (if (cancelled : bool) then Some (ESentinel CtxCanceled) else None))
      else accept_loop rest
  end.
End Forward.

(** ** Specification *)

(** Everything that may run: handlers of local connections, the end of [Run],
    the clock, and relay sessions that die. *)
Inductive running `{Ed25519} `{PeerCrypto} (chain_ok : Cert -> list Cert -> bool) (cfg : Config) (id : PeerID)
    (ans : nat -> answers) : fwM unit -> Prop :=
| running_handle conn : running chain_ok cfg id ans (handle chain_ok cfg id conn (ans conn))
| running_close : running chain_ok cfg id ans closeSession
| running_clock d : running chain_ok cfg id ans (modify (pass d))
| running_death sid : running chain_ok cfg id ans (modify (die sid)).

(** How many dials have failed since the last that succeeded. *)
Fixpoint streak (ds : list dial) : nat :=
  match ds with
  | [] => 0
  | d :: ds' => match d_end d with DialDown _ => S (streak ds') | DialUp _ => 0 end
  end.

(** The dials, newest first: after a failure the next dial waits out the delay
    drawn, which is within the ceiling for the number of failures so far; after
    a success there is no dial before that session is dead. *)
Fixpoint paced (dead : list nat) (ds : list dial) : Prop :=
  match ds with
  | [] => True
  | d :: ds' =>
      paced dead ds' /\ d_start d <= d_finish d
      /\ (forall delay, d_end d = DialDown delay ->
            0 <= delay <= ideal_ceiling DefaultInitial DefaultMax (Z.of_nat (streak ds')))
      /\ match ds' with
         | [] => True
         | d0 :: _ =>
             match d_end d0 with
             | DialDown delay => Add (d_finish d0) delay <= d_start d
             | DialUp sid => sid ∈ dead
             end
         end
  end.

(** What the fields say about the last dial. *)
Definition last_dial (f : Forwarder) : Prop :=
  match w_dials f with
  | [] => f_notBefore f = 0 /\ f_sess f = None
  | d :: _ =>
      match d_end d with
      | DialDown delay => f_notBefore f = Add (d_finish d) delay /\ f_sess f = None /\ f_lastErr f <> None
      | DialUp sid => f_notBefore f = 0 /\ (f_sess f = Some sid \/ f_sess f = None /\ sid ∈ w_done f)
      end
  end.

Record dialling (f : Forwarder) : Prop := {
  dl_paced : paced (w_done f) (w_dials f);
  dl_retry : f_retry f = mkState (withDefaults (mkPolicy 0 0 (f_of_Z 0))) (Z.of_nat (streak (w_dials f)));
  dl_last : last_dial f
}.

(** [encoded] is a grant that decoded and, if this operator has the grant key,
    verified by [now]. *)
Definition checked `{Ed25519} (id : PeerID) (now : time) (encoded : list byte) (g : SignedGrant) : Prop :=
  DecodeGrant encoded = Ok g
  /\ forall key, p_GrantKey id = Some key -> exists t, t <= now /\ Verify g key t (g_DeviceID g) = Ok tt.

Definition event_ok `{Ed25519} (chain_ok : Cert -> list Cert -> bool) (cfg : Config) (id : PeerID)
    (ans : nat -> answers) (e : event) : Prop :=
  match e with
  | EvGrant conn t encoded cached =>
      exists g, checked id t encoded g /\ (cached = true -> grantRefreshMargin < Remaining g t)
  | EvOpen conn sid encoded => exists t g, checked id t encoded g
  | EvJoin conn sid encoded =>
      (exists t g, checked id t encoded g) /\ an_open (ans conn) = None
      /\ exists leaf rest, an_tls (ans conn) = TlsPeer (leaf :: rest) ALPN /\ chain_ok leaf rest = true
         /\ IdentityOf leaf = Ok (endpoint cfg)
  | _ => True
  end.

Record forwarding `{Ed25519} (chain_ok : Cert -> list Cert -> bool) (cfg : Config) (id : PeerID)
    (ans : nat -> answers) (f : Forwarder) : Prop := {
  fw_dialling : dialling f;
  fw_cache : forall g, f_grant f = Some g -> checked id (w_now f) (f_encoded f) g;
  fw_log : Forall (event_ok chain_ok cfg id ans) (w_log f)
}.

(** ** Lemmas *)

Lemma default_policy : withDefaults (mkPolicy 0 0 (f_of_Z 0)) = mkPolicy DefaultInitial DefaultMax f_two.
Proof. reflexivity. Qed.

Lemma paced_mono dead dead' ds : (forall x, x ∈ dead -> x ∈ dead') -> paced dead ds -> paced dead' ds.
Proof.
  intros Hd. induction ds as [|d ds IH]; cbn; [done|]. intros (H1 & H2 & H3 & H4).
  split_and!; auto. destruct ds as [|d0 ds]; [done|]. destruct (d_end d0); auto.
Qed.

Lemma checked_later `{Ed25519} id t t' encoded g : t <= t' -> checked id t encoded g -> checked id t' encoded g.
Proof.
  intros Ht [H1 H2]. split; [exact H1|]. intros key Hk. destruct (H2 key Hk) as (t0 & H3 & H4).
  exists t0. split; [lia | exact H4].
Qed.

Section Lemmas.
Context `{Ed : Ed25519} `{PC : PeerCrypto} (chain_ok : Cert -> list Cert -> bool).
Context (cfg : Config) (id : PeerID) (ans : nat -> answers).
Context (Hrand : Int64N_law (fun conn => an_rand (ans conn))).

Local Abbreviation I := (forwarding chain_ok cfg id ans).

(** A step that touches neither the dials, nor the cache, nor the log. *)
Lemma forwarding_same f f' :
  f_sess f' = f_sess f -> f_retry f' = f_retry f -> f_notBefore f' = f_notBefore f -> f_lastErr f' = f_lastErr f ->
  f_encoded f' = f_encoded f -> f_grant f' = f_grant f -> w_now f <= w_now f' ->
  (forall x, x ∈ w_done f -> x ∈ w_done f') -> w_dials f' = w_dials f -> w_log f' = w_log f ->
  I f -> I f'.
Proof.
  intros E1 E2 E3 E4 E5 E6 E7 E8 E9 E10 [[D1 D2 D3] C L]. split.
  - split; [rewrite E9; by eapply paced_mono | by rewrite E2, E9|].
    unfold last_dial in *. rewrite E1, E3, E4, E9. destruct (w_dials f) as [|d ds]; [exact D3|].
    destruct (d_end d); [|exact D3]. destruct D3 as [? [?|[??]]]; eauto.
  - intros g. rewrite E5, E6. intros Hg. eapply checked_later; [exact E7|]. by apply C.
  - by rewrite E10.
Qed.

Lemma I_set_active n f : I f -> I (set_active n f).
Proof. by apply forwarding_same; cbn. Qed.

Lemma I_pass d f : I f -> I (pass d f).
Proof. apply forwarding_same; cbn; auto; lia. Qed.

Lemma I_die sid f : I f -> I (die sid f).
Proof. apply forwarding_same; cbn; auto; [lia|]. by right. Qed.

Lemma I_record e f : event_ok chain_ok cfg id ans e -> I f -> I (record_event e f).
Proof.
  intros He [[D1 D2 D3] C L]. split; [by split | exact C | by constructor].
Qed.

Lemma keeps_event e : event_ok chain_ok cfg id ans e -> keeps I (emit e).
Proof. intros He. apply keeps_modify. intros f. by apply I_record. Qed.

Lemma I_failed conn start e f e' f' :
  I f -> f_sess f = None -> start <= w_now f ->
  match w_dials f with
  | [] => True
  | d0 :: _ => match d_end d0 with DialDown delay => Add (d_finish d0) delay <= start | DialUp sid => sid ∈ w_done f end
  end ->
  failed (an_rand (ans conn)) start e f = Some (e', f') -> I f'.
Proof.
  intros [[D1 D2 D3] C L] Hs Ht Hl. unfold failed. rewrite D2.
  destruct (Next_of (fun c => an_rand (ans c)) conn (mkPolicy 0 0 (f_of_Z 0)) (Z.of_nat (streak (w_dials f))))
    as (d & -> & Hd); [exact Hrand|done|by left|lia|].
  intros [= <- <-]. split; [|exact C|exact L]. split; cbn [w_dials w_done f_retry].
  - cbn [paced]. split_and!; [exact D1|exact Ht| |exact Hl]. intros ? [= <-]. exact Hd.
  - cbn [streak d_end]. f_equal. lia.
  - done.
Qed.

Lemma I_established start f :
  I f -> start <= w_now f ->
  match w_dials f with
  | [] => True
  | d0 :: _ => match d_end d0 with DialDown delay => Add (d_finish d0) delay <= start | DialUp sid => sid ∈ w_done f end
  end ->
  I (established start f).
Proof.
  intros [[D1 D2 D3] C L] Ht Hl. split; [|exact C|exact L]. split; cbn [w_dials w_done f_retry established].
  - cbn [paced]. split_and!; [exact D1|exact Ht|done|exact Hl].
  - by rewrite D2.
  - cbn. auto.
Qed.

(** The session is gone. *)
Lemma I_gone f :
  I f -> (forall sid, f_sess f = Some sid -> sid ∈ w_done f) ->
  I (set_sess None f)
  /\ match w_dials f with
     | [] => True
     | d0 :: _ => match d_end d0 with DialDown _ => True | DialUp sid => sid ∈ w_done f end
     end.
Proof.
  intros [[D1 D2 D3] C L] Hd. unfold last_dial in D3. split.
  - split; [|exact C|exact L]. split; [exact D1|exact D2|]. unfold last_dial. cbn.
    destruct (w_dials f) as [|d ds]; [tauto|]. destruct (d_end d); [|tauto].
    destruct D3 as [? [?%Hd|[_ ?]]]; auto.
  - destruct (w_dials f) as [|d ds]; [done|]. destruct (d_end d); [|done].
    destruct D3 as [_ [?%Hd|[_ ?]]]; auto.
Qed.

Lemma session_step_I conn f r f' : I f -> session_step (ans conn) f = Some (r, f') -> I f'.
Proof.
  intros HI. unfold session_step.
  destruct (match f_sess f with Some sid => if bool_decide (sid ∈ w_done f) then None else Some sid | None => None end)
    as [sid|] eqn:El; [by intros [= _ <-]|].
  assert (forall sid, f_sess f = Some sid -> sid ∈ w_done f) as Hd.
  { intros sid E. rewrite E in El. by case_bool_decide. }
  destruct (I_gone f HI Hd) as [HI' Hl]. set (f0 := set_sess None f) in *.
  destruct (Before (w_now f0) (f_notBefore f0)) eqn:Eb; [by intros [= _ <-]|].
  set (f1 := pass (an_dial_took (ans conn)) f0). assert (I f1) as HI1 by by apply I_pass.
  assert (w_now f0 <= w_now f1) as Ht by (cbn; lia).
  assert (match w_dials f1 with
          | [] => True
          | d0 :: _ => match d_end d0 with DialDown delay => Add (d_finish d0) delay <= w_now f0
                                         | DialUp sid => sid ∈ w_done f1 end
          end) as Hl1.
  { cbn in *. unfold Before in Eb. apply Z.ltb_ge in Eb.
    destruct HI1 as [[_ _ D] _ _]. unfold last_dial in D. cbn in D.
    destruct (w_dials f) as [|d ds]; [done|]. destruct (d_end d); [done|]. destruct D as [<- _]. exact Eb. }
  destruct (an_relay (ans conn)) as [e|e|].
  - destruct (failed _ _ _ f1) as [[e' f2]|] eqn:Ef; [|done]. intros [= _ <-]. by eapply I_failed in Ef.
  - destruct (failed _ _ _ f1) as [[e' f2]|] eqn:Ef; [|done]. intros [= _ <-]. by eapply I_failed in Ef.
  - intros [= _ <-]. by apply I_established.
Qed.

Lemma read_grant_Ok now answer encoded g :
  read_grant id now answer = Ok (encoded, g) -> checked id now encoded g.
Proof.
  unfold read_grant. destruct answer as [|status [out|]]; [done| |done].
  destruct (negb _); [done|]. destruct (b64std_Decode _) as [enc|]; [|done].
  destruct (DecodeGrant enc) as [signed|] eqn:Ed0; [|done].
  destruct (p_GrantKey id) as [key|] eqn:Ek.
  - destruct (Verify _ _ _ _) as [[]|] eqn:Ev; [|done]. intros [= <- <-]. split; [exact Ed0|].
    rewrite Ek. intros ? [= <-]. exists now. split; [lia | exact Ev].
  - intros [= <- <-]. split; [exact Ed0|]. by rewrite Ek.
Qed.

Lemma requestGrant_Ok a now encoded g :
  (requestGrant cfg id a now).1 = Ok (encoded, g) -> checked id now encoded g.
Proof.
  unfold requestGrant. destruct (bool_decide _); [done|]. destruct (negb _); [done|].
  destruct (cf_Session cfg); [|apply read_grant_Ok]. destruct (an_token a); [apply read_grant_Ok | done].
Qed.

Lemma grant_step_I conn f :
  I f -> I (grant_step cfg id conn (ans conn) f).2
  /\ forall encoded, (grant_step cfg id conn (ans conn) f).1 = Ok encoded -> exists t g, checked id t encoded g.
Proof.
  intros HI. unfold grant_step.
  assert (let r := let f := pass (an_grant_took (ans conn)) f in
    match (requestGrant cfg id (ans conn) (w_now f)).1 with
    | Err e => (Err e, f)
    | Ok (encoded, signed) =>
        (Ok encoded, record_event (EvGrant conn (w_now f) encoded false) (set_cache encoded (Some signed) f))
    end in I r.2 /\ forall encoded, r.1 = Ok encoded -> exists t g, checked id t encoded g) as Hfresh.
  { cbv zeta. set (f1 := pass _ f). assert (I f1) as HI1 by by apply I_pass.
    destruct (requestGrant cfg id (ans conn) (w_now f1)).1 as [[enc g]|] eqn:Er; [|done].
    apply requestGrant_Ok in Er. split; [|intros ? [= <-]; eauto].
    apply I_record; [by exists g|]. destruct HI1 as [[D1 D2 D3] C L]. split; [by split| |exact L].
    intros ? [= <-]. exact Er. }
  destruct (f_grant f) as [g|] eqn:Eg; [|exact Hfresh].
  destruct (Z.gtb_spec (Remaining g (w_now f)) grantRefreshMargin); [|exact Hfresh].
  pose proof (fw_cache _ _ _ _ _ HI g Eg) as Hc. split; [|intros ? [= <-]; eauto].
  apply I_record; [|exact HI]. by exists g.
Qed.

Lemma keeps_handle_stream conn sid encoded :
  (exists t g, checked id t encoded g) -> keeps I (handle_stream chain_ok cfg conn (ans conn) sid encoded).
Proof.
  intros Hc. unfold handle_stream. apply keeps_bind; [by apply keeps_event|]. intros _.
  destruct (an_open (ans conn)) eqn:Eo; [by apply keeps_event|].
  destruct (finish _ _ _) as [p|] eqn:Ef.
  - apply finish_Ok in Ef as (_ & leaf & rest & H1 & H2 & H3).
    apply keeps_bind; [apply keeps_event; cbn; eauto 10|]. intros _.
    apply keeps_bind; [by apply keeps_event|]. intros _. by apply keeps_event.
  - apply keeps_bind; [by apply keeps_event|]. intros _. by apply keeps_event.
Qed.

Lemma keeps_handle conn : keeps I (handle chain_ok cfg id conn (ans conn)).
Proof.
  unfold handle. apply keeps_bind; [apply keeps_modify; intros ?; apply I_set_active|]. intros _.
  apply keeps_bind; [apply keeps_await; eauto using session_step_I|]. intros s.
  apply keeps_bind; [|intros _; apply keeps_modify; intros ?; apply I_set_active].
  destruct s as [sid|]; [|by apply keeps_event]. apply keeps_act_bind. intros f Hf.
  destruct (grant_step_I conn f Hf) as [H1 H2]. split; [exact H1|].
  destruct (grant_step _ _ _ _ _).1 as [encoded|]; [|by apply keeps_event].
  apply keeps_handle_stream, H2, eq_refl.
Qed.

Lemma keeps_running p : running chain_ok cfg id ans p -> keeps I p.
Proof.
  intros []; [apply keeps_handle| |apply keeps_modify; intros ?; apply I_pass|apply keeps_modify; intros ?; apply I_die].
  apply keeps_modify. intros f Hf. destruct (f_sess f) as [sid|] eqn:Es; [|exact Hf].
  apply I_gone; [apply I_die; by apply I_record|]. cbn. rewrite Es. intros ? [= <-]. left.
Qed.

Lemma forwarding_init now : I (forwarder_init now).
Proof. split; [|done|constructor]. by split. Qed.

Lemma forwarding_reachable now f ps :
  rtc (pool_step (running chain_ok cfg id ans)) (forwarder_init now, []) (f, ps) -> I f.
Proof.
  intros Hr. exact (proj1 (keeps_pool I _ _ _ _ _ keeps_running Hr (forwarding_init now) (Forall_nil_2 _))).
Qed.

(** A handler never panics in the backoff. *)
Lemma session_step_total conn f : I f -> exists r f', session_step (ans conn) f = Some (r, f')
  /\ f_active f' = f_active f /\ w_log f' = w_log f.
Proof.
  intros [[_ D2 _] _ _]. unfold session_step.
  destruct (match f_sess f with Some sid => if bool_decide (sid ∈ w_done f) then None else Some sid | None => None end);
    [by eauto 10|].
  set (f0 := set_sess None f). destruct (Before _ _); [by eauto 10|].
  set (f1 := pass _ f0).
  assert (forall start e, exists f', failed (an_rand (ans conn)) start e f1 = Some (e, f')
    /\ f_active f' = f_active f /\ w_log f' = w_log f) as Hf.
  { intros start e. unfold failed. change (f_retry f1) with (f_retry f). rewrite D2.
    destruct (Next_of (fun c => an_rand (ans c)) conn (mkPolicy 0 0 (f_of_Z 0)) (Z.of_nat (streak (w_dials f))))
      as (d & -> & Hd); [exact Hrand|done|by left|lia|]. by eauto. }
  destruct (an_relay (ans conn)) as [e|e|]; [| |by eauto 10];
    (edestruct (Hf (w_now f0)) as (f' & -> & ? & ?); by eauto 10).
Qed.

(** What a handler running alone does, oldest first, once it holds a session:
    refuse at one of four points, or carry the connection. *)
Inductive outcome (conn : nat) (a : answers) : list event -> Prop :=
| outcome_unreachable : outcome conn a [EvCloseLocal conn]
| outcome_stream_refused t sid encoded cached :
    outcome conn a [EvGrant conn t encoded cached; EvOpen conn sid encoded; EvCloseLocal conn]
| outcome_not_authenticated t sid encoded cached :
    outcome conn a [EvGrant conn t encoded cached; EvOpen conn sid encoded;
                    EvReset conn ReasonAuthFailed; EvCloseLocal conn]
| outcome_carried t sid encoded cached :
    outcome conn a [EvGrant conn t encoded cached; EvOpen conn sid encoded; EvJoin conn sid encoded;
                    EvEnd conn (match an_join a with None => ReasonOK | Some _ => ReasonShutdown end);
                    EvCloseSecure conn].

Lemma grant_step_log conn f :
  let '(r, f') := grant_step cfg id conn (ans conn) f in
  f_active f' = f_active f
  /\ w_log f' = match r with
                | Ok encoded => EvGrant conn (w_now f') encoded (match w_log f' with EvGrant _ _ _ c :: _ => c | _ => false end) :: w_log f
                | Err _ => w_log f
                end.
Proof.
  unfold grant_step. cbv zeta. destruct (f_grant f) as [g|]; [destruct (_ >? _); [done|]|];
    destruct (requestGrant cfg id (ans conn) _).1 as [[enc s]|]; done.
Qed.

Lemma run_handle conn f :
  I f -> exists f' evs, run (handle chain_ok cfg id conn (ans conn)) f = Some (tt, f')
    /\ f_active f' = f_active f /\ w_log f' = rev evs ++ w_log f /\ outcome conn (ans conn) evs.
Proof.
  intros HI. unfold handle. rewrite run_bind, run_modify, run_bind. unfold session. rewrite run_await.
  destruct (session_step_total conn (set_active (f_active f + 1) f)) as (r & f1 & -> & Ha & Hl);
    [by apply I_set_active|]. cbn in Ha, Hl. rewrite run_bind.
  destruct r as [sid|e].
  2:{ unfold emit. rewrite run_modify. cbn. eexists _, [_]. split; [done|]. cbn. rewrite Hl.
      split_and!; [lia|done|constructor]. }
  rewrite run_bind. unfold grant. rewrite run_act. pose proof (grant_step_log conn f1) as Hg.
  destruct (grant_step cfg id conn (ans conn) f1) as [r f2]. destruct Hg as [Ha2 Hl2].
  destruct r as [encoded|e].
  2:{ unfold emit. rewrite run_modify. cbn. eexists _, [_]. split; [done|]. cbn. rewrite Hl2, Hl.
      split_and!; [lia|done|constructor]. }
  unfold handle_stream, emit. rewrite run_bind, run_modify.
  destruct (an_open (ans conn)); [|destruct (finish _ _ _)];
    rewrite ?run_bind, ?run_modify; cbn [run modify act]; rewrite ?run_bind, ?run_modify.
  - eexists _, [EvGrant conn (w_now f2) encoded _; EvOpen conn sid encoded; EvCloseLocal conn]. split; [done|].
    cbn. rewrite Hl2, Hl. split_and!; [lia|done|constructor].
  - eexists _, [EvGrant conn (w_now f2) encoded _; EvOpen conn sid encoded; EvJoin conn sid encoded; EvEnd conn _;
      EvCloseSecure conn]. split; [done|]. cbn. rewrite Hl2, Hl. split_and!; [lia|done|constructor].
  - eexists _, [EvGrant conn (w_now f2) encoded _; EvOpen conn sid encoded; EvReset conn ReasonAuthFailed;
      EvCloseLocal conn]. split; [done|]. cbn. rewrite Hl2, Hl. split_and!; [lia|done|constructor].
Qed.
End Lemmas.

Section Theorems.
Context `{Ed : Ed25519} `{PC : PeerCrypto} (chain_ok : Cert -> list Cert -> bool).
Context (cfg : Config) (id : PeerID) (ans : nat -> answers).
Context (Hrand : Int64N_law (fun conn => an_rand (ans conn))).

(** C15.  No local byte moves before the far end is authenticated: however any
    number of connections interleave, with relay sessions dying and the clock
    moving at any point, a connection is joined to a stream only when the stream
    was opened with bytes that decoded as a grant and, when the operator holds
    the grant key, verified against it; and when the peer of the inner session
    proved, by a certificate that chains to this deployment's authority, to be
    the device the operator asked for.  A grant served from the cache has more
    than the refresh margin left. *)
Theorem forward_authenticated now f ps :
  rtc (pool_step (running chain_ok cfg id ans)) (forwarder_init now, []) (f, ps) ->
  (forall conn sid encoded, EvJoin conn sid encoded ∈ w_log f ->
     (exists t g, checked id t encoded g) /\ an_open (ans conn) = None
     /\ exists leaf rest, an_tls (ans conn) = TlsPeer (leaf :: rest) ALPN /\ chain_ok leaf rest = true
        /\ IdentityOf leaf = Ok (mkIdentity RoleDevice (cf_DeviceID cfg)))
  /\ (forall conn t encoded, EvGrant conn t encoded true ∈ w_log f ->
        exists g, checked id t encoded g /\ grantRefreshMargin < Remaining g t).
Proof.
  intros [_ _ L]%(forwarding_reachable _ _ _ _ Hrand). rewrite Forall_forall in L. split.
  - intros conn sid encoded H. exact (L _ H).
  - intros conn t encoded H. destruct (L _ H) as (g & H1 & H2). eauto.
Qed.

(** A relay that is down sees one dial per backoff window, not one per
    local connection: however the handlers interleave, after a dial that failed
    the next one starts no earlier than the delay drawn at that failure, which is
    between zero and the doubling ceiling for the number of failures since the
    last session; and after a dial that succeeded there is none until that
    session is dead.  Whoever asks inside the window is told why. *)
Theorem dials_paced now f ps :
  rtc (pool_step (running chain_ok cfg id ans)) (forwarder_init now, []) (f, ps) ->
  paced (w_done f) (w_dials f)
  /\ forall d ds delay conn, w_dials f = d :: ds -> d_end d = DialDown delay ->
       w_now f < Add (d_finish d) delay ->
       exists e, f_lastErr f = Some e
         /\ session_step (ans conn) f = Some (Err (EWrap "relay unreachable, next attempt in" e), set_sess None f).
Proof.
  intros [[D1 _ D3] _ _]%(forwarding_reachable _ _ _ _ Hrand). split; [exact D1|].
  intros d ds delay conn E Ed0 Hlt. unfold last_dial in D3. rewrite E, Ed0 in D3. destruct D3 as (Hn & Hs & He).
  destruct (f_lastErr f) as [e|] eqn:El; [|done]. exists e. split; [done|].
  unfold session_step. rewrite Hs. cbn. rewrite Hn, El. unfold Before. by destruct (Z.ltb_spec (w_now f) (Add (d_finish d) delay)); [|lia].
Qed.

(** Every handler ends: it closes the local connection, or hands it to the
    bridge, exactly once, and the count of active connections is what it was. *)
Theorem handle_finishes now f ps conn :
  rtc (pool_step (running chain_ok cfg id ans)) (forwarder_init now, []) (f, ps) ->
  exists f' evs, run (handle chain_ok cfg id conn (ans conn)) f = Some (tt, f')
    /\ f_active f' = f_active f /\ w_log f' = rev evs ++ w_log f /\ outcome conn (ans conn) evs.
Proof. intros HI%(forwarding_reachable _ _ _ _ Hrand). by apply run_handle. Qed.
End Theorems.

(** ** Witnesses *)

Definition op_peer : PeerID :=
  mkPeerID [] [] [] (mkIdentity Enrollment.RoleOperator "usr_maria") "" ProtectionFilePermissions 100 (Some demo_key).

Definition op_cfg : Config :=
  mkConfig "relay:443" "127.0.0.1:8080" (Some op_peer) "res_diag" "dev_panel_01" "control:8443" MaxGrantTTL false 0 0.

Definition op_endpoint_cert : Cert := mkCert [Identity_URI (mkIdentity RoleDevice "dev_panel_01")] 1 0 0 false.

Definition op_rand (n : Z) : option Z := if 0 <? n then Some (n - 1) else None.

(** The relay is down for connection 0 and up for the others. *)
Definition op_answers (conn : nat) : answers :=
  mkAnswers (if (conn =? 0)%nat then RelayUnreachable (EMsg "refused") else RelayAccepts) Second op_rand true
    (Err (EMsg "none"))
    (GrantReply 200 (Some (mkGrantResponse (string_of_bytes (Encode demo_signed)) ""))) Second None
    (TlsPeer [op_endpoint_cert] ALPN) None.

Definition op_handle (conn : nat) : fwM unit := @handle toy_ed toy_crypto ag_chain op_cfg op_peer conn (op_answers conn).

Definition op_procs : list (fwM unit) := [op_handle 0; op_handle 1; modify (pass Second); op_handle 2].

(** Connection 0 finds the relay down; 1 asks inside the window; then a second
    passes and 2 is carried. *)
Definition op_schedule : list nat := repeat 0%nat 4 ++ repeat 1%nat 4 ++ [2%nat] ++ repeat 3%nat 8.
Definition op_start : Forwarder := forwarder_init (Unix 1700000600).
Definition op_final : option (Forwarder * list (fwM unit)) := sched op_schedule op_start op_procs.

Lemma op_running : Forall (@running toy_ed toy_crypto ag_chain op_cfg op_peer op_answers) op_procs.
Proof.
  unfold op_procs, op_handle.
  apply Forall_cons_2; [exact (running_handle _ _ _ _ 0)|].
  apply Forall_cons_2; [exact (running_handle _ _ _ _ 1)|].
  apply Forall_cons_2; [apply running_clock|].
  apply Forall_cons_2; [exact (running_handle _ _ _ _ 2)|]. apply Forall_nil_2.
Qed.

Lemma op_reaches f ps :
  sched op_schedule op_start op_procs = Some (f, ps) ->
  rtc (pool_step (@running toy_ed toy_crypto ag_chain op_cfg op_peer op_answers)) (op_start, []) (f, ps).
Proof.
  intros E. transitivity (op_start, op_procs); [exact (spawn_steps _ op_start op_procs [] op_running)|].
  exact (sched_steps _ op_schedule op_start op_procs (f, ps) E).
Qed.

Lemma op_rand_law : Int64N_law (fun conn => an_rand (op_answers conn)).
Proof.
  intros conn n Hn. exists (n - 1). cbn. unfold op_rand. destruct (Z.ltb_spec 0 n); [split; [reflexivity|lia]|lia].
Qed.

(** The last state of the run above. *)
Definition last_state (o : option (Forwarder * list (fwM unit))) : Forwarder :=
  match o with Some (f, _) => f | None => op_start end.
Definition op_end : Forwarder := last_state op_final.

Lemma last_state_Some o :
  match o with Some _ => true | None => false end = true -> exists ps, o = Some (last_state o, ps).
Proof. destruct o as [[f ps]|]; [by exists ps | done]. Qed.

Lemma op_ends : exists ps, sched op_schedule op_start op_procs = Some (op_end, ps).
Proof. apply last_state_Some. vm_compute. reflexivity. Qed.

Lemma op_end_joins : existsb (fun e => match e with EvJoin 2 0 _ => true | _ => false end) (w_log op_end) = true.
Proof. vm_compute. reflexivity. Qed.

Lemma forward_authenticated_witness :
  exists encoded, EvJoin 2 0 encoded ∈ w_log op_end /\ exists t g, @checked toy_ed op_peer t encoded g.
Proof.
  destruct op_ends as [ps E]. pose proof op_end_joins as J.
  apply existsb_exists in J as (e & H1 & H2). apply list_elem_of_In in H1.
  destruct e as [|? ? ?| |conn sid encoded| | | |]; try discriminate H2.
  destruct conn as [|[|[|conn]]]; try discriminate H2. destruct sid as [|sid]; try discriminate H2.
  exists encoded. split; [exact H1|].
  exact (proj1 (proj1 (@forward_authenticated toy_ed toy_crypto ag_chain op_cfg op_peer op_answers op_rand_law
    (Unix 1700000600) op_end ps (op_reaches _ _ E)) 2%nat 0%nat encoded H1)).
Defined.

Lemma dials_paced_witness : paced (w_done op_end) (w_dials op_end) /\ length (w_dials op_end) = 2%nat.
Proof.
  destruct op_ends as [ps E]. split.
  - exact (proj1 (@dials_paced toy_ed toy_crypto ag_chain op_cfg op_peer op_answers op_rand_law
      (Unix 1700000600) op_end ps (op_reaches _ _ E))).
  - vm_compute. reflexivity.
Defined.

Lemma handle_finishes_witness :
  exists f' evs, run (op_handle 3) op_end = Some (tt, f') /\ f_active f' = f_active op_end
    /\ outcome 3 (op_answers 3) evs.
Proof.
  destruct op_ends as [ps E].
  destruct (@handle_finishes toy_ed toy_crypto ag_chain op_cfg op_peer op_answers op_rand_law
    (Unix 1700000600) op_end ps 3 (op_reaches _ _ E)) as (f' & evs & H1 & H2 & _ & H4).
  exists f', evs. split; [exact H1|]. split; [exact H2 | exact H4].
Defined.
