(* ===== verification/OperatorSession.v ===== *)
(** * Operator sessions on the client, and the client command

    [src/internal/operator/session.go]: opening and ending a session with the
    control plane, caching it sealed in the state directory, and reusing it; and
    the commands of [src/cmd/sarctl/main.go] built on it.  Flags are arguments;
    what is printed is not modelled.

    A request that leaves the machine is recorded as [sent]: where to, which
    path, and the bearer token it carried. *)

From S2P Require Import Prelude GoErrors GoTime GoFloat Proto Grant Proc Keystore Enrollment NetAddr PeerIdentity Operator.
Open Scope proc_scope.

Definition sessionFile : string := "session.json".
Definition sessionRefreshMargin : duration := 2 * Minute.

Record loginReply := mkLoginReply {
  lr_Token : string;
  lr_SessionID : string;
  lr_UserID : string;
  lr_ExpiresAt : string;
  lr_Error : string
}.

Record logoutReply := mkLogoutReply {
  lo_SessionID : string;
  lo_GrantsRevoked : Z;
  lo_Error : string
}.

Record Session := mkSession {
  os_Token : string;
  os_SessionID : string;
  os_UserID : string;
  os_ExpiresAt : time;
  os_ControlAddr : string
}.

Definition Usable (s : Session) (controlAddr : string) (now : time) : bool :=
  negb (bool_decide (os_Token s = "")) && bool_decide (os_ControlAddr s = controlAddr)
  && (Sub (os_ExpiresAt s) now >? sessionRefreshMargin).

(** [encoding/json] on a session, and [time.Parse(time.RFC3339, _)].  Marshalling
    fails for a year that JSON cannot carry. *)
Class SessionCodec := {
  session_Marshal : Session -> option (list byte);
  session_Unmarshal : list byte -> option Session;
  ParseRFC3339 : string -> option time
}.

(** Text survives JSON when it is valid; ASCII is. *)
Definition ascii_text (s : string) : bool := forallb (fun b => byte_to_Z b <? 128) (bytes_of_string s).

Definition ascii_session (s : Session) : bool :=
  ascii_text (os_Token s) && ascii_text (os_SessionID s) && ascii_text (os_UserID s) && ascii_text (os_ControlAddr s).

Class SessionCodecLaws (C : SessionCodec) := {
  session_roundtrip s b : session_Marshal s = Some b -> ascii_session s = true -> session_Unmarshal b = Some s
}.

(** ** Requests *)

Record sent := mkSent {
  sn_addr : string;
  sn_path : string;
  sn_token : option string         (* the Authorization header *)
}.

(** No answer, or a status, with what decoding left in the reply and whether it
    succeeded. *)
Inductive control_answer (R : Type) :=
| ControlFails
| ControlReply (status : Z) (out : R) (decoded : bool).
Arguments ControlFails {R}.
Arguments ControlReply {R} _ _ _.

Definition postControl {R} (errorMessage : R -> string) (controlAddr path token : string) (url_ok : bool)
    (answer : control_answer R) : res R * option sent :=
  if bool_decide (controlAddr = "") then (Err (EMsg "operator: no control-plane address configured"), None)
  else if negb url_ok then (Err (EMsg "new request"), None)
  else
    let request := Some (mkSent controlAddr path (if bool_decide (token = "") then None else Some token)) in
    (match answer with
     | ControlFails => Err (EMsg ("control plane request " +:+ path))
     | ControlReply status out decoded =>
         if negb decoded && (status =? 200) then Err (EMsg ("decode response from " +:+ path))
         else if negb (status =? 200) then
           Err (EMsg (if bool_decide (errorMessage out = "") then path +:+ " refused: status"
                      else path +:+ " refused: " +:+ errorMessage out))
         else Ok out
     end, request).

Section Sessions.
Context `{K : Keyring} `{C : SessionCodec}.

Definition Login (controlAddr : string) (url_ok : bool) (answer : control_answer loginReply) : res Session * option sent :=
  match postControl lr_Error controlAddr "/v1/login" "" url_ok answer with
  | (Err e, s) => (Err e, s)
  | (Ok out, s) =>
      (match ParseRFC3339 (lr_ExpiresAt out) with
       | None => Err (EMsg "control plane returned an unparseable expiry")
       | Some expires => Ok (mkSession (lr_Token out) (lr_SessionID out) (lr_UserID out) expires controlAddr)
       end, s)
  end.

Definition Logout (controlAddr : string) (sess : Session) (url_ok : bool) (answer : control_answer logoutReply)
    : res Z * option sent :=
  match postControl lo_Error controlAddr "/v1/logout" (os_Token sess) url_ok answer with
  | (Err e, s) => (Err e, s)
  | (Ok out, s) => (Ok (lo_GrantsRevoked out), s)
  end.

(** ** The stored session *)

Definition SaveSession (dir : string) (sess : Session) : fsM (res unit) :=
  match session_Marshal sess with
  | None => Ret (Err (EMsg "json: error calling MarshalJSON"))
  | Some b =>
      do made <- MkdirAll;
      match made with
      | Err e => Ret (Err (EWrap "create state directory" e))
      | Ok _ =>
          do saved <- Save (path_join dir sessionFile) b;
          Ret (match saved with Err e => Err (EWrap "store session" e) | Ok _ => Ok tt end)
      end
  end.

Definition LoadSession (dir : string) : fsM (res Session) :=
  do r <- Keystore.Load (path_join dir sessionFile);
  Ret (match r with
       | Err e => if errors_Is e ErrKeyNotFound then Err (ESentinel ErrNoSession) else Err e
       | Ok (b, _) =>
           match session_Unmarshal b with
           | None => Err (ESentinel ErrNoSession)
           | Some sess => Ok sess
           end
       end).

Definition ClearSession (dir : string) : fsM (res unit) :=
  do r <- Remove (path_join dir sessionFile);
  Ret (match r with
       | Err e => if errors_Is e OsErrNotExist then Ok tt else Err e
       | Ok _ => Ok tt
       end).

(** Its second half: open one, and try to cache it. *)
Definition ensure_login (dir controlAddr : string) (url_ok : bool) (answer : control_answer loginReply)
    : fsM (res Session * option sent) :=
  match Login controlAddr url_ok answer with
  | (Err e, s) => Ret (Err e, s)
  | (Ok sess, s) => do _ <- SaveSession dir sess; Ret (Ok sess, s)
  end.

Definition EnsureSession (dir controlAddr : string) (now : time) (url_ok : bool)
    (answer : control_answer loginReply) : fsM (res Session * option sent) :=
  do stored <- LoadSession dir;
  match stored with
  | Ok sess => if Usable sess controlAddr now then Ret (Ok sess, None) else ensure_login dir controlAddr url_ok answer
  | Err _ => ensure_login dir controlAddr url_ok answer
  end.
End Sessions.

(** ** cmd/sarctl *)

Section Commands.
Context `{K : Keyring} `{PC : PeerCrypto} `{C : SessionCodec}.

(** What a renewal would meet: the clock, the new key, the answer. *)
Record renewal := mkRenewal {
  rn_now : time;
  rn_key : option (list byte);
  rn_csr_ok : bool;
  rn_answer : http_result
}.

Definition sarctl_renewIfDue (id : PeerID) (controlAddr stateDir : string) (r : renewal) : fsM PeerID :=
  if Expired id (rn_now r) then Ret id
  else if negb (DueForRenewal id (rn_now r)) then Ret id
  else
    do x <- RenewIfDue id controlAddr stateDir (rn_now r) (rn_key r) (rn_csr_ok r) (rn_answer r);
    let '(renewed, _, err) := x in
    Ret (match err with Some _ => id | None => renewed end).

Definition sarctl_load (stateDir : string) : fsM (res PeerID) :=
  do r <- PeerIdentity.Load stateDir;
  Ret (match r with
       | Err e => if errors_Is e ErrIdentityNotEnrolled then Err (EMsg "not enrolled: run 'sarctl enroll -code ...' first")
                  else Err e
       | Ok id => Ok id
       end).

(** [cmdConnect] up to the forwarder: the configuration it runs with. *)
Definition cmdConnect (relayAddr controlAddr stateDir listen device resource : string) (ttl : duration) (r : renewal)
    : fsM (res (Config * PeerID)) :=
  if bool_decide (device = "") then Ret (Err (EMsg "a device is required"))
  else if bool_decide (resource = "") then Ret (Err (EMsg "a resource is required"))
  else
    do loaded <- sarctl_load stateDir;
    match loaded with
    | Err e => Ret (Err e)
    | Ok id =>
        do id <- sarctl_renewIfDue id controlAddr stateDir r;
        Ret (operator_New (mkConfig relayAddr listen (Some id) resource device controlAddr ttl true 0 0))
    end.

Definition cmdLogin (controlAddr stateDir : string) (r : renewal) (url_ok : bool)
    (answer : control_answer loginReply) : fsM (res Session * option sent) :=
  do loaded <- sarctl_load stateDir;
  match loaded with
  | Err e => Ret (Err e, None)
  | Ok id =>
      do id <- sarctl_renewIfDue id controlAddr stateDir r;
      match Login controlAddr url_ok answer with
      | (Err e, s) => Ret (Err e, s)
      | (Ok sess, s) =>
          do saved <- SaveSession stateDir sess;
          Ret (match saved with Err e => Err e | Ok _ => Ok sess end, s)
      end
  end.

(** The number of grants revoked; [None] when no session is stored. *)
Definition cmdLogout (controlAddr stateDir : string) (url_ok : bool) (answer : control_answer logoutReply)
    : fsM (res (option Z) * option sent) :=
  do loaded <- PeerIdentity.Load stateDir;
  match loaded with
  | Err e => Ret (Err e, None)
  | Ok id =>
      do stored <- LoadSession stateDir;
      match stored with
      | Err _ => Ret (Ok None, None)
      | Ok sess =>
          let '(revoked, s) := Logout controlAddr sess url_ok answer in
          do cleared <- ClearSession stateDir;
          Ret (match cleared with
               | Err e => Err e
               | Ok _ =>
                   match revoked with
                   | Err e => Err (EWrap "local session discarded, but the control plane could not be told" e)
                   | Ok n => Ok (Some n)
                   end
               end, s)
      end
  end.

Definition cmdEnroll `{Base64} (json_dec : string -> option Code) (code stateDir : string)
    (key : option (list byte)) (csr_ok : bool) (srv : enroll_server) : fsM (res PeerID) :=
  if bool_decide (code = "") then Ret (Err (EMsg "an enrollment code is required"))
  else
    match DecodeCode json_dec code with
    | Err e => Ret (Err e)
    | Ok parsed => PeerIdentity.Enroll parsed stateDir key csr_ok srv
    end.
End Commands.

(** *** Running: the command line and the forward *)

Inductive sarctl_command :=
| SNoCommand
| SEnroll (args : list string)
| SConnect (args : list string)
| SLogin (args : list string)
| SLogout (args : list string)
| SVersion
| SUnknown (name : string).

(** [run] on os.Args. *)
Definition sarctl (argv : list string) : sarctl_command :=
  match argv with
  | _ :: name :: args =>
      if bool_decide (name = "enroll") then SEnroll args
      else if bool_decide (name = "connect") then SConnect args
      else if bool_decide (name = "login") then SLogin args
      else if bool_decide (name = "logout") then SLogout args
      else if bool_decide (name ∈ ["-version"; "--version"; "version"]) then SVersion
      else SUnknown name
  | _ => SNoCommand
  end.

(** [Forwarder.Run]: the listener, the accept loop, and the session closed on the
    way out; [None] while it runs. *)
Definition Forwarder_Run (listen : res unit) (outcomes : list accept_outcome) : fwM (option (option error)) :=
  match listen with
  | Err e => Ret (Some (Some (EWrap "listen" e)))
  | Ok _ =>
      match (accept_loop outcomes).2 with
      | None => Ret None
      | Some r => do _ <- closeSession; Ret (Some r)
      end
  end.

(** What [cmdConnect] makes of [Run]'s error. *)
Definition connect_result (err : option error) (cancelled : bool) : res unit :=
  match err with
  | Some e => if cancelled then Ok tt else Err e
  | None => Ok tt
  end.

(** ** Lemmas *)

(** A forward that could listen ends only when it is cancelled or its listener
    is closed, leaves no session behind, and then the command succeeds. *)
Lemma forward_ends outcomes f r f' :
  run (Forwarder_Run (Ok tt) outcomes) f = Some (Some r, f') ->
  (exists cancelled closed, AcceptFails cancelled closed ∈ outcomes /\ cancelled || closed = true
     /\ connect_result r cancelled = Ok tt) /\ f_sess f' = None.
Proof.
  cbn. destruct (accept_loop outcomes).2 as [r'|] eqn:E; [|done]. intros H. split.
  - assert (r' = r) as -> by (rewrite run_bind in H; destruct (run closeSession f) as [[]|]; [by injection H as <-|done]).
    clear H. revert E. induction outcomes as [|[c|ca cl] rest IH]; [done| |]; cbn.
    + destruct (accept_loop rest) as [conns r0] eqn:El. cbn in *. intros ->.
      destruct (IH eq_refl) as (ca & cl & Hin & Hc & Hr). exists ca, cl. split_and!; [by right|done|done].
    + destruct (ca || cl) eqn:Ec.
      * intros [= <-]. exists ca, cl. split_and!; [by left|done|]. by destruct ca.
      * intros E. destruct (IH E) as (ca' & cl' & Hin & Hc & Hr). exists ca', cl'. split_and!; [by right|done|done].
  - unfold closeSession in H. rewrite run_bind, run_modify in H. cbn in H. injection H as _ <-. by destruct (f_sess f) eqn:Es; cbn.
Qed.

Lemma Login_Ok `{SessionCodec} controlAddr url_ok answer sess :
  (Login controlAddr url_ok answer).1 = Ok sess -> os_ControlAddr sess = controlAddr.
Proof.
  unfold Login. destruct (postControl _ _ _ _ _ _) as [[out|] s]; [|done]. cbn.
  destruct (ParseRFC3339 _); [|done]. by intros [= <-].
Qed.

Lemma Login_sent `{SessionCodec} controlAddr url_ok answer q :
  (Login controlAddr url_ok answer).2 = Some q -> sn_addr q = controlAddr /\ sn_token q = None.
Proof.
  unfold Login, postControl. destruct (bool_decide _); [done|]. destruct (negb url_ok); [done|].
  destruct (match answer with ControlFails => _ | ControlReply _ _ _ => _ end); by intros [= <-].
Qed.

Section Lemmas.
Context `{K : Keyring} `{C : SessionCodec}.

(** What the session file says. *)
Definition stored_session (m : files) (dir : string) : option Session :=
  match m !! path_join dir sessionFile with
  | Some sealed =>
      match unseal sealed with
      | Ok (b, _) => session_Unmarshal b
      | Err _ => None
      end
  | None => None
  end.

Lemma run_LoadSession dir s :
  exists r s', run (LoadSession dir) s = Some (r, s') /\ fs_files s' = fs_files s
    /\ (forall sess, r = Ok sess -> stored_session (fs_files s) dir = Some sess)
    /\ (fs_faults s = [] -> s' = s
        /\ forall sess, stored_session (fs_files s) dir = Some sess -> r = Ok sess).
Proof.
  unfold LoadSession, Keystore.Load, ReadFile, syscall, stored_session. rewrite !run_bind, run_act.
  destruct s as [m [|[k|] fl]]; cbn [fs_faults fs_files next_call]; [| |].
  2:{ cbn. eexists _, _. by split_and!. }
  all: destruct (m !! path_join dir sessionFile) as [sealed|]; cbn; [|eexists _, _; by split_and!].
  all: eexists _, _; split; [reflexivity|]; destruct (unseal sealed) as [[b p]|e]; cbn; split_and!; try done.
  all: try (destruct (session_Unmarshal b) as [x|]; [by intros ? [= <-] | done]).
  all: try (destruct (errors_Is e ErrKeyNotFound); done).
  all: split; [done|]; intros sess Hs; by rewrite Hs.
Qed.

(** The only files a command about sessions touches. *)
Definition only_session (dir : string) (m m' : files) : Prop :=
  forall q, q <> path_join dir sessionFile -> q <> tmp_of (path_join dir sessionFile) -> m' !! q = m !! q.

Lemma alone_SaveSession dir sess s :
  alone (fun s' => only_session dir (fs_files s) (fs_files s')) (fun _ s' => only_session dir (fs_files s) (fs_files s'))
    (SaveSession dir sess) s.
Proof.
  unfold SaveSession. destruct (session_Marshal sess) as [b|]; [|by apply alone_ret].
  eapply alone_bind; [by apply alone_MkdirAll|].
  intros [u|e] s1 E1; [|apply alone_ret; by rewrite E1].
  eapply alone_bind; [eapply alone_mono; [|by apply saving_same|apply alone_Save]|].
  - intros x [_ H]. rewrite E1 in H. exact H.
  - intros r s2 [[_ H] _]. apply alone_ret. rewrite E1 in H. exact H.
Qed.

Lemma total_SaveSession dir sess : total (SaveSession dir sess).
Proof.
  unfold SaveSession. destruct (session_Marshal sess); [|apply total_ret].
  apply total_bind; [apply total_MkdirAll|]. intros [u|e]; [|apply total_ret].
  apply total_bind; [apply total_Save|]. intros r. apply total_ret.
Qed.

Lemma run_SaveSession `{!SessionCodecLaws C} `{!KeyringLaws K} dir sess m b sealed p :
  session_Marshal sess = Some b -> ascii_session sess = true -> seal b = Ok (sealed, p) ->
  exists m', run (SaveSession dir sess) (mkFS m []) = Some (Ok tt, mkFS m' [])
    /\ stored_session m' dir = Some sess.
Proof.
  intros Hm Ha Hs. unfold SaveSession. rewrite Hm, run_bind. unfold MkdirAll, syscall. rewrite run_act.
  cbn [fs_faults fs_files next_call]. rewrite run_bind, (run_Save _ _ _ _ _ Hs). eexists. split; [reflexivity|].
  unfold stored_session. rewrite lookup_insert_eq, (seal_unseal _ _ _ Hs). by apply (session_roundtrip _ _ Hm).
Qed.
End Lemmas.

Section Theorems.
Context `{K : Keyring} `{C : SessionCodec}.

(** Reusing a stored session, whichever calls of the file system fail: a
    usable stored session is returned without a request and without touching a
    file; what is returned is always bound to the control plane asked about, so
    a token is never handed to another one; the request made otherwise is a login
    to that control plane, which carries no token; and only the session's own
    file changes, a failure to store it notwithstanding. *)
Theorem EnsureSession_spec dir controlAddr now url_ok answer s :
  exists r q s', run (EnsureSession dir controlAddr now url_ok answer) s = Some ((r, q), s')
  /\ (forall sess, r = Ok sess -> os_ControlAddr sess = controlAddr)
  /\ (q = None \/ q = (Login controlAddr url_ok answer).2)
  /\ (forall x, q = Some x -> sn_addr x = controlAddr /\ sn_token x = None)
  /\ only_session dir (fs_files s) (fs_files s')
  /\ (forall sess, fs_faults s = [] -> stored_session (fs_files s) dir = Some sess ->
        Usable sess controlAddr now = true -> r = Ok sess /\ q = None /\ s' = s).
Proof.
  unfold EnsureSession. rewrite run_bind. destruct (run_LoadSession dir s) as (r0 & s0 & -> & Ef & Hst & Hnf).
  assert (exists r q s', run (ensure_login dir controlAddr url_ok answer) s0 = Some ((r, q), s')
    /\ (forall sess, r = Ok sess -> os_ControlAddr sess = controlAddr)
    /\ q = (Login controlAddr url_ok answer).2 /\ only_session dir (fs_files s) (fs_files s')) as
    (r1 & q1 & s1 & Hr & H1 & H2 & H3).
  { unfold ensure_login. pose proof (Login_Ok controlAddr url_ok answer) as HL.
    destruct (Login controlAddr url_ok answer) as [[sess|e] q]; cbn in HL |- *.
    - rewrite run_bind.
      destruct (alone_sound _ _ _ s0 (fun _ _ _ => eq_refl) (alone_SaveSession dir sess s0)) as [_ Ha].
      destruct (run (SaveSession dir sess) s0) as [[x s1]|] eqn:Er.
      + specialize (Ha _ _ eq_refl). cbn. eexists _, _, _. split_and!; [done|intros ? [= <-]; auto|done|]. by rewrite <- Ef.
      + exfalso. destruct (total_SaveSession dir sess s0) as (? & ? & E). by rewrite E in Er.
    - eexists _, _, _. split_and!; [done|done|done|]. by rewrite Ef. }
  destruct r0 as [sess|e]; [destruct (Usable sess controlAddr now) eqn:Eu|].
  - exists (Ok sess), None, s0. split; [done|]. split; [|split; [by left|split; [done|split; [intros ? _ _; by rewrite Ef|]]]].
    + intros ? [= <-]. unfold Usable in Eu. repeat case_bool_decide; done.
    + intros sess' Hf Hs _. destruct (Hnf Hf) as [-> _]. by rewrite (Hst _ eq_refl) in Hs; injection Hs as ->.
  - exists r1, q1, s1. subst q1. split; [exact Hr|]. split; [exact H1|]. split; [by right|].
    split; [apply Login_sent|]. split; [exact H3|].
    intros sess' Hf Hs Hu. exfalso. rewrite (Hst _ eq_refl) in Hs. injection Hs as ->. congruence.
  - exists r1, q1, s1. subst q1. split; [exact Hr|]. split; [exact H1|]. split; [by right|].
    split; [apply Login_sent|]. split; [exact H3|].
    intros sess' Hf Hs Hu. exfalso. destruct (Hnf Hf) as [_ H]. by specialize (H _ Hs).
Qed.

(** One login serves until the margin: on a disk that works, the session
    that [EnsureSession] opens is the one it returns later, for as long as it is
    usable, without asking again. *)
Theorem EnsureSession_cached `{!KeyringLaws K} `{!SessionCodecLaws C}
    dir controlAddr now url_ok answer m sess q s' b sealed p :
  run (EnsureSession dir controlAddr now url_ok answer) (mkFS m []) = Some ((Ok sess, Some q), s') ->
  session_Marshal sess = Some b -> ascii_session sess = true -> seal b = Ok (sealed, p) ->
  forall later url_ok' answer', Usable sess controlAddr later = true ->
  run (EnsureSession dir controlAddr later url_ok' answer') s' = Some ((Ok sess, None), s').
Proof.
  intros Hr Hm Ha Hs later url_ok' answer' Hu.
  assert (exists m', s' = mkFS m' [] /\ stored_session m' dir = Some sess) as (m' & -> & Hst).
  { revert Hr. unfold EnsureSession. rewrite run_bind.
    destruct (run_LoadSession dir (mkFS m [])) as (r0 & s0 & -> & _ & _ & Hnf). destruct (Hnf eq_refl) as [-> _].
    assert (run (ensure_login dir controlAddr url_ok answer) (mkFS m []) = Some (Ok sess, Some q, s') ->
            exists m', s' = mkFS m' [] /\ stored_session m' dir = Some sess) as Hfresh.
    { unfold ensure_login. destruct (Login _ _ _) as [[x|e] q']; [|done]. rewrite run_bind. intros Hr.
      destruct (total_SaveSession dir x (mkFS m [])) as (u & s1 & E). rewrite E in Hr. injection Hr as -> _ ->.
      destruct (run_SaveSession dir sess m b sealed p Hm Ha Hs) as (m' & E' & Hst).
      rewrite E' in E. injection E as _ <-. eauto. }
    destruct r0 as [sess0|e]; [|exact Hfresh]. destruct (Usable sess0 controlAddr now); [intros [=] | exact Hfresh]. }
  unfold EnsureSession. rewrite run_bind.
  destruct (run_LoadSession dir (mkFS m' [])) as (r0 & s0 & -> & _ & _ & Hnf). destruct (Hnf eq_refl) as [-> H].
  rewrite (H _ Hst), Hu. reflexivity.
Qed.
End Theorems.

Section Logout.
Context `{K : Keyring} `{PC : PeerCrypto} `{C : SessionCodec}.

Lemma run_Load_ok dir m id :
  restart dir m = Ok id -> run (PeerIdentity.Load dir) (mkFS m []) = Some (Ok id, mkFS m []).
Proof.
  unfold restart. intros H. destruct (run (PeerIdentity.Load dir) (mkFS m [])) as [[r [m' fl]]|] eqn:E; [|done].
  subst r. destruct (alone_sound (fun _ => True) _ (PeerIdentity.Load dir) (mkFS m []) Logic.I
    (alone_Load _ dir (mkFS m []) (fun _ => Logic.I))) as [_ HS].
  destruct (HS _ _ E) as [Em _]. cbn in Em. subst m'.
  assert (keeps (fun s => fs_faults s = []) (PeerIdentity.Load dir)) as HK.
  { assert (forall A (f : option nat -> files -> A * files), keeps (fun s => fs_faults s = []) (syscall f)) as HC.
    { intros A f. apply keeps_act. intros s Hs. rewrite Hs. cbn. by destruct (f _ _). }
    unfold PeerIdentity.Load, Keystore.Load, ReadFile. repeat first [apply HC | keeps_step]. }
  pose proof (keeps_run _ _ _ _ _ HK (eq_refl : fs_faults (mkFS m []) = []) E) as Hf. cbn in Hf. by subst fl.
Qed.

(** Logging out, on a disk that works and with an identity that loads: the
    stored token is presented to the control plane named on the command line,
    whichever control plane issued it; and whatever that answers, no session is
    stored afterwards, nothing else has changed, and success is reported only
    when the control plane confirmed. *)
Theorem cmdLogout_spec controlAddr stateDir url_ok answer m id sess :
  restart stateDir m = Ok id -> stored_session m stateDir = Some sess ->
  controlAddr <> "" -> url_ok = true -> os_Token sess <> "" ->
  exists r, run (cmdLogout controlAddr stateDir url_ok answer) (mkFS m [])
    = Some ((r, Some (mkSent controlAddr "/v1/logout" (Some (os_Token sess)))),
            mkFS (delete (path_join stateDir sessionFile) m) [])
  /\ forall n, r = Ok n <-> exists out decoded, answer = ControlReply 200 out decoded /\ decoded = true
                           /\ n = Some (lo_GrantsRevoked out).
Proof.
  intros Hid Hst Hc -> Ht. unfold cmdLogout. rewrite run_bind, (run_Load_ok _ _ _ Hid), run_bind.
  destruct (run_LoadSession stateDir (mkFS m [])) as (r0 & s0 & -> & _ & _ & Hnf).
  destruct (Hnf eq_refl) as [-> HS]. rewrite (HS _ Hst).
  unfold Logout, postControl. rewrite !bool_decide_eq_false_2 by done. cbn [negb].
  assert (run (ClearSession stateDir) (mkFS m []) = Some (Ok tt, mkFS (delete (path_join stateDir sessionFile) m) [])) as HC.
  { unfold ClearSession, Remove, syscall. rewrite run_bind, run_act. cbn [fs_faults fs_files next_call].
    unfold stored_session in Hst. by destruct (m !! path_join stateDir sessionFile) eqn:E. }
  destruct answer as [|status out decoded]; [|destruct (negb decoded && (status =? 200)) eqn:E1;
    [|destruct (Z.eqb_spec status 200) as [->|Hn]; cbn [negb]]]; rewrite run_bind, HC; eexists; (split; [reflexivity|]);
    intros n; (split; [try done|]).
  - by intros (? & ? & ? & _).
  - intros (? & ? & [= -> -> ->] & -> & _). done.
  - intros [= <-]. exists out, decoded. split_and!; [done| |done]. by destruct decoded.
  - by intros (? & ? & [= -> ->] & _ & ->).
  - intros (? & ? & [= -> _ _] & _). done.
Qed.
End Logout.

(** ** Witnesses *)

#[global] Instance session_eq_dec : EqDecision Session.
Proof. solve_decision. Defined.

Definition toy_session : Session := mkSession "tok" "sess_1" "usr_maria" (Unix 1700010000) "control:8443".

(** A codec for one session. *)
Definition toy_codec : SessionCodec := {|
  session_Marshal s := if bool_decide (s = toy_session) then Some (bytes_of_string "S") else None;
  session_Unmarshal b := if bool_decide (b = bytes_of_string "S") then Some toy_session else None;
  ParseRFC3339 s := if bool_decide (s = "2023-11-15T01:00:00Z") then Some (Unix 1700010000) else None
|}.

#[global] Instance toy_codec_laws : SessionCodecLaws toy_codec.
Proof. constructor. intros s b. cbn. case_bool_decide; [|done]. by intros [= <-] _; subst. Qed.

Definition toy_login : control_answer loginReply :=
  ControlReply 200 (mkLoginReply "tok" "sess_1" "usr_maria" "2023-11-15T01:00:00Z" "") true.

Definition toy_ensure (now : time) (s : FS) : option (res Session * option sent * FS) :=
  run (@EnsureSession file_permissions toy_codec "d" "control:8443" now true toy_login) s.

Definition toy_logged_in : files := <["d/session.json" := bytes_of_string "S"]> toy_files.

Lemma EnsureSession_cached_witness :
  exists s', toy_ensure (Unix 1700000000) (mkFS toy_files [])
             = Some ((Ok toy_session, Some (mkSent "control:8443" "/v1/login" None)), s')
    /\ toy_ensure (Unix 1700009000) s' = Some ((Ok toy_session, None), s').
Proof.
  destruct (toy_ensure (Unix 1700000000) (mkFS toy_files [])) as [[r s']|] eqn:E; [|discriminate].
  assert (r = (Ok toy_session, Some (mkSent "control:8443" "/v1/login" None))) as ->.
  { apply Some_inj. transitivity (fst <$> toy_ensure (Unix 1700000000) (mkFS toy_files [])); [by rewrite E | reflexivity]. }
  exists s'. split; [reflexivity|].
  exact (@EnsureSession_cached file_permissions toy_codec file_permissions_laws toy_codec_laws "d" "control:8443"
    (Unix 1700000000) true toy_login toy_files toy_session _ s' (bytes_of_string "S") (bytes_of_string "S")
    ProtectionFilePermissions E eq_refl eq_refl eq_refl (Unix 1700009000) true toy_login eq_refl).
Defined.

(** The token was issued by [control:8443]. *)
Lemma cmdLogout_spec_witness :
  os_ControlAddr toy_session <> "elsewhere:8443" /\
  exists r s', run (@cmdLogout file_permissions toy_crypto toy_codec "elsewhere:8443" "d" true ControlFails)
                 (mkFS toy_logged_in [])
    = Some ((r, Some (mkSent "elsewhere:8443" "/v1/logout" (Some "tok"))), s').
Proof.
  split; [discriminate|].
  destruct (@cmdLogout_spec file_permissions toy_crypto toy_codec "elsewhere:8443" "d" true ControlFails toy_logged_in
    toy_peer toy_session) as (r & H & _); [reflexivity|reflexivity|discriminate|reflexivity|discriminate|].
  exists r. eexists. exact H.
Defined.
