(* ===== verification/AgentLoop.v ===== *)
(** * The agent's life

    The rest of [src/internal/agent/agent.go]: the loop that keeps a relay
    session up ([Run], [session]) and certificate renewal ([renewIfDue], called
    by the loop, and [watchForRenewal], a goroutine per session that calls it
    too).  The credentials in force are one pointer, replaced whole; the files
    of the state directory are shared by everything that renews, one system call
    at a time. *)

From S2P Require Import Prelude GoErrors GoTime GoFloat Backoff Proto Handshake Grant Proc Keystore Enrollment NetAddr PeerIdentity Agent OperatorSession.
Open Scope proc_scope.

(** ** Configuration *)

Record AgentConfig := mkAgentConfig {
  ac_RelayAddr : string;
  ac_ControlAddr : string;
  ac_StateDir : string;
  ac_MaxStreams : Z;
  ac_RetryInterval : duration;
  ac_MaxRetryInterval : duration;
  ac_RenewCheckInterval : duration;
  ac_KeepAlive : duration;
  ac_IdleTimeout : duration
}.

(** The defaults [New] fills in before its checks ([agent_New]). *)
Definition agent_defaults (c : AgentConfig) : AgentConfig :=
  let idle := if ac_IdleTimeout c =? 0 then IdleTimeout else ac_IdleTimeout c in
  mkAgentConfig (ac_RelayAddr c) (ac_ControlAddr c) (ac_StateDir c)
    (if ac_MaxStreams c =? 0 then MaxStreamsPerConnection else ac_MaxStreams c)
    (if ac_RetryInterval c <=? 0 then DefaultInitial else ac_RetryInterval c)
    (if ac_MaxRetryInterval c <=? 0 then DefaultMax else ac_MaxRetryInterval c)
    (if ac_RenewCheckInterval c <=? 0 then RenewCheckInterval else ac_RenewCheckInterval c)
    (if ac_KeepAlive c =? 0 then Z.quot idle 3 else ac_KeepAlive c)
    idle.

(** ** The reconnect loop *)

Definition settleDelay : duration := 250 * Millisecond.

(** One relay session, from dial to disconnect: whether it was established, and
    its error. *)
Inductive session_outcome :=
| SDialFails (e : error)
| SRefused (e : error)
| SEnds (streams : nat) (ctx_err sess_err : option error).

Definition agent_session (o : session_outcome) : bool * option error :=
  match o with
  | SDialFails e => (false, Some (EWrap "connect to relay" e))
  | SRefused e => (false, Some (EWrap "relay handshake" e))
  | SEnds _ (Some e) _ => (true, Some e)
  | SEnds _ None sess_err => (true, sess_err)
  end.

Inductive wait_outcome :=
| WaitTimer
| WaitChange (cancelled : bool)    (* the network changed; was ctx cancelled while settling *)
| WaitCancelled.

Record iteration := mkIteration {
  it_session : session_outcome;
  it_cancelled : bool;             (* ctx.Err() != nil after the session *)
  it_rand : Z -> option Z;
  it_wait : wait_outcome
}.

Inductive run_end := RunContinues | RunCancelled | RunPanics.

(** The delays drawn, in order; the state of the backoff; how the loop ended. *)
Fixpoint Run_loop (its : list iteration) (retry : State) : list duration * State * run_end :=
  match its with
  | [] => ([], retry, RunContinues)
  | it :: rest =>
      let '(established, _) := agent_session (it_session it) in
      if it_cancelled it then ([], retry, RunCancelled)
      else
        let retry := if (established : bool) then Reset retry else retry in
        match Next (it_rand it) retry with
        | (None, retry) => ([], retry, RunPanics)
        | (Some delay, retry) =>
            match it_wait it with
            | WaitCancelled | WaitChange true => ([delay], retry, RunCancelled)
            | WaitTimer | WaitChange false =>
                let '(ds, s, e) := Run_loop rest retry in (delay :: ds, s, e)
            end
        end
  end.

Definition Run (c : AgentConfig) (its : list iteration) : list duration * State * run_end :=
  Run_loop its (New (mkPolicy (ac_RetryInterval c) (ac_MaxRetryInterval c) (f_of_Z 0))).

(** ** Renewal *)

Record AgentState := mkAgentState {
  a_identity : nat * PeerID;       (* the pointer, and what it points to *)
  a_fs : FS;
  a_ended : list nat               (* sessions ended to adopt a new certificate *)
}.

Definition set_fs (fs : FS) (a : AgentState) : AgentState := mkAgentState (a_identity a) fs (a_ended a).

Definition identity_Store (id : PeerID) (a : AgentState) : AgentState :=
  mkAgentState (S (a_identity a).1, id) (a_fs a) (a_ended a).

Definition endSession (n : nat) (a : AgentState) : AgentState :=
  mkAgentState (a_identity a) (a_fs a) (n :: a_ended a).

(** Code that works on the files only. *)
Definition on_fs {A : Type} (p : fsM A) : proc AgentState A := embed a_fs set_fs p.

Section Renewal.
Context `{K : Keyring} `{PC : PeerCrypto} (c : AgentConfig).

Definition agent_renewIfDue (r : renewal) : proc AgentState unit :=
  if bool_decide (ac_ControlAddr c = "") || bool_decide (ac_StateDir c = "") then Ret tt
  else
    do current <- gets a_identity;
    if negb (DueForRenewal current.2 (rn_now r)) then Ret tt
    else
      do x <- on_fs (RenewIfDue current.2 (ac_ControlAddr c) (ac_StateDir c) (rn_now r) (rn_key r) (rn_csr_ok r)
                       (rn_answer r));
      match x with
      | (renewed, true, None) => modify (identity_Store renewed)
      | _ => Ret tt
      end.

(** [watchForRenewal] for session [n]: one renewal per tick, until the context is
    done. *)
Fixpoint watch_loop (n : nat) (ticks : list renewal) : proc AgentState unit :=
  match ticks with
  | [] => Ret tt
  | r :: rest =>
      do i <- gets a_identity;
      if negb (DueForRenewal i.2 (rn_now r)) then watch_loop n rest
      else
        do before <- gets a_identity;
        do _ <- agent_renewIfDue r;
        do after <- gets a_identity;
        if negb (before.1 =? after.1)%nat then modify (endSession n) else watch_loop n rest
  end.

Definition watchForRenewal (n : nat) (ticks : list renewal) : proc AgentState unit :=
  if bool_decide (ac_ControlAddr c = "") || bool_decide (ac_StateDir c = "") then Ret tt
  else watch_loop n ticks.

(** What may run: the loop's renewals, and watchers of any session. *)
Inductive renewing_procs : proc AgentState unit -> Prop :=
| rp_loop r : renewing_procs (agent_renewIfDue r)
| rp_watch n ticks : renewing_procs (watchForRenewal n ticks).
End Renewal.

(** ** Specification *)

(** The exponent of each delay's ceiling: the number of sessions in a row, up to
    this one, that were not established. *)
Fixpoint exponents (established : list bool) (n : nat) : list nat :=
  match established with
  | [] => []
  | e :: rest => let k := if (e : bool) then 0%nat else n in k :: exponents rest (S k)
  end.

Definition was_established (it : iteration) : bool := (agent_session (it_session it)).1.

Definition retry_policy (c : AgentConfig) : Policy :=
  withDefaults (mkPolicy (ac_RetryInterval c) (ac_MaxRetryInterval c) (f_of_Z 0)).

Definition paced_by (c : AgentConfig) (delay : duration) (n : nat) : Prop :=
  0 <= delay <= ideal_ceiling (pl_Initial (retry_policy c)) (pl_Max (retry_policy c)) (Z.of_nat n).

(** ** Lemmas *)

Lemma Run_loop_paced c its k :
  Int64N_law (fun i => match its !! i with Some it => it_rand it | None => fun n => Some 0 end) ->
  ac_MaxRetryInterval c < 2 ^ 53 ->
  let '(ds, s, e) := Run_loop its (mkState (retry_policy c) (Z.of_nat k)) in
  e <> RunPanics
  /\ Forall2 (paced_by c) ds (take (length ds) (exponents (was_established <$> its) k))
  /\ (e = RunContinues -> length ds = length its).
Proof.
  intros Hr HM. revert k Hr. induction its as [|it its IH]; intros k Hr; [cbn; split_and!; [done|constructor|done]|].
  cbn [Run_loop fmap list_fmap exponents].
  destruct (agent_session (it_session it)) as [est err] eqn:Es.
  assert (was_established it = est) as -> by (unfold was_established; by rewrite Es).
  destruct (it_cancelled it); [split_and!; [done|constructor|done]|].
  set (n := if est then 0%nat else k).
  assert ((if est then Reset (mkState (retry_policy c) (Z.of_nat k)) else mkState (retry_policy c) (Z.of_nat k))
          = mkState (retry_policy c) (Z.of_nat n)) as -> by (by destruct est).
  destruct (Next_of _ 0 (mkPolicy (ac_RetryInterval c) (ac_MaxRetryInterval c) (f_of_Z 0)) (Z.of_nat n) Hr)
    as (d & Ed & Hd); [exact HM | by left | lia|].
  cbn in Ed. change (withDefaults _) with (retry_policy c) in Ed. rewrite Ed.
  assert (Int64N_law (fun i => match its !! i with Some it => it_rand it | None => fun _ => Some 0 end)) as Hr'.
  { intros i. exact (Hr (S i)). }
  specialize (IH (S n) Hr'). replace (Z.of_nat n + 1) with (Z.of_nat (S n)) by lia.
  assert (paced_by c d n) as Hp by exact Hd.
  destruct (it_wait it) as [|[]|].
  2, 4: split_and!; [done | cbn; by constructor | done].
  all: destruct (Run_loop its (mkState (retry_policy c) (Z.of_nat (S n)))) as [[ds s] e].
  all: destruct IH as (H1 & H2 & H3); split; [exact H1|]; split.
  all: first [apply Forall2_cons_2; [exact Hp | exact H2] | intros He; cbn; f_equal; by apply H3].
Qed.

Section Pairs.
Context `{K : Keyring} `{PC : PeerCrypto}.

(** A key and a certificate that belong together. *)
Definition pair_ok (id : PeerID) : Prop := X509KeyPair (p_CertPEM id) (p_KeyPEM id) = true.

Lemma returns_Load dir : returns (fun _ => True) (fun r => forall id, r = Ok id -> pair_ok id) (PeerIdentity.Load dir).
Proof.
  unfold PeerIdentity.Load. eapply returns_bind; [apply returns_any|]. intros [[keyPEM prot]|e] _; [|done].
  eapply returns_bind; [apply returns_any|]. intros [certPEM|e] _; [|done].
  eapply returns_bind; [apply returns_any|]. intros [caPEM|e] _; [|done].
  destruct (X509KeyPair certPEM keyPEM) eqn:Ep; cbn [negb]; [|done].
  destruct (leafOf certPEM) as [leaf|]; [|done]. destruct (IdentityOf leaf); [|done].
  destruct (AppendCertsFromPEM caPEM); cbn [negb]; [|done].
  eapply returns_bind; [apply returns_any|]. intros rm _.
  eapply returns_bind; [apply returns_any|]. intros rg _. by intros ? [= <-].
Qed.

Lemma returns_store cond dir f b msg k :
  returns (fun _ => True) (fun r => forall id, r = Ok id -> pair_ok id) k ->
  returns (fun _ => True) (fun r => forall id, r = Ok id -> pair_ok id) (store cond dir f b msg k).
Proof.
  intros Hk. unfold store. destruct cond; [|exact Hk].
  eapply returns_bind; [apply returns_any|]. by intros [u|e] _.
Qed.

Lemma returns_RenewIfDue current controlAddr dir now key csr_ok answer :
  returns (fun _ => True) (fun x => x.1.2 = true -> pair_ok x.1.1)
    (RenewIfDue current controlAddr dir now key csr_ok answer).
Proof.
  unfold RenewIfDue. destruct (_ || _); [done|].
  apply (returns_bind _ (fun r => forall id, r = Ok id -> pair_ok id)).
  - unfold Renew. destruct key as [keyPEM|]; [|done]. destruct (negb csr_ok); [done|].
    destruct (postRenew answer) as [resp|]; [|done]. destruct (negb _); [done|]. unfold renew_store.
    eapply returns_bind; [apply returns_any|]. intros [u|e] _; [|done].
    eapply returns_bind; [apply returns_any|]. intros [u'|e] _; [|done].
    do 3 apply returns_store. apply returns_Load.
  - intros [id|e] H; cbn; [by intros _; apply H | done].
Qed.

Lemma keeps_renewIfDue c r : keeps (fun s => pair_ok (a_identity s).2) (agent_renewIfDue c r).
Proof.
  unfold agent_renewIfDue. destruct (_ || _); [apply keeps_ret|].
  apply keeps_bind; [apply keeps_gets|]. intros current. destruct (negb _); [apply keeps_ret|].
  eapply keeps_embed; [by intros|apply returns_RenewIfDue|].
  intros [[renewed []] [e|]] H; try apply keeps_ret. apply keeps_modify. intros s _. by apply H.
Qed.

Lemma keeps_watch c n ticks : keeps (fun s => pair_ok (a_identity s).2) (watchForRenewal c n ticks).
Proof.
  unfold watchForRenewal. destruct (_ || _); [apply keeps_ret|].
  induction ticks as [|r rest IH]; [apply keeps_ret|]. cbn [watch_loop].
  apply keeps_bind; [apply keeps_gets|]. intros i. destruct (negb _); [exact IH|].
  apply keeps_bind; [apply keeps_gets|]. intros before.
  apply keeps_bind; [apply keeps_renewIfDue|]. intros _.
  apply keeps_bind; [apply keeps_gets|]. intros after. destruct (negb _); [|exact IH].
  by apply keeps_modify.
Qed.
End Pairs.

(** ** Properties *)

(** The agent's redials are paced by sessions, not by dials: over any
    sequence of attempts, each delay is between zero and the doubling ceiling for
    the number of attempts in a row that were not established (so a dial that
    succeeds and is then refused counts as a failure, and so does one after a
    change of network, which shortens the wait only); the loop ends only when it
    is cancelled, and never panics. *)
Theorem Run_paced c its :
  Int64N_law (fun i => match its !! i with Some it => it_rand it | None => fun n => Some 0 end) ->
  ac_MaxRetryInterval c < 2 ^ 53 ->
  let '(ds, s, e) := Run c its in
  e <> RunPanics
  /\ Forall2 (paced_by c) ds (take (length ds) (exponents (was_established <$> its) 0))
  /\ (e = RunContinues -> length ds = length its).
Proof. intros Hr HM. exact (Run_loop_paced c its 0 Hr HM). Qed.

(** C34.  The credentials in force are never a mixture: however renewals by the
    loop and by any number of watchers interleave, one system call at a time, the
    identity in memory is always a certificate with its own key, even when the
    files on disk are not. *)
Theorem identity_whole `{Keyring} `{PeerCrypto} c a ps a' ps' :
  pair_ok (a_identity a).2 -> Forall (renewing_procs c) ps ->
  rtc (pool_step (renewing_procs c)) (a, ps) (a', ps') -> pair_ok (a_identity a').2.
Proof.
  intros Ha Hps Hr.
  assert (forall p, renewing_procs c p -> keeps (fun s => pair_ok (a_identity s).2) p) as Hk.
  { intros p []; [apply keeps_renewIfDue | apply keeps_watch]. }
  refine (proj1 (keeps_pool _ _ _ _ _ _ Hk Hr Ha _)). eapply Forall_impl; [exact Hps | exact Hk].
Qed.

(** ** Two renewals at once *)

Definition al_cfg : AgentConfig := mkAgentConfig "relay:443" "control:8443" "d" 0 0 0 0 0 0.

(** A renewal at time 50 that generates the key [k] and gets the certificate [k]
    and the grant key [g]. *)
Definition al_renewal (k g : string) : renewal :=
  mkRenewal 50 (Some (bytes_of_string k)) true (HttpReply 200 (Some (mkEnrollResponse k "" g ""))).

Definition al_state : AgentState := mkAgentState (0%nat, toy_peer) (mkFS toy_files []) [].

Definition al_procs : list (proc AgentState unit) :=
  [@watchForRenewal file_permissions toy_crypto al_cfg 0 [al_renewal "one" ""];
   @agent_renewIfDue file_permissions toy_crypto al_cfg (al_renewal "two" "")].

(** The watcher of a session that has ended has the response and its new key is
    in place; the loop's renewal runs to its end; the watcher goes on. *)
Definition al_order : list nat := repeat 0%nat 8 ++ repeat 1%nat 14 ++ repeat 0%nat 7.

Lemma al_procs_renewing : Forall (@renewing_procs file_permissions toy_crypto al_cfg) al_procs.
Proof.
  unfold al_procs. apply Forall_cons_2; [constructor|]. apply Forall_cons_2; [constructor|]. apply Forall_nil_2.
Qed.

Lemma concurrent_ends : exists a' ps', sched al_order al_state al_procs = Some (a', ps').
Proof.
  assert (match sched al_order al_state al_procs with Some _ => true | None => false end = true) as H
    by (vm_compute; reflexivity).
  destruct (sched al_order al_state al_procs) as [[a' ps']|]; [eauto | discriminate H].
Qed.

Definition finished (p : proc AgentState unit) : bool := match p with Ret _ => true | Act _ => false end.

(** Two renewals at once can cost the identity: nothing keeps the watcher
    of a session that has ended from renewing while the loop renews too, and
    their writes interleave.  Here, with no call failing, both have finished, the
    one that reported success is in force, and the files hold its key with the
    other's certificate: the agent works until it is restarted, and then cannot
    load its identity. *)
Theorem concurrent_renewals_mix :
  @restart file_permissions toy_crypto "d" (fs_files (a_fs al_state)) = Ok (a_identity al_state).2
  /\ Forall (@renewing_procs file_permissions toy_crypto al_cfg) al_procs
  /\ exists a' ps', sched al_order al_state al_procs = Some (a', ps') /\ forallb finished ps' = true
     /\ p_KeyPEM (a_identity a').2 = bytes_of_string "two"
     /\ @restart file_permissions toy_crypto "d" (fs_files (a_fs a')) = Err (EMsg "load key pair").
Proof.
  split; [reflexivity|]. split; [exact al_procs_renewing|].
  destruct concurrent_ends as (a' & ps' & E).
  exists a', ps'. split; [exact E|].
  assert (option_map (fun x => (forallb finished x.2, p_KeyPEM (a_identity x.1).2,
        @restart file_permissions toy_crypto "d" (fs_files (a_fs x.1)))) (sched al_order al_state al_procs)
      = Some (true, bytes_of_string "two", Err (EMsg "load key pair"))) as H by (vm_compute; reflexivity).
    rewrite E in H. cbn [option_map fst snd] in H. apply Some_inj in H.
    split_and!; [exact (f_equal (fun x => x.1.1) H) | exact (f_equal (fun x => x.1.2) H) | exact (f_equal snd H)].
Qed.

(** An agent that started with a grant key. *)
Definition al_grant_key : string := "0123456789abcdef0123456789abcdef".

Definition al_keyed : AgentState :=
  mkAgentState (0%nat, mkPeerID (bytes_of_string "old") (bytes_of_string "old") (bytes_of_string "ca") toy_id ""
                         ProtectionFilePermissions 100 (Some (bytes_of_string al_grant_key)))
    (mkFS (<["d/grant-signing.pub" := bytes_of_string al_grant_key]> toy_files) []) [].

Definition al_rekey : option (unit * AgentState) :=
  run (@agent_renewIfDue file_permissions toy_crypto al_cfg (al_renewal "one" "short")) al_keyed.

(** A renewal is not held to what [New] requires of the identity: an agent
    that started with the key that verifies grants, and is sent something else in
    its place, puts the renewed identity in force without one. *)
Theorem renewal_drops_grant_key :
  @restart file_permissions toy_crypto "d" (fs_files (a_fs al_keyed)) = Ok (a_identity al_keyed).2
  /\ p_GrantKey (a_identity al_keyed).2 <> None
  /\ exists a', al_rekey = Some (tt, a')
     /\ p_KeyPEM (a_identity a').2 = bytes_of_string "one" /\ p_GrantKey (a_identity a').2 = None.
Proof.
  split; [reflexivity|]. split; [discriminate|].
  assert (option_map (fun x => (p_KeyPEM (a_identity x.2).2, p_GrantKey (a_identity x.2).2)) al_rekey
    = Some (bytes_of_string "one", None)) as H by (vm_compute; reflexivity).
  destruct al_rekey as [[[] a']|]; [|discriminate H]. exists a'. split; [reflexivity|].
  cbn [option_map snd] in H. apply Some_inj in H. split; [exact (f_equal fst H) | exact (f_equal snd H)].
Qed.

(** ** Witnesses *)

Lemma identity_whole_witness :
  exists a' ps', sched al_order al_state al_procs = Some (a', ps')
    /\ @pair_ok toy_crypto (a_identity a').2.
Proof.
  destruct concurrent_ends as (a' & ps' & E). exists a', ps'. split; [exact E|].
  apply (@identity_whole file_permissions toy_crypto al_cfg al_state al_procs a' ps'); [reflexivity|exact al_procs_renewing|].
  exact (sched_steps _ _ _ _ _ E).
Defined.

Definition al_iteration (o : session_outcome) : iteration :=
  mkIteration o false (fun n => if 0 <? n then Some (n - 1) else None) WaitTimer.

(** Down, refused, up, refused. *)
Definition al_iterations : list iteration :=
  al_iteration <$> [SDialFails (EMsg "down"); SRefused (EMsg "no"); SEnds 3 None None; SRefused (EMsg "no")].

Lemma Run_paced_witness :
  (Run (agent_defaults al_cfg) al_iterations).1.1 = [500 * Millisecond; 1 * Second; 500 * Millisecond; 1 * Second]
  /\ let '(ds, s, e) := Run (agent_defaults al_cfg) al_iterations in
     Forall2 (paced_by (agent_defaults al_cfg)) ds
       (take (length ds) (exponents (was_established <$> al_iterations) 0)).
Proof.
  split; [vm_compute; reflexivity|].
  assert (let '(ds, s, e) := Run (agent_defaults al_cfg) al_iterations in
    e <> RunPanics
    /\ Forall2 (paced_by (agent_defaults al_cfg)) ds (take (length ds) (exponents (was_established <$> al_iterations) 0))
    /\ (e = RunContinues -> length ds = length al_iterations)) as H.
  { apply Run_paced; [|vm_compute; reflexivity]. intros i n Hn.
    destruct i as [|[|[|[|i]]]]; cbn; [exists (n - 1)..|exists 0]; destruct (Z.ltb_spec 0 n); split; try reflexivity; lia. }
  destruct (Run (agent_defaults al_cfg) al_iterations) as [[ds s] e]. exact (proj1 (proj2 H)).
Defined.
