(* ===== verification/Admin.v ===== *)
(** * The administrator's commands

    [src/cmd/sar-server] (admin.go, and the commands of main.go that work on the
    database): querying and pruning the audit trail, listing and revoking grants
    and sessions, minting enrollment codes, revoking identities.  Flags are
    arguments; a report is the data a command prints, not its layout. *)

From stdpp Require Import sorting.
From S2P Require Import Prelude GoErrors GoTime Proto Handshake Grant Policy Db Storage Enrollment ControlPlane.
Import ControlPlane.Login ControlPlane.Grants.
Open Scope db_scope.

(** ** Small functions of the reports *)

Definition grantState (g : GrantRecord) (now : time) : string :=
  if Revoked g then "REVOKED" else if Expired g now then "expired" else "active".

Definition sessionState (r : SessionRecord) (now : time) : string :=
  if bool_decide (ss_RevokedAt r <> None) then "ENDED"
  else if negb (Active r now) then "expired" else "active".

Definition dash (s : string) : string := if bool_decide (s = "") then "-" else s.

(** [id[:n] + "..."] when longer than [n] bytes. *)
Definition shorten (n : nat) (id : string) : string :=
  if (n <? String.length id)%nat then String.substring 0 n id +:+ "..." else id.

Definition shortGrant (id : string) : string := shorten 14 id.
Definition shortSession (id : string) : string := shorten 12 id.

Definition revokeEvent (role : string) : string :=
  if bool_decide (role = "operator") then EventOperatorRevoked else EventDeviceRevoked.

Definition deviceOf (role id : string) : string := if bool_decide (role = "device") then id else "".

(** [strings.Split(s, ",")]. *)
Fixpoint split_comma (s : list byte) (cur : list byte) : list (list byte) :=
  match s with
  | [] => [cur]
  | b :: s' => if byte_to_Z b =? 44 then cur :: split_comma s' [] else split_comma s' (cur ++ [b])
  end.

Definition splitList (s : string) : list string :=
  List.filter (fun p => negb (bool_decide (p = "")))
    ((fun p => TrimSpace (string_of_bytes p)) <$> split_comma (bytes_of_string s) []).

(** The names [-events] prints. *)
Definition listEventNames : list string :=
  [EventDeviceEnrolled; EventDeviceRevoked; EventOperatorEnrolled; EventOperatorRevoked; EventEnrollDenied;
   EventDeviceConnected; EventDeviceDisconnected;
   EventOperatorLogin; EventOperatorLoginDenied; EventOperatorLogout; EventOperatorSessionEnded;
   EventGrantCreated; EventGrantDenied; EventGrantRevoked;
   EventStreamOpened; EventStreamDenied; EventStreamClosed;
   EventAdminAction].

(** ** sortBySeqDesc *)

(** The inner loop: the element at [j] moves left while it is newer than its
    neighbour. *)
Fixpoint sift (j : nat) (l : list AuditEvent) : list AuditEvent :=
  match j with
  | O => l
  | S i =>
      match l !! j, l !! i with
      | Some a, Some b => if e_Seq a >? e_Seq b then sift i (<[j := b]> (<[i := a]> l)) else l
      | _, _ => l
      end
  end.

Definition sortBySeqDesc (l : list AuditEvent) : list AuditEvent :=
  foldl (fun l i => sift i l) l (seq 1 (length l - 1)).

(** ** audit *)

Definition denial_names : list string :=
  [EventGrantDenied; EventStreamDenied; EventEnrollDenied; EventOperatorLoginDenied].

Definition with_event (f : AuditFilter) (name : string) : AuditFilter :=
  mkAuditFilter (af_Since f) (af_Until f) name (af_ActorID f) (af_DeviceID f) (af_ResourceID f) (af_GrantID f)
    (af_Limit f).

Fixpoint denial_batches (names : list string) (f : AuditFilter) (events : list AuditEvent) : dbM (list AuditEvent) :=
  match names with
  | [] => db_ret events
  | name :: rest =>
      do batch <- QueryAudit (with_event f name);
      denial_batches rest f (events ++ batch)
  end.

(** [-denials]; slicing with a negative limit panics. *)
Definition denials (f : AuditFilter) (limit : Z) : dbM (list AuditEvent) :=
  do events <- denial_batches denial_names f [];
  let events := sortBySeqDesc events in
  if zlen events >? limit then
    if limit <? 0 then db_err (EMsg "panic: slice bounds out of range") else db_ret (take (Z.to_nat limit) events)
  else db_ret events.

Inductive audit_report :=
| ReportNames (names : list string)
| ReportEmpty
| ReportStats (count : Z) (oldest : time)
| ReportDryRun (doomed count : Z) (oldest : time) (capped : bool)
| ReportPruned (removed : Z)
| ReportNone (total : Z)
| ReportEvents (events : list AuditEvent) (total : Z) (capped : bool).

Definition auditStats : dbM audit_report :=
  do span <- AuditSpan;
  let '(count, oldest) := span in
  if count =? 0 then db_ret ReportEmpty else db_ret (ReportStats count oldest).

Definition auditPrune (age : duration) (confirm : bool) (now nowA : time) : dbM audit_report :=
  let cutoff := Add now (- age) in
  do span <- AuditSpan;
  let '(count, oldest) := span in
  if count =? 0 then db_ret ReportEmpty
  else if negb confirm then
    do doomed <- QueryAudit (mkAuditFilter 0 cutoff "" "" "" "" "" MaxAuditLimit);
    db_ret (ReportDryRun (zlen doomed) count oldest (zlen doomed =? MaxAuditLimit))
  else
    do removed <- PruneAudit cutoff "admin" nowA;
    db_ret (ReportPruned removed).

Record audit_flags := mkAuditFlags {
  fl_since : duration;
  fl_event : string;
  fl_actor : string;
  fl_device : string;
  fl_resource : string;
  fl_grant : string;
  fl_limit : Z;
  fl_denials : bool;
  fl_events : bool;
  fl_stats : bool;
  fl_prune : duration;
  fl_confirm : bool
}.

Definition audit_filter (f : audit_flags) (now : time) : AuditFilter :=
  mkAuditFilter (Add now (- fl_since f)) 0 (fl_event f) (fl_actor f) (fl_device f) (fl_resource f) (fl_grant f)
    (fl_limit f).

Definition cmdAudit (f : audit_flags) (now nowA : time) : dbM audit_report :=
  if fl_events f then db_ret (ReportNames listEventNames)
  else if fl_stats f then auditStats
  else if fl_prune f >? 0 then auditPrune (fl_prune f) (fl_confirm f) now nowA
  else
    do events <- if fl_denials f then denials (audit_filter f now) (fl_limit f) else QueryAudit (audit_filter f now);
    do total <- CountAudit;
    if zlen events =? 0 then db_ret (ReportNone total)
    else db_ret (ReportEvents events total (zlen events =? fl_limit f)).

(** ** grants and sessions *)

Definition cmdGrants (filter : GrantFilter) (revoke : string) (now nowA : time)
    : dbM (GrantRecord + list (GrantRecord * string)) :=
  if negb (bool_decide (revoke = "")) then
    do r <- attempt (RevokeGrant revoke ReasonRevokedByAdmin
                       (event EventGrantRevoked RoleAdmin "admin" "" "" "" "" "" "") now nowA);
    match r with
    | Err e => if errors_Is e ErrGrantUnknown then db_err (EMsg "no grant was issued by this control plane") else db_err e
    | Ok rec => db_ret (inl rec)
    end
  else
    do list <- ListGrants filter now;
    db_ret (inr ((fun g => (g, grantState g now)) <$> list)).

Definition cmdSessions (filter : SessionFilter) (revoke : string) (now nowA now2 : time)
    : dbM (list GrantRecord + list (SessionRecord * string)) :=
  if negb (bool_decide (revoke = "")) then
    do r <- attempt (Login.End revoke "admin" ReasonRevokedByAdmin now nowA now2);
    match r with
    | Err e => if errors_Is e ErrSessionUnknown then db_err (EMsg "no session exists") else db_err e
    | Ok revoked => db_ret (inl revoked)
    end
  else
    do list <- ListSessions filter now;
    db_ret (inr ((fun r => (r, sessionState r now)) <$> list)).

(** ** token, revoke, list *)

(** Exactly one of [-device] and [-operator]: a role and an identifier. *)
Definition subject (device operator : string) : res (string * string) :=
  if bool_decide (device = "") then
    if bool_decide (operator = "") then Err (EMsg "give exactly one of -device or -operator")
    else Ok ("operator", operator)
  else if bool_decide (operator = "") then Ok ("device", device)
  else Err (EMsg "give exactly one of -device or -operator").

Definition cmdToken `{PEMs : X509} `{Base64} (HashToken : string -> string) (json_enc : Code -> string)
    (svc : Service) (fingerprint device operator controlAddr serverName : string)
    (raw : option string) (now : time) : dbM string :=
  do who <- lift (subject device operator);
  do token <- IssueToken HashToken svc who.1 who.2 raw now;
  db_ret (Code_Encode json_enc (mkCode controlAddr token fingerprint serverName)).

(** The number of grants revoked. *)
Definition cmdRevoke (device operator : string) (t0 t1 t2 t3 t4 : time) (clock : nat -> time) : dbM Z :=
  do who <- lift (subject device operator);
  let '(role, id) := who in
  do _ <- Store_Revoke role id t0;
  do _ <- Record_event true (event (revokeEvent role) RoleAdmin id (deviceOf role id) "" "" "" ReasonIdentityRevoked "")
            t1 t2;
  if bool_decide (role = "operator") then
    do r <- attempt (EndAllForUser id "admin" ReasonIdentityRevoked t3 clock t4);
    match r with
    | Err e | Ok (_, Some e) => db_err (EWrap "identity revoked, but its sessions and grants were not" e)
    | Ok (revoked, None) => db_ret (zlen revoked)
    end
  else
    do r <- attempt (RevokeGrantsWhere ScopeDevice id ReasonIdentityRevoked
                       (event EventGrantRevoked RoleAdmin "admin" "" "" "" "" "" "") t4);
    match r with
    | Err e => db_err (EWrap "identity revoked, but grants naming it were not" e)
    | Ok revoked => db_ret (zlen revoked)
    end.

(** The rows printed for each role, with their status and whether a renewal is
    pending. *)
Definition list_rows (records : list Record_) : list (string * string * bool) :=
  (fun r => (r_ID r, if r_Revoked r then "REVOKED" else "active",
             negb (bool_decide (r_PendingSerialHex r = "")))) <$> records.

Definition cmdList : dbM (list (string * list (string * string * bool))) :=
  do devices <- List_identities "device";
  do operators <- List_identities "operator";
  db_ret [("device", list_rows devices); ("operator", list_rows operators)].

(** ** Lemmas: the sort *)

Definition newest_first (a b : AuditEvent) : Prop := e_Seq b <= e_Seq a.

(** Insertion into a part that is in order already. *)
Lemma sift_insert p x r :
  StronglySorted newest_first p ->
  exists p1 p2, p = p1 ++ p2 /\ sift (length p) (p ++ x :: r) = p1 ++ x :: p2 ++ r
    /\ StronglySorted newest_first (p1 ++ x :: p2).
Proof.
  revert r. induction p as [|y p IH] using rev_ind; intros r Hs.
  { exists [], []. split; [done|]. split; [done|]. by repeat constructor. }
  apply StronglySorted_app in Hs as (Hyp & Hp & _).
  rewrite length_app, Nat.add_comm. cbn [length Nat.add sift].
  assert ((p ++ [y]) ++ x :: r = p ++ y :: x :: r) as -> by by rewrite <- app_assoc.
  rewrite (list_lookup_middle p (x :: r) y (length p) eq_refl).
  replace (S (length p)) with (length (p ++ [y])) by (rewrite length_app; cbn; lia).
  assert ((p ++ y :: x :: r) !! length (p ++ [y]) = Some x) as ->.
  { replace (p ++ y :: x :: r) with ((p ++ [y]) ++ x :: r) by by rewrite <- app_assoc. by apply list_lookup_middle. }
  destruct (Z.gtb_spec (e_Seq x) (e_Seq y)) as [Hgt|Hle].
  - assert (<[length (p ++ [y]) := y]> (<[length p := x]> (p ++ y :: x :: r)) = p ++ x :: y :: r) as ->.
    { rewrite insert_app_r_alt by lia. rewrite Nat.sub_diag. cbn.
      rewrite insert_app_r_alt by (rewrite length_app; lia). rewrite length_app.
      replace (length p + length [y] - length p)%nat with 1%nat by (cbn; lia). done. }
    destruct (IH (y :: r) Hp) as (p1 & p2 & -> & E & Hs).
    exists p1, (p2 ++ [y]). rewrite app_assoc. split; [done|].
    split; [by rewrite E, <- app_assoc|].
    assert (p1 ++ x :: p2 ++ [y] = (p1 ++ x :: p2) ++ [y]) as -> by by rewrite <- app_assoc.
    apply StronglySorted_app_2; [|exact Hs|by repeat constructor].
    intros a b Ha Hb. apply list_elem_of_singleton in Hb as ->. unfold newest_first in *.
    apply elem_of_app in Ha as [Ha|[->|Ha]%elem_of_cons]; [| lia |];
      apply Hyp; set_solver.
  - exists (p ++ [y]), []. rewrite app_nil_r. split; [done|]. split; [by rewrite <- app_assoc|].
    apply StronglySorted_app_2; [|apply StronglySorted_app_2; [exact Hyp|exact Hp|by repeat constructor]|by repeat constructor].
    intros a b Ha Hb. apply list_elem_of_singleton in Hb as ->. unfold newest_first in *.
    apply elem_of_app in Ha as [Ha|Ha]; [|apply list_elem_of_singleton in Ha as ->; lia].
    specialize (Hyp a y Ha (list_elem_of_here _ _)). lia.
Qed.

(** The outer loop, from a prefix in order. *)
Lemma sort_loop p r :
  StronglySorted newest_first p ->
  foldl (fun l i => sift i l) (p ++ r) (seq (length p) (length r)) ≡ₚ p ++ r
  /\ StronglySorted newest_first (foldl (fun l i => sift i l) (p ++ r) (seq (length p) (length r))).
Proof.
  revert p. induction r as [|x r IH]; intros p Hs; [by rewrite app_nil_r|]. cbn [length seq foldl].
  destruct (sift_insert p x r Hs) as (p1 & p2 & Ep & -> & Hs').
  assert (p1 ++ x :: p2 ++ r = (p1 ++ x :: p2) ++ r) as -> by by rewrite <- app_assoc.
  assert (S (length p) = length (p1 ++ x :: p2)) as -> by (subst p; rewrite !length_app; cbn; lia).
  destruct (IH _ Hs') as [H1 H2]. split; [|exact H2]. rewrite H1, Ep. solve_Permutation.
Qed.

Lemma sortBySeqDesc_sorts l :
  sortBySeqDesc l ≡ₚ l /\ StronglySorted newest_first (sortBySeqDesc l).
Proof.
  unfold sortBySeqDesc. destruct l as [|x l]; [by repeat constructor|].
  cbn [length]. rewrite Nat.sub_succ, Nat.sub_0_r.
  exact (sort_loop [x] l ltac:(by repeat constructor)).
Qed.

(** ** Lemmas: refusals *)

(** One query that names all the refusals at once. *)
Definition refusal (f : AuditFilter) (r : AuditRow) : bool :=
  audit_where (with_event f "") r && bool_decide (ar_event r ∈ denial_names).

(** The trail is in order of its numbers. *)
Definition in_order (d : DB) : Prop := StronglySorted (fun a b => ar_seq a < ar_seq b) (audit_events d).

Lemma audit_where_event f name r :
  name <> "" -> audit_where (with_event f name) r = audit_where (with_event f "") r && bool_decide (ar_event r = name).
Proof.
  intros Hn. unfold audit_where, with_event, clause. cbn [af_Since af_Until af_Event af_ActorID af_DeviceID af_ResourceID af_GrantID].
  rewrite (bool_decide_eq_false_2 (name = "")), (bool_decide_eq_true_2 ("" = "")) by done. cbn [orb].
  destruct (bool_decide (ar_event r = name)); cbn [andb]; rewrite ?andb_false_r, ?andb_true_r; done.
Qed.

Lemma refusal_batch f name r :
  name ∈ denial_names -> audit_where (with_event f name) r = refusal f r && bool_decide (ar_event r = name).
Proof.
  intros Hn. rewrite audit_where_event by (intros ->; vm_compute in Hn; set_solver).
  unfold refusal. destruct (bool_decide_reflect (ar_event r = name)) as [->|]; rewrite ?andb_false_r, ?andb_true_r; [|done].
  by rewrite (bool_decide_eq_true_2 _ Hn), andb_true_r.
Qed.

Lemma denial_batches_run f names d : forall events,
  0 < af_Limit f <= MaxAuditLimit ->
  denial_batches names f events [] d
  = (Ok (events ++ flat_map (fun name => event_of_row <$> take (Z.to_nat (af_Limit f))
       (List.filter (audit_where (with_event f name)) (rev (audit_events d)))) names), d, []).
Proof.
  induction names as [|name names IH]; intros events HL; cbn [denial_batches flat_map]; [by rewrite app_nil_r|].
  unfold db_bind. unfold QueryAudit, query, stmt. cbn [next_fault].
  rewrite IH by done. assert (clamp_limit (af_Limit (with_event f name)) = Z.to_nat (af_Limit f)) as ->.
  { unfold clamp_limit. cbn [af_Limit with_event]. destruct (Z.leb_spec (af_Limit f) 0); [lia|].
    destruct (Z.gtb_spec (af_Limit f) MaxAuditLimit); [lia|done]. }
  by rewrite <- app_assoc.
Qed.

(** Dropping, beyond the first [n], whatever does not satisfy [q], changes
    nothing in the first [n]. *)
Lemma take_filter_prefix {A} (q : A -> bool) (n : nat) (u : list A) :
  Forall (fun x => q x = true) (take n u) -> take n (List.filter q u) = take n u.
Proof.
  revert u. induction n as [|n IH]; intros [|x u]; [done..|]. cbn [take]. intros [Hx H]%Forall_cons.
  cbn [List.filter]. rewrite Hx. cbn [take]. f_equal. by apply IH.
Qed.

Lemma filter_filter_impl {A} (p q : A -> bool) l :
  (forall x, p x = true -> q x = true) -> List.filter p (List.filter q l) = List.filter p l.
Proof.
  intros H. induction l as [|x l IH]; [done|]. cbn [List.filter]. destruct (q x) eqn:Eq; cbn [List.filter].
  - by rewrite IH.
  - destruct (p x) eqn:Ep; [by rewrite (H x Ep) in Eq | done].
Qed.

(** An element among the first [n] of a list is among the first [n] of any
    selection that keeps it. *)
Lemma take_filter_elem {A} (p : A -> bool) n (u : list A) x :
  x ∈ take n u -> p x = true -> x ∈ take n (List.filter p u).
Proof.
  revert u. induction n as [|n IH]; intros [|y u]; cbn [take]; [set_solver..|].
  intros [->|H]%elem_of_cons Hp; cbn [List.filter].
  - rewrite Hp. left.
  - specialize (IH u H Hp). destruct (p y); cbn [take]; [by right|].
    assert (forall (l : list A) k, x ∈ take k l -> x ∈ take (S k) l) as Hm; [|by apply Hm].
    clear. intros l k. revert l. induction k as [|k IH]; intros [|z l]; cbn [take]; [set_solver..|].
    intros [->|H]%elem_of_cons; [left | right; by apply IH].
Qed.

Lemma elem_take {A} (l : list A) n x : x ∈ take n l -> x ∈ l.
Proof. intros H. rewrite <- (take_drop n l). by apply elem_of_app; left. Qed.

Lemma StronglySorted_filter {A} (R : A -> A -> Prop) (p : A -> bool) l :
  StronglySorted R l -> StronglySorted R (List.filter p l).
Proof.
  induction 1 as [|x l Hs IH Hx]; cbn [List.filter]; [constructor|]. destruct (p x); [|done].
  constructor; [done|]. rewrite Forall_forall in *. intros y Hy. apply Hx.
  apply list_elem_of_In in Hy. apply List.filter_In in Hy as [Hy _]. by apply list_elem_of_In.
Qed.

Lemma StronglySorted_rev {A} (R : A -> A -> Prop) l :
  StronglySorted R l -> StronglySorted (fun a b => R b a) (rev l).
Proof.
  induction 1 as [|x l Hs IH Hx]; [constructor|]. cbn [rev].
  apply StronglySorted_app_2; [|done|by repeat constructor].
  intros a b Ha Hb. apply list_elem_of_singleton in Hb as ->. rewrite Forall_forall in Hx. apply Hx.
  apply list_elem_of_In. apply in_rev. by apply list_elem_of_In.
Qed.

Lemma event_of_row_seq r : e_Seq (event_of_row r) = ar_seq r.
Proof. done. Qed.

#[global] Instance audit_row_eq_dec : EqDecision AuditRow.
Proof. solve_decision. Defined.

Section Denials.
Context (f : AuditFilter) (d : DB) (Hord : in_order d).

Let rows := rev (audit_events d).
Let all := List.filter (refusal f) rows.
Let batch (name : string) := take (Z.to_nat (af_Limit f)) (List.filter (audit_where (with_event f name)) rows).
Let chosen := flat_map batch denial_names.

Lemma all_sorted : StronglySorted (fun a b => ar_seq b < ar_seq a) all.
Proof. apply StronglySorted_filter. exact (StronglySorted_rev _ _ Hord). Qed.

Lemma sorted_NoDup (l : list AuditRow) : StronglySorted (fun a b => ar_seq b < ar_seq a) l -> NoDup l.
Proof.
  induction 1 as [|x l Hs IH Hx]; constructor; [|done]. intros Hin. rewrite Forall_forall in Hx.
  specialize (Hx x Hin). lia.
Qed.

Lemma sorted_seq_inj (l : list AuditRow) r1 r2 :
  StronglySorted (fun a b => ar_seq b < ar_seq a) l -> r1 ∈ l -> r2 ∈ l -> ar_seq r1 = ar_seq r2 -> r1 = r2.
Proof.
  induction 1 as [|x l Hs IH Hx]; [by intros ?%elem_of_nil|]. rewrite Forall_forall in Hx.
  intros [->|H1]%elem_of_cons [->|H2]%elem_of_cons E; [done| | |by apply IH].
  - specialize (Hx r2 H2). lia.
  - specialize (Hx r1 H1). lia.
Qed.

Lemma batch_elem name r :
  name ∈ denial_names -> r ∈ batch name -> r ∈ all /\ ar_event r = name.
Proof.
  intros Hn Hr. apply elem_take, list_elem_of_In, List.filter_In in Hr as [H1 H2].
  rewrite (refusal_batch f name r Hn) in H2. apply andb_true_iff in H2 as [H2 H3].
  split; [|by apply bool_decide_eq_true in H3]. apply list_elem_of_In, List.filter_In. done.
Qed.

Lemma chosen_NoDup : NoDup chosen.
Proof.
  assert (forall names, names ⊆ denial_names -> NoDup names -> NoDup (flat_map batch names)) as H;
    [|apply H; [done | by apply (bool_decide_unpack _)]].
  induction names as [|n names IH]; intros Hsub Hnd; cbn [flat_map]; [constructor|].
  apply NoDup_cons in Hnd as [Hn Hnd]. apply NoDup_app. split_and!.
  - assert (NoDup (List.filter (audit_where (with_event f n)) rows)) as H.
    { apply sorted_NoDup, StronglySorted_filter. exact (StronglySorted_rev _ _ Hord). }
    rewrite <- (take_drop (Z.to_nat (af_Limit f))) in H. by apply NoDup_app in H as [H _].
  - intros r H1 H2. apply batch_elem in H1 as [_ H1]; [|set_solver].
    apply list_elem_of_In, in_flat_map in H2 as (n2 & H2 & H3). apply list_elem_of_In in H2, H3.
    apply batch_elem in H3 as [_ H3]; [|set_solver]. set_solver.
  - apply IH; [set_solver | done].
Qed.

Lemma chosen_perm : chosen ≡ₚ List.filter (fun r => bool_decide (r ∈ chosen)) all.
Proof.
  apply NoDup_Permutation; [exact chosen_NoDup|apply sorted_NoDup, StronglySorted_filter, all_sorted|].
  intros r. split.
  - intros H. apply list_elem_of_In, List.filter_In. split; [|by apply bool_decide_eq_true].
    apply list_elem_of_In, in_flat_map in H as (n & H1 & H2). apply list_elem_of_In in H1, H2.
    apply list_elem_of_In. by eapply batch_elem.
  - intros H. apply list_elem_of_In, List.filter_In in H as [_ H]. by apply bool_decide_eq_true in H.
Qed.

Lemma first_chosen : Forall (fun r => bool_decide (r ∈ chosen) = true) (take (Z.to_nat (af_Limit f)) all).
Proof.
  apply Forall_forall. intros r Hr. apply bool_decide_eq_true.
  pose proof (elem_take _ _ _ Hr) as Ha. apply list_elem_of_In, List.filter_In in Ha as [_ Ha].
  assert (ar_event r ∈ denial_names) as Hn.
  { unfold refusal in Ha. apply andb_true_iff in Ha as [_ Ha]. by apply bool_decide_eq_true in Ha. }
  apply list_elem_of_In, in_flat_map. exists (ar_event r). split; [by apply list_elem_of_In|].
  apply list_elem_of_In. unfold batch.
  rewrite <- (filter_filter_impl (audit_where (with_event f (ar_event r))) (refusal f) rows).
  - apply take_filter_elem; [exact Hr|]. rewrite (refusal_batch f _ r Hn), Ha. by apply bool_decide_eq_true.
  - intros x Hx. rewrite (refusal_batch f _ x Hn) in Hx. by apply andb_true_iff in Hx as [? _].
Qed.

Lemma sorted_chosen :
  sortBySeqDesc (event_of_row <$> chosen) = event_of_row <$> List.filter (fun r => bool_decide (r ∈ chosen)) all.
Proof.
  destruct (sortBySeqDesc_sorts (event_of_row <$> chosen)) as [HP HS].
  assert (StronglySorted (fun a b => ar_seq b < ar_seq a) (List.filter (fun r => bool_decide (r ∈ chosen)) all)) as HS2
    by (apply StronglySorted_filter, all_sorted).
  apply (StronglySorted_unique_strong newest_first); [|exact HS| |by rewrite HP, chosen_perm at 1].
  - intros x1 x2 H1 H2 H3 H4. rewrite HP in H1. rewrite chosen_perm in H1.
    apply list_elem_of_fmap in H1 as (r1 & -> & H1), H2 as (r2 & -> & H2). f_equal.
    unfold newest_first in *. rewrite !event_of_row_seq in *.
    eapply sorted_seq_inj; [exact HS2|exact H1|exact H2|lia].
  - eapply StronglySorted_fmap; [|exact HS2]. intros x y Hxy. cbn beta in Hxy. unfold newest_first. rewrite !event_of_row_seq. lia.
Qed.
End Denials.

(** [-denials] answers the question asked: for every filter and every limit
    between one and the maximum, the four queries merged, sorted by insertion and
    cut give exactly the newest refusals of the whole trail that match, as one
    query naming all four events would, on a trail in order of its numbers. *)
Theorem denials_exact f d :
  in_order d -> 0 < af_Limit f <= MaxAuditLimit ->
  denials f (af_Limit f) [] d
  = (Ok (event_of_row <$> take (Z.to_nat (af_Limit f)) (List.filter (refusal f) (rev (audit_events d)))), d, []).
Proof.
  intros Hord HL. unfold denials, db_bind. rewrite denial_batches_run by done. cbn [app].
  assert (flat_map (fun name => event_of_row <$> take (Z.to_nat (af_Limit f))
      (List.filter (audit_where (with_event f name)) (rev (audit_events d)))) denial_names
    = event_of_row <$> flat_map (fun name => take (Z.to_nat (af_Limit f))
      (List.filter (audit_where (with_event f name)) (rev (audit_events d)))) denial_names) as ->.
  { induction denial_names as [|n names IH]; [done|]. cbn [flat_map]. by rewrite fmap_app, IH. }
  rewrite (sorted_chosen f d Hord).
  assert (forall l : list AuditEvent, (if zlen l >? af_Limit f
    then if af_Limit f <? 0 then db_err (EMsg "panic: slice bounds out of range") else db_ret (take (Z.to_nat (af_Limit f)) l)
    else db_ret l) = db_ret (take (Z.to_nat (af_Limit f)) l)) as ->.
  { intros l. destruct (Z.ltb_spec (af_Limit f) 0); [lia|].
    destruct (Z.gtb_spec (zlen l) (af_Limit f)); [done|]. rewrite take_ge; [done|]. unfold zlen in *. lia. }
  unfold db_ret. rewrite <- fmap_take, (take_filter_prefix _ _ _ (first_chosen f d)). done.
Qed.

(** ** Lemmas: revoking *)

Definition same_ids (d d' : DB) : Prop := identities d' = identities d.

#[global] Instance same_ids_preorder : PreOrder same_ids.
Proof. unfold same_ids. by split; [|intros ? ? ? -> ->]. Qed.

Lemma ids_RevokeGrantsWhere b value reason actor now : moves same_ids (RevokeGrantsWhere b value reason actor now).
Proof.
  unfold RevokeGrantsWhere. repeat moves_step; [by apply moves_stmt | by apply moves_append_each].
Qed.

Lemma ids_RevokeSession id reason actor now nowA : moves same_ids (RevokeSession id reason actor now nowA).
Proof.
  unfold RevokeSession, LookupSessionByID. repeat moves_step; [apply moves_stmt; intros d | by apply moves_append].
  destruct (operator_sessions d !! id) as [r|]; [|done]. by destruct (sr_revoked_at r).
Qed.

Lemma ids_End sid actor reason n1 nA n2 : moves same_ids (End sid actor reason n1 nA n2).
Proof.
  unfold End, LookupSessionByID. repeat moves_step; [apply ids_RevokeSession | apply ids_RevokeGrantsWhere].
Qed.

Lemma ids_EndAllForUser user actor reason now clock now' :
  moves same_ids (EndAllForUser user actor reason now clock now').
Proof.
  unfold EndAllForUser, ActiveSessionsForUser, ListSessions. repeat moves_step; [|apply ids_RevokeGrantsWhere].
  match goal with |- moves _ (end_each _ _ _ ?l _) => generalize l; intros ss end.
  generalize (@nil GrantRecord). revert clock. induction ss as [|s ss IH]; intros clock gs; cbn [end_each];
    repeat moves_step; apply ids_End.
Qed.

Lemma moves_end_each actor reason clock ss gs : moves evolves (end_each actor reason clock ss gs).
Proof.
  revert clock gs. induction ss as [|s ss IH]; intros clock gs; cbn [end_each];
    repeat first [apply moves_End | apply IH | moves_step].
Qed.

(** The grants of one user or device that could still be used at [now]. *)
Definition shut_out (b : GrantScope) (value : string) (now : time) (d d' : DB) : Prop :=
  forall gid g, grants d !! gid = Some g -> in_scope b value g = true ->
    exists g', grants d' !! gid = Some g' /\ (gr_revoked_at g' <> None \/ gr_expires_at g' <= unix now).

Lemma RevokeGrantsWhere_shut b value reason actor now fl d l d' fl' :
  RevokeGrantsWhere b value reason actor now fl d = (Ok l, d', fl') -> shut_out b value now d d'.
Proof.
  intros E gid g Hg Hs. pose proof (RevokeGrantsWhere_all b value reason actor now fl d) as H.
  rewrite E in H. destruct H as (_ & H & _). specialize (H gid g Hg). eexists. split; [exact H|].
  destruct (cascade_where b value now g) eqn:Ec; [by left|]. unfold cascade_where in Ec. rewrite Hs in Ec. cbn in Ec.
  destruct (bool_decide_reflect (gr_revoked_at g = None)); [|by left]. right. cbn in Ec.
  destruct (Z.gtb_spec (gr_expires_at g) (unix now)); [done|lia].
Qed.

Lemma shut_out_evolves b value now d0 d d' :
  evolves d0 d -> shut_out b value now d d' -> shut_out b value now d0 d'.
Proof.
  intros He H gid g Hg Hs. destruct (ev_grants _ _ He gid g Hg) as (g2 & Hg2 & Hev).
  apply (H gid g2 Hg2). destruct Hev as [->|(_ & n & r & ->)]; [done|]. by destruct b.
Qed.

Lemma EndAllForUser_shut user actor reason now clock now' fl d l d' fl' :
  EndAllForUser user actor reason now clock now' fl d = (Ok (l, None), d', fl') -> shut_out ScopeUser user now' d d'.
Proof.
  unfold EndAllForUser, db_bind at 1.
  assert (moves evolves (ActiveSessionsForUser user now)) as H0 by apply moves_query. specialize (H0 fl d).
  destruct (ActiveSessionsForUser user now fl d) as [[[ss|e] d1] fl1]; [|done]. cbn in H0.
  unfold db_bind at 1. pose proof (moves_end_each actor reason clock ss [] fl1 d1) as H1.
  destruct (end_each actor reason clock ss [] fl1 d1) as [[[[all [e|]]|e] d2] fl2]; [done| |done]. cbn in H1.
  unfold db_bind, attempt. destruct (RevokeGrantsWhere ScopeUser _ _ _ _ fl2 d2) as [[[r|e] d3] fl3] eqn:E; [|done].
  intros [= _ <- _]. eapply shut_out_evolves; [etrans; [exact H0 | exact H1]|]. by eapply RevokeGrantsWhere_shut.
Qed.

Lemma subject_Ok device operator role id :
  subject device operator = Ok (role, id) ->
  id <> "" /\ (role = "operator" /\ operator = id /\ device = "" \/ role = "device" /\ device = id /\ operator = "").
Proof.
  unfold subject. destruct (bool_decide_reflect (device = "")), (bool_decide_reflect (operator = ""));
    intros [= <- <-]; subst; auto.
Qed.

Lemma Store_Revoke_Ok role id now fl d d' fl' :
  Store_Revoke role id now fl d = (Ok tt, d', fl') ->
  grants d' = grants d /\ exists r, identities d' !! (role, id) = Some r /\ ir_revoked_at r <> None.
Proof.
  unfold Store_Revoke, update_identity, lookupAny. db_unfold. db_fault; [done|].
  destruct (identities d !! (role, id)) as [r|] eqn:E.
  - destruct (bool_decide_reflect (ir_revoked_at r = None)) as [Hn|Hn]; cbn.
    + intros [= <- _]. cbn. split; [done|]. eexists. by rewrite lookup_insert_eq.
    + db_fault; [done|]. rewrite E. intros [= <- _]. eauto.
  - cbn. db_fault; [done|]. rewrite E. done.
Qed.

(** C22.  Revoking an identity takes back what it was given: when [revoke]
    reports success, whatever failed on the way, the identity is marked revoked
    and no certificate of it is accepted any more; and every grant that names the
    device, or was issued to the operator, before the command is revoked or has
    expired. *)
Theorem cmdRevoke_spec device operator t0 t1 t2 t3 t4 clock fl d n d' fl' :
  cmdRevoke device operator t0 t1 t2 t3 t4 clock fl d = (Ok n, d', fl') ->
  exists role id, subject device operator = Ok (role, id)
  /\ (exists r, identities d' !! (role, id) = Some r /\ ir_revoked_at r <> None)
  /\ (forall cert fl2, IdentityOf cert = Ok (mkIdentity role id) ->
        forall i d2 fl2', VerifyEnrolled cert fl2 d' <> (Ok i, d2, fl2'))
  /\ shut_out (if bool_decide (role = "operator") then ScopeUser else ScopeDevice) id t4 d d'.
Proof.
  unfold cmdRevoke. destruct (subject device operator) as [[role id]|e] eqn:Es; [|done].
  unfold db_bind at 1. cbn [lift db_ret]. unfold db_bind at 1.
  destruct (Store_Revoke role id t0 fl d) as [[[[]|e] d1] fl1] eqn:E1; [|done].
  apply Store_Revoke_Ok in E1 as (Hg1 & r & Hr & Hn). unfold db_bind at 1.
  destruct (Record_event_spec true (event (revokeEvent role) RoleAdmin id (deviceOf role id) "" "" "" ReasonIdentityRevoked "")
    t1 t2 fl1 d1) as (d2 & fl2 & -> & Hi2 & _ & _ & Hg2).
  assert (Hout : forall dd, same_ids d2 dd -> shut_out (if bool_decide (role = "operator") then ScopeUser else ScopeDevice) id t4 d2 dd ->
    exists role0 id0, (Ok (role, id) : res (string * string)) = Ok (role0, id0)
    /\ (exists r, identities dd !! (role0, id0) = Some r /\ ir_revoked_at r <> None)
    /\ (forall cert fl3, IdentityOf cert = Ok (mkIdentity role0 id0) ->
        forall i d3 fl3', VerifyEnrolled cert fl3 dd <> (Ok i, d3, fl3'))
    /\ shut_out (if bool_decide (role0 = "operator") then ScopeUser else ScopeDevice) id0 t4 d dd).
  { intros dd Hdd Hs. exists role, id. unfold same_ids in Hdd. rewrite <- Hi2, <- Hdd in Hr. split; [done|]. split; [eauto|].
    split; [|intros gid g; rewrite <- Hg1, <- Hg2; apply Hs].
    intros cert fl3 Hc i d3 fl3' (r3 & Hc3 & Hr3 & Hn3 & _)%VerifyEnrolled_success.
    rewrite Hc in Hc3. injection Hc3 as <-. cbn in Hr3. congruence. }
  unfold db_bind, attempt.
  destruct (bool_decide (role = "operator")).
  - pose proof (ids_EndAllForUser id "admin" ReasonIdentityRevoked t3 clock t4 fl2 d2) as Hi.
    destruct (EndAllForUser _ _ _ _ _ _ fl2 d2) as [[[[l [e|]]|e] d3] fl3] eqn:EE; [done| |done].
    intros [= _ <- _]. apply Hout; [exact Hi | by eapply EndAllForUser_shut].
  - pose proof (ids_RevokeGrantsWhere ScopeDevice id ReasonIdentityRevoked
      (event EventGrantRevoked RoleAdmin "admin" "" "" "" "" "" "") t4 fl2 d2) as Hi.
    destruct (RevokeGrantsWhere _ _ _ _ _ fl2 d2) as [[[l|e] d3] fl3] eqn:EE; [|done].
    intros [= _ <- _]. apply Hout; [exact Hi | by eapply RevokeGrantsWhere_shut].
Qed.

Definition unchanged (d d' : DB) : Prop := d' = d.

#[global] Instance unchanged_preorder : PreOrder unchanged.
Proof. unfold unchanged. by split; [|intros ? ? ? -> ->]. Qed.

Ltac unchanged_step :=
  match goal with
  | |- moves _ auditStats => unfold auditStats
  | |- moves _ (QueryAudit _) => apply moves_query
  | |- moves _ CountAudit => apply moves_query
  | |- moves _ AuditSpan => apply moves_query
  | |- _ => moves_step
  end.

(** Asking what a prune would do does nothing, and neither does any query. *)
Theorem cmdAudit_readonly f now nowA fl d r d' fl' :
  fl_prune f <= 0 \/ fl_confirm f = false ->
  cmdAudit f now nowA fl d = (r, d', fl') -> d' = d.
Proof.
  intros Hp. assert (moves unchanged (cmdAudit f now nowA)) as H; [|intros E; specialize (H fl d); by rewrite E in H].
  unfold cmdAudit. destruct (fl_events f); [by intros ? ?|].
  destruct (fl_stats f); [by repeat unchanged_step|].
  destruct (Z.gtb_spec (fl_prune f) 0) as [Hpos|_].
  - destruct Hp as [?| ->]; [lia|]. unfold auditPrune. cbv zeta. cbn [negb]. by repeat unchanged_step.
  - apply moves_bind; [|intros ev; by repeat unchanged_step].
    destruct (fl_denials f); [|unchanged_step]. unfold denials. cbv zeta. apply moves_bind; [|intros ev; by repeat unchanged_step].
    generalize (@nil AuditEvent). induction denial_names as [|n names IH]; intros ev; [by intros ? ?|].
    apply moves_bind; [unchanged_step | intros b; apply IH].
Qed.

(** C23.  An enrollment code works, once, for the one it was minted for: the text
    [token] prints, pasted with white space around it, decodes to the address,
    fingerprint and server name given and to a token that, presented within its
    hour, is consumed for exactly that role and identifier; presented again it is
    refused. *)
Theorem cmdToken_redeems `{PEMs : X509} `{Base64Laws} HashToken json_enc json_dec capem grantPub
    fingerprint device operator controlAddr serverName raw now fl d code d' fl' w1 w2 n1 n2 n3 n4 :
  cmdToken HashToken json_enc (New_enrollment capem grantPub) fingerprint device operator controlAddr serverName
    (Some raw) now fl d = (Ok code, d', fl') ->
  (let c := mkCode controlAddr raw fingerprint serverName in json_dec (json_enc c) = Some c) -> controlAddr <> "" -> raw <> "" -> fingerprint <> "" ->
  tokens d !! HashToken raw = None -> clock_ok now -> clock_ok (now + DefaultTokenTTL) -> n1 <= TruncateSecond now + DefaultTokenTTL ->
  Forall ascii_space w1 -> Forall ascii_space w2 ->
  exists role id c t d2, subject device operator = Ok (role, id)
  /\ DecodeCode json_dec (string_of_bytes (w1 ++ bytes_of_string code ++ w2)) = Ok c
  /\ c = mkCode controlAddr raw fingerprint serverName
  /\ ConsumeToken HashToken (cd_Token c) n1 n2 [] d' = (Ok t, d2, []) /\ t_Role t = role /\ t_ID t = id
  /\ ConsumeToken HashToken (cd_Token c) n3 n4 [] d2 = (Err (ESentinel ErrTokenConsumed), d2, []).
Proof.
  intros E Hj Ha Hr Hf Hfresh Hck Hck2 Hn H1 H2. revert E. unfold cmdToken, db_bind at 1.
  destruct (subject device operator) as [[role id]|e] eqn:Es; [|done]. cbn [lift db_ret fst snd].
  unfold IssueToken. destruct (bool_decide (id = "")); [done|]. unfold PutToken. db_unfold. db_fault; [done|].
  cbn [t_Hash t_Role t_ID t_IssuedAt t_ExpiresAt t_ConsumedAt]. rewrite Hfresh. intros [= <- <- _].
  set (row := mkTokenRow _ _ _ _ _).
  exists role, id, (mkCode controlAddr raw fingerprint serverName),
    (mkToken (HashToken raw) role id (fromUnix (tr_issued_at row)) (fromUnix (tr_expires_at row)) (Some n2)).
  set (d1 := with_tokens _ d). assert (tokens d1 !! HashToken raw = Some row) as Hrow by apply lookup_insert_eq.
  exists (with_tokens (<[HashToken raw := mkTokenRow role id (tr_issued_at row) (tr_expires_at row) (Some (unix n2))]>
    (tokens d1)) d1).
  split; [done|]. split; [by apply DecodeCode_Encode|]. split; [done|]. cbn [cd_Token].
  assert (fromUnix (tr_expires_at row) = TruncateSecond now + DefaultTokenTTL) as Hexp.
  { cbn [tr_expires_at row New_enrollment sv_tokenTTL].
    rewrite Add_clock by (done || by vm_compute).
    rewrite fromUnix_unix.
    - unfold DefaultTokenTTL. rewrite !TruncateSecond_spec. unfold Hour, Minute.
      replace (now + 1 * (60 * (60 * Second))) with (now + 3600 * Second) by lia. rewrite Z.div_add by done. lia.
    - by apply clock_ok_wf. }
  split; [|split; [done|split; [done|]]].
  - unfold ConsumeToken, transaction, query, stmt, db_bind. cbn [next_fault]. rewrite Hrow.
    cbn [t_ConsumedAt t_ExpiresAt fromNullUnix tr_consumed_at row nullUnix fmap option_fmap option_map].
    rewrite bool_decide_eq_false_2 by (intros Hx; by apply Hx). rewrite Hexp.
    unfold After. destruct (Z.gtb_spec n1 (TruncateSecond now + DefaultTokenTTL)); [lia|]. cbn [next_fault].
    rewrite Hrow. reflexivity.
  - apply ConsumeToken_consumed. eexists. cbn. by rewrite lookup_insert_eq.
Qed.

(** ** Witnesses *)

Definition ad_event (name : string) : AuditEvent := event name RoleAdmin "who" "" "" "" "" "" "".

(** A trail of five events, three of them refusals. *)
Definition ad_db : DB :=
  foldl (fun d n => insert_audit (ad_event n) (Unix 1700000000) d) empty_db
    [EventStreamDenied; EventGrantCreated; EventGrantDenied; EventStreamOpened; EventEnrollDenied].

Definition ad_filter : AuditFilter := mkAuditFilter 0 0 "" "" "" "" "" 2.

Lemma ad_db_in_order : in_order ad_db.
Proof. unfold in_order. vm_compute audit_events. repeat constructor. Qed.

Lemma denials_exact_witness :
  exists l, denials ad_filter 2 [] ad_db = (Ok l, ad_db, []) /\ e_Seq <$> l = [5; 3].
Proof.
  eexists. split.
  - apply (denials_exact ad_filter ad_db ad_db_in_order). split; vm_compute; [reflexivity | discriminate].
  - vm_compute. reflexivity.
Defined.

(** A device that is enrolled and has a grant. *)
Definition ad_granted : DB :=
  with_identities (<[("device", gd_DeviceID demo_record) := mkIdentityRow 0 "1" None "" None]> ∅) demo_granted.

Definition ad_revoke : res Z * DB * list bool :=
  cmdRevoke (gd_DeviceID demo_record) "" 0 0 0 0 0 (fun _ => 0) [] ad_granted.

Lemma cmdRevoke_spec_witness :
  exists n, ad_revoke = (Ok n, ad_revoke.1.2, [])
  /\ exists r, identities ad_revoke.1.2 !! ("device", gd_DeviceID demo_record) = Some r /\ ir_revoked_at r <> None.
Proof.
  exists 1. assert (ad_revoke = (Ok 1, ad_revoke.1.2, [])) as E by (apply run_out; vm_compute; reflexivity).
  split; [exact E|].
  destruct (cmdRevoke_spec _ _ _ _ _ _ _ _ _ _ _ _ _ E) as (role & id & Hs & Hr & _).
  assert (subject (gd_DeviceID demo_record) "" = Ok ("device", gd_DeviceID demo_record)) as E2 by reflexivity.
  rewrite E2 in Hs. injection Hs as <- <-. exact Hr.
Defined.

Definition ad_code : Code := mkCode "control:8443" "secret" "ab12" "localhost".

Definition ad_token : res string * DB * list bool :=
  @cmdToken toy_x509 toy_b64 demo_hash (fun _ => "{}") (@New_enrollment toy_x509 (demo_cert 0) []) "ab12" "laptop" ""
    "control:8443" "localhost" (Some "secret") (Unix 1700000000) [] empty_db.

Definition ad_printed : string := match ad_token.1.1 with Ok c => c | Err _ => "" end.

Lemma cmdToken_redeems_witness :
  ad_token = (Ok ad_printed, ad_token.1.2, [])
  /\ exists t d2, ConsumeToken demo_hash "secret" (Unix 1700003600) 0 [] ad_token.1.2 = (Ok t, d2, [])
     /\ t_Role t = "device" /\ t_ID t = "laptop".
Proof.
  assert (ad_token = (Ok ad_printed, ad_token.1.2, [])) as E by (apply run_out; vm_compute; reflexivity).
  split; [exact E|].
  destruct (@cmdToken_redeems toy_x509 toy_b64 toy_b64_laws demo_hash (fun _ => "{}") (fun _ => Some ad_code)
    (demo_cert 0) [] "ab12" "laptop" "" "control:8443" "localhost" "secret" (Unix 1700000000) [] empty_db ad_printed
    ad_token.1.2 [] [] [] (Unix 1700003600) 0 0 0 E) as (role & id & c & t & d2 & Hs & _ & -> & Hc & Hr & Hi & _);
    [reflexivity | discriminate | discriminate | discriminate | reflexivity | split; vm_compute; [discriminate | reflexivity]
    | split; vm_compute; [discriminate | reflexivity] | vm_compute; discriminate | apply Forall_nil_2 | apply Forall_nil_2 |].
  exists t, d2. injection Hs as <- <-. split; [exact Hc|]. split; [exact Hr | exact Hi].
Defined.
