(* ===== verification/HumanBytes.v ===== *)
(** * Byte counts for people

    [humanBytes] and [transferOrDetail] of [src/cmd/sar-server/admin.go], the
    column of the audit report that shows how much a finished stream carried, with
    the float64 arithmetic of GoFloat.v. *)

From stdpp Require Import pretty.
From Stdlib Require Import Floats.SpecFloat.
From S2P Require Import Prelude GoErrors GoTime GoFloat Db Storage ControlPlane.

(** ** admin.go *)

(** The quotient rounded to the nearest, a half to the even one. *)
Definition round_half_even (a b : Z) : Z :=
  let q := a / b in
  match (2 * (a mod b) ?= b) with
  | Lt => q
  | Gt => q + 1
  | Eq => if Z.even q then q else q + 1
  end.

(** [%.1f] of a finite positive number: the nearest number of tenths, exactly. *)
Definition tenths (x : float) : Z :=
  match x with
  | S754_finite _ m e => round_half_even (10 * (Z.pos m * 2 ^ Z.max e 0)) (2 ^ Z.max (- e) 0)
  | _ => 0
  end.

Definition show_tenths (t : Z) : string := pretty (t / 10) +:+ "." +:+ pretty (t mod 10).

Definition unit_size : float := f_of_Z 1024.

(** The loop over the suffixes: what is printed, in tenths, and its unit. *)
Fixpoint scale (value : float) (suffixes : list string) : Z * string :=
  match suffixes with
  | [] => (tenths (f_div value unit_size), "PiB")
  | suffix :: rest =>
      let value := f_div value unit_size in
      if f_ltb value unit_size then (tenths value, suffix) else scale value rest
  end.

Definition units : list string := ["KiB"; "MiB"; "GiB"; "TiB"].

Definition humanBytes (n : Z) : string :=
  if n <? 1024 then pretty n +:+ "B"
  else let '(t, suffix) := scale (f_of_Z n) units in show_tenths t +:+ suffix.

Definition transferOrDetail (e : AuditEvent) : string :=
  if bool_decide (e_Event e = EventStreamClosed) then
    humanBytes (e_BytesIn e) +:+ " in / " +:+ humanBytes (e_BytesOut e) +:+ " out, " +:+ pretty (e_DurationMS e) +:+ "ms"
  else e_Detail e.

(** ** Lemmas *)

Lemma round_half_even_spec a b : 0 < b -> - b <= 2 * (round_half_even a b * b - a) <= b.
Proof.
  intros Hb. unfold round_half_even. pose proof (Z.div_mod a b ltac:(lia)) as E. pose proof (Z.mod_pos_bound a b Hb) as Hm.
  destruct (Z.compare_spec (2 * (a mod b)) b); [destruct (Z.even (a / b))|..]; nia.
Qed.

Lemma round_half_even_scale a b c : 0 < b -> 0 < c -> round_half_even (a * c) (b * c) = round_half_even a b.
Proof.
  intros Hb Hc. unfold round_half_even. rewrite Z.div_mul_cancel_r, Z.mul_mod_distr_r by lia. cbv zeta.
  replace (2 * (a mod b * c)) with (2 * (a mod b) * c) by lia. by rewrite <- (Zmult_compare_compat_r _ b c) by lia.
Qed.

Lemma unit_size_eq : unit_size = S754_finite false (2 ^ 52) (-42).
Proof. vm_compute. reflexivity. Qed.

(** A count after [k] divisions: nothing was lost. *)
Definition scaled (m : positive) (d k : Z) : float := S754_finite false m (d - 53 - 10 * k).

Lemma scaled_div m d k : normal m -> 0 < d <= 53 -> 0 <= k < 10 -> f_div (scaled m d k) unit_size = scaled m d (k + 1).
Proof.
  intros Hm Hd Hk. unfold scaled. rewrite unit_size_eq, f_div_pow2 by (done || lia). unfold fin_or_inf.
  replace (_ <=? 971) with true by lia. f_equal. lia.
Qed.

Lemma scaled_ltb n m d k :
  normal m -> 0 < d -> 2 ^ (d - 1) <= n < 2 ^ d -> 0 <= k -> f_ltb (scaled m d k) unit_size = (n <? 1024 ^ (k + 1)).
Proof.
  intros Hm Hd Hn Hk. unfold scaled. rewrite unit_size_eq, f_ltb_pow2 by done.
  change 1024 with (2 ^ 10). rewrite <- Z.pow_mul_r by lia.
  destruct (Z.ltb_spec (d - 53 - 10 * k) (-42)); symmetry; [apply Z.ltb_lt|apply Z.ltb_ge].
  - assert (2 ^ d <= 2 ^ (10 * (k + 1))) by (apply Z.pow_le_mono_r; lia). lia.
  - assert (2 ^ (10 * (k + 1)) <= 2 ^ (d - 1)) by (apply Z.pow_le_mono_r; lia). lia.
Qed.

Lemma scaled_tenths n m d k :
  Z.pos m = n * 2 ^ (53 - d) -> 0 < d <= 53 -> 0 <= k -> tenths (scaled m d k) = round_half_even (10 * n) (1024 ^ k).
Proof.
  intros Em Hd Hk. unfold scaled, tenths. rewrite Z.max_r, Z.max_l by lia.
  assert (0 < 2 ^ (53 - d)) by (apply Z.pow_pos_nonneg; lia).
  assert (0 < 1024 ^ k) by (apply Z.pow_pos_nonneg; lia).
  rewrite <- (round_half_even_scale (10 * n) (1024 ^ k) (2 ^ (53 - d))) by lia. rewrite Z.pow_0_r, Em. f_equal; [ring|].
  change 1024 with (2 ^ 10). rewrite <- Z.pow_mul_r, <- Z.pow_add_r by lia. f_equal. lia.
Qed.

Definition all_units : list (Z * string) := [(1, "KiB"); (2, "MiB"); (3, "GiB"); (4, "TiB"); (5, "PiB")].

Section Scale.
Context (n : Z) (m : positive) (d : Z).
Context (Hm : normal m) (Em : Z.pos m = n * 2 ^ (53 - d)) (Hd : 0 < d <= 53) (Hn : 2 ^ (d - 1) <= n < 2 ^ d).

Lemma scale_step k suffix rest :
  0 <= k < 9 ->
  scale (scaled m d k) (suffix :: rest)
  = if n <? 1024 ^ (k + 2) then (round_half_even (10 * n) (1024 ^ (k + 1)), suffix) else scale (scaled m d (k + 1)) rest.
Proof.
  intros Hk. cbn [scale]. rewrite scaled_div, (scaled_ltb n), (scaled_tenths n) by (done || lia).
  by replace (k + 1 + 1) with (k + 2) by lia.
Qed.

Lemma scale_units :
  1024 <= n < 2 ^ 53 ->
  exists k suffix, (k, suffix) ∈ all_units /\ 0 <= k /\ 1024 ^ k <= n < 1024 ^ (k + 1)
    /\ scale (scaled m d 0) units = (round_half_even (10 * n) (1024 ^ k), suffix).
Proof.
  intros H. unfold units. do 4 rewrite scale_step by lia.
  cbn [scale]. rewrite scaled_div, (scaled_tenths n) by (done || lia).
  change (0 + 2) with 2. change (0 + 1) with 1. change (1 + 2) with 3. change (1 + 1) with 2. change (2 + 2) with 4.
  change (2 + 1) with 3. change (3 + 2) with 5. change (3 + 1) with 4. change (4 + 1) with 5.
  destruct (Z.ltb_spec n (1024 ^ 2)); [exists 1, "KiB"|destruct (Z.ltb_spec n (1024 ^ 3)); [exists 2, "MiB"|
    destruct (Z.ltb_spec n (1024 ^ 4)); [exists 3, "GiB"|destruct (Z.ltb_spec n (1024 ^ 5)); [exists 4, "TiB"|exists 5, "PiB"]]]].
  all: split_and!; [unfold all_units; rewrite !elem_of_cons; tauto|lia..|done].
Qed.
End Scale.

(** ** Properties *)

(** The column says how much was carried, in the largest unit of which there is
    at least one and to the nearest tenth of it: below 2^53 bytes, where the
    conversion to float64 and every division are exact. *)
Theorem humanBytes_spec n :
  1024 <= n < 2 ^ 53 ->
  exists k suffix t, (k, suffix) ∈ all_units /\ 1024 ^ k <= n < 1024 ^ (k + 1)
    /\ humanBytes n = show_tenths t +:+ suffix /\ - 1024 ^ k <= 2 * (t * 1024 ^ k - 10 * n) <= 1024 ^ k.
Proof.
  intros Hn. destruct n as [|p|]; [lia| |lia]. unfold humanBytes. replace (Z.pos p <? 1024) with false by lia.
  destruct (f_of_Z_normal p) as (m & Hm & Em & -> & Hd); [lia|]. pose proof (digits2_bounds p) as Hb.
  set (d := Z.pos (digits2_pos p)) in *. assert (0 < d) as Hd0 by (subst d; lia).
  replace (S754_finite false m (d - 53)) with (scaled m d 0) by (unfold scaled; f_equal; lia).
  destruct (scale_units (Z.pos p) m d) as (k & suffix & Hin & Hk & Hr & ->); [done|done|lia|done|done|].
  eexists k, suffix, _. split_and!; [done|lia|lia|reflexivity|apply round_half_even_spec..]; apply Z.pow_pos_nonneg; lia.
Qed.

(** Rounding comes after the choice of the unit, so a count just short of the
    next unit is shown as 1024.0 of this one. *)
Theorem humanBytes_carry :
  humanBytes 1048575 = "1024.0KiB" /\ humanBytes 1048576 = "1.0MiB" /\ humanBytes 1536 = "1.5KiB"
  /\ humanBytes (2 ^ 64 - 1) = "16384.0PiB".
Proof. by vm_compute. Qed.

(** ** Witnesses *)

Lemma humanBytes_spec_witness :
  exists k suffix t, (k, suffix) ∈ all_units /\ 1024 ^ k <= 5000000 < 1024 ^ (k + 1) /\ humanBytes 5000000 = show_tenths t +:+ suffix.
Proof.
  assert (1024 <= 5000000 < 2 ^ 53) as H by (vm_compute; intuition congruence).
  destruct (humanBytes_spec 5000000 H) as (k & suffix & t & H1 & H2 & H3 & _).
  exists k, suffix, t. split; [exact H1|]. split; [exact H2|exact H3].
Defined.
