(* ===== verification/Deployment.v ===== *)
(** * Opening a deployment

    [openDeployment], [openIssuer] and [loadRules] of
    [src/cmd/sar-server/main.go], on the authority's own material
    ([src/internal/ca/ca.go]: [Create], [Load], [CertPEM], [KeyPEM]).

    Every command begins by opening the state directory, and two may do so at
    once; so opening is a process over the files and the database, one system
    call at a time.  Generated keys and serial numbers are arguments. *)

From S2P Require Import Prelude GoErrors GoTime Proto Handshake Grant Policy Proc Keystore Db Storage Enrollment ControlPlane NetAddr PeerIdentity.
Import ControlPlane.Grants.
Open Scope proc_scope.

(** ** ca.go *)

(** [encoding/pem], and [crypto/x509] on certificates and PKCS #8 keys. *)
Class AuthorityCrypto := {
  pem_block : list byte -> option (string * list byte);       (* type and contents of the first block *)
  pem_EncodeToMemory : string -> list byte -> list byte;
  parse_cert : list byte -> res Cert;
  parse_pkcs8 : list byte -> res (option (list byte));        (* [None]: a key, but not Ed25519 *)
  marshal_pkcs8 : list byte -> res (list byte);
  self_sign : Cert -> list byte -> res (list byte);           (* template, key *)
  key_matches : list byte -> list byte -> bool                (* certificate, key: do they belong together *)
}.

Class AuthorityLaws (A : AuthorityCrypto) := {
  pem_roundtrip ty b : ty ∈ ["CERTIFICATE"; "PRIVATE KEY"] -> pem_block (pem_EncodeToMemory ty b) = Some (ty, b);
  pkcs8_roundtrip k der : marshal_pkcs8 k = Ok der -> parse_pkcs8 der = Ok (Some k);
  self_sign_parses t k der : self_sign t k = Ok der -> parse_cert der = Ok t;
  self_sign_matches t k der : self_sign t k = Ok der -> key_matches der k = true
}.

Record CA := mkCA { ca_cert : Cert; ca_key : list byte; ca_der : list byte }.

Definition caTTL : duration := 10 * 365 * 24 * Hour.
Definition serverCertTTL : duration := 90 * 24 * Hour.
Definition grantKeyID : string := "key_1".

(** What the generator yields: a private key and a serial number. *)
Record material := mkMaterial { mt_key : option (list byte); mt_serial : option Z }.

Section Authority.
Context `{A : AuthorityCrypto}.

Definition ca_Create (ttl : duration) (m : material) (now : time) : res CA :=
  match mt_key m, mt_serial m with
  | None, _ => Err (EMsg "generate ca key")
  | _, None => Err (EMsg "generate serial")
  | Some key, Some serial =>
      match self_sign (mkCert [] serial (Add now (- Minute)) (Add now ttl) true) key with
      | Err e => Err (EWrap "create ca certificate" e)
      | Ok der =>
          match parse_cert der with
          | Err e => Err (EWrap "parse ca certificate" e)
          | Ok cert => Ok (mkCA cert key der)
          end
      end
  end.

Definition ca_Load (certPEM keyPEM : list byte) : res CA :=
  match pem_block certPEM with
  | Some ("CERTIFICATE"%string, der) =>
      match parse_cert der with
      | Err e => Err (EWrap "parse ca certificate" e)
      | Ok cert =>
          if negb (c_IsCA cert) then Err (EMsg "ca: certificate is not a certificate authority")
          else
            match pem_block keyPEM with
            | Some ("PRIVATE KEY"%string, kder) =>
                match parse_pkcs8 kder with
                | Err e => Err (EWrap "parse ca key" e)
                | Ok None => Err (EMsg "ca: key is not ed25519")
                | Ok (Some key) => Ok (mkCA cert key der)
                end
            | _ => Err (EMsg "ca: key PEM is missing or not a PRIVATE KEY block")
            end
      end
  | _ => Err (EMsg "ca: certificate PEM is missing or not a CERTIFICATE block")
  end.

Definition CertPEM (c : CA) : list byte := pem_EncodeToMemory "CERTIFICATE" (ca_der c).

Definition KeyPEM (c : CA) : res (list byte) :=
  match marshal_pkcs8 (ca_key c) with
  | Err e => Err (EWrap "marshal ca key" e)
  | Ok der => Ok (pem_EncodeToMemory "PRIVATE KEY" der)
  end.

(** ** main.go *)

Context `{K : Keyring}.

(** The authority of a deployment: loaded, or created when neither half of it
    exists. *)
Definition openAuthority (stateDir : string) (m : material) (now : time) : fsM (res CA) :=
  do made <- MkdirAll;
  match made with
  | Err e => Ret (Err (EWrap "create state directory" e))
  | Ok _ =>
      do cert <- ReadFile (path_join stateDir "ca.crt");
      do key <- Keystore.Load (path_join stateDir "ca.key");
      match cert, key with
      | Ok certPEM, Ok (keyPEM, _) => Ret (ca_Load certPEM keyPEM)
      | Err ce, Err ke =>
          if errors_Is ce OsErrNotExist && errors_Is ke ErrKeyNotFound then
            match ca_Create caTTL m now with
            | Err e => Ret (Err e)
            | Ok authority =>
                match KeyPEM authority with
                | Err e => Ret (Err e)
                | Ok newKeyPEM =>
                    do saved <- Save (path_join stateDir "ca.key") newKeyPEM;
                    match saved with
                    | Err e => Ret (Err e)
                    | Ok _ =>
                        do written <- WriteFile (path_join stateDir "ca.crt") (CertPEM authority);
                        Ret (match written with
                             | Err e => Err (EWrap "write authority certificate" e)
                             | Ok _ => Ok authority
                             end)
                    end
                end
            end
          else Ret (Err (EMsg "authority state is incomplete; refusing to guess"))
      | _, _ => Ret (Err (EMsg "authority state is incomplete; refusing to guess"))
      end
  end.

Definition openIssuer (stateDir : string) (fresh : option (list byte)) : fsM (res Issuer) :=
  do r <- Keystore.Load (path_join stateDir "grant-signing.key");
  match r with
  | Ok (keyPEM, _) =>
      Ret (match pem_block keyPEM with
           | None => Err (EMsg "grant signing key is not valid PEM")
           | Some (_, der) =>
               match parse_pkcs8 der with
               | Err e => Err (EWrap "parse grant signing key" e)
               | Ok None => Err (EMsg "grant signing key is not ed25519")
               | Ok (Some priv) => NewIssuer priv grantKeyID
               end
           end)
  | Err e =>
      if errors_Is e ErrKeyNotFound then
        match fresh with
        | None => Ret (Err (EMsg "generate grant signing key"))
        | Some priv =>
            match marshal_pkcs8 priv with
            | Err e => Ret (Err e)
            | Ok der =>
                do saved <- Save (path_join stateDir "grant-signing.key") (pem_EncodeToMemory "PRIVATE KEY" der);
                Ret (match saved with
                     | Err e => Err e
                     | Ok _ => NewIssuer priv grantKeyID
                     end)
            end
        end
      else Ret (Err e)
  end.

(** *** The files and the database together *)

Record World := mkWorld {
  wd_fs : FS;
  wd_schema : Schema;
  wd_db : DB;
  wd_faults : list bool            (* which statements fail *)
}.

Definition set_wd_fs (fs : FS) (w : World) : World := mkWorld fs (wd_schema w) (wd_db w) (wd_faults w).

Definition files_only {B} (p : fsM B) : proc World B := embed wd_fs set_wd_fs p.

Definition on_db {B} (m : dbM B) : proc World (res B) :=
  act (fun w => let '(r, d, fl) := m (wd_faults w) (wd_db w) in (r, mkWorld (wd_fs w) (wd_schema w) d fl)).

(** [storage.Open]: [ok] is whether the driver opened the file. *)
Definition storage_Open (ok : bool) (migration_faults : list bool) : proc World (res unit) :=
  act (fun w =>
    if negb ok then (Err (EMsg "open database"), w)
    else let '(r, s) := migrate migration_faults (wd_schema w) in (r, mkWorld (wd_fs w) s (wd_db w) (wd_faults w))).

Record deployment := mkDeployment { dp_authority : CA; dp_issuer : Issuer }.

(** What opening meets. *)
Record opening := mkOpening {
  op_ca : material;
  op_issuer_key : option (list byte);
  op_now : time;
  op_db_ok : bool;
  op_migration_faults : list bool;
  op_legacy : legacy_file
}.

Definition openDeployment (stateDir : string) (o : opening) : proc World (res deployment) :=
  do authority <- files_only (openAuthority stateDir (op_ca o) (op_now o));
  match authority with
  | Err e => Ret (Err e)
  | Ok authority =>
      do opened <- storage_Open (op_db_ok o) (op_migration_faults o);
      match opened with
      | Err e => Ret (Err e)
      | Ok _ =>
          do imported <- on_db (ImportLegacyJSON (op_legacy o) (op_now o));
          match imported with
          | Err e => Ret (Err e)
          | Ok _ =>
              do issuer <- files_only (openIssuer stateDir (op_issuer_key o));
              Ret (match issuer with
                   | Err e => Err e
                   | Ok i => Ok (mkDeployment authority (WithStore i))
                   end)
          end
      end
  end.

(** [loadRules], on the parsed policy file: [None] when it is not valid JSON. *)
Definition loadRules (stateDir : string) (parse : list byte -> option (list Rule)) : fsM (list Rule) :=
  do r <- ReadFile (path_join stateDir "policy.json");
  Ret (match r with
       | Err _ => []
       | Ok b =>
           match parse b with
           | None => []
           | Some rules => match LoadRules_check rules with Ok _ => rules | Err _ => [] end
           end
       end).
End Authority.

(** ** Specification *)

Section Spec.
Context `{A : AuthorityCrypto} `{K : Keyring}.

Definition crt (dir : string) : string := path_join dir "ca.crt".
Definition key (dir : string) : string := path_join dir "ca.key".
Definition gsk (dir : string) : string := path_join dir "grant-signing.key".

(** The authority the files hold. *)
Definition authority_on (dir : string) (m : files) (ca : CA) : Prop :=
  exists certPEM sealed keyPEM p, m !! crt dir = Some certPEM /\ m !! key dir = Some sealed
    /\ unseal sealed = Ok (keyPEM, p) /\ ca_Load certPEM keyPEM = Ok ca.

(** The issuer the files hold. *)
Definition issuer_on (dir : string) (m : files) (i : Issuer) : Prop :=
  exists sealed keyPEM p ty der priv, m !! gsk dir = Some sealed /\ unseal sealed = Ok (keyPEM, p)
    /\ pem_block keyPEM = Some (ty, der) /\ parse_pkcs8 der = Ok (Some priv) /\ NewIssuer priv grantKeyID = Ok i.

(** ** Lemmas *)

Lemma run_call {B} (f : option nat -> files -> B * files) m :
  run (syscall f) (mkFS m []) = Some ((f None m).1, mkFS (f None m).2 []).
Proof. unfold syscall. rewrite run_act. cbn. by destruct (f None m). Qed.

Lemma run_KeyLoad path m :
  run (Keystore.Load path) (mkFS m [])
  = Some (match m !! path with Some sealed => unseal sealed | None => Err (ESentinel ErrKeyNotFound) end, mkFS m []).
Proof.
  unfold Keystore.Load, ReadFile. rewrite run_bind, run_call. cbn.
  destruct (m !! path) as [b|]; [done|]. reflexivity.
Qed.

Lemma run_WriteFile path b m :
  run (WriteFile path b) (mkFS m []) = Some (Ok tt, mkFS (<[path := b]> (<[path := []]> m)) []).
Proof. unfold WriteFile. rewrite run_bind, run_call. cbn [fst snd]. rewrite run_call. done. Qed.

Lemma authority_on_runs dir m ca mt now :
  authority_on dir m ca -> run (openAuthority dir mt now) (mkFS m []) = Some (Ok ca, mkFS m []).
Proof.
  intros (c & s & k & p & H1 & H2 & H3 & H4). unfold openAuthority. rewrite run_bind. unfold MkdirAll. rewrite run_call.
  cbn [fst snd]. rewrite run_bind. unfold ReadFile. rewrite run_call. unfold crt in H1. rewrite H1. cbn [fst snd].
  rewrite run_bind, run_KeyLoad. unfold key in H2. rewrite H2, H3. cbn. by rewrite H4.
Qed.

Lemma issuer_on_runs dir m i fresh :
  issuer_on dir m i -> run (openIssuer dir fresh) (mkFS m []) = Some (Ok i, mkFS m []).
Proof.
  intros (s & k & p & ty & der & priv & H1 & H2 & H3 & H4 & H5). unfold openIssuer.
  rewrite run_bind, run_KeyLoad. unfold gsk in H1. rewrite H1, H2. cbn. by rewrite H3, H4, H5.
Qed.

Lemma ca_Load_created `{!AuthorityLaws A} m now ca keyPEM :
  ca_Create caTTL m now = Ok ca -> KeyPEM ca = Ok keyPEM -> ca_Load (CertPEM ca) keyPEM = Ok ca.
Proof.
  unfold ca_Create, KeyPEM, CertPEM, ca_Load. destruct (mt_key m) as [k|], (mt_serial m) as [sn|]; try done.
  destruct (self_sign _ k) as [der|] eqn:E; [|done]. rewrite (self_sign_parses _ _ _ E). intros [= <-]. cbn.
  destruct (marshal_pkcs8 k) as [kder|] eqn:Ek; [|done]. intros [= <-].
  rewrite !pem_roundtrip by set_solver. rewrite (self_sign_parses _ _ _ E), (pkcs8_roundtrip _ _ Ek). done.
Qed.

Lemma openAuthority_Ok `{!AuthorityLaws A} `{!KeyringLaws K} dir mt now m ca s' :
  run (openAuthority dir mt now) (mkFS m []) = Some (Ok ca, s') ->
  exists m', s' = mkFS m' [] /\ authority_on dir m' ca.
Proof.
  unfold openAuthority. rewrite run_bind. unfold MkdirAll. rewrite run_call. cbn [fst snd].
  rewrite run_bind. unfold ReadFile. rewrite run_call. rewrite run_bind, run_KeyLoad.
  destruct (m !! path_join dir "ca.crt") as [c|] eqn:Ec; cbn [fst snd].
  - destruct (m !! path_join dir "ca.key") as [sealed|] eqn:Ek; [|done].
    destruct (unseal sealed) as [[k p]|] eqn:Eu; [|done]. cbn. intros [= E <-].
    exists m. split; [done|]. unfold authority_on, crt, key. eauto 10.
  - destruct (m !! path_join dir "ca.key") as [sealed|] eqn:Ek.
    { destruct (unseal sealed) as [[k p]|e] eqn:Eu; [done|]. rewrite (unseal_found _ _ Eu), andb_false_r. done. }
    cbn [errors_Is]. rewrite !bool_decide_eq_true_2 by done. cbn [andb].
    destruct (ca_Create caTTL mt now) as [a|] eqn:Ea; [|done]. destruct (KeyPEM a) as [kp|] eqn:Ekp; [|done].
    rewrite run_bind. destruct (seal kp) as [[sealed p]|e] eqn:Es.
    2:{ unfold Save. rewrite run_bind. unfold MkdirAll. rewrite run_call. cbn [fst snd]. by rewrite Es. }
    rewrite (run_Save _ _ _ _ _ Es), run_bind, run_WriteFile. cbn. intros [= <- <-]. eexists. split; [done|].
    unfold authority_on, crt, key. exists (CertPEM a), sealed, kp, p. split_and!.
    + apply lookup_insert_eq.
    + rewrite !(lookup_insert_ne _ (path_join dir "ca.crt")) by by apply path_join_ne. apply lookup_insert_eq.
    + by apply seal_unseal.
    + by eapply ca_Load_created.
Qed.

Lemma openIssuer_Ok `{!AuthorityLaws A} `{!KeyringLaws K} dir fresh m i s' :
  run (openIssuer dir fresh) (mkFS m []) = Some (Ok i, s') ->
  exists m', s' = mkFS m' [] /\ issuer_on dir m' i
    /\ (forall q, q <> gsk dir -> q <> tmp_of (gsk dir) -> m' !! q = m !! q).
Proof.
  unfold openIssuer. rewrite run_bind, run_KeyLoad.
  destruct (m !! path_join dir "grant-signing.key") as [sealed|] eqn:Eg.
  - destruct (unseal sealed) as [[k p]|e] eqn:Eu; [|by rewrite (unseal_found _ _ Eu)].
    cbn. destruct (pem_block k) as [[ty der]|] eqn:Eb; [|done]. destruct (parse_pkcs8 der) as [[priv|]|] eqn:Ep; try done.
    intros [= E <-]. exists m. split; [done|]. split; [|done]. exists sealed, k, p, ty, der, priv. done.
  - cbn [errors_Is]. rewrite bool_decide_eq_true_2 by done. destruct fresh as [priv|]; [|done].
    destruct (marshal_pkcs8 priv) as [der|] eqn:Em; [|done]. rewrite run_bind.
    destruct (seal (pem_EncodeToMemory "PRIVATE KEY" der)) as [[sealed p]|e] eqn:Es.
    2:{ unfold Save. rewrite run_bind. unfold MkdirAll. rewrite run_call. cbn [fst snd]. by rewrite Es. }
    rewrite (run_Save _ _ _ _ _ Es). cbn. intros [= E <-]. eexists. split; [done|]. split.
    + exists sealed, (pem_EncodeToMemory "PRIVATE KEY" der), p, "PRIVATE KEY", der, priv.
      split_and!; [apply lookup_insert_eq|by apply seal_unseal|apply pem_roundtrip; set_solver|by apply pkcs8_roundtrip|done].
    + intros q H1 H2. unfold gsk in *. rewrite lookup_insert_ne by done. rewrite lookup_delete_ne by done.
      by rewrite !lookup_insert_ne by done.
Qed.

Lemma authority_on_frame dir m m' ca :
  (forall q, q <> gsk dir -> q <> tmp_of (gsk dir) -> m' !! q = m !! q) -> authority_on dir m ca -> authority_on dir m' ca.
Proof.
  intros H (c & s & k & p & H1 & H2 & H3 & H4). exists c, s, k, p. unfold crt, key, gsk in *. rewrite tmp_of_join in H.
  rewrite !H by by apply path_join_ne. done.
Qed.

Lemma run_files_only {B} (p : fsM B) w :
  run (files_only p) w = match run p (wd_fs w) with Some (a, fs) => Some (a, set_wd_fs fs w) | None => None end.
Proof. apply run_embed; [done|done|by intros []]. Qed.
End Spec.

(** ** Properties *)

Section Properties.
Context `{A : AuthorityCrypto} `{K : Keyring}.

(** A deployment is created once: when opening a state directory succeeded,
    on a disk that works, every later opening yields the same authority and the
    same grant signing key and leaves the files alone, whatever the generator
    would have produced, whether the first opening created them or found
    them. *)
Theorem openDeployment_stable `{!AuthorityLaws A} `{!KeyringLaws K} dir o w m dep w' o2 w2 :
  wd_fs w = mkFS m [] -> run (openDeployment dir o) w = Some (Ok dep, w') ->
  wd_fs w2 = wd_fs w' ->
  forall r w3, run (openDeployment dir o2) w2 = Some (r, w3) ->
    wd_fs w3 = wd_fs w' /\ (forall dep2, r = Ok dep2 -> dep2 = dep).
Proof.
  intros Hw H1 Hw2 r w3. revert H1. unfold openDeployment at 1. rewrite run_bind, run_files_only, Hw.
  destruct (run (openAuthority dir (op_ca o) (op_now o)) (mkFS m [])) as [[[ca|e] s1]|] eqn:E1; [|done|done].
  apply openAuthority_Ok in E1 as (m1 & -> & Ha). rewrite run_bind. unfold storage_Open at 1. rewrite run_act.
  destruct (op_db_ok o); cbn [negb]; [|done]. cbn [wd_schema set_wd_fs wd_fs wd_db wd_faults].
  destruct (migrate (op_migration_faults o) (wd_schema w)) as [[[]|e] sch]; [|done].
  rewrite run_bind. unfold on_db at 1. rewrite run_act. cbn [wd_schema wd_fs wd_db wd_faults].
  destruct (ImportLegacyJSON (op_legacy o) (op_now o) (wd_faults w) (wd_db w)) as [[[n|e] d1] fl1]; [|done].
  rewrite run_bind, run_files_only. cbn [wd_fs].
  destruct (run (openIssuer dir (op_issuer_key o)) (mkFS m1 [])) as [[[i|e] s2]|] eqn:E2; [|done|done].
  apply openIssuer_Ok in E2 as (m2 & -> & Hi & Hfr). pose proof (authority_on_frame _ _ _ _ Hfr Ha) as Ha2.
  intros [= <- <-]. cbn [set_wd_fs wd_fs] in *.
  unfold openDeployment. rewrite run_bind, run_files_only, Hw2, (authority_on_runs _ _ _ _ _ Ha2), run_bind.
  unfold storage_Open. rewrite run_act. destruct (op_db_ok o2); cbn [negb]; [|by intros [= <- <-]].
  cbn [wd_schema set_wd_fs wd_fs wd_db wd_faults].
  destruct (migrate (op_migration_faults o2) (wd_schema w2)) as [[[]|e] sch2]; [|by intros [= <- <-]].
  rewrite run_bind. unfold on_db. rewrite run_act. cbn [wd_schema wd_fs wd_db wd_faults].
  destruct (ImportLegacyJSON (op_legacy o2) (op_now o2) (wd_faults w2) (wd_db w2)) as [[[n2|e] d2] fl2];
    [|by intros [= <- <-]].
  rewrite run_bind, run_files_only. cbn [wd_fs]. rewrite (issuer_on_runs _ _ _ _ Hi). cbn.
  intros [= <- <-]. split; [done|]. by intros ? [= <-].
Qed.

(** An authority is never replaced: if either half of one exists in the
    state directory, then whichever calls fail and wherever the process stops,
    opening has changed no file. *)
Theorem openAuthority_never_replaces `{!KeyringLaws K} dir mt now s :
  is_Some (fs_files s !! crt dir) \/ is_Some (fs_files s !! key dir) ->
  forall s', s' ∈ visited (openAuthority dir mt now) s -> fs_files s' = fs_files s.
Proof.
  intros Hex s'.
  set (I := fun x : FS => fs_files x = fs_files s).
  assert (alone I (fun _ _ => True) (openAuthority dir mt now) s) as Ha.
  2:{ destruct (alone_sound I _ _ s eq_refl Ha) as [H _]. rewrite Forall_forall in H. apply H. }
  unfold openAuthority. eapply alone_bind; [by apply alone_MkdirAll|].
  intros [u|e] s1 E1; [|by apply alone_ret].
  eapply alone_bind; [apply (alone_syscall I (fun r x => I x /\ (forall e, r = Err e -> is_Some (fs_files s !! crt dir) ->
    errors_Is e OsErrNotExist = false)))|].
  { rewrite E1. intros [k|] l; cbn; [split_and!; [done|done|by intros e [= <-]]|].
    destruct (fs_files s !! path_join dir "ca.crt") as [b|] eqn:Eb; cbn; (split_and!; [done|done|]).
    - done.
    - intros e _ [b Hb]. unfold crt in Hb. congruence. }
  intros rc s2 [E2 Hc]. unfold I in E2.
  eapply alone_bind; [apply (alone_bind I (fun r x => I x /\ match r with
      | Ok b => True
      | Err e => errors_Is e ErrKeyNotFound = false
                 /\ (is_Some (fs_files s !! key dir) -> errors_Is e OsErrNotExist = false) end)
      (fun r x => I x /\ (forall e, r = Err e -> is_Some (fs_files s !! key dir) -> errors_Is e ErrKeyNotFound = false)))|].
  { apply alone_syscall. rewrite E2. intros [k|] l; cbn; [done|].
    destruct (fs_files s !! path_join dir "ca.key") as [b|] eqn:Eb; cbn; (split_and!; [done|done|..]); [done|done|].
    intros [b Hb]. unfold key in Hb. congruence. }
  { intros [sealed|e] s3 [E3 Hk]; [apply alone_ret; split; [done|]; intros e He _; by eapply unseal_found|].
    destruct Hk as [Hk1 Hk2]. destruct (errors_Is e OsErrNotExist) eqn:Ee; apply alone_ret; (split; [done|]).
    - intros e' _ Hk'. by specialize (Hk2 Hk').
    - by intros e' [= <-] Hk'. }
  intros rk s3 [E3 Hk]. destruct rc as [certPEM|ce], rk as [[keyPEM p]|ke]; try by apply alone_ret.
  destruct (errors_Is ce OsErrNotExist && errors_Is ke ErrKeyNotFound) eqn:Eb; [|by apply alone_ret].
  exfalso. apply andb_true_iff in Eb as [Eb1 Eb2]. destruct Hex as [Hex|Hex].
  - by rewrite (Hc ce eq_refl Hex) in Eb1.
  - by rewrite (Hk ke eq_refl Hex) in Eb2.
Qed.
End Properties.

(** ** Two first openings at once *)

#[global] Instance URL_eq_dec : EqDecision URL.
Proof. solve_decision. Defined.

#[global] Instance Cert_eq_dec : EqDecision Cert.
Proof. solve_decision. Defined.

Definition td_now : time := Unix 1700000000.
Definition td_cert : Cert := mkCert [] 1 (Add td_now (- Minute)) (Add td_now caTTL) true.

(** Certificates and keys that match when their bytes are equal. *)
#[local] Instance toy_authority : AuthorityCrypto := {|
  pem_block b := match b with
                 | x01 :: b' => Some ("CERTIFICATE", b')
                 | x02 :: b' => Some ("PRIVATE KEY", b')
                 | _ => None
                 end;
  pem_EncodeToMemory ty b := (if bool_decide (ty = "CERTIFICATE") then x01 else x02) :: b;
  parse_cert b := Ok td_cert;
  parse_pkcs8 der := Ok (Some der);
  marshal_pkcs8 k := Ok k;
  self_sign t k := if bool_decide (t = td_cert) then Ok k else Err (EMsg "template");
  key_matches c k := bool_decide (c = k)
|}.

#[local] Instance toy_authority_laws : AuthorityLaws toy_authority.
Proof.
  constructor.
  - intros ty b. cbn. rewrite elem_of_cons, list_elem_of_singleton. by intros [->| ->].
  - by intros k der [= <-].
  - intros t k der. cbn. case_bool_decide; [by subst | done].
  - intros t k der. cbn. case_bool_decide; [|done]. intros [= <-]. by apply bool_decide_eq_true_2.
Qed.

Definition td_open (b : byte) : proc FS unit :=
  do _ <- @openAuthority toy_authority file_permissions "d" (mkMaterial (Some [b]) (Some 1)) td_now; Ret tt.

(** Both find nothing; then both write. *)
Definition td_order : list nat :=
  repeat 0%nat 3 ++ repeat 1%nat 3 ++ repeat 0%nat 4 ++ repeat 1%nat 4 ++ repeat 1%nat 2 ++ repeat 0%nat 2.

Definition td_race : option (FS * list (proc FS unit)) := sched td_order (mkFS ∅ []) [td_open x0a; td_open x0b].

Definition td_reopen (s : FS) : option (res CA * FS) :=
  run (@openAuthority toy_authority file_permissions "d" (mkMaterial None None) td_now) s.

Definition done_proc (p : proc FS unit) : bool := match p with Ret _ => true | Act _ => false end.

(** Two first openings at once can leave an authority that cannot be used:
    nothing stops two commands from both finding no authority and both creating
    one, and loading does not check that the key belongs to the certificate.
    Here both have finished and the directory opens without complaint, with the
    certificate of one and the key of the other, so nothing it signs will
    verify. *)
Theorem first_openings_mix :
  exists s ps ca s', td_race = Some (s, ps) /\ forallb done_proc ps = true
    /\ td_reopen s = Some (Ok ca, s') /\ key_matches (ca_der ca) (ca_key ca) = false.
Proof.
  assert (match td_race with
          | Some (s, ps) => (forallb done_proc ps, match td_reopen s with Some (Ok ca, _) => key_matches (ca_der ca) (ca_key ca) | _ => true end)
          | None => (false, true)
          end = (true, false)) as H by (vm_compute; reflexivity).
  destruct td_race as [[s ps]|] eqn:E; [|discriminate H].
  destruct (td_reopen s) as [[[ca|e] s']|] eqn:Er; [|discriminate (f_equal snd H)|discriminate (f_equal snd H)].
  exists s, ps, ca, s'. split; [reflexivity|]. split; [exact (f_equal fst H)|]. split; [exact Er | exact (f_equal snd H)].
Qed.


(** ** Witnesses *)

Definition td_opening (ca issuer : byte) : opening :=
  mkOpening (mkMaterial (Some [ca]) (Some 1)) (Some (repeat issuer 64)) td_now true [] LegacyMissing.

Definition td_world : World := mkWorld (mkFS ∅ []) (mkSchema 0 []) empty_db [].

Definition td_openDeployment (o : opening) (w : World) : option (res deployment * World) :=
  run (@openDeployment toy_authority file_permissions "d" o) w.

Definition td_deployment : deployment :=
  mkDeployment (mkCA td_cert [x0a] [x0a]) (mkIssuer (repeat x0b 64) grantKeyID true).

Lemma openDeployment_stable_witness :
  exists w' w3, td_openDeployment (td_opening x0a x0b) td_world = Some (Ok td_deployment, w')
    /\ td_openDeployment (td_opening x0c x0d) w' = Some (Ok td_deployment, w3) /\ wd_fs w3 = wd_fs w'.
Proof.
  assert (match td_openDeployment (td_opening x0a x0b) td_world with
          | Some (Ok dep, w) =>
              (dep, match td_openDeployment (td_opening x0c x0d) w with Some (Ok _, _) => true | _ => false end)
          | _ => (td_deployment, false)
          end = (td_deployment, true)) as H by (vm_compute; reflexivity).
  destruct (td_openDeployment (td_opening x0a x0b) td_world) as [[[r|e] w']|] eqn:E;
    [|discriminate (f_equal snd H)|discriminate (f_equal snd H)].
  pose proof (f_equal fst H) as Hr. cbn [fst] in Hr. subst r. exists w'.
  destruct (td_openDeployment (td_opening x0c x0d) w') as [[[r3|e] w3]|] eqn:E3;
    [|discriminate (f_equal snd H)|discriminate (f_equal snd H)].
  destruct (@openDeployment_stable toy_authority file_permissions toy_authority_laws file_permissions_laws "d"
    (td_opening x0a x0b) td_world ∅ td_deployment w' (td_opening x0c x0d) w' eq_refl E eq_refl (Ok r3) w3 E3) as [H1 H2].
  rewrite (H2 r3 eq_refl). exists w3. split; [reflexivity|]. split; [reflexivity | exact H1].
Defined.

Definition td_half : FS := mkFS (<["d/ca.crt" := [x01; x0a]]> ∅) [].

Lemma openAuthority_never_replaces_witness :
  Forall (fun s' => fs_files s' = fs_files td_half)
    (visited (@openAuthority toy_authority file_permissions "d" (mkMaterial (Some [x0c]) (Some 1)) td_now) td_half).
Proof.
  apply Forall_forall. intros s' Hs.
  apply (@openAuthority_never_replaces toy_authority file_permissions file_permissions_laws "d"
    (mkMaterial (Some [x0c]) (Some 1)) td_now td_half); [|exact Hs].
  left. eexists. reflexivity.
Defined.
