(* ===== verification/ServerCert.v ===== *)
(** * The server's certificate

    [SignServer], [IssueServerCertificate] and [randomSerial] of
    [src/internal/ca/ca.go], and what a client checks of such a certificate:
    [VerifyHostname] of crypto/x509 with its wildcards and letter case, and the
    validity period.  Names are lists of byte values. *)

From S2P Require Import Prelude GoErrors GoTime Enrollment NetAddr Keystore PeerIdentity Deployment.

(** ** Issuing *)

(** What a server certificate says; its usage is always server authentication. *)
Record server_template := mkTemplate {
  tm_Serial : Z;
  tm_CommonName : string;
  tm_DNSNames : list (list Z);
  tm_IPAddresses : list (list Z);
  tm_NotBefore : time;
  tm_NotAfter : time
}.

(** [x509.CreateCertificate] under the authority's key, and [ParseCertificate]:
    names and serial number come back as they were, times to the second. *)
Class ServerSigner := {
  sign_server : CA -> server_template -> res (list byte);
  parse_server : list byte -> res server_template
}.

Class ServerSignerLaws (S : ServerSigner) := {
  server_roundtrip c t der : sign_server c t = Ok der ->
    parse_server der = Ok (mkTemplate (tm_Serial t) (tm_CommonName t) (tm_DNSNames t) (tm_IPAddresses t)
                             (TruncateSecond (tm_NotBefore t)) (TruncateSecond (tm_NotAfter t)))
}.

(** [randomSerial]: below [1 << 128]; [None] when the generator fails. *)
Definition randomSerial (r : option Z) : res Z :=
  match r with
  | None => Err (EMsg "generate serial")
  | Some n => Ok (n mod Z.shiftl 1 128)
  end.

(** The names that are addresses, and the others, as the loop sorts them. *)
Fixpoint split_hosts (hosts : list (list Z)) : list (list Z) * list (list Z) :=
  match hosts with
  | [] => ([], [])
  | h :: rest =>
      let '(dns, ips) := split_hosts rest in
      match ParseIP h with
      | Some ip => (dns, ip :: ips)
      | None => (h :: dns, ips)
      end
  end.

(** A [tls.Certificate]: the chain, the private key and the parsed leaf. *)
Record tls_Certificate := mkTLSCert {
  tc_chain : list (list byte);
  tc_key : list byte;
  tc_leaf : server_template
}.

Section Issue.
Context `{ServerSigner}.

Definition SignServer (c : CA) (csr_sig_ok : bool) (dnsNames ips : list (list Z)) (ttl : duration)
    (serial : option Z) (now : time) : res (list byte) :=
  if negb csr_sig_ok then Err (EMsg "csr signature")
  else
    match randomSerial serial with
    | Err e => Err e
    | Ok sn =>
        match sign_server c (mkTemplate sn "sar-server" dnsNames (omap ParseIP ips) (Add now (- Minute)) (Add now ttl)) with
        | Err e => Err (EWrap "sign server certificate" e)
        | Ok der => Ok der
        end
    end.

Definition IssueServerCertificate (c : CA) (hosts : list (list Z)) (ttl : duration) (key : option (list byte))
    (serial : option Z) (now : time) : res tls_Certificate :=
  match key with
  | None => Err (EMsg "generate server key")
  | Some priv =>
      match randomSerial serial with
      | Err e => Err e
      | Ok sn =>
          let '(dnsNames, ips) := split_hosts hosts in
          match sign_server c (mkTemplate sn "sar-server" dnsNames ips (Add now (- Minute)) (Add now ttl)) with
          | Err e => Err (EWrap "sign server certificate" e)
          | Ok der =>
              match parse_server der with
              | Err e => Err e
              | Ok leaf => Ok (mkTLSCert [der; ca_der c] priv leaf)
              end
          end
      end
  end.
End Issue.

(** ** Checking: VerifyHostname *)

Definition toLowerCaseASCII (s : list Z) : list Z := (fun c => if (65 <=? c) && (c <=? 90) then c + 32 else c) <$> s.

(** [strings.Split(s, ".")]. *)
Fixpoint split_dots (s : list Z) : list (list Z) :=
  match s with
  | [] => [[]]
  | c :: s' =>
      if c =? c_dot then [] :: split_dots s'
      else match split_dots s' with
           | [] => [[c]]
           | l :: ls => (c :: l) :: ls
           end
  end.

(** [strings.TrimSuffix(s, ".")]. *)
Definition trim_dot (s : list Z) : list Z :=
  if bool_decide (last s = Some c_dot) then removelast s else s.

(** The bytes of a label; a hyphen not at its start. *)
Definition label_byte (first : bool) (c : Z) : bool :=
  ((97 <=? c) && (c <=? 122)) || ((48 <=? c) && (c <=? 57)) || ((65 <=? c) && (c <=? 90))
  || ((c =? 45) && negb first) || (c =? 95).

Definition valid_label (l : list Z) : bool :=
  match l with
  | [] => false
  | c :: l' => label_byte true c && forallb (label_byte false) l'
  end.

Definition star : list Z := [42].

Definition validHostname (host : list Z) (isPattern : bool) : bool :=
  let host := if isPattern then host else trim_dot host in
  if (length host =? 0)%nat || bool_decide (host = star) then false
  else
    match split_dots host with
    | [] => false
    | l :: ls => ((isPattern && bool_decide (l = star)) || valid_label l) && forallb valid_label ls
    end.

Definition matchHostnames (pattern host : list Z) : bool :=
  let pattern := toLowerCaseASCII pattern in
  let host := toLowerCaseASCII (trim_dot host) in
  if (length pattern =? 0)%nat || (length host =? 0)%nat then false
  else
    match split_dots pattern, split_dots host with
    | p :: ps, h :: hs => (bool_decide (p = star) || bool_decide (p = h)) && bool_decide (ps = hs)
    | _, _ => false
    end.

Definition matchExactly (a b : list Z) : bool :=
  if bool_decide (a = []) || bool_decide (a = [c_dot]) || bool_decide (b = []) || bool_decide (b = [c_dot]) then false
  else bool_decide (toLowerCaseASCII a = toLowerCaseASCII b).

(** An address may be written in brackets. *)
Definition unbracket (h : list Z) : list Z :=
  if (3 <=? length h)%nat && bool_decide (head h = Some c_lbrack) && bool_decide (last h = Some c_rbrack)
  then removelast (tail h) else h.

Definition VerifyHostname (leaf : server_template) (h : list Z) : bool :=
  match ParseIP (unbracket h) with
  | Some ip => bool_decide (ip ∈ tm_IPAddresses leaf)
  | None =>
      let name := toLowerCaseASCII h in
      let valid := validHostname name false in
      existsb (fun m => if valid && validHostname m true then matchHostnames m name else matchExactly m name)
        (tm_DNSNames leaf)
  end.

(** What a client that has the authority's certificate accepts at a time. *)
Definition accepts_server (leaf : server_template) (name : list Z) (now : time) : bool :=
  negb (Before now (tm_NotBefore leaf)) && negb (After now (tm_NotAfter leaf)) && VerifyHostname leaf name.

(** ** Lemmas *)

Lemma split_hosts_dns hosts h : h ∈ (split_hosts hosts).1 <-> h ∈ hosts /\ ParseIP h = None.
Proof.
  induction hosts as [|x hosts IH]; cbn; [set_solver|]. destruct (split_hosts hosts) as [dns ips]. cbn in IH.
  destruct (ParseIP x) eqn:E; cbn; rewrite ?elem_of_cons; naive_solver.
Qed.

Lemma split_hosts_ips hosts ip : ip ∈ (split_hosts hosts).2 <-> exists h, h ∈ hosts /\ ParseIP h = Some ip.
Proof.
  induction hosts as [|x hosts IH]; cbn; [set_solver|]. destruct (split_hosts hosts) as [dns ips]. cbn in IH.
  destruct (ParseIP x) eqn:E; cbn; rewrite ?elem_of_cons; setoid_rewrite elem_of_cons; naive_solver.
Qed.

(** The addresses are what [SignServer] would keep of the same list. *)
Lemma split_hosts_omap hosts : (split_hosts hosts).2 = omap ParseIP hosts.
Proof.
  induction hosts as [|x hosts IH]; cbn; [done|]. destruct (split_hosts hosts) as [dns ips]. cbn in *.
  destruct (ParseIP x); cbn; by f_equal.
Qed.

Lemma lower_idem s : toLowerCaseASCII (toLowerCaseASCII s) = toLowerCaseASCII s.
Proof.
  unfold toLowerCaseASCII. rewrite <- list_fmap_compose. apply list_fmap_ext. intros i c _. cbn.
  destruct (Z.leb_spec 65 c), (Z.leb_spec c 90); cbn; destruct (Z.leb_spec 65 c), (Z.leb_spec c 90); cbn; try lia;
    destruct (Z.leb_spec 65 (c + 32)), (Z.leb_spec (c + 32) 90); cbn; lia.
Qed.

Lemma lower_dot s : last (toLowerCaseASCII s) = Some c_dot <-> last s = Some c_dot.
Proof.
  unfold toLowerCaseASCII. rewrite fmap_last. destruct (last s) as [c|]; cbn; [|done].
  split; intros [= E]; f_equal; unfold c_dot in *; destruct (Z.leb_spec 65 c), (Z.leb_spec c 90); cbn in *; lia.
Qed.

(** A name that ends in a dot has an empty label, so it is no pattern. *)
Lemma split_dots_trailing s : last s = Some c_dot -> [] ∈ tail (split_dots s).
Proof.
  induction s as [|c s IH]; [done|]. destruct s as [|c' s].
  - cbn. intros [= ->]. cbn. set_solver.
  - intros Hl. change (last (c' :: s) = Some c_dot) in Hl. specialize (IH Hl). remember (c' :: s) as s1 eqn:E. clear E Hl.
    cbn [split_dots]. destruct (split_dots s1) as [|l ls]; cbn in IH; [by apply elem_of_nil in IH|].
    destruct (c =? c_dot); cbn; [set_solver|done].
Qed.

Lemma valid_pattern_no_dot s : validHostname s true = true -> last s <> Some c_dot.
Proof.
  unfold validHostname. destruct (_ || _); [done|]. intros H Hl. apply split_dots_trailing in Hl.
  destruct (split_dots s) as [|l ls]; [done|]. cbn in Hl. apply andb_true_iff in H as [_ H].
  rewrite forallb_forall in H. apply list_elem_of_In in Hl. by specialize (H [] Hl).
Qed.

Lemma matchHostnames_self h : h <> [] -> last h <> Some c_dot -> matchHostnames h (toLowerCaseASCII h) = true.
Proof.
  intros Hne Hl. unfold matchHostnames, trim_dot. rewrite (bool_decide_false (last (toLowerCaseASCII h) = _)) by (by rewrite lower_dot).
  rewrite lower_idem. assert (length (toLowerCaseASCII h) <> 0%nat) by (unfold toLowerCaseASCII; rewrite length_fmap; by destruct h).
  destruct (length (toLowerCaseASCII h) =? 0)%nat eqn:E; [apply Nat.eqb_eq in E; lia|]. cbn [orb].
  destruct (split_dots (toLowerCaseASCII h)) as [|l ls] eqn:Es.
  - exfalso. destruct (toLowerCaseASCII h) as [|c s]; cbn in Es; [done|]. destruct (c =? c_dot); [done|]. by destruct (split_dots s).
  - rewrite (bool_decide_true (l = l)), (bool_decide_true (ls = ls)) by done. by rewrite orb_true_r.
Qed.

Lemma matchExactly_self h : h <> [] -> h <> [c_dot] -> matchExactly h (toLowerCaseASCII h) = true.
Proof.
  intros H1 H2. unfold matchExactly. rewrite lower_idem. rewrite (bool_decide_true (toLowerCaseASCII h = toLowerCaseASCII h)) by done.
  rewrite (bool_decide_false (h = [])), (bool_decide_false (h = [c_dot])) by done.
  destruct h as [|c [|c' h]]; [done| |by rewrite !bool_decide_false].
  rewrite (bool_decide_false (toLowerCaseASCII [c] = [])), bool_decide_false; [done| |done].
  intros E. assert (last [c] = Some c_dot) as [= ->] by (apply lower_dot; by rewrite E). done.
Qed.

(** A certificate with the name [h] is good for [h]. *)
Lemma VerifyHostname_self leaf h :
  h ∈ tm_DNSNames leaf -> ParseIP (unbracket h) = None -> h <> [] -> h <> [c_dot] -> VerifyHostname leaf h = true.
Proof.
  intros Hin Hip H1 H2. unfold VerifyHostname. rewrite Hip. apply existsb_exists. exists h.
  split; [by apply list_elem_of_In|]. destruct (validHostname (toLowerCaseASCII h) false); cbn [andb].
  - destruct (validHostname h true) eqn:E; [|by apply matchExactly_self].
    apply matchHostnames_self; [done|by apply valid_pattern_no_dot].
  - by apply matchExactly_self.
Qed.

Section Properties.
Context `{L : ServerSignerLaws}.

Lemma Issue_leaf c hosts ttl key serial now cert :
  IssueServerCertificate c hosts ttl key serial now = Ok cert ->
  exists sn der, tc_chain cert = [der; ca_der c] /\ Some (tc_key cert) = key /\ 0 <= sn < 2 ^ 128
    /\ tc_leaf cert = mkTemplate sn "sar-server" (split_hosts hosts).1 (split_hosts hosts).2
                        (TruncateSecond (Add now (- Minute))) (TruncateSecond (Add now ttl)).
Proof.
  unfold IssueServerCertificate. destruct key as [priv|]; [|done]. unfold randomSerial. destruct serial as [n|]; [|done].
  destruct (split_hosts hosts) as [dns ips]. destruct (sign_server _ _) as [der|] eqn:E; [|done].
  rewrite (server_roundtrip _ _ _ E). intros [= <-]. exists (n mod Z.shiftl 1 128), der. cbn. split_and!; try done.
  all: change (Z.shiftl 1 128) with (2 ^ 128); apply Z.mod_pos_bound; lia.
Qed.

End Properties.

(** ** Witnesses *)

(** A signer that writes nothing down but keeps the certificate. *)
Definition toy_names : list (list Z) := [code "localhost"; code "127.0.0.1"; code "::1"].

Definition toy_leaf (t : server_template) : server_template :=
  mkTemplate (tm_Serial t) (tm_CommonName t) (tm_DNSNames t) (tm_IPAddresses t)
    (TruncateSecond (tm_NotBefore t)) (TruncateSecond (tm_NotAfter t)).

Definition toy_template : server_template :=
  mkTemplate 7 "sar-server" (split_hosts toy_names).1 (split_hosts toy_names).2
    (Add (Unix 1700000000) (- Minute)) (Add (Unix 1700000000) serverCertTTL).

#[local] Instance toy_signer : ServerSigner := {|
  sign_server _ t := if bool_decide (tm_Serial t = 7 /\ tm_CommonName t = "sar-server"
      /\ tm_DNSNames t = tm_DNSNames toy_template /\ tm_IPAddresses t = tm_IPAddresses toy_template
      /\ tm_NotBefore t = tm_NotBefore toy_template /\ tm_NotAfter t = tm_NotAfter toy_template)
    then Ok [x01] else Err (EMsg "refused");
  parse_server _ := Ok (toy_leaf toy_template)
|}.

#[local] Instance toy_signer_laws : ServerSignerLaws toy_signer.
Proof.
  split. intros c t der. cbn. case_bool_decide as Hb; [|done]. intros _. f_equal.
  destruct Hb as (-> & -> & -> & -> & -> & ->). done.
Qed.

Definition toy_ca : CA := mkCA (mkCert [] 1 0 0 true) [] [x2a].

