(* ===== verification/SarServer.v ===== *)
(** * Running the server

    [run] and [cmdRun] of [src/cmd/sar-server/main.go], with the control plane's
    HTTP server they start ([New], [Run] and the routes of
    [src/internal/control/httpapi/httpapi.go]).

    [cmdRun] is a process among others: the two servers, the goroutine that
    shuts the HTTP server down, the requests being served and the signals.  They
    share a context, a channel of errors and the database.  Which error a
    listener or a server ends with is an argument. *)

From S2P Require Import Prelude GoErrors GoTime Proc Enrollment Transport NetAddr Keystore PeerIdentity Deployment ServerCert Admin Proto Relay.
Open Scope proc_scope.

(** ** Commands *)

Inductive command :=
| CmdRun | CmdToken | CmdRevoke | CmdList | CmdAudit | CmdGrants | CmdSessions | CmdVersion.

Definition commands : list (string * command) :=
  [("run", CmdRun); ("token", CmdToken); ("revoke", CmdRevoke); ("list", CmdList); ("audit", CmdAudit);
   ("grants", CmdGrants); ("sessions", CmdSessions);
   ("-version", CmdVersion); ("--version", CmdVersion); ("version", CmdVersion)].

Fixpoint command_of (table : list (string * command)) (name : string) : option command :=
  match table with
  | [] => None
  | (n, c) :: rest => if bool_decide (name = n) then Some c else command_of rest name
  end.

(** [run]: which command, with which arguments, or the error it exits with. *)
Definition dispatch (args : list string) : res (command * list string) :=
  match args with
  | _ :: name :: rest =>
      match command_of commands name with
      | Some c => Ok (c, rest)
      | None => Err (EMsg "unknown command")
      end
  | _ => Err (EMsg "no command given")
  end.

(** [main]: the exit status. *)
Definition exit_status (r : res unit) : Z := match r with Ok _ => 0 | Err _ => 1 end.

(** ** Routes *)

Inductive route := RouteEnroll | RouteRenew | RouteLogin | RouteLogout | RouteGrants | RouteHealth.

Inductive routed := Handled (r : route) | MethodNotAllowed | NotFound.

Definition patterns : list (string * string * route) :=
  [("POST", "/v1/enroll", RouteEnroll); ("POST", "/v1/renew", RouteRenew); ("POST", "/v1/login", RouteLogin);
   ("POST", "/v1/logout", RouteLogout); ("POST", "/v1/grants", RouteGrants); ("GET", "/healthz", RouteHealth)].

(** [http.ServeMux] on patterns without wildcards, for a clean path: the path
    must be equal; a GET pattern also serves HEAD; a path that only other
    methods serve is refused as such. *)
Definition method_matches (pattern method : string) : bool :=
  bool_decide (method = pattern) || (bool_decide (pattern = "GET") && bool_decide (method = "HEAD")).

Fixpoint mux_match (ps : list (string * string * route)) (method path : string) (seen : bool) : routed :=
  match ps with
  | [] => if seen then MethodNotAllowed else NotFound
  | (m, p, r) :: rest =>
      if bool_decide (path = p) then
        if method_matches m method then Handled r else mux_match rest method path true
      else mux_match rest method path seen
  end.

Definition serve_mux (method path : string) : routed := mux_match patterns method path false.

(** [httpapi.New]: TLS is required; without a source of rules there are none. *)
Definition httpapi_New {A} (tls : option A) (rules : option (list Policy.Rule)) : res (list Policy.Rule) :=
  match tls with
  | None => Err (EMsg "httpapi: refusing to serve enrollment without TLS")
  | Some _ => Ok (default [] rules)
  end.

(** ** The process *)

Record Process := mkProcess {
  pr_ctx : bool;                         (* the context is cancelled *)
  pr_errCh : list (option error);        (* chan error, capacity 2 *)
  pr_httpShutdown : bool;                (* srv.Shutdown was called *)
  pr_relayClosed : bool;                 (* the relay's listener is closed *)
  pr_inflight : list nat;                (* requests a handler is working on *)
  pr_store : bool;                       (* the database is open *)
  pr_failed : list nat;                  (* requests that met a closed database *)
  pr_exit : option (res unit)            (* what cmdRun returned *)
}.

Definition start_process : Process := mkProcess false [] false false [] true [] None.

Definition set_ctx (p : Process) : Process :=
  mkProcess true (pr_errCh p) (pr_httpShutdown p) (pr_relayClosed p) (pr_inflight p) (pr_store p) (pr_failed p) (pr_exit p).

Definition set_stops (http relay : bool) (p : Process) : Process :=
  mkProcess (pr_ctx p) (pr_errCh p) http relay (pr_inflight p) (pr_store p) (pr_failed p) (pr_exit p).

Definition set_errCh (c : list (option error)) (p : Process) : Process :=
  mkProcess (pr_ctx p) c (pr_httpShutdown p) (pr_relayClosed p) (pr_inflight p) (pr_store p) (pr_failed p) (pr_exit p).

Definition set_inflight (l : list nat) (p : Process) : Process :=
  mkProcess (pr_ctx p) (pr_errCh p) (pr_httpShutdown p) (pr_relayClosed p) l (pr_store p) (pr_failed p) (pr_exit p).

Definition set_failed (l : list nat) (p : Process) : Process :=
  mkProcess (pr_ctx p) (pr_errCh p) (pr_httpShutdown p) (pr_relayClosed p) (pr_inflight p) (pr_store p) l (pr_exit p).

Definition set_exit (store : bool) (r : option (res unit)) (p : Process) : Process :=
  mkProcess (pr_ctx p) (pr_errCh p) (pr_httpShutdown p) (pr_relayClosed p) (pr_inflight p) store (pr_failed p) r.

(** [ctx.Err()]. *)
Definition ctx_Err (p : Process) : option error := if pr_ctx p then Some (ESentinel CtxCanceled) else None.

(** [errCh <- v] on a channel of capacity 2, and [<-errCh]. *)
Definition send_err (v : option error) : proc Process unit :=
  await (fun p => if (length (pr_errCh p) <? 2)%nat then Some (tt, set_errCh (pr_errCh p ++ [v]) p) else None).

Definition recv_err : proc Process (option error) :=
  await (fun p => match pr_errCh p with v :: rest => Some (v, set_errCh rest p) | [] => None end).

(** [httpapi.Server.Run]: [ServeTLS] returns [http.ErrServerClosed] as soon as
    [Shutdown] is called, or an error of its own ([failure]). *)
Definition control_Run (listen : res unit) (failure : option error) : proc Process (option error) :=
  match listen with
  | Err e => Ret (Some (EWrap "listen" e))
  | Ok _ =>
      do err <- await (fun p =>
        match failure with
        | Some e => Some (Some e, p)
        | None => if pr_httpShutdown p then Some (None, p) else None
        end);
      match err with
      | Some e => Ret (Some e)
      | None => gets ctx_Err
      end
  end.

(** The goroutine of [Run] that waits for the context. *)
Definition control_shutdown : proc Process unit :=
  do _ <- await (fun p => if pr_ctx p then Some (tt, p) else None);
  modify (fun p => set_stops true (pr_relayClosed p) p).

(** [relay.Server.Run] as [cmdRun] sees it (RelayRun.v has its steps). *)
Definition relay_Run (listen : res unit) : proc Process (option error) :=
  match listen with
  | Err e => Ret (Some (EWrap "listen" e))
  | Ok _ =>
      do _ <- await (fun p => if pr_relayClosed p then Some (tt, p) else None);
      gets ctx_Err
  end.

Definition relay_shutdown : proc Process unit :=
  do _ <- await (fun p => if pr_ctx p then Some (tt, p) else None);
  modify (fun p => set_stops (pr_httpShutdown p) true p).

(** A signal arrives. *)
Definition interrupted : proc Process unit := modify set_ctx.

(** A request: accepted while the server serves, then a query. *)
Definition request (n : nat) : proc Process unit :=
  do _ <- await (fun p => if pr_httpShutdown p then None else Some (tt, set_inflight (n :: pr_inflight p) p));
  modify (fun p =>
    let p := set_inflight (List.filter (fun m => negb (m =? n)%nat) (pr_inflight p)) p in
    if pr_store p then p else set_failed (n :: pr_failed p) p).

(** [cmdRun] from the point where both servers run: the first error, [stop]
    (which cancels the context), the second, the decision, and the deferred
    closing of the database. *)
Definition cmdRun_wait : proc Process unit :=
  do err <- recv_err;
  do _ <- modify set_ctx;
  do _ <- recv_err;
  do ctxErr <- gets ctx_Err;
  let result := match err, ctxErr with Some e, None => Err e | _, _ => Ok tt end in
  modify (set_exit false (Some result)).

(** The goroutines [cmdRun] starts. *)
Definition cmdRun_servers (control_listen relay_listen : res unit) (failure : option error) : list (proc Process unit) :=
  [ do e <- control_Run control_listen failure; send_err e;
    do e <- relay_Run relay_listen; send_err e;
    control_shutdown; relay_shutdown ].

(** What else happens to the process. *)
Inductive outside : proc Process unit -> Prop :=
| out_signal : outside interrupted
| out_request n : outside (request n).

(** *** Before that: options, deployment, certificate *)

Definition default_tls_names : string := "localhost,127.0.0.1,::1".

(** The TLS configuration of the control plane: a client certificate is verified
    if there is one. *)
Definition control_TLS `{ChainVerify} (cert : list Cert) (cas : Pool) : tls_Config :=
  mkTLS cert MinTLSVersion [] VerifyClientCertIfGiven (Some cas) None [] false None.

(** The certificate both listeners present, issued once; [Err]: [cmdRun] returns
    before anything listens. *)
Definition cmdRun_certificate `{ServerSigner} (dep : res CA) (tlsNames : string) (key : option (list byte))
    (serial : option Z) (now : time) : res tls_Certificate :=
  match dep with
  | Err e => Err e
  | Ok authority => IssueServerCertificate authority (code <$> splitList tlsNames) serverCertTTL key serial now
  end.

(** The limits [relay.New] ends up with: streams per session, idle timeout and
    keep-alive. *)
Definition relay_limits (maxStreams : Z) (idle keepAlive : duration) : Z * duration * duration :=
  let maxStreams := if maxStreams =? 0 then MaxStreamsPerConnection else maxStreams in
  let idle := if idle =? 0 then IdleTimeout else idle in
  (maxStreams, idle, if keepAlive =? 0 then Z.quot idle 3 else keepAlive).

(** The relay [cmdRun] builds: with TLS, a verifier and the issuer's key, the
    option's value converted to 32 bits, the timeouts left to their defaults. *)
Definition cmdRun_relay (publicKey : list byte) (maxStreams : Z) : res (Z * duration * duration) :=
  match relay_New true true (Some publicKey) with
  | Err e => Err e
  | Ok _ => Ok (relay_limits (uwrap 32 maxStreams) 0 0)
  end.

(** ** Lemmas *)

(** What every goroutine other than [cmdRun]'s own leaves alone: a cancelled
    context stays cancelled, and only [cmdRun] ends the process. *)
Definition aside (p q : Process) : Prop := (pr_ctx p = true -> pr_ctx q = true) /\ pr_exit q = pr_exit p.

#[local] Instance aside_preorder : PreOrder aside.
Proof. split; [by intros p|]. intros p q r [H1 H2] [H3 H4]. split; [auto|congruence]. Qed.

Lemma aside_act {A} (f : Process -> A * Process) : (forall p, aside p (f p).2) -> guarantees aside (act f).
Proof. apply guarantees_act. Qed.

Lemma aside_send v : guarantees aside (send_err v).
Proof. apply guarantees_await. intros p a p'. destruct (_ <? _)%nat; [|done]. by intros [= <- <-]. Qed.

Lemma aside_control listen failure : guarantees aside (control_Run listen failure).
Proof.
  unfold control_Run. destruct listen; [|done]. apply guarantees_bind.
  - apply guarantees_await. intros p b p'. destruct failure; [by intros [= <- <-]|].
    destruct (pr_httpShutdown p); [|done]. by intros [= <- <-].
  - intros [e|]; [done|]. by apply guarantees_act.
Qed.

Lemma aside_relay listen : guarantees aside (relay_Run listen).
Proof.
  unfold relay_Run. destruct listen; [|done]. apply guarantees_bind.
  - apply guarantees_await. intros p b p'. destruct (pr_relayClosed p); [|done]. by intros [= <- <-].
  - intros _. by apply guarantees_act.
Qed.

Lemma aside_wait_ctx (f : Process -> Process) :
  (forall p, aside p (f p)) ->
  guarantees aside (do _ <- await (fun p => if pr_ctx p then Some (tt, p) else None); modify f).
Proof.
  intros Hf. apply guarantees_bind.
  - apply guarantees_await. intros p b p'. destruct (pr_ctx p) eqn:E; [|done]. by intros [= <- <-].
  - intros _. by apply guarantees_act.
Qed.

Lemma aside_servers cl rl f : Forall (guarantees aside) (cmdRun_servers cl rl f).
Proof.
  repeat constructor; try (by apply aside_wait_ctx).
  - apply guarantees_bind; [apply aside_control|apply aside_send].
  - apply guarantees_bind; [apply aside_relay|apply aside_send].
Qed.

Lemma aside_outside q : outside q -> guarantees aside q.
Proof.
  intros [|n]; [by apply guarantees_act|]. apply guarantees_bind.
  - apply guarantees_await. intros p b p'. destruct (pr_httpShutdown p); [done|]. by intros [= <- <-].
  - intros _. apply guarantees_act. intros p. cbn. by destruct (pr_store p).
Qed.

Definition no_error_exit (p : Process) : Prop := pr_exit p = None \/ pr_exit p = Some (Ok tt).

Lemma cmdRun_wait_guarded p :
  guarded no_error_exit aside (fun _ _ => True) (fun _ _ => True) cmdRun_wait p.
Proof.
  intros p1 _ HI. destruct (pr_errCh p1) as [|err rest]; [done|]. split; [exact HI|]. split; [done|].
  intros p2 _ HI2. split; [exact HI2|]. split; [done|].
  intros p3 Hr3 HI3. destruct (pr_errCh p3) as [|x rest']; [done|]. split; [exact HI3|]. split; [done|].
  intros p4 Hr4 HI4. split; [exact HI4|]. split; [done|].
  assert (pr_ctx p4 = true) as Hctx by (apply Hr4, Hr3; done).
  intros p5 _ _. split; [|done]. right. cbn. unfold ctx_Err. rewrite Hctx. by destruct err.
Qed.

(** A limit given to the server is the limit of a session if it fits in 32 bits
    and is not zero; zero and the multiples of 2^32 stand for the default. *)
Lemma max_streams_option key n :
  cmdRun_relay key n
  = Ok (if n mod 2 ^ 32 =? 0 then MaxStreamsPerConnection else n mod 2 ^ 32, 60 * Second, 20 * Second).
Proof. reflexivity. Qed.

(** ** Properties *)

(** C40.  The server never reports a failure of its own: [stop] cancels the
    context before [cmdRun] asks whether it was cancelled, so however the two
    servers end, however requests and signals interleave, the command succeeds;
    in particular the process exits with status 0 when its address was taken. *)
Theorem cmdRun_hides_failures :
  (forall cl rl failure p ps,
     rtc (pool_step outside) (start_process, cmdRun_wait :: cmdRun_servers cl rl failure) (p, ps) ->
     pr_exit p = None \/ pr_exit p = Some (Ok tt))
  /\ (forall e, exists p ps,
     rtc (pool_step outside) (start_process, cmdRun_wait :: cmdRun_servers (Err e) (Ok tt) None) (p, ps)
     /\ pr_exit p = Some (Ok tt) /\ exit_status (Ok tt) = 0 /\ pr_store p = false).
Proof.
  split.
  - intros cl rl failure p ps Hr.
    destruct (guarded_pool no_error_exit aside (fun _ _ => True) (fun _ _ => True) outside cmdRun_wait
      (cmdRun_servers cl rl failure) start_process p ps) as [HI _]; auto using aside_outside, aside_servers.
    + intros x y [_ E] H. unfold no_error_exit in *. by rewrite E.
    + by left.
    + apply cmdRun_wait_guarded.
  - intros e. destruct (sched [1; 0; 0; 4; 4; 2; 2; 2; 0; 0; 0]%nat start_process
      (cmdRun_wait :: cmdRun_servers (Err e) (Ok tt) None)) as [[p ps]|] eqn:E; [|vm_compute in E; discriminate].
    exists p, ps. split; [by eapply sched_steps|]. vm_compute in E. injection E as <- <-. done.
Qed.

(** The database can be closed under a request that is being served: [ServeTLS]
    returns when [Shutdown] begins, not when it is done, and nothing waits for
    the requests. *)
Theorem requests_outlive_store :
  exists p ps n, rtc (pool_step outside) (start_process, cmdRun_wait :: cmdRun_servers (Ok tt) (Ok tt) None) (p, ps)
    /\ pr_exit p = Some (Ok tt) /\ n ∈ pr_failed p.
Proof.
  set (pool := cmdRun_wait :: cmdRun_servers (Ok tt) (Ok tt) None).
  destruct (sched [5; 6; 3; 3; 4; 4; 1; 1; 1; 2; 2; 2; 0; 0; 0; 0; 0; 5]%nat start_process (pool ++ [request 7; interrupted]))
    as [[p ps]|] eqn:E; [|vm_compute in E; discriminate].
  exists p, ps, 7%nat. split.
  - trans (start_process, pool ++ [request 7; interrupted]); [|by eapply sched_steps].
    apply (spawn_steps outside start_process [request 7; interrupted] pool). repeat constructor.
  - vm_compute in E. injection E as <- <-. split; [done|]. left.
Qed.

(** Only POST reaches a handler that changes anything. *)
Lemma serve_mux_methods method path r :
  serve_mux method path = Handled r ->
  match r with RouteHealth => method = "GET" \/ method = "HEAD" | _ => method = "POST" end.
Proof.
  unfold serve_mux, patterns. cbn [mux_match]. unfold method_matches.
  repeat (case_bool_decide; cbn [orb andb]; try (intros [= <-]; auto; fail)); try done; subst; try done.
Qed.

(** The control plane's listener: a client certificate, when there is one, is
    one the authority signed and the peer holds the key of. *)
Lemma control_listener_verifies `{ChainVerify} cert cas p st :
  tls_Server (control_TLS cert cas) p = Ok st ->
  VersionTLS13 <= tp_Version p
  /\ (cs_PeerCertificates st = []
      \/ exists leaf inter, cs_PeerCertificates st = leaf :: inter
           /\ chain_Verify cas ExtKeyUsageClientAuth None leaf inter = true /\ tp_HoldsKey p = true).
Proof.
  unfold tls_Server. cbn [control_TLS t_ClientAuth]. intros (Hv & Hc & Hk & _ & Hcs & _)%tls_finish_Ok. split; [exact Hv|].
  rewrite Hcs. unfold client_certs_ok, verified in Hc. cbn in Hc. destruct (tp_Certs p) as [|leaf inter]; [by left|].
  right. exists leaf, inter. split_and!; auto.
Qed.

(** The options' default names make a certificate for this machine. *)
Lemma default_names_split :
  splitList default_tls_names = ["localhost"; "127.0.0.1"; "::1"]
  /\ split_hosts (code <$> splitList default_tls_names)
     = ([code "localhost"], [v4InV6Prefix ++ [127; 0; 0; 1]; repeat 0 15 ++ [1]]).
Proof. split; vm_compute; reflexivity. Qed.
