(* ===== verification/ControlServer.v ===== *)
(** * Requests to the control plane, from the connection to the database

    The control plane as its clients meet it: the TLS listener of
    [src/cmd/sar-server/main.go], the routes of
    [src/internal/control/httpapi/httpapi.go], the bounded decoding of a request's
    body, and the handlers of HttpApi.v, composed the way the server composes
    them.  What [encoding/json] makes of the bytes of a body, and pem and x509 of
    a certificate request, are parameters. *)

From S2P Require Import Prelude GoErrors GoTime Grant Policy Db Storage Enrollment ControlPlane Transport HttpApi SarServer.
Import Login Grants.
Open Scope db_scope.

(** ** Requests *)

Record http_message := mkMessage {
  hq_Method : string;
  hq_Path : string;
  hq_RemoteAddr : string;
  hq_Authorization : string;
  hq_Body : list byte
}.

Definition maxRequestBody : nat := Z.to_nat (Z.shiftl 16 10).

(** What decoding the first JSON value of a stream gives, if it succeeds, for the
    request types of the API, and what the certificate request in it is. *)
Class RequestJSON `{X509} := {
  json_enroll : list byte -> option (string * string);
  json_renew : list byte -> option string;
  json_grant : list byte -> option grant_request;
  json_login : list byte -> option Z;
  parse_request : string -> option CSR
}.

(** What one request draws: the serial of a certificate, random bytes, the time. *)
Record draws := mkDraws {
  dw_serial : option Z;
  dw_rnd1 : option (list byte);
  dw_rnd2 : option (list byte);
  dw_now : time
}.

Inductive http_response `{X509} :=
| HJson (r : response)
| HHealth
| HNotFound
| HMethodNotAllowed.

(** The status a client sees ([writeJSON], [writeError], [http.ServeMux]). *)
Definition http_status `{X509} (h : http_response) : Z :=
  match h with
  | HJson (RespError status _) => status
  | HJson _ | HHealth => 200
  | HNotFound => 404
  | HMethodNotAllowed => 405
  end.

Section Server.
Context `{X : X509} `{Ed : Ed25519} `{B : Base64} `{J : !RequestJSON} `{V : ChainVerify}.
Context (HashToken : string -> string) (fmtTime : time -> string).

(** [io.LimitReader(r.Body, maxRequestBody)]. *)
Definition limited (q : http_message) : list byte := take maxRequestBody (hq_Body q).

(** The route, the decoding and the handler; [tls] is the certificate of the
    connection, if one was presented. *)
Definition serve_request (s : server) (tls : option Cert) (q : http_message) (w : draws) : dbM (http_response * list string) :=
  let r := mkRequestHTTP tls (hq_RemoteAddr q) (hq_Authorization q) in
  let json (m : dbM (response * list string)) : dbM (http_response * list string) :=
    do a <- m; db_ret (HJson a.1, a.2) in
  match serve_mux (hq_Method q) (hq_Path q) with
  | NotFound => db_ret (HNotFound, [])
  | MethodNotAllowed => db_ret (HMethodNotAllowed, [])
  | Handled RouteHealth => db_ret (HHealth, [])
  | Handled RouteEnroll =>
      json (handleEnroll HashToken fmtTime s r
              (match json_enroll (limited q) with
               | Some (token, csr) => Some (token, parse_request csr)
               | None => None
               end) (dw_serial w) (dw_now w))
  | Handled RouteRenew =>
      json (handleRenew fmtTime s r
              (match json_renew (limited q) with Some csr => Some (parse_request csr) | None => None end)
              (dw_serial w) (dw_now w))
  | Handled RouteLogin =>
      json (handleLogin HashToken fmtTime s r (default 0 (json_login (limited q))) (dw_rnd1 w) (dw_rnd2 w) (dw_now w))
  | Handled RouteLogout => json (handleLogout HashToken s r (dw_now w))
  | Handled RouteGrants => json (handleGrant HashToken fmtTime s r (json_grant (limited q)) (dw_rnd1 w) (dw_now w))
  end.

(** A request on a connection: [r.TLS.PeerCertificates[0]] if there is one, and
    nothing at all if the handshake fails. *)
Definition serve_connection (cert : list Cert) (cas : Pool) (s : server) (peer : res tls_peer) (q : http_message)
    (w : draws) : dbM (option (http_response * list string)) :=
  match (match peer with Err e => Err e | Ok p => tls_Server (control_TLS cert cas) p end) with
  | Err _ => db_ret None
  | Ok st => do a <- serve_request s (head (cs_PeerCertificates st)) q w; db_ret (Some a)
  end.
End Server.

(** ** Who may change what *)

(** The audit trail apart, nothing changed. *)
Definition untouched (d d' : DB) : Prop :=
  identities d' = identities d /\ tokens d' = tokens d
  /\ operator_sessions d' = operator_sessions d /\ grants d' = grants d.

(** At most one token and one identity changed. *)
Record enrolls (k : string * string) (h : string) (d d' : DB) : Prop := {
  en_ids : forall k', k' <> k -> identities d' !! k' = identities d !! k';
  en_tokens : forall h', h' <> h -> tokens d' !! h' = tokens d !! h';
  en_sessions : operator_sessions d' = operator_sessions d;
  en_grants : grants d' = grants d
}.

(** What belongs to [id] changed at most: its own row, the sessions [S], grants
    issued under one of those; and what was added is [id]'s. *)
Record within (id : Identity) (S : string -> Prop) (d d' : DB) : Prop := {
  wi_ids : forall k, k <> (id_Role id, id_ID id) -> identities d' !! k = identities d !! k;
  wi_tokens : tokens d' = tokens d;
  wi_sessions : forall sid r, operator_sessions d !! sid = Some r ->
    exists r', operator_sessions d' !! sid = Some r' /\ sr_user_id r' = sr_user_id r /\ (~ S sid -> r' = r);
  wi_new_sessions : forall sid r', operator_sessions d !! sid = None -> operator_sessions d' !! sid = Some r' ->
    sr_user_id r' = id_ID id;
  wi_grants : forall gid g, grants d !! gid = Some g ->
    exists g', grants d' !! gid = Some g' /\ gr_user_id g' = gr_user_id g /\ gr_session_id g' = gr_session_id g
      /\ ((forall sid, gr_session_id g = Some sid -> ~ S sid) -> g' = g);
  wi_new_grants : forall gid g', grants d !! gid = None -> grants d' !! gid = Some g' -> gr_user_id g' = id_ID id
}.

(** The sessions of [id] in [d]. *)
Definition sessions_of (id : Identity) (d : DB) (sid : string) : Prop :=
  exists r, operator_sessions d !! sid = Some r /\ sr_user_id r = id_ID id.

(** The certificate is [id]'s current one. *)
Definition vouched `{X509} (d : DB) (leaf : Cert) (id : Identity) : Prop :=
  IdentityOf leaf = Ok id /\ acceptable d id (c_SerialHex leaf).

(** ** Lemmas *)

#[local] Instance untouched_preorder : PreOrder untouched.
Proof.
  split; [by intros d|]. intros d1 d2 d3 (A1 & A2 & A3 & A4) (B1 & B2 & B3 & B4). unfold untouched. split_and!; congruence.
Qed.

#[local] Instance within_preorder id S : PreOrder (within id S).
Proof.
  split.
  - intros d. split; eauto; congruence.
  - intros d1 d2 d3 [A1 A2 A3 A4 A5 A6] [B1 B2 B3 B4 B5 B6]. split.
    + intros k Hk. rewrite B1 by done. auto.
    + congruence.
    + intros sid r Hr. destruct (A3 sid r Hr) as (r2 & H2 & E2 & N2). destruct (B3 sid r2 H2) as (r3 & H3 & E3 & N3).
      exists r3. split_and!; [done|congruence|]. intros HS. rewrite N3, N2; auto.
    + intros sid r3 H1 H3. destruct (operator_sessions d2 !! sid) as [r2|] eqn:H2; [|eauto].
      destruct (B3 sid r2 H2) as (r3' & H3' & E3 & _). assert (r3' = r3) as -> by congruence. rewrite E3. eauto.
    + intros gid g Hg. destruct (A5 gid g Hg) as (g2 & H2 & E2 & F2 & N2). destruct (B5 gid g2 H2) as (g3 & H3 & E3 & F3 & N3).
      exists g3. split_and!; [done|congruence|congruence|]. intros HS. rewrite N3, N2; auto. by rewrite F2.
    + intros gid g3 H1 H3. destruct (grants d2 !! gid) as [g2|] eqn:H2; [|eauto].
      destruct (B5 gid g2 H2) as (g3' & H3' & E3 & _). assert (g3' = g3) as -> by congruence. rewrite E3. eauto.
Qed.

Lemma untouched_within id S d d' : untouched d d' -> within id S d d'.
Proof.
  intros (E1 & E2 & E3 & E4). split; rewrite ?E1, ?E2, ?E3, ?E4; eauto; congruence.
Qed.

(** At most the row of [id] changed. *)
Definition row_only (id : Identity) (d d' : DB) : Prop :=
  (forall k, k <> (id_Role id, id_ID id) -> identities d' !! k = identities d !! k)
  /\ tokens d' = tokens d /\ operator_sessions d' = operator_sessions d /\ grants d' = grants d.

#[local] Instance row_only_preorder id : PreOrder (row_only id).
Proof.
  split; [by intros d|]. intros d1 d2 d3 (A1 & A2 & A3 & A4) (B1 & B2 & B3 & B4). unfold row_only. split_and!; try congruence.
  intros k Hk. rewrite B1 by done. auto.
Qed.

Lemma row_only_within id S d d' : row_only id d d' -> within id S d d'.
Proof. intros (E1 & E2 & E3 & E4). split; rewrite ?E2, ?E3, ?E4; eauto; congruence. Qed.

Lemma untouched_row_only id d d' : untouched d d' -> row_only id d d'.
Proof. intros (E1 & E2 & E3 & E4). split_and!; try done. by rewrite E1. Qed.

Lemma moves_mono {A} (R R' : DB -> DB -> Prop) (m : dbM A) :
  (forall d d', R d d' -> R' d d') -> moves R m -> moves R' m.
Proof. intros H Hm fl d. apply H, Hm. Qed.

Lemma audit_untouched e now : moves untouched (appendAudit e now).
Proof. by apply moves_append. Qed.

#[local] Hint Resolve audit_untouched : sar.

Lemma record_untouched st e now nowA : moves untouched (Record_event st e now nowA).
Proof. unfold Record_event. cbv zeta. repeat moves_step. Qed.

Lemma denial_untouched i req dec nowA : moves untouched (recordDenial i req dec nowA).
Proof. unfold recordDenial. repeat moves_step. Qed.

Lemma row_only_identity id msg cond f : moves (row_only id) (update_identity msg (id_Role id) (id_ID id) cond f).
Proof.
  apply moves_stmt. intros d. destruct (identities d !! _) as [r|]; [|done]. destruct (_ && _); [|done].
  split_and!; try done. intros k Hk. cbn. by rewrite lookup_insert_ne.
Qed.

Section Within.
Context (id : Identity) (S : string -> Prop).

Lemma within_audit e now : moves (within id S) (appendAudit e now).
Proof. apply (moves_mono untouched); [apply untouched_within|apply audit_untouched]. Qed.

Lemma within_audit_each actor now reason l : moves (within id S) (audit_each actor now reason l).
Proof. apply moves_append_each. intros. by apply untouched_within. Qed.

#[local] Hint Resolve within_audit within_audit_each : sar.

Lemma within_CreateSession r e now : ss_UserID r = id_ID id -> moves (within id S) (CreateSession r e now).
Proof.
  intros Hu. unfold CreateSession. repeat moves_step. apply moves_stmt. intros d.
  destruct (operator_sessions d !! ss_SessionID r) eqn:E; [done|]. destruct (session_by_hash _ d); [done|].
  split; cbn; eauto; try congruence.
  - intros sid x Hx. exists x. rewrite lookup_insert_ne by congruence. eauto.
  - intros sid x H0 [[<- <-]|[Hn Hx]]%lookup_insert_Some; [done|congruence].
Qed.

Lemma within_RecordGrant g e now : gd_UserID g = id_ID id -> moves (within id S) (RecordGrant g e now).
Proof.
  intros Hu. unfold RecordGrant. cbv zeta. repeat moves_step. apply moves_stmt. intros d.
  destruct (grants d !! gd_GrantID g) eqn:E; [done|].
  match goal with |- within _ _ _ (if ?b then _ else _).2 => destruct b end; [|done]. split; cbn; eauto; try congruence.
  - intros gid x Hx. exists x. rewrite lookup_insert_ne by congruence. eauto.
  - intros gid x H0 [[<- <-]|[Hn Hx]]%lookup_insert_Some; [done|congruence].
Qed.

Lemma within_RevokeSession sid reason actor now nowA : S sid -> moves (within id S) (RevokeSession sid reason actor now nowA).
Proof.
  intros HS. unfold RevokeSession, LookupSessionByID. repeat moves_step. apply moves_stmt. intros d.
  destruct (operator_sessions d !! sid) as [x|] eqn:E; [|done]. destruct (sr_revoked_at x); [done|].
  split; cbn; eauto; try congruence.
  - intros sid' r Hr. destruct (decide (sid = sid')) as [<-|Hn].
    + eexists. rewrite lookup_insert_eq. split_and!; [done|cbn; congruence|done].
    + exists r. rewrite lookup_insert_ne by done. eauto.
  - intros sid' r' Hn [[<- <-]|[_ Hr]]%lookup_insert_Some; congruence.
Qed.

Lemma within_RevokeGrants sid reason actor now : S sid -> moves (within id S) (RevokeGrantsWhere ScopeSession sid reason actor now).
Proof.
  intros HS. unfold RevokeGrantsWhere. repeat moves_step. apply moves_stmt. intros d. split; cbn; eauto; try congruence.
  - intros gid g Hg. rewrite lookup_fmap, Hg. cbn. eexists. split; [done|].
    destruct (cascade_where _ _ _ g) eqn:Ec; cbn; [|done]. split_and!; [done..|]. intros Hno.
    unfold cascade_where, in_scope in Ec. rewrite !andb_true_iff in Ec. destruct Ec as [[Ec _] _].
    apply bool_decide_eq_true in Ec. by destruct (Hno _ Ec).
  - intros gid g' Hn. rewrite lookup_fmap, Hn. done.
Qed.

Lemma within_End sid actor reason n1 nA n2 : S sid -> moves (within id S) (End sid actor reason n1 nA n2).
Proof.
  intros HS. unfold End. apply moves_bind; [unfold LookupSessionByID; moves_step|]. intros owner. cbv zeta.
  intros fl d. unfold db_bind at 1.
  pose proof (within_RevokeSession sid reason (event (eventForReason reason) (actorRole actor (ss_UserID owner)) actor
    "" "" "" "" "" "") n1 nA HS fl d) as H1.
  pose proof (RevokeSession_out sid reason (event (eventForReason reason) (actorRole actor (ss_UserID owner)) actor
    "" "" "" "" "" "") n1 nA fl d) as H2.
  destruct (RevokeSession _ _ _ _ _ fl d) as [[[rec|e] d1] fl1]; [|done]. destruct H2 as (-> & _). etrans; [exact H1|].
  apply (moves_bind (R := within id S)); [apply moves_attempt, within_RevokeGrants, HS|]. intros a. repeat moves_step.
Qed.
End Within.

(** What a request over a connection with this certificate may do. *)
Definition confined `{X509} (tls : option Cert) (d d' : DB) : Prop :=
  untouched d d'
  \/ exists leaf id, tls = Some leaf /\ vouched d leaf id /\ within id (sessions_of id d) d d'
       /\ (id_Role id <> RoleOperator -> operator_sessions d' = operator_sessions d /\ grants d' = grants d).

Section Requests.
Context `{X : X509} `{Ed : Ed25519} `{B : Base64} `{J : !RequestJSON} `{V : ChainVerify}.
Context (HashToken : string -> string) (fmtTime : time -> string).

Lemma confined_then tls d d1 d2 : confined tls d d1 -> untouched d1 d2 -> confined tls d d2.
Proof.
  intros [H|(leaf & id & -> & Hv & Hw & Hn)] Hu; [left; by etrans|]. right. exists leaf, id. split_and!; [done..| |].
  - etrans; [exact Hw|]. by apply untouched_within.
  - intros Hr. destruct (Hn Hr) as [E1 E2]. destruct Hu as (_ & _ & E3 & E4). split; congruence.
Qed.

Lemma row_only_confined leaf id d d' : vouched d leaf id -> row_only id d d' -> confined (Some leaf) d d'.
Proof.
  intros Hv Hw. right. exists leaf, id. split_and!; [done|done|by apply row_only_within|]. by destruct Hw as (_ & _ & ? & ?).
Qed.

(** A certificate that is accepted may be promoted: its own row changes. *)
Lemma VerifyEnrolled_frame cert fl d :
  match VerifyEnrolled cert fl d with
  | (Ok id, d', _) => vouched d cert id /\ row_only id d d'
  | (Err _, d', _) => d' = d
  end.
Proof.
  destruct (VerifyEnrolled cert fl d) as [[[id|e] d'] fl'] eqn:E.
  - apply VerifyEnrolled_success in E as (row & Hi & Hrow & Hn & Hc). split_and!.
    + split; [done|]. exists row. split_and!; auto. destruct Hc as [[? _]|(_ & ? & ? & _)]; auto.
    + destruct Hc as [[_ ->]|(_ & _ & _ & ->)]; [done|]. split_and!; try done. intros k Hk. cbn. by rewrite lookup_insert_ne.
  - revert E. unfold VerifyEnrolled, Lookup, lookupAny, PromoteSerial, update_identity, query, stmt, db_bind, lift.
    destruct (IdentityOf cert) as [i|]; cbn; [|by intros [= _ <- _]]. destruct (next_fault fl) as [[|] fl1]; [by intros [= _ <- _]|].
    destruct (identities d !! _) as [r|] eqn:Er; cbn; [|by intros [= _ <- _]].
    destruct (bool_decide (ir_revoked_at r <> None)); cbn; [by intros [= _ <- _]|].
    destruct (bool_decide (ir_serial_hex r = _)); cbn; [done|].
    destruct (negb _ && _); cbn; [|by intros [= _ <- _]].
    destruct (next_fault fl1) as [[|] fl2]; [by intros [= _ <- _]|]. rewrite Er. by destruct (_ && _).
Qed.

Lemma deny_untouched s r ev status msg reason now : moves untouched (deny s r ev status msg reason now).
Proof. unfold deny, record. repeat moves_step. apply record_untouched. Qed.

Lemma authenticate_frame s r ev now fl d :
  match authenticateOperator s r ev now fl d with
  | (Ok (inr id), d', _) => exists leaf, hr_TLS r = Some leaf /\ vouched d leaf id /\ id_Role id = RoleOperator
      /\ row_only id d d'
  | (_, d', _) => confined (hr_TLS r) d d'
  end.
Proof.
  unfold authenticateOperator. destruct (hr_TLS r) as [cert|].
  2: { pose proof (deny_untouched s r ev 401 "a client certificate is required" "no_certificate" now fl d) as Hu.
       destruct (deny_inl s r ev 401 "a client certificate is required" "no_certificate" now fl d) as (d1 & fl1 & E).
       rewrite E in Hu |- *. by left. }
  unfold db_bind, attempt. pose proof (VerifyEnrolled_frame cert fl d) as HV.
  destruct (VerifyEnrolled cert fl d) as [[[id|e] d1] fl1].
  - destruct HV as (Hv & Hw). case_bool_decide as Hr; cbn [negb]; [by exists cert|].
    pose proof (deny_untouched s r ev 403 "not an operator" "not_an_operator" now fl1 d1) as Hu.
    destruct (deny_inl s r ev 403 "not an operator" "not_an_operator" now fl1 d1) as (d2 & fl2 & E). rewrite E in Hu |- *.
    eapply confined_then; [|exact Hu]. by apply (row_only_confined cert id).
  - subst d1. pose proof (deny_untouched s r ev 403 "not recognised" "not_enrolled" now fl1 d) as Hu.
    destruct (deny_inl s r ev 403 "not recognised" "not_enrolled" now fl1 d) as (d2 & fl2 & E). rewrite E in Hu |- *. by left.
Qed.

(** A handler that authenticates an operator and then keeps to what is theirs. *)
Lemma operator_confined {A} s r ev now (k : response + Identity -> dbM A) :
  (forall resp, moves untouched (k (inl resp))) ->
  (forall id fl d, within id (sessions_of id d) d (k (inr id) fl d).1.2) ->
  forall fl d, confined (hr_TLS r) d (db_bind (authenticateOperator s r ev now) k fl d).1.2.
Proof.
  intros Hl Hr fl d. unfold db_bind. pose proof (authenticate_frame s r ev now fl d) as Ha.
  destruct (authenticateOperator s r ev now fl d) as [[[[resp|id]|e] d1] fl1]; [| |done].
  - eapply confined_then; [exact Ha|apply Hl].
  - destruct Ha as (leaf & -> & Hv & Hrole & Hw). right. exists leaf, id. split_and!; [done..| |by intros []].
    etrans; [by apply row_only_within|]. destruct Hw as (_ & _ & Hs & _). specialize (Hr id fl1 d1). unfold sessions_of in Hr |- *. by rewrite Hs in Hr.
Qed.

Lemma resolve_untouched token now : moves untouched (Resolve HashToken token now).
Proof. unfold Resolve, LookupSession. repeat moves_step. Qed.

Lemma within_Begin id S ttl remote rnd1 rnd2 now nowA : moves (within id S) (Begin HashToken ttl (id_ID id) remote rnd1 rnd2 now nowA).
Proof.
  unfold Begin, lift. repeat moves_step. by apply within_CreateSession.
Qed.

Lemma handleLogin_confined s r ttl rnd1 rnd2 now fl d :
  confined (hr_TLS r) d (handleLogin HashToken fmtTime s r ttl rnd1 rnd2 now fl d).1.2.
Proof.
  unfold handleLogin. destruct (h_login s) as [life|]; [|by left]. revert fl d. apply operator_confined.
  - intros resp. unfold reply. moves_step.
  - intros id fl d. apply moves_bind; [apply moves_attempt, within_Begin|]. intros out. unfold reply. repeat moves_step.
Qed.

Lemma handleLogout_confined s r now fl d : confined (hr_TLS r) d (handleLogout HashToken s r now fl d).1.2.
Proof.
  unfold handleLogout. destruct (h_login s) as [life|]; [|by left]. revert fl d. apply operator_confined.
  - intros resp. unfold reply. moves_step.
  - intros id fl d. unfold db_bind at 1, attempt at 1. pose proof (resolve_untouched (bearerToken r) now fl d) as Hu.
    destruct (Resolve HashToken (bearerToken r) now fl d) as [[[[rec [e|]]|e] d1] fl1] eqn:ER;
      [by apply untouched_within| |by apply untouched_within].
    apply Resolve_active in ER as [-> (row & Hrow & _ & Hus & _)]. case_bool_decide as Hu2; cbn [negb]; [|done].
    apply moves_bind; [apply moves_attempt, within_End|intros out; unfold reply; repeat moves_step].
    exists row. split; [done|congruence].
Qed.

Lemma handleRenew_confined s r body serial now fl d : confined (hr_TLS r) d (handleRenew fmtTime s r body serial now fl d).1.2.
Proof.
  unfold handleRenew. destruct (hr_TLS r) as [cert|]; [|by left]. destruct body as [csr|]; [|by left].
  assert (confined (Some cert) d (Renew (h_enroll s) cert csr serial now now fl d).1.2) as HR.
  { unfold Renew, db_bind at 1. pose proof (VerifyEnrolled_frame cert fl d) as HV.
    destruct (VerifyEnrolled cert fl d) as [[[id|e] d1] fl1]; [|subst; by left].
    destruct HV as (Hv & Hw). apply (row_only_confined cert id); [done|]. etrans; [exact Hw|].
    unfold lift, PutPendingSerial, lookupAny.
    apply (moves_bind (R := row_only id)); [repeat moves_step|]. intros c.
    repeat moves_step. apply row_only_identity. }
  unfold db_bind at 1, attempt. destruct (Renew _ _ _ _ _ _ fl d) as [[out d1] fl1]. eapply confined_then; [exact HR|].
  destruct out as [result|e]; [|destruct (_ || _); [|destruct (errors_Is e _)]]; unfold recordRenewDenied, record, reply.
  all: first [done | apply (moves_bind (R := untouched)); [apply record_untouched|intros ?; moves_step]].
Qed.

Lemma within_Issue id S i rules req rnd now nowA : rq_UserID req = id_ID id -> moves (within id S) (Issue i rules req rnd now nowA).
Proof.
  intros Hu. unfold Issue. cbv zeta. destruct (negb _).
  { apply moves_bind; [|intros ?; moves_step]. apply (moves_mono untouched), denial_untouched. apply untouched_within. }
  destruct (newGrantID rnd) as [gid|]; [|moves_step]. destruct (Sign _ _) as [signed|] eqn:ES; [|moves_step].
  destruct (i_store i); [|moves_step]. apply moves_bind; [|intros ?; repeat moves_step].
  apply moves_attempt, within_RecordGrant. cbn. apply Sign_Ok_inv in ES as [-> _]. exact Hu.
Qed.

Lemma within_issue_for id S s i sid body rnd now : moves (within id S) (issue_for fmtTime s i id sid body rnd now).
Proof.
  unfold issue_for, reply. destruct body as [q|]; [|moves_step]. apply moves_bind; [by apply within_Issue|]. intros [dec [g|e]]; repeat moves_step.
Qed.

Lemma require_untouched r id now : moves untouched (requireSession HashToken r id now).
Proof. unfold requireSession. cbv zeta. repeat moves_step. apply resolve_untouched. Qed.

Lemma handleGrant_confined s r body rnd now fl d : confined (hr_TLS r) d (handleGrant HashToken fmtTime s r body rnd now fl d).1.2.
Proof.
  unfold handleGrant. destruct (h_issuer s) as [i|]; [|by left]. revert fl d. apply operator_confined.
  - intros resp. unfold reply. moves_step.
  - intros id fl d. destruct (h_login s); [|apply within_issue_for].
    apply moves_bind; [apply (moves_mono untouched), require_untouched; apply untouched_within|].
    intros [resp|rec]; [unfold reply; moves_step|apply within_issue_for].
Qed.

(** Enrolling changes nothing, or uses up a live token and writes the row of the
    identity it names. *)
Definition enrolled_by (token : string) (now : time) (d d' : DB) : Prop :=
  exists row, tokens d !! HashToken token = Some row /\ tr_consumed_at row = None /\ now <= fromUnix (tr_expires_at row)
    /\ enrolls (tr_role row, tr_id row) (HashToken token) d d'.

Lemma Enroll_frame s token csr serial n1 n2 n3 n4 fl d out d' fl' :
  Enroll HashToken s token csr serial n1 n2 n3 n4 fl d = (out, d', fl') -> d' = d \/ enrolled_by token n1 d d'.
Proof.
  unfold Enroll, db_bind at 1. destruct (ConsumeToken HashToken token n1 n2 fl d) as [[[t|e] d1] fl1] eqn:EC.
  2: { intros [= _ <- _]. left. unfold ConsumeToken in EC. by apply transaction_Err in EC. }
  intros E. right. apply ConsumeToken_success in EC as (row & Hr & Hu & He & -> & Ed1). exists row. split_and!; [done..|].
  assert (enrolls (tr_role row, tr_id row) (HashToken token) d d1) as Hen.
  { subst d1. split; cbn; try done. intros h Hh. by rewrite lookup_insert_ne. }
  clear Ed1. revert E. unfold lift, PutRecord, stmt, db_bind, parseCSR.
  destruct csr as [csr|]; cbn [db_ret db_err]; [|by intros [= _ <- _]].
  destruct (CA_Sign _ _ _ _ _) as [pem|]; cbn [db_ret db_err]; [|by intros [= _ <- _]].
  destruct (ParseCertificate pem) as [cert|]; cbn [db_ret db_err]; [|by intros [= _ <- _]].
  destruct (next_fault fl1) as [[|] fl2]; intros [= _ <- _]; [done|].
  destruct Hen as [H1 H2 H3 H4]. split; cbn; try done. intros k Hk. rewrite lookup_insert_ne by done. auto.
Qed.

Lemma handleEnroll_frame s r body serial now fl d out d' fl' :
  handleEnroll HashToken fmtTime s r body serial now fl d = (out, d', fl') ->
  untouched d d' \/ exists token csr, body = Some (token, csr) /\ enrolled_by token now d d'.
Proof.
  unfold handleEnroll. destruct body as [[token csr]|]; [|intros [= _ <- _]; by left]. unfold db_bind at 1, attempt.
  destruct (Enroll _ _ _ _ _ _ _ _ _ fl d) as [[res d1] fl1] eqn:HE. apply Enroll_frame in HE. intros E.
  assert (untouched d1 d') as Hu.
  { assert (d' = (out, d', fl').1.2) as -> by done. rewrite <- E.
    destruct res as [result|e]; [|destruct (token_error e); [|destruct (errors_Is e _)]]; unfold record, reply.
    all: first [done | apply (moves_bind (R := untouched)); [apply record_untouched|intros ?; moves_step]]. }
  destruct HE as [->|(row & Hr & Hn & He & [H1 H2 H3 H4])]; [by left|]. right. exists token, csr. split; [done|].
  exists row. destruct Hu as (E1 & E2 & E3 & E4). split_and!; [done..|]. split; rewrite ?E1, ?E2, ?E3, ?E4; done.
Qed.

Lemma bind_ret_state {A B'} (m : dbM A) (f : A -> B') fl d : (db_bind m (fun a => db_ret (f a)) fl d).1.2 = (m fl d).1.2.
Proof. unfold db_bind. by destruct (m fl d) as [[[a|e] d1] fl1]. Qed.

Lemma mux_match_in ps method path seen r : mux_match ps method path seen = Handled r -> exists m, (m, path, r) ∈ ps.
Proof.
  revert seen. induction ps as [|[[m p] r'] rest IH]; intros seen; cbn [mux_match]; [by destruct seen|].
  destruct (bool_decide_reflect (path = p)) as [->|]; [destruct (method_matches m method)|].
  - intros [= ->]. exists m. left.
  - intros (m' & ?)%IH. exists m'. by right.
  - intros (m' & ?)%IH. exists m'. by right.
Qed.

(** Each route has one path. *)
Lemma route_path method path r :
  serve_mux method path = Handled r ->
  path = match r with
         | RouteEnroll => "/v1/enroll" | RouteRenew => "/v1/renew" | RouteLogin => "/v1/login"
         | RouteLogout => "/v1/logout" | RouteGrants => "/v1/grants" | RouteHealth => "/healthz"
         end.
Proof.
  intros (m & Hin)%mux_match_in. unfold patterns in Hin.
  repeat (apply elem_of_cons in Hin as [[= _ -> ->]|Hin]; [done|]). by apply not_elem_of_nil in Hin.
Qed.

(** Every route, for a connection with or without a certificate. *)
Lemma serve_request_frame s tls q w fl d out d' fl' :
  serve_request HashToken fmtTime s tls q w fl d = (out, d', fl') ->
  confined tls d d'
  \/ hq_Method q = "POST" /\ hq_Path q = "/v1/enroll"
     /\ exists token csr, json_enroll (limited q) = Some (token, csr) /\ enrolled_by token (dw_now w) d d'.
Proof.
  intros E. assert (d' = (serve_request HashToken fmtTime s tls q w fl d).1.2) as -> by by rewrite E. clear E.
  unfold serve_request. cbv zeta. destruct (serve_mux _ _) as [[]| |] eqn:ER; rewrite ?bind_ret_state.
  2-5: left; first [apply (handleRenew_confined s (mkRequestHTTP tls _ _)) | apply (handleLogin_confined s (mkRequestHTTP tls _ _))
    | apply (handleLogout_confined s (mkRequestHTTP tls _ _)) | apply (handleGrant_confined s (mkRequestHTTP tls _ _))].
  2-4: left; by left.
  match goal with |- context [(?m fl d).1.2] => destruct (m fl d) as [[res d1] fl1] eqn:E end. cbn [fst snd].
  apply handleEnroll_frame in E as [Hu|(token & csr & Hb & He)]; [left; by left|]. right. rewrite (route_path _ _ _ ER). apply serve_mux_methods in ER.
  destruct (json_enroll (limited q)) as [[t c]|]; [|done]. injection Hb as -> _. split_and!; eauto.
Qed.
End Requests.

(** ** Properties *)


(** ** Witnesses *)

#[local] Existing Instance toy_x509.
#[local] Existing Instance toy_ed.
#[local] Existing Instance toy_b64.

#[local] Instance cs_json : RequestJSON := {|
  json_enroll := fun _ => None;
  json_renew := fun _ => None;
  json_grant := fun b => match b with [] => None | _ => Some (mkGrantRequest "dev1" "web" 300) end;
  json_login := fun _ => None;
  parse_request := fun _ => None
|}.

#[local] Instance cs_chain : ChainVerify := {| Pool := unit; chain_Verify := fun _ _ _ _ _ => true |}.

Definition cs_peer : tls_peer := mkPeer VersionTLS13 [] [ha_cert] true.
Definition cs_message : http_message := mkMessage "POST" "/v1/grants" "192.0.2.7:50123" "bearer tok" [x7b].

Definition cs_pool : @Pool cs_chain := tt.

Definition cs_run : res (option (http_response * list string)) * DB * list bool :=
  serve_connection demo_hash ha_fmt [] cs_pool ha_server (Ok cs_peer) cs_message (mkDraws None (Some cp_random) None cp_now) [] ha_db.

