(* ===== verification/EndToEnd.v ===== *)
(** * From a decision to a connection

    The control plane, the agent and the inner session put together: what has to
    have happened at the control plane for an agent to connect somebody to a
    local service, whatever the relay in between does, and that it does happen
    for whom it should.

    The control plane is seen through its exchanges: a request on a connection,
    the state of the database it met, what it drew and which database calls
    failed.  Between two exchanges anything may have happened to the database.
    The agent is [handleStream] of Agent.v under the TLS of E2ee.v.  For what an
    agent refuses the relay is not there at all: the bytes it is handed are
    arbitrary.  For what gets through, the relay is [joinStream] of Relay.v. *)

From S2P Require Import Prelude GoErrors GoTime Handshake Grant Policy Proc Db Storage Enrollment ControlPlane Relay NetAddr Agent Transport E2ee HttpApi SarServer ControlServer.
Import Login Grants.
Open Scope db_scope.

(** ** The parties *)

Record exchange `{X509} := mkExchange {
  ex_db : DB;
  ex_server : server;
  ex_peer : res tls_peer;
  ex_message : http_message;
  ex_draws : draws;
  ex_faults : list bool
}.

Section Parties.
Context `{X : X509} `{Ed : Ed25519} `{B : Base64} `{J : !RequestJSON} `{V : ChainVerify}.
Context (HashToken : string -> string) (fmtTime : time -> string).

(** The certificate of the server and the pool of the authority. *)
Context (cert : list Cert) (cas : Pool).

Definition answer (x : exchange) : res (option (http_response * list string)) * DB * list bool :=
  serve_connection HashToken fmtTime cert cas (ex_server x) (ex_peer x) (ex_message x) (ex_draws x) (ex_faults x) (ex_db x).

(** The grant an exchange handed out, if it did. *)
Definition handed_out (x : exchange) : option (list byte) :=
  match (answer x).1.1 with
  | Ok (Some (HJson (RespGrant gb _ _ _ _), _)) => Some gb
  | _ => None
  end.

(** The agent on one stream: the far end of the inner session is [peer]. *)
Definition agent_serves (end_ : end_identity) (self : Self) (resources : Allowlist) (payload : list byte)
    (clock : nat -> time) (peer : res tls_peer) (dial : dial_outcome) (join : join_outcome) : list action :=
  handleStream (fun leaf inter => chain_Verify (en_CAPool end_) ExtKeyUsageClientAuth None leaf inter)
    self resources payload clock (outcome_of tls_Server (Server_config end_ (self_ID self)) peer) dial join.

(** Nobody forged a signature in these bytes: if they are a grant whose signature
    is good under the key of issuer [i], then the signed part was handed out by
    one of the exchanges. *)
Definition genuine (i : Issuer) (H : list exchange) (payload : list byte) : Prop :=
  forall g, DecodeGrant payload = Ok g ->
    ed_verify (ed_public (i_key i)) (canonical g) (sg_Signature g) = true ->
    exists x gb, x ∈ H /\ handed_out x = Some gb /\ take (length gb - SignatureSize) gb = canonical g.

(** A rule whose names fit the two-byte lengths of the signed encoding. *)
Definition rule_fits (r : Rule) : Prop :=
  Forall (fun s => slen s < 65536) (Principals r) /\ Forall (fun s => slen s < 65536) (Devices r)
  /\ Forall (fun s => slen s < 65536) (Resources r).

(** An exchange with the server [cmdRun] starts: it records the grants of issuer
    [i] and requires sessions. *)
Definition deployed (i : Issuer) (x : exchange) : Prop :=
  h_issuer (ex_server x) = Some i /\ i_store i = true /\ slen (i_keyID i) < 65536
  /\ is_Some (h_login (ex_server x)) /\ Forall rule_fits (h_rules (ex_server x))
  /\ clock_ok (dw_now (ex_draws x)) /\ clock_ok (dw_now (ex_draws x) + MaxGrantTTL)
  /\ zlen (default [] (dw_rnd1 (ex_draws x))) < 32000.

(** The decision behind a connection: an operator who proved to hold a
    certificate the authority signed and that is current asked for this device
    and resource in a live session, a rule of the policy names exactly them, and
    the grant was stored, not revoked, with the answer. *)
Record decided (x : exchange) (gid user device resource : string) (rule : Rule) : Prop := {
  dc_route : hq_Method (ex_message x) = "POST" /\ hq_Path (ex_message x) = "/v1/grants";
  dc_operator : exists p leaf inter, ex_peer x = Ok p /\ tp_Certs p = leaf :: inter /\ tp_HoldsKey p = true
    /\ chain_Verify cas ExtKeyUsageClientAuth None leaf inter = true
    /\ IdentityOf leaf = Ok (mkIdentity RoleOperator user)
    /\ acceptable (ex_db x) (mkIdentity RoleOperator user) (c_SerialHex leaf);
  dc_session : exists token sid, live_session HashToken token user (dw_now (ex_draws x)) sid (ex_db x);
  dc_rule : rule ∈ h_rules (ex_server x) /\ matches user device resource rule;
  dc_stored : exists row, grants (answer x).1.2 !! gid = Some row /\ gr_user_id row = user /\ gr_revoked_at row = None
}.
End Parties.

(** ** Lemmas: the signed encoding *)

(** Two-byte length prefixes make fields unambiguous below 65536 bytes. *)
Lemma appendString_inj a b r r' :
  slen a < 65536 -> slen b < 65536 -> appendString [] a ++ r = appendString [] b ++ r' -> a = b /\ r = r'.
Proof.
  intros Ha Hb. pose proof (slen_nonneg a). pose proof (slen_nonneg b).
  unfold appendString. rewrite !app_nil_l, <- !app_assoc. intros E.
  apply app_inj_1 in E as [E1 E2]; [|by rewrite !length_be_enc].
  apply (f_equal be_dec) in E1. rewrite !be_dec_enc, !(uwrap_id 16) in E1 by lia.
  change (256 ^ Z.of_nat 2) with 65536 in E1. rewrite !Z.mod_small in E1 by lia.
  apply app_inj_1 in E2 as [E2 ->]; [|rewrite !length_bytes_of_string; unfold slen in E1; lia].
  split; [by apply bytes_of_string_inj|done].
Qed.

Definition fields_fit (g : Grant) : Prop :=
  slen (g_KeyID g) < 65536 /\ slen (g_GrantID g) < 65536 /\ slen (g_OrgID g) < 65536
  /\ slen (g_UserID g) < 65536 /\ slen (g_DeviceID g) < 65536 /\ slen (g_ResourceID g) < 65536.

Lemma be_enc_8_inj a b : 0 <= a < 2 ^ 64 -> 0 <= b < 2 ^ 64 -> be_enc 8 a = be_enc 8 b -> a = b.
Proof.
  intros Ha Hb E. apply (f_equal be_dec) in E. rewrite !be_dec_enc in E. change (256 ^ Z.of_nat 8) with (2 ^ 64) in E.
  by rewrite !Z.mod_small in E.
Qed.

Lemma wire_time_inj t u : wire_time t -> wire_time u ->
  uwrap 64 (unixSeconds t) = uwrap 64 (unixSeconds u) -> t = u.
Proof.
  intros Ht Hu E. rewrite <- (wire_time_encode t Ht), <- (wire_time_encode u Hu). by rewrite E.
Qed.

Lemma cons_eq_inv {A} (x y : A) l k : x :: l = y :: k -> x = y /\ l = k.
Proof. by intros [= -> ->]. Qed.

Lemma wire_time_truncate t : clock_ok t -> wire_time (TruncateSecond t).
Proof. intros H%clock_ok_wf. split; [by apply TruncateSecond_wf|apply TruncateSecond_idem]. Qed.

(** Grants with the same signed bytes say the same. *)
Lemma canonical_inj a b :
  fields_fit a -> fields_fit b -> wire_time (g_IssuedAt a) -> wire_time (g_IssuedAt b) ->
  wire_time (g_ExpiresAt a) -> wire_time (g_ExpiresAt b) -> canonical a = canonical b ->
  g_GrantID a = g_GrantID b /\ g_UserID a = g_UserID b /\ g_DeviceID a = g_DeviceID b /\ g_ResourceID a = g_ResourceID b
  /\ g_IssuedAt a = g_IssuedAt b /\ g_ExpiresAt a = g_ExpiresAt b.
Proof.
  intros (A1 & A2 & A3 & A4 & A5 & A6) (B1 & B2 & B3 & B4 & B5 & B6) I1 I2 E1 E2. rewrite !canonical_app.
  intros [_ E]%cons_eq_inv.
  do 6 (apply appendString_inj in E as [?F E]; [|done..]). unfold grant_tail in E.
  apply app_inj_1 in E as [T1 E]; [|by rewrite !length_be_enc]. apply app_inj_1 in E as [T2 _]; [|by rewrite !length_be_enc].
  apply be_enc_8_inj in T1; [|apply uwrap_range; lia..]. apply be_enc_8_inj in T2; [|apply uwrap_range; lia..].
  split_and!; [done..|by apply wire_time_inj|by apply wire_time_inj].
Qed.

(** ** Lemmas: which exchanges hand out grants *)

Definition is_grant `{X509} (r : response) : bool := match r with RespGrant _ _ _ _ _ => true | _ => false end.

Section Answers.
Context `{X : X509} `{Ed : Ed25519} `{B : Base64} `{J : !RequestJSON} `{V : ChainVerify}.
Context (HashToken : string -> string) (fmtTime : time -> string).

(** A handler that never answers with a grant. *)
Definition grantless (m : dbM (response * list string)) : Prop := on_success m (fun _ a _ => is_grant a.1 = false).

Lemma grantless_reply r : is_grant r = false -> grantless (reply r).
Proof. by intros E fl d a d' fl' [= <- _ _]. Qed.

Lemma grantless_bind {A} (m : dbM A) k : (forall a, grantless (k a)) -> grantless (db_bind m k).
Proof.
  intros Hk. eapply (on_success_bind m k (fun _ _ _ => True)); [done|exact Hk|]. by intros.
Qed.

Lemma grantless_operator s r ev now k :
  (forall id, grantless (k (inr id))) -> (forall resp, is_grant resp = false -> grantless (k (inl resp))) ->
  grantless (db_bind (authenticateOperator s r ev now) k).
Proof.
  intros Hr Hl fl d a d' fl'. unfold db_bind.
  destruct (authenticateOperator s r ev now fl d) as [[[[resp|id]|e] d1] fl1] eqn:EA; [|apply Hr|done].
  apply authenticateOperator_inl in EA as (st & m & ->). by apply Hl.
Qed.

Ltac grantless :=
  repeat first [apply grantless_reply; done | apply grantless_bind; intros ? | case_match
               | by intros ? ? ? ? ? [= <- _ _]].

Lemma handleEnroll_grantless s r body serial now : grantless (handleEnroll HashToken fmtTime s r body serial now).
Proof. unfold handleEnroll. grantless. Qed.

Lemma handleRenew_grantless s r body serial now : grantless (handleRenew fmtTime s r body serial now).
Proof. unfold handleRenew. grantless. Qed.

Lemma handleLogin_grantless s r ttl rnd1 rnd2 now : grantless (handleLogin HashToken fmtTime s r ttl rnd1 rnd2 now).
Proof.
  unfold handleLogin. destruct (h_login s); [|by apply grantless_reply].
  apply grantless_operator; [intros id|by intros; apply grantless_reply]. grantless.
Qed.

Lemma handleLogout_grantless s r now : grantless (handleLogout HashToken s r now).
Proof.
  unfold handleLogout. destruct (h_login s); [|by apply grantless_reply].
  apply grantless_operator; [intros id|by intros; apply grantless_reply]. grantless.
Qed.

(** A handler's answer, as the server sends it. *)
Lemma json_inv (m : dbM (response * list string)) fl d r l d' fl' :
  (do a <- m; db_ret (HJson a.1, a.2)) fl d = (Ok (HJson r, l), d', fl') -> m fl d = (Ok (r, l), d', fl').
Proof. unfold db_bind. by destruct (m fl d) as [[[[r0 l0]|e] d1] fl1]; [intros [= <- <- <- <-]|]. Qed.

(** Only the grants route answers with a grant. *)
Lemma serve_request_grant s tls q w fl d gb gid ex pol sid l d' fl' :
  serve_request HashToken fmtTime s tls q w fl d = (Ok (HJson (RespGrant gb gid ex pol sid), l), d', fl') ->
  hq_Method q = "POST" /\ hq_Path q = "/v1/grants"
  /\ handleGrant HashToken fmtTime s (mkRequestHTTP tls (hq_RemoteAddr q) (hq_Authorization q))
       (json_grant (limited q)) (dw_rnd1 w) (dw_now w) fl d = (Ok (RespGrant gb gid ex pol sid, l), d', fl').
Proof.
  unfold serve_request. cbv zeta. destruct (serve_mux _ _) as [[]| |] eqn:ER; try done; intros E%json_inv.
  5: { rewrite (route_path _ _ _ ER). by apply serve_mux_methods in ER. }
  all: exfalso; first [apply handleEnroll_grantless in E | apply handleRenew_grantless in E
    | apply handleLogin_grantless in E | apply handleLogout_grantless in E]; done.
Qed.

Context (cert : list Cert) (cas : Pool).

Lemma rule_fits_matches r u d x : rule_fits r -> matches u d x r -> slen u < 65536 /\ slen d < 65536 /\ slen x < 65536.
Proof. intros (H1 & H2 & H3) (_ & Hu & Hd & Hx). rewrite Forall_forall in H1, H2, H3. auto. Qed.

(** What the issuer signs, as the agent will read it. *)
Lemma Sign_issued i b user dev res now ttl g :
  clock_ok now -> clock_ok (now + MaxGrantTTL) -> 0 < ttl <= MaxGrantTTL ->
  slen (i_keyID i) < 65536 -> zlen b < 32000 -> slen user < 65536 -> slen dev < 65536 -> slen res < 65536 ->
  Sign (mkGrant 0 (i_keyID i) ("grn_" +:+ hex_EncodeToString b) "" user dev res (TruncateSecond now)
          (Add (TruncateSecond now) ttl) 0) (i_key i) = Ok g ->
  fields_fit g /\ g_UserID g = user /\ g_DeviceID g = dev /\ g_ResourceID g = res
  /\ wire_time (g_IssuedAt g) /\ wire_time (g_ExpiresAt g)
  /\ g_IssuedAt g = TruncateSecond now /\ g_ExpiresAt g <= now + ttl
  /\ sg_Signature g = ed_sign (i_key i) (canonical g).
Proof.
  intros Hc Hc' Httl Hk Hb Hu Hd Hr HS. pose proof (TruncateSecond_le now) as Ht. pose proof (clock_ok_truncate _ Hc) as Hct.
  rewrite Add_clock in HS by (done || unfold MaxGrantTTL, Minute, Second, Millisecond in *; lia).
  destruct (Sign_Ok_inv _ _ _ HS) as (-> & Hsig & _). cbn in *.
  assert (clock_ok (TruncateSecond now + ttl)) as Hce by (unfold clock_ok in *; lia).
  pose proof (TruncateSecond_le (TruncateSecond now + ttl)).
  split_and!; try done; [|by apply wire_time_truncate..|apply TruncateSecond_idem|lia].
  unfold fields_fit. cbn. rewrite slen_app, slen_hex. unfold slen in *. cbn. lia.
Qed.

(** An exchange that hands out a grant decided to. *)
Lemma handed_out_inv i x gb :
  deployed i x -> handed_out HashToken fmtTime cert cas x = Some gb ->
  exists g rule, gb = Encode g
    /\ decided HashToken fmtTime cert cas x (g_GrantID g) (g_UserID g) (g_DeviceID g) (g_ResourceID g) rule
    /\ fields_fit g /\ wire_time (g_IssuedAt g) /\ wire_time (g_ExpiresAt g)
    /\ g_IssuedAt g = TruncateSecond (dw_now (ex_draws x)) /\ g_ExpiresAt g <= dw_now (ex_draws x) + rule_ttl rule
    /\ sg_Signature g = ed_sign (i_key i) (canonical g).
Proof.
  intros (Hi & Hst & Hk & [ttl Hl] & Hru & Hc & Hc' & Hb). unfold handed_out.
  destruct (answer HashToken fmtTime cert cas x) as [[out d'] fl'] eqn:EA. cbn [fst]. pose proof EA as EA0.
  unfold answer, serve_connection in EA.
  destruct out as [[[[[| | | |gb0 gid ex pol sid]| | |] l]|]|]; try done. intros [= ->].
  destruct (ex_peer x) as [p|] eqn:Ep; [|done].
  destruct (tls_Server (control_TLS cert cas) p) as [st|] eqn:ET; [|done].
  unfold db_bind in EA. destruct (serve_request _ _ _ _ _ _ _ _) as [[[a|e] d1] fl1] eqn:ES; [|done].
  injection EA as -> -> ->. apply serve_request_grant in ES as (Hm & Hpa & HG).
  apply (handleGrant_inv _ _ _ _ _ _ _ _ _ _ _ _ _ _ _ _ _ i ttl) in HG
    as (leaf & user & q & g & rule & Ht & Hid & Hacc & Hlive & _ & Hrl & Hma & -> & -> & _ & (b & Eb & HS) & row & Hrow & _ & Hus & Hrv); [|done..].
  cbn in Ht. pose proof ET as (_ & _ & _ & _ & Hcs & _)%tls_finish_Ok. cbn in Hcs.
  apply control_listener_verifies in ET as (_ & [E0|(leaf' & inter & E1 & Hv & Hhk)]); [by rewrite E0 in Ht|].
  rewrite E1 in Ht. injection Ht as ->.
  destruct (rule_fits_matches rule user (gq_DeviceID q) (gq_ResourceID q)) as (F1 & F2 & F3); [by eapply Forall_forall in Hru|done|].
  rewrite Eb in Hb. cbn in Hb.
  pose proof (issue_ttl_range (grant_ttl (gq_TTLSeconds q)) (rule_ttl rule) (rule_ttl_range rule)) as (R1 & _).
  pose proof (rule_ttl_range rule) as R0.
  apply Sign_issued in HS as (G0 & G1 & G2 & G3 & G4 & G5 & G6 & G7 & G8); [|try done; lia..].
  exists g, rule. rewrite G1, G2, G3. split_and!; auto; [|lia]. split; eauto.
  - exists p, leaf, inter. split_and!; auto. congruence.
  - exists row. by rewrite EA0.
Qed.
End Answers.

(** ** Properties *)

Section Access.
Context `{X : X509} `{Ed : Ed25519} `{B : Base64} `{J : !RequestJSON} `{V : ChainVerify} {EL : Ed25519Laws Ed}.
Context (HashToken : string -> string) (fmtTime : time -> string) (cert : list Cert) (cas : Pool).

Lemma take_Encode g : length (sg_Signature g) = SignatureSize -> take (length (Encode g) - SignatureSize) (Encode g) = canonical g.
Proof. intros E. unfold Encode. by rewrite length_app, E, Nat.add_sub, take_app_length. Qed.

Lemma grant_wire_fits g : grant_wire_ok g -> fields_fit g /\ wire_time (g_IssuedAt g) /\ wire_time (g_ExpiresAt g).
Proof.
  unfold grant_wire_ok, grant_fields_ok, fields_fit, MaxIdentityLen. intros (_ & Hf & H1 & H2 & _). intuition lia.
Qed.

Lemma outcome_Server end_ expect peer certs proto :
  outcome_of tls_Server (Server_config end_ expect) peer = TlsPeer certs proto ->
  exists p, peer = Ok p /\ tp_Certs p = certs /\ (certs <> [] -> tp_HoldsKey p = true).
Proof.
  unfold outcome_of. destruct peer as [p|]; [|done]. destruct (tls_Server _ p) as [st|] eqn:E; [|done].
  intros [= <- <-]. apply tls_finish_Ok in E as (_ & _ & Hk & _ & Hc & _). cbn in Hc, Hk. exists p. by rewrite Hc.
Qed.

(** C1.  No access without a decision.  Whatever the relay does and whatever
    bytes it hands an agent, if the agent connects somebody to a local service,
    and no signature was forged, then the control plane handed out, in one of its
    exchanges, a grant for this very agent: an operator who proved to hold a
    current certificate of the authority asked for the resource in a live
    session, a rule of the policy names that operator, this device and that
    resource, and the grant was stored.  The address dialled is the one the
    agent's own allowlist has for that resource and is loopback; the far end of
    the stream proved, to the agent itself, to be the same operator; and all
    this is within the rule's lifetime, give or take the 30 seconds allowed to
    clocks (and the second a timestamp is rounded to). *)
Theorem no_access_without_decision i H end_ self resources payload clock peer dial join target dl :
  Forall (deployed i) H -> genuine HashToken fmtTime cert cas i H payload ->
  self_GrantKey self = ed_public (i_key i) -> id_ID (self_ID self) <> "" -> clock_ok (clock 0%nat) ->
  ADial target dl ∈ agent_serves end_ self resources payload clock peer dial join ->
  exists x gid user resource rule r p leaf inter,
    x ∈ H /\ decided HashToken fmtTime cert cas x gid user (id_ID (self_ID self)) resource rule
    /\ resources !! resource = Some r /\ target = rs_Target r /\ ValidateTarget target = Ok tt
    /\ peer = Ok p /\ tp_Certs p = leaf :: inter /\ tp_HoldsKey p = true
    /\ chain_Verify (en_CAPool end_) ExtKeyUsageClientAuth None leaf inter = true
    /\ IdentityOf leaf = Ok (mkIdentity RoleOperator user)
    /\ TruncateSecond (dw_now (ex_draws x)) - ClockSkewTolerance <= clock 0%nat
         <= dw_now (ex_draws x) + rule_ttl rule + ClockSkewTolerance.
Proof.
  intros HD HG Hkey Hdev Hcl Hd. unfold agent_serves in Hd.
  destruct (handleStream_dials _ _ _ _ _ _ _ _ _ _ Hd) as (g & r & Ha & ->).
  destruct Ha as (Hdec & Hver & Hres & Htgt & leaf & inter & Htls & Hch & Hid).
  apply Verify_Ok_iff in Hver as (_ & _ & Hsig & _ & Hwin & [?|Hgd]); [done| |done]. rewrite Hkey in Hsig.
  destruct (HG g Hdec Hsig) as (x & gb & Hx & Hho & Htk).
  eapply Forall_forall in HD as Hdx; [|exact Hx].
  destruct (handed_out_inv HashToken fmtTime cert cas i x gb Hdx Hho)
    as (g0 & rule & -> & Hdc & F0 & W1 & W2 & HI & HE & Hs0).
  rewrite take_Encode in Htk by (rewrite Hs0; apply ed_sign_length).
  apply DecodeGrant_inv in Hdec as (_ & (F & W3 & W4)%grant_wire_fits).
  destruct (canonical_inj g0 g) as (E0 & E1 & E2 & E3 & E4 & E5); [done..|].
  destruct (outcome_Server _ _ _ _ _ Htls) as (p & -> & Hcs & Hk).
  rewrite E1, E2, E3, Hgd in Hdc. exists x, (g_GrantID g0), (g_UserID g), (g_ResourceID g), rule, r, p, leaf, inter.
  split_and!; auto; [rewrite <- HI, E4|]; lia.
Qed.
(** *** A request that should be granted *)

Lemma RecordGrant_nofault g e now d :
  grants d !! gd_GrantID g = None -> e_Event e <> "" -> (gd_SessionID g <> "" -> is_Some (operator_sessions d !! gd_SessionID g)) ->
  exists d', RecordGrant g e now [] d = (Ok tt, d', []).
Proof.
  intros Hn He Hs. unfold RecordGrant. db_unfold. cbv zeta. cbn. rewrite Hn.
  case_bool_decide as Hb; [rewrite (bool_decide_eq_true_2 _) by by destruct (Hs Hb) as [? ->]|];
    cbv beta iota; rewrite (bool_decide_eq_false_2 (e_Event e = "")) by done; eauto.
Qed.

(** The issuer grants what the policy allows. *)
Lemma Issue_nofault i rules req b now nowA d :
  i_store i = true -> clock_ok now -> Allowed (Evaluate rules (rq_UserID req) (rq_DeviceID req) (rq_ResourceID req)) = true ->
  grants d !! ("grn_" +:+ hex_EncodeToString b) = None -> (rq_SessionID req <> "" -> is_Some (operator_sessions d !! rq_SessionID req)) ->
  exists g d', Issue i rules req (Some b) now nowA [] d
    = (Ok (Evaluate rules (rq_UserID req) (rq_DeviceID req) (rq_ResourceID req), Ok g), d', []).
Proof.
  intros Hst Hc Ha Hn Hs. unfold Issue, db_bind, db_ret, attempt. cbv zeta. rewrite Ha. cbn [negb newGrantID].
  destruct (proj1 (proj1 (Evaluate_allowed_iff _ _ _ _)) Ha) as ((_ & Hd & Hr) & _).
  destruct (Evaluate_Allowed _ _ _ _ Ha) as (rule & _ & _ & ->).
  pose proof (issue_ttl_range (rq_RequestedTTL req) (rule_ttl rule) (rule_ttl_range rule)) as (R1 & _).
  pose proof (rule_ttl_range rule) as R0. pose proof (clock_ok_truncate _ Hc) as Hct.
  rewrite Add_clock by (done || unfold MaxGrantTTL, Minute, Second, Millisecond in *; lia).
  match goal with |- context [Sign ?g ?k] => destruct (Sign_ok g k) as (s & HS & Hid) end;
    [done|cbn; lia|done..|]. rewrite HS, Hst.
  match goal with |- context [RecordGrant ?g ?e nowA [] d] => destruct (RecordGrant_nofault g e nowA d) as (d' & ->) end;
    [by cbn; rewrite Hid|done|done|]. eauto.
Qed.

(** A request an exchange should answer with a grant: an operator's, with an
    accepted certificate and a live session, that a rule allows. *)
Record entitled (i : Issuer) (x : exchange) (user : string) (q : grant_request) (rule : Rule) (leaf : Cert) (inter : list Cert)
    : Prop := {
  et_server : h_issuer (ex_server x) = Some i /\ i_store i = true /\ is_Some (h_login (ex_server x));
  et_tls : exists p, ex_peer x = Ok p /\ VersionTLS13 <= tp_Version p /\ tp_Certs p = leaf :: inter /\ tp_HoldsKey p = true;
  et_cert : chain_Verify cas ExtKeyUsageClientAuth None leaf inter = true
    /\ IdentityOf leaf = Ok (mkIdentity RoleOperator user)
    /\ acceptable (ex_db x) (mkIdentity RoleOperator user) (c_SerialHex leaf);
  et_request : hq_Method (ex_message x) = "POST" /\ hq_Path (ex_message x) = "/v1/grants"
    /\ json_grant (limited (ex_message x)) = Some q;
  et_session : exists sid row,
    let token := bearerToken (mkRequestHTTP (Some leaf) (hq_RemoteAddr (ex_message x)) (hq_Authorization (ex_message x))) in
    token <> "" /\ session_by_hash (HashToken token) (ex_db x) = Some (sid, row)
    /\ sr_user_id row = user /\ sr_revoked_at row = None /\ dw_now (ex_draws x) <= fromUnix (sr_expires_at row);
  et_rule : rule ∈ h_rules (ex_server x) /\ matches user (gq_DeviceID q) (gq_ResourceID q) rule
    /\ complete user (gq_DeviceID q) (gq_ResourceID q);
  et_nofault : ex_faults x = [];
  et_clock : clock_ok (dw_now (ex_draws x)) /\ clock_ok (dw_now (ex_draws x) + MaxGrantTTL);
  et_fresh : exists b, dw_rnd1 (ex_draws x) = Some b /\ zlen b = 16
    /\ grants (ex_db x) !! ("grn_" +:+ hex_EncodeToString b) = None
}.

Lemma session_by_hash_lookup h d sid row : session_by_hash h d = Some (sid, row) -> operator_sessions d !! sid = Some row.
Proof.
  intros [Hin _]%head_Some_elem_of%list_elem_of_In%List.filter_In. by apply list_elem_of_In, elem_of_map_to_list in Hin.
Qed.

Lemma requireSession_nofault r id now d sid row :
  bearerToken r <> "" -> session_by_hash (HashToken (bearerToken r)) d = Some (sid, row) ->
  sr_user_id row = id_ID id -> sr_revoked_at row = None -> now <= fromUnix (sr_expires_at row) ->
  requireSession HashToken r id now [] d = (Ok (inr (session_of_row sid row)), d, []).
Proof.
  intros Ht Hs Hu Hr He. unfold requireSession, Resolve, LookupSession. cbv zeta. rewrite !bool_decide_eq_false_2 by done.
  db_unfold. unfold attempt, next_fault. cbv beta iota. rewrite Hs. cbn. rewrite Hr. cbn. unfold After.
  replace (now >? fromUnix (sr_expires_at row)) with false by lia. cbn. by rewrite bool_decide_eq_true_2.
Qed.

Lemma authenticateOperator_nofault s r ev now d leaf user :
  hr_TLS r = Some leaf -> IdentityOf leaf = Ok (mkIdentity RoleOperator user) ->
  acceptable d (mkIdentity RoleOperator user) (c_SerialHex leaf) ->
  exists d', authenticateOperator s r ev now [] d = (Ok (inr (mkIdentity RoleOperator user)), d', [])
    /\ operator_sessions d' = operator_sessions d /\ grants d' = grants d.
Proof.
  intros Ht Hi Ha. destruct (VerifyEnrolled_nofault leaf d _ Hi Ha) as [d' HV].
  assert (authenticateOperator s r ev now [] d = (Ok (inr (mkIdentity RoleOperator user)), d', [])) as E.
  { unfold authenticateOperator. rewrite Ht. unfold db_bind, attempt. by rewrite HV. }
  exists d'. split; [done|]. by apply authenticateOperator_inr in E as (? & _ & _ & _ & _ & ? & ?).
Qed.

(** The connection is let in, with its certificate. *)
Lemma control_listener_accepts p leaf inter :
  VersionTLS13 <= tp_Version p -> tp_Certs p = leaf :: inter -> tp_HoldsKey p = true ->
  chain_Verify cas ExtKeyUsageClientAuth None leaf inter = true ->
  exists st, tls_Server (control_TLS cert cas) p = Ok st /\ head (cs_PeerCertificates st) = Some leaf.
Proof.
  intros Hv Hc Hk Hch. unfold tls_Server, tls_finish, client_certs_ok, verified. cbn [control_TLS t_ClientAuth t_MinVersion
    t_NextProtos t_VerifyConnection t_ClientCAs]. rewrite Hc, Hk. unfold MinTLSVersion.
  replace (tp_Version p <? VersionTLS13) with false by lia. unfold server_alpn. cbn [bool_decide orb negb]. rewrite Hch.
  destruct (tp_Protos p); cbn; eauto.
Qed.

(** The control plane answers with a grant for what was asked. *)
Lemma entitled_granted i x user q rule leaf inter :
  entitled i x user q rule leaf inter ->
  exists sid g d0 d' b, handed_out HashToken fmtTime cert cas x = Some (Encode g)
    /\ (answer HashToken fmtTime cert cas x).1.2 = d' /\ zlen b = 16
    /\ Issue i (h_rules (ex_server x)) (mkRequest "" user (gq_DeviceID q) (gq_ResourceID q) (grant_ttl (gq_TTLSeconds q)) 0 sid)
         (Some b) (dw_now (ex_draws x)) (dw_now (ex_draws x)) [] d0
       = (Ok (Evaluate (h_rules (ex_server x)) user (gq_DeviceID q) (gq_ResourceID q), Ok g), d', []).
Proof.
  intros [(Hi & Hst & [ttl Hl]) (p & Ep & Hv & Hc & Hk) (Hch & Hid & Hacc) (Hm & Hpa & Hj)
          (sid & row & Ht & Hsh & Hu & Hr & He) (Hru & Hma & Hco) Hnf (Hc1 & Hc2) (b & Hb & Hlen & Hn)].
  destruct (control_listener_accepts p leaf inter) as (st & ET & Hhd); [done..|].
  set (r := mkRequestHTTP (Some leaf) (hq_RemoteAddr (ex_message x)) (hq_Authorization (ex_message x))) in *.
  destruct (authenticateOperator_nofault (ex_server x) r EventGrantDenied (dw_now (ex_draws x)) (ex_db x) leaf user)
    as (d1 & EA & Hs1 & Hg1); [done..|].
  assert (session_by_hash (HashToken (bearerToken r)) d1 = Some (sid, row)) as Hsh1 by by unfold session_by_hash in *; rewrite Hs1.
  destruct (Issue_nofault i (h_rules (ex_server x)) (mkRequest "" user (gq_DeviceID q) (gq_ResourceID q)
    (grant_ttl (gq_TTLSeconds q)) 0 sid) b (dw_now (ex_draws x)) (dw_now (ex_draws x)) d1) as (g & d' & HI); [done|done| | | |].
  - cbn. apply Evaluate_allowed_iff. eauto.
  - by rewrite Hg1.
  - cbn. intros _. apply session_by_hash_lookup in Hsh1. eauto.
  - assert (exists gid ex pol, answer HashToken fmtTime cert cas x
              = (Ok (Some (HJson (RespGrant (Encode g) gid ex pol sid), [])), d', [])) as (gid & ex & pol & HA).
    { unfold answer, serve_connection. rewrite Ep, ET, Hhd, Hnf. unfold serve_request. cbv zeta. rewrite Hm, Hpa.
      change (serve_mux "POST" "/v1/grants") with (Handled RouteGrants). cbv iota. unfold handleGrant. rewrite Hi, Hl, Hj, Hb.
      fold r. unfold db_bind at 1 2 3. rewrite EA. unfold db_bind at 1. rewrite (requireSession_nofault _ _ _ _ sid row) by done.
      unfold issue_for, db_bind. cbn [session_of_row ss_SessionID id_ID]. rewrite HI. eauto. }
    exists sid, g, d1, d', b. unfold handed_out. by rewrite HA.
Qed.

(** *** A stream that should be served *)

Lemma handleStream_serves chain_ok self resources payload clock tls dial join g r :
  authorized chain_ok self resources payload (clock 0%nat) tls g r ->
  ADial (rs_Target r) (stream_deadline g r clock) ∈ handleStream chain_ok self resources payload clock tls dial join
  /\ (dial = Dialled ->
      AJoin (smallerLimit (g_MaxBytes g) (rs_MaxBytes r)) ∈ handleStream chain_ok self resources payload clock tls dial join).
Proof.
  intros (Hd & Hv & Hr & Ht & leaf & rest & -> & Hc & Hi). unfold handleStream.
  destruct payload as [|b payload]; [done|]. cbn [length Nat.eqb]. rewrite Hd, Hv.
  rewrite (proj2 (Lookup_Ok _ _ _) (conj Hr Ht)). cbv zeta.
  rewrite (proj2 (finish_Ok chain_ok _ _ (mkIdentity RoleOperator (g_UserID g)))) by eauto 10.
  split; [set_solver|]. intros ->. set_solver.
Qed.

Lemma outcome_Server_accepts end_ expect p leaf inter :
  VersionTLS13 <= tp_Version p -> ALPN ∈ tp_Protos p -> tp_Certs p = leaf :: inter -> tp_HoldsKey p = true ->
  outcome_of tls_Server (Server_config end_ expect) (Ok p) = TlsPeer (leaf :: inter) ALPN.
Proof.
  intros Hv Ha Hc Hk. unfold outcome_of, tls_Server, tls_finish, client_certs_ok.
  cbn [Server_config t_Certificate t_MinVersion t_NextProtos t_ClientAuth t_VerifyConnection].
  rewrite Hc, Hk, (proj2 (server_alpn_ALPN _) Ha). by replace (tp_Version p <? VersionTLS13) with false by lia.
Qed.

(** What a granted request was granted. *)
Lemma Issue_window i rules user dev res ttl sid b now nowA d g d' rule :
  i_store i = true -> clock_ok now -> clock_ok (now + MaxGrantTTL) -> 0 < ttl ->
  rule ∈ rules -> matches user dev res rule ->
  Issue i rules (mkRequest "" user dev res ttl 0 sid) (Some b) now nowA [] d = (Ok (Evaluate rules user dev res, Ok g), d', []) ->
  g_UserID g = user /\ g_DeviceID g = dev /\ g_ResourceID g = res /\ g_MaxBytes g = 0 /\ g_IssuedAt g = TruncateSecond now
  /\ TruncateSecond now + Z.min ttl (rule_ttl rule) - Second <= g_ExpiresAt g.
Proof.
  intros Hst Hc Hc' Httl Hr Hm HI. apply Issue_Ok_inv in HI as (_ & Ha & (b' & [= <-] & HS) & _); [|done]. cbn -[Sign] in Ha, HS.
  destruct (Evaluate_best_ttl _ _ _ _ Ha) as (R & _ & Hmax). specialize (Hmax rule Hr Hm).
  pose proof (issue_ttl_range ttl _ R) as (R1 & _ & R2). pose proof (clock_ok_truncate _ Hc) as Hct.
  rewrite Add_clock in HS by (done || unfold MaxGrantTTL, Minute, Second, Millisecond in *; lia).
  apply Sign_Ok_inv in HS as (-> & _). cbn. split_and!; try done; [apply TruncateSecond_idem|].
  pose proof (TruncateSecond_le (TruncateSecond now + issue_ttl ttl (d_MaxTTL (Evaluate rules user dev res)))).
  enough (Z.min ttl (rule_ttl rule) <= issue_ttl ttl (d_MaxTTL (Evaluate rules user dev res))) by lia.
  unfold issue_ttl. cases; lia.
Qed.

Lemma Issue_not_revoked i rules req rnd now nowA fl d dec g d' :
  i_store i = true -> forall fl', Issue i rules req rnd now nowA fl d = (Ok (dec, Ok g), d', fl') ->
  ~ is_revoked (g_GrantID g) d'.
Proof.
  intros Hst fl' HI (row & Hrow & Hn). apply Issue_Ok_inv in HI as (_ & _ & _ & _ & _ & ->); [|done].
  cbn in Hrow. rewrite lookup_insert_eq in Hrow. injection Hrow as <-. done.
Qed.

Lemma grant_ttl_pos n : 0 < grant_ttl n.
Proof. unfold grant_ttl. assert (0 < MaxGrantTTL) by done. cases; lia. Qed.

End Access.

(** ** Witnesses *)

#[local] Existing Instance toy_x509.
#[local] Existing Instance toy_ed.
#[local] Existing Instance toy_ed_laws.
#[local] Existing Instance toy_b64.
#[local] Existing Instance cs_json.
#[local] Existing Instance cs_chain.

Definition ee_exchange : exchange :=
  mkExchange _ ha_db ha_server (Ok cs_peer) cs_message (mkDraws None (Some cp_random) None cp_now) [].

Definition ee_self : Self := mkSelf (mkIdentity RoleDevice "dev1") (ed_public demo_key) "".
Definition ee_resource : Resource := mkResource "web" "web" "tcp" "127.0.0.1:8080" 100 (10 * Minute).
Definition ee_allow : Allowlist := {[ "web" := ee_resource ]}.
Definition ee_end : @end_identity cs_chain := mkEnd [] cs_pool.
Definition ee_clock (n : nat) : time := cp_now + 10 * Second + Z.of_nat n.
Definition ee_payload : list byte := default [] (handed_out demo_hash ha_fmt [] cs_pool ee_exchange).
Definition ee_far : tls_peer := mkPeer VersionTLS13 [ALPN] [ha_cert] true.
Definition ee_grant : SignedGrant := match DecodeGrant ee_payload with Ok g => g | Err _ => demo_signed end.

Definition ee_run : list action :=
  agent_serves ee_end ee_self ee_allow ee_payload ee_clock (Ok ee_far) Dialled ag_join.

Lemma Ok_inj {A} (a b : A) : @eq (res A) (Ok a) (Ok b) -> a = b.
Proof. by intros [= ->]. Qed.

(** Alice is let through to the panel, and the decision is found again. *)
Lemma no_access_without_decision_witness :
  exists gid rule, decided demo_hash ha_fmt [] cs_pool ee_exchange gid "alice" "dev1" "web" rule.
Proof.
  destruct (no_access_without_decision demo_hash ha_fmt [] cs_pool cp_issuer [ee_exchange] ee_end ee_self ee_allow ee_payload
    ee_clock (Ok ee_far) Dialled ag_join "127.0.0.1:8080" (stream_deadline ee_grant ee_resource ee_clock))
    as (x & gid & user & resource & rule & r & p & leaf & inter & Hx & Hd & Hr & _ & _ & Hp & Hc & _ & _ & Hi & _).
  - constructor; [|constructor]. unfold deployed. split_and!; try (vm_compute; congruence).
    + eexists. reflexivity.
    + repeat constructor.
    + vm_compute. intuition congruence.
    + vm_compute. intuition congruence.
  - intros g Hg _. exists ee_exchange, ee_payload. split; [left|]. split; [vm_compute; reflexivity|].
    assert (DecodeGrant ee_payload = Ok ee_grant) as E by (vm_compute; reflexivity).
    rewrite E in Hg. apply Ok_inj in Hg. subst g. vm_compute. reflexivity.
  - reflexivity.
  - discriminate.
  - vm_compute. intuition congruence.
  - assert (ee_run !! 1%nat = Some (ADial "127.0.0.1:8080" (stream_deadline ee_grant ee_resource ee_clock))) as E
      by (vm_compute; reflexivity).
    exact (list_elem_of_lookup_2 _ _ _ E).
  - apply list_elem_of_singleton in Hx as ->. injection Hp as <-. injection Hc as <- <-. vm_compute in Hi. injection Hi as <-.
    unfold ee_allow in Hr. apply lookup_singleton_Some in Hr as [<- _]. exists gid, rule. exact Hd.
Defined.

Lemma ee_entitled :
  entitled demo_hash cs_pool cp_issuer ee_exchange "alice" (mkGrantRequest "dev1" "web" 300)
    (mkRule "p1" ["alice"] ["dev1"] ["web"] (10 * Minute) EffectAllow) ha_cert [].
Proof.
  split.
  - split_and!; [reflexivity..|]. eexists. reflexivity.
  - eexists. split_and!; [reflexivity|vm_compute; congruence|reflexivity..].
  - split_and!; [reflexivity|vm_compute; reflexivity|]. eexists. split_and!; [vm_compute; reflexivity|reflexivity|]. left. vm_compute. reflexivity.
  - split_and!; reflexivity.
  - eexists "ses_1", _. split_and!; [vm_compute; congruence|vm_compute; reflexivity|vm_compute; congruence..].
  - split_and!; [left|repeat split; left|done..].
  - reflexivity.
  - vm_compute. intuition congruence.
  - exists cp_random. split_and!; vm_compute; reflexivity.
Qed.

