(* ===== verification/CommandLine.v ===== *)
(** * Command lines

    Windows hands a process one string and leaves splitting it to the program.
    [quoteArg] and [quoteAlways] of [src/internal/winsvc/manager_windows.go]
    build that string; Go's runtime splits it ([commandLineToArgv],
    [readNextArg] in package os), and package flag reads the options from the
    pieces.  All three are here, with the arguments that survive the trip. *)

From S2P Require Import Prelude GoErrors.

(** ** Building: quoteArg and quoteAlways *)

Definition blank (c : byte) : bool := Byte.eqb c x20 || Byte.eqb c x09.

(** [strings.ContainsAny] of a blank, a tab or a quote. *)
Definition needs_quotes (s : list byte) : bool := existsb (fun c => blank c || Byte.eqb c x22) s.

(** The loop over the bytes, and the closing quote. *)
Fixpoint quote_body (s : list byte) : list byte :=
  match s with
  | [] => [x22]
  | c :: s' =>
      (if Byte.eqb c x22 then [x5c; x22]
       else if Byte.eqb c x5c then (match s' with [] => [x5c; x5c] | _ => [x5c] end)
       else [c]) ++ quote_body s'
  end.

Definition quoteArg (s : list byte) : list byte :=
  match s with
  | [] => [x22; x22]
  | _ => if negb (needs_quotes s) then s else x22 :: quote_body s
  end.

Definition quoteAlways (s : list byte) : list byte :=
  match s with
  | [] => [x22; x22]
  | _ => if needs_quotes s then quoteArg s else [x22] ++ s ++ [x22]
  end.

(** The command line [install] registers. *)
Definition service_cmdline (exe : list byte) (args : list (list byte)) : list byte :=
  foldl (fun cmdline a => cmdline ++ [x20] ++ quoteArg a) (quoteAlways exe) args.

(** ** Splitting: package os on Windows *)

(** [readNextArg]: the next argument and what follows it. *)
Fixpoint readNextArg (cmd : list byte) (inquote : bool) (nslash : nat) (b : list byte) : list byte * list byte :=
  match cmd with
  | [] => (b ++ repeat x5c nslash, [])
  | c :: cmd' =>
      if Byte.eqb c x22 then
        let b' := b ++ repeat x5c (nslash / 2) in
        if Nat.even nslash then
          match cmd' with
          | c' :: cmd'' =>
              if inquote && Byte.eqb c' x22 then readNextArg cmd'' (negb inquote) 0 (b' ++ [x22])
              else readNextArg cmd' (negb inquote) 0 b'
          | [] => readNextArg cmd' (negb inquote) 0 b'
          end
        else readNextArg cmd' inquote 0 (b' ++ [x22])
      else if Byte.eqb c x5c then readNextArg cmd' inquote (S nslash) b
      else if blank c && negb inquote then (b ++ repeat x5c nslash, cmd')
      else readNextArg cmd' inquote 0 (b ++ repeat x5c nslash ++ [c])
  end.

(** One round per byte is more than enough: every round consumes one. *)
Fixpoint split_args (fuel : nat) (cmd : list byte) : list (list byte) :=
  match fuel, cmd with
  | O, _ | _, [] => []
  | S fuel, c :: cmd' =>
      if blank c then split_args fuel cmd'
      else let '(arg, rest) := readNextArg cmd false 0 [] in arg :: split_args fuel rest
  end.

Definition commandLineToArgv (cmd : list byte) : list (list byte) := split_args (length cmd) cmd.

(** ** Arguments that survive

    Inside quotes a run of backslashes is halved when a quote follows, so
    [quoteArg] is right for arguments without a backslash before a quote and
    with at most one backslash at the end. *)

(** [n] backslashes precede. *)
Fixpoint quotable_from (n : nat) (s : list byte) : bool :=
  match s with
  | [] => Nat.eqb n 0
  | c :: s' =>
      if Byte.eqb c x22 then Nat.eqb n 0 && quotable_from 0 s'
      else if Byte.eqb c x5c then
        match s' with [] => Nat.eqb n 0 | _ => quotable_from (S n) s' end
      else quotable_from 0 s'
  end.

Definition quotable (s : list byte) : bool := negb (needs_quotes s) || quotable_from 0 s.

(** For the executable: quoted as it is when nothing forces escaping. *)
Definition exe_quotable (s : list byte) : bool :=
  if needs_quotes s then quotable_from 0 s else negb (bool_decide (last s = Some x5c)).

(** What follows an argument: nothing, or a blank. *)
Definition ends_arg (rest : list byte) : Prop :=
  match rest with [] => True | c :: _ => blank c = true end.

Lemma byte_eqb_eq (a b : byte) : Byte.eqb a b = true <-> a = b.
Proof. split; [apply Byte.byte_dec_bl | apply Byte.byte_dec_lb]. Qed.

Lemma byte_eqb_refl a : Byte.eqb a a = true.
Proof. by apply byte_eqb_eq. Qed.

(** Case analysis on a byte equality test, with the byte replaced when equal. *)
Ltac byte_case c v :=
  let E := fresh "E" in
  destruct (Byte.eqb c v) eqn:E; [apply byte_eqb_eq in E; subst c|].

Lemma blank_plain c : blank c = true -> Byte.eqb c x22 = false /\ Byte.eqb c x5c = false.
Proof.
  unfold blank. intros H. apply orb_true_iff in H. destruct H as [H|H]; apply byte_eqb_eq in H; by subst c.
Qed.

Lemma repeat_snoc {A} (a : A) n l : repeat a (S n) ++ l = repeat a n ++ a :: l.
Proof. induction n as [|n IH]; [done|]. cbn [repeat app]. f_equal. exact IH. Qed.

(** At the end of an argument. *)
Lemma readNextArg_end rest n b :
  ends_arg rest -> readNextArg rest false n b = (b ++ repeat x5c n, tail rest).
Proof.
  destruct rest as [|c rest]; [done|]. cbn [ends_arg readNextArg tail]. intros H.
  destruct (blank_plain c H) as [-> ->]. by rewrite H.
Qed.

(** At its closing quote. *)
Lemma readNextArg_close rest n b :
  ends_arg rest -> Nat.even n = true ->
  readNextArg (x22 :: rest) true n b = (b ++ repeat x5c (n / 2), tail rest).
Proof.
  intros Hrest Hn. cbn [readNextArg]. rewrite byte_eqb_refl, Hn.
  assert (readNextArg rest false 0 (b ++ repeat x5c (n / 2)) = (b ++ repeat x5c (n / 2), tail rest)) as HE
    by (rewrite readNextArg_end by done; by rewrite app_nil_r).
  destruct rest as [|c rest]; [exact HE|]. destruct (blank_plain c Hrest) as [-> _]. exact HE.
Qed.

(** Reading back a quoted argument, from inside the quotes. *)
Lemma readNextArg_quoted s n b rest :
  quotable_from n s = true -> ends_arg rest ->
  readNextArg (quote_body s ++ rest) true n b = (b ++ repeat x5c n ++ s, tail rest).
Proof.
  revert n b. induction s as [|c s IH]; intros n b Hq Hrest; cbn [quotable_from quote_body] in *.
  - apply Nat.eqb_eq in Hq as ->. by apply readNextArg_close.
  - byte_case c x22; [|byte_case c x5c].
    + apply andb_true_iff in Hq as [Hn Hq]. apply Nat.eqb_eq in Hn as ->.
      cbn. rewrite IH by done. cbn. by rewrite <- !app_assoc.
    + destruct s as [|c' s].
      * apply Nat.eqb_eq in Hq as ->. by apply (readNextArg_close rest 2).
      * change (readNextArg (x5c :: quote_body (c' :: s) ++ rest) true n b = (b ++ repeat x5c n ++ x5c :: c' :: s, tail rest)).
        cbn [readNextArg]. replace (Byte.eqb x5c x22) with false by done. rewrite byte_eqb_refl.
        rewrite IH by done. by rewrite repeat_snoc.
    + cbn [app readNextArg]. rewrite E, E0, andb_false_r. rewrite IH by done. cbn. by rewrite <- !app_assoc.
Qed.

(** Reading back an argument without blanks and quotes: backslashes stand for
    themselves, quoted or not, as long as no quote follows them. *)
Lemma readNextArg_plain s q n b tl :
  needs_quotes s = false -> (q = true -> last s = Some x5c -> False) ->
  (s = [] -> n = 0%nat) ->
  exists m pre, repeat x5c n ++ s = pre ++ repeat x5c m /\ (q = true -> m = 0%nat) /\
    readNextArg (s ++ tl) q n b = readNextArg tl q m (b ++ pre).
Proof.
  revert n b. induction s as [|c s IH]; intros n b Hs Hq Hn.
  - exists 0%nat, []. by rewrite (Hn eq_refl), !app_nil_r.
  - cbn [needs_quotes existsb] in Hs. apply orb_false_iff in Hs as [Hc Hs].
    apply orb_false_iff in Hc as [Hb H22]. cbn [app readNextArg]. rewrite H22.
    byte_case c x5c.
    + destruct s as [|c' s].
      * exists (S n), []. rewrite app_nil_r. split; [by rewrite <- (app_nil_r (repeat _ (S n))), repeat_snoc|].
        split; [intros ->; by destruct Hq | done].
      * destruct (IH (S n) b Hs) as (m & pre & E & Hm & ->); [exact Hq | done|].
        exists m, pre. by rewrite <- repeat_snoc.
    + rewrite Hb. cbn [andb].
      destruct s as [|c' s].
      * exists 0%nat, (repeat x5c n ++ [c]). cbn [repeat]. by rewrite app_nil_r.
      * destruct (IH 0%nat (b ++ repeat x5c n ++ [c]) Hs) as (m & pre & E' & Hm & ->); [exact Hq | done|].
        exists m, (repeat x5c n ++ c :: pre). rewrite <- !app_assoc. cbn [repeat app] in *.
        by rewrite E'.
Qed.

Lemma readNextArg_open cmd : readNextArg (x22 :: cmd) false 0 [] = readNextArg cmd true 0 [].
Proof. by destruct cmd. Qed.

Lemma quoteArg_read s tl :
  quotable s = true -> ends_arg tl -> readNextArg (quoteArg s ++ tl) false 0 [] = (s, tail tl).
Proof.
  intros Hs Htl. unfold quotable in Hs. destruct s as [|c s].
  { cbn [quoteArg app]. by rewrite readNextArg_open, readNextArg_close. }
  cbn [quoteArg]. destruct (needs_quotes (c :: s)) eqn:Hn; cbn [negb orb] in *.
  - rewrite <- app_comm_cons, readNextArg_open. by rewrite readNextArg_quoted.
  - destruct (readNextArg_plain (c :: s) false 0 [] tl Hn) as (m & pre & E & _ & ->); [done..|].
    rewrite readNextArg_end by done. cbn [repeat app] in *. by rewrite <- E.
Qed.

Lemma quoteAlways_read s tl :
  exe_quotable s = true -> ends_arg tl -> readNextArg (quoteAlways s ++ tl) false 0 [] = (s, tail tl).
Proof.
  unfold exe_quotable. intros Hs Htl. destruct s as [|c s].
  { by apply (quoteArg_read []). }
  cbn [quoteAlways]. destruct (needs_quotes (c :: s)) eqn:Hn.
  - apply quoteArg_read; [|done]. unfold quotable. by rewrite Hn.
  - apply negb_true_iff, bool_decide_eq_false in Hs.
    rewrite <- !app_assoc, <- app_comm_cons, app_nil_l, readNextArg_open.
    destruct (readNextArg_plain (c :: s) true 0 [] ([x22] ++ tl) Hn) as (m & pre & E & Hm & ->); [done..|].
    rewrite (Hm eq_refl) in *. cbn [repeat app] in *. rewrite app_nil_r in E. subst pre.
    by rewrite readNextArg_close, app_nil_r.
Qed.

(** Splitting consumes its input. *)
Lemma readNextArg_shorter cmd q n b : (length (readNextArg cmd q n b).2 <= length cmd)%nat.
Proof.
  remember (length cmd) as k eqn:Hk. assert (length cmd <= k)%nat as H by lia. clear Hk.
  revert cmd q n b H. induction k as [|k IH]; intros [|c cmd] q n b H; cbn [length] in H; try (cbn; lia).
  assert (forall cmd' q' n' b', (length cmd' <= length cmd)%nat -> (length (readNextArg cmd' q' n' b').2 <= S k)%nat) as Hr
    by (intros; etrans; [apply IH; lia | lia]).
  cbn [readNextArg]. repeat case_match; subst; first [apply Hr; cbn; lia | cbn; lia].
Qed.

Lemma readNextArg_consumes c cmd : (length (readNextArg (c :: cmd) false 0 []).2 <= length cmd)%nat.
Proof.
  cbn [readNextArg]. repeat case_match; subst; cbn [length];
    first [apply readNextArg_shorter | etrans; [apply readNextArg_shorter | cbn; lia] | cbn; lia].
Qed.

Lemma split_args_fuel k j cmd :
  (length cmd <= k)%nat -> (length cmd <= j)%nat -> split_args k cmd = split_args j cmd.
Proof.
  revert j cmd. induction k as [|k IH]; intros [|j] [|c cmd] Hk Hj; cbn [length] in *; try lia; try done.
  cbn [split_args]. destruct (blank c); [apply IH; lia|].
  pose proof (readNextArg_consumes c cmd) as Hc. destruct (readNextArg (c :: cmd) false 0 []) as [arg rest].
  cbn in Hc. f_equal. apply IH; lia.
Qed.

Lemma commandLineToArgv_blank c cmd : blank c = true -> commandLineToArgv (c :: cmd) = commandLineToArgv cmd.
Proof. unfold commandLineToArgv. cbn. by intros ->. Qed.

Lemma commandLineToArgv_arg c cmd arg rest :
  blank c = false -> readNextArg (c :: cmd) false 0 [] = (arg, rest) ->
  commandLineToArgv (c :: cmd) = arg :: commandLineToArgv rest.
Proof.
  intros Hb E. unfold commandLineToArgv. cbn [length split_args]. rewrite Hb, E. f_equal.
  apply split_args_fuel; [|done]. pose proof (readNextArg_consumes c cmd) as H. by rewrite E in H.
Qed.

Lemma service_cmdline_app exe args :
  service_cmdline exe args = quoteAlways exe ++ concat ((fun a => x20 :: quoteArg a) <$> args).
Proof.
  unfold service_cmdline. generalize (quoteAlways exe). induction args as [|a args IH]; intros l.
  - by rewrite app_nil_r.
  - cbn [foldl]. rewrite IH, <- app_assoc. done.
Qed.

Lemma args_ends args : ends_arg (concat ((fun a => x20 :: quoteArg a) <$> args)).
Proof. by destruct args. Qed.

(** A quoted argument starts with a byte that is not a blank. *)
Lemma quoteArg_head a : exists c s, quoteArg a = c :: s /\ blank c = false.
Proof.
  destruct a as [|c a]; [by exists x22, [x22]|]. cbn [quoteArg].
  destruct (needs_quotes (c :: a)) eqn:H; cbn [negb]; [by exists x22, (quote_body (c :: a))|].
  exists c, a. split; [done|]. cbn in H. apply orb_false_iff in H as [H _]. by apply orb_false_iff in H as [H _].
Qed.

Lemma quoteAlways_head a : exists s, quoteAlways a = x22 :: s.
Proof.
  destruct a as [|c a]; [by eexists|]. cbn [quoteAlways]. destruct (needs_quotes (c :: a)) eqn:H; [|by eexists].
  unfold quoteArg. rewrite H. cbn [negb]. by eexists.
Qed.

Lemma split_quoted args :
  Forall (fun a => quotable a = true) args ->
  commandLineToArgv (concat ((fun a => x20 :: quoteArg a) <$> args)) = args.
Proof.
  induction 1 as [|a args Ha Hargs IH]; [done|]. cbn [fmap list_fmap concat].
  rewrite <- app_comm_cons, commandLineToArgv_blank by done.
  destruct (quoteArg_head a) as (c & s & E & Hc). pose proof (quoteArg_read a _ Ha (args_ends args)) as Hr.
  rewrite E in *. rewrite <- app_comm_cons in *. rewrite (commandLineToArgv_arg _ _ _ _ Hc Hr). f_equal.
  destruct args as [|a' args]; [done|]. cbn [fmap list_fmap concat tail] in *.
  rewrite <- app_comm_cons, commandLineToArgv_blank in IH by done. exact IH.
Qed.

(** What the service manager is given comes back as it was, byte for byte. *)
Lemma service_cmdline_split exe args :
  exe_quotable exe = true -> Forall (fun a => quotable a = true) args ->
  commandLineToArgv (service_cmdline exe args) = exe :: args.
Proof.
  intros He Ha. rewrite service_cmdline_app. destruct (quoteAlways_head exe) as (s & E).
  pose proof (quoteAlways_read exe _ He (args_ends args)) as Hr. rewrite E in *. rewrite <- app_comm_cons in *.
  rewrite (commandLineToArgv_arg x22 _ _ _ eq_refl Hr). f_equal.
  rewrite <- (split_quoted args Ha) at 2. destruct args as [|a args]; [done|].
  cbn [fmap list_fmap concat tail]. by rewrite <- app_comm_cons, commandLineToArgv_blank.
Qed.

(** The quoting is incomplete: two backslashes at the end of an argument with a
    blank make it swallow the arguments that follow, and so does a backslash
    before a quote; an executable path that ends in a backslash loses its
    closing quote. *)
Lemma quoting_incomplete :
  let argv exe args := string_of_bytes <$> commandLineToArgv (service_cmdline (bytes_of_string exe) (bytes_of_string <$> args)) in
  let bs2 := string_of_bytes [x5c; x5c] in
  let bsq := string_of_bytes [x61; x5c; x22; x62] in
  argv "a.exe" ["x y" +:+ bs2; "run"] = ["a.exe"; "x y" +:+ string_of_bytes [x5c; x22] +:+ " run"]
  /\ argv "a.exe" [bsq +:+ " c"; "run"] = ["a.exe"; string_of_bytes [x61; x5c; x62]; "c run"]
  /\ argv (string_of_bytes [x61; x5c]) ["run"] = [string_of_bytes [x61; x22; x20; x72; x75; x6e]].
Proof. vm_compute. repeat split; reflexivity. Qed.

(** ** Options: package flag

    [FlagSet.Parse] with [ExitOnError], for options that take a value (all of
    those of [sar-agent run] do).  [None] is the process exiting with the usage
    text. *)

(** [name=value]: the first [=] after the first byte. *)
Fixpoint cut_value (name : list byte) : list byte * option (list byte) :=
  match name with
  | [] => ([], None)
  | c :: name' =>
      if Byte.eqb c x3d then ([], Some name')
      else let '(n, v) := cut_value name' in (c :: n, v)
  end.

(** The name of an option and its attached value; [inl] when the argument ends
    the options, with whether it is consumed. *)
Inductive flag_word :=
| NotAFlag (consumed : bool)
| BadFlag
| Flag (name : string) (value : option string).

Definition flag_word_of (s : string) : flag_word :=
  match bytes_of_string s with
  | c0 :: c1 :: r =>
      if negb (Byte.eqb c0 x2d) then NotAFlag false
      else
        match (if Byte.eqb c1 x2d then r else c1 :: r) with
        | [] => NotAFlag true                                  (* -- *)
        | c :: name =>
            if Byte.eqb c x2d || Byte.eqb c x3d then BadFlag
            else let '(n, v) := cut_value name in
                 Flag (string_of_bytes (c :: n)) (string_of_bytes <$> v)
        end
  | _ => NotAFlag false
  end.

Fixpoint flag_parse (formal : list string) (args : list string) (set : gmap string string) : option (gmap string string) :=
  match args with
  | [] => Some set
  | s :: args' =>
      match flag_word_of s with
      | NotAFlag _ => Some set
      | BadFlag => None
      | Flag name value =>
          if negb (bool_decide (name ∈ formal)) then None
          else
            match value, args' with
            | Some v, _ => flag_parse formal args' (<[name := v]> set)
            | None, v :: args'' => flag_parse formal args'' (<[name := v]> set)
            | None, [] => None
            end
      end
  end.

(** Options as a program writes them: [-name value]. *)
Definition flag_args (options : list (string * string)) : list string :=
  concat ((fun '(n, v) => ["-" +:+ n; v]) <$> options).

Lemma flag_parse_args formal options set :
  Forall (fun o => o.1 ∈ formal /\ flag_word_of ("-" +:+ o.1) = Flag o.1 None) options ->
  flag_parse formal (flag_args options) set = Some (foldl (fun m o => <[o.1 := o.2]> m) set options).
Proof.
  intros H. revert set. induction H as [|[n v] options [Hn Hw] Hrest IH]; intros set; [done|].
  change (flag_args ((n, v) :: options)) with (("-" +:+ n) :: v :: flag_args options).
  cbn [flag_parse foldl fst snd] in *. rewrite Hw. rewrite bool_decide_true by done. cbn [negb]. apply IH.
Qed.
