(* ===== verification/WinSvc.v ===== *)
(** * The Windows service

    [src/internal/winsvc]: the callbacks that answer the service control manager
    ([winsvc_windows.go]) and the calls that register, start, stop and remove a
    service ([manager_windows.go]).  The callbacks run on different threads and
    share [serviceState]; one action is one critical section or one call of the
    service API.  The service control manager itself is outside: what its
    functions return is an argument. *)

From S2P Require Import Prelude GoErrors GoTime Proc CommandLine.
Open Scope proc_scope.

Definition svcStopped : Z := 1.
Definition svcStartPending : Z := 2.
Definition svcStopPending : Z := 3.
Definition svcRunning : Z := 4.

Definition acceptStop : Z := 1.
Definition acceptShutdown : Z := 4.

Definition controlStop : Z := 1.
Definition controlInterrogate : Z := 4.
Definition controlShutdown : Z := 5.
Definition controlPreShutdown : Z := 15.

Definition serviceWin32OwnProcess : Z := 16.

(** [syscall.UTF16PtrFromString] refuses a string with a NUL byte. *)
Definition utf16_ok (s : string) : bool := negb (existsb (Byte.eqb x00) (bytes_of_string s)).

(** ** The callbacks *)

Record serviceStatus := mkServiceStatus {
  st_ServiceType : Z;
  st_CurrentState : Z;
  st_ControlsAccepted : Z;
  st_Win32ExitCode : Z;
  st_ServiceSpecificExitCode : Z;
  st_CheckPoint : Z;
  st_WaitHint : Z
}.

(** [serviceState] with the result of the dispatcher probe, and what the service
    control manager was told, oldest first. *)
Record serviceState := mkServiceState {
  sv_name : string;
  sv_cancel : bool;               (* cancel is set *)
  sv_cancelled : bool;            (* it was called *)
  sv_statusH : Z;
  sv_checkNext : Z;               (* uint32 *)
  sv_done : bool;                 (* done is closed *)
  sv_runErr : option error;
  sv_isService : Z;               (* 0 unknown, 1 yes, 2 no *)
  sv_reports : list serviceStatus
}.

Definition svc_init : serviceState := mkServiceState "" false false 0 0 false None 0 [].

Definition begin (name : string) (s : serviceState) : serviceState :=
  mkServiceState name (sv_cancel s) (sv_cancelled s) (sv_statusH s) (sv_checkNext s) false (sv_runErr s)
    (sv_isService s) (sv_reports s).

Definition set_handle (h : Z) (s : serviceState) : serviceState :=
  mkServiceState (sv_name s) true false h (sv_checkNext s) (sv_done s) (sv_runErr s) (sv_isService s) (sv_reports s).

Definition set_check (n : Z) (s : serviceState) : serviceState :=
  mkServiceState (sv_name s) (sv_cancel s) (sv_cancelled s) (sv_statusH s) n (sv_done s) (sv_runErr s)
    (sv_isService s) (sv_reports s).

Definition set_cancelled (s : serviceState) : serviceState :=
  mkServiceState (sv_name s) (sv_cancel s) true (sv_statusH s) (sv_checkNext s) (sv_done s) (sv_runErr s)
    (sv_isService s) (sv_reports s).

Definition set_runErr (e : option error) (s : serviceState) : serviceState :=
  mkServiceState (sv_name s) (sv_cancel s) (sv_cancelled s) (sv_statusH s) (sv_checkNext s) (sv_done s) e
    (sv_isService s) (sv_reports s).

Definition close_done (s : serviceState) : serviceState :=
  mkServiceState (sv_name s) (sv_cancel s) (sv_cancelled s) (sv_statusH s) (sv_checkNext s) true (sv_runErr s)
    (sv_isService s) (sv_reports s).

Definition set_isService (n : Z) (s : serviceState) : serviceState :=
  mkServiceState (sv_name s) (sv_cancel s) (sv_cancelled s) (sv_statusH s) (sv_checkNext s) (sv_done s) (sv_runErr s)
    n (sv_reports s).

Definition SetServiceStatus (st : serviceStatus) (s : serviceState) : serviceState :=
  mkServiceState (sv_name s) (sv_cancel s) (sv_cancelled s) (sv_statusH s) (sv_checkNext s) (sv_done s) (sv_runErr s)
    (sv_isService s) (sv_reports s ++ [st]).

Definition isService (s : serviceState) : bool := sv_isService s =? 1.

Definition svcM := proc serviceState.

Definition next_check (state : Z) (s : serviceState) : Z :=
  if (state =? svcStartPending) || (state =? svcStopPending) then uwrap 32 (sv_checkNext s + 1) else 0.

Definition reportStatusExit (state accepted waitHintMS exitCode : Z) : svcM unit :=
  do x <- act (fun s => let n := next_check state s in ((sv_statusH s, n), set_check n s));
  if x.1 =? 0 then Ret tt
  else
    modify (SetServiceStatus
      (mkServiceStatus serviceWin32OwnProcess state (if state =? svcRunning then accepted else 0)
         exitCode 0 x.2 waitHintMS)).

Definition reportStatus (state accepted waitHintMS : Z) : svcM unit := reportStatusExit state accepted waitHintMS 0.

(** What the service's own function returns, and whether it returns before its
    context is cancelled. *)
Record service_fn := mkServiceFn { fn_result : option error; fn_alone : bool }.

(** A cancelled context is the normal way to stop. *)
Definition failure (err : option error) : option error :=
  match err with
  | Some e => if errors_Is e CtxCanceled then None else Some e
  | None => None
  end.

(** [h]: what RegisterServiceCtrlHandlerEx returned. *)
Definition serviceMain (h : Z) (fn : service_fn) : svcM unit :=
  do name <- gets sv_name;
  if negb (utf16_ok name) then Ret tt
  else if h =? 0 then Ret tt
  else
    do _ <- modify (set_handle h);
    do _ <- reportStatus svcStartPending 0 10000;
    do _ <- reportStatus svcRunning (Z.lor acceptStop acceptShutdown) 0;
    do err <- await (fun s => if fn_alone fn || sv_cancelled s then Some (fn_result fn, s) else None);
    do _ <- modify (fun s => match failure err with Some e => set_runErr (Some e) s | None => s end);
    do runErr <- gets sv_runErr;
    do _ <- reportStatusExit svcStopped 0 0 (match runErr with Some _ => 1 | None => 0 end);
    do _ <- modify set_cancelled;
    modify close_done.

(** The return value is the handler's Win32 result. *)
Definition serviceHandler (control : Z) : svcM Z :=
  if (control =? controlStop) || (control =? controlShutdown) || (control =? controlPreShutdown) then
    do _ <- reportStatus svcStopPending 0 15000;
    do cancel <- gets sv_cancel;
    do _ <- (if cancel : bool then modify set_cancelled else Ret tt);
    Ret 0
  else if control =? controlInterrogate then
    do h <- gets sv_statusH;
    do _ <- (if h =? 0 then Ret tt else reportStatus svcRunning (Z.lor acceptStop acceptShutdown) 0);
    Ret 0
  else Ret 1.

(** The manager sends one control at a time. *)
Fixpoint handle_controls (controls : list Z) : svcM unit :=
  match controls with
  | [] => Ret tt
  | c :: controls' => do _ <- serviceHandler c; handle_controls controls'
  end.

(** [StartServiceCtrlDispatcher]: it fails with an error code, or it has the
    callbacks called and returns when the service has stopped. *)
Inductive dispatcher :=
| DispatcherFails (errno : Z)
| DispatcherReturns.

Definition errFailedServiceControllerConnect : Z := 1063.

(** [run] from the dispatcher call on; [console] is what the function returns
    when it is run directly. *)
Definition dispatch (d : dispatcher) (console : option error) : svcM (option error) :=
  match d with
  | DispatcherFails errno =>
      if errno =? errFailedServiceControllerConnect then
        do _ <- modify (set_isService 2);
        Ret console
      else Ret (Some (EWrap "winsvc: StartServiceCtrlDispatcher" (EMsg "errno")))
  | DispatcherReturns =>
      do _ <- modify (set_isService 1);
      do _ <- await (fun s => if sv_done s then Some (tt, s) else None);
      gets sv_runErr
  end.

Definition svc_run (name : string) (d : dispatcher) (console : option error) : svcM (option error) :=
  do _ <- modify (begin name);
  if negb (utf16_ok name) then Ret (Some (EWrap "winsvc: service name" (EMsg "EINVAL")))
  else dispatch d console.

(** ** What the service control manager is told *)

Definition exit_code (fn : service_fn) : Z := match failure (fn_result fn) with Some _ => 1 | None => 0 end.

(** Controls are offered only while running, and only pending reports carry a
    check point. *)
Definition report_ok (st : serviceStatus) : Prop :=
  (st_ControlsAccepted st <> 0 -> st_CurrentState st = svcRunning)
  /\ (st_CheckPoint st <> 0 -> st_CurrentState st = svcStartPending \/ st_CurrentState st = svcStopPending).

(** The exit codes of the STOPPED reports. *)
Definition stopped_codes (s : serviceState) : list Z :=
  st_Win32ExitCode <$> filter (fun st => st_CurrentState st = svcStopped) (sv_reports s).

Section Service.
Context (h : Z) (fn : service_fn).

Record telling (s : serviceState) : Prop := {
  tell_ok : Forall report_ok (sv_reports s);
  tell_once : stopped_codes s = [] \/ stopped_codes s = [exit_code fn];
  tell_done : sv_done s = true -> stopped_codes s = [exit_code fn] /\ sv_runErr s = failure (fn_result fn)
}.

(** What the handler leaves alone. *)
Definition aside (s s' : serviceState) : Prop :=
  sv_runErr s' = sv_runErr s /\ stopped_codes s' = stopped_codes s /\ sv_done s' = sv_done s
  /\ sv_statusH s' = sv_statusH s /\ sv_name s' = sv_name s.

#[global] Instance aside_preorder : PreOrder aside.
Proof. unfold aside. split; [done|]. intros a b c (-> & -> & -> & -> & ->) (-> & -> & -> & -> & ->). done. Qed.

#[global] Instance any_preorder : PreOrder (fun _ _ : serviceState => True).
Proof. by split. Qed.

(** Where [serviceMain] is, whatever the handler does meanwhile. *)
Definition phase (e : option error) (codes : list Z) (s : serviceState) : Prop :=
  sv_runErr s = e /\ stopped_codes s = codes /\ sv_done s = false /\ sv_statusH s = h.

Lemma phase_aside e codes s s' : phase e codes s -> aside s s' -> phase e codes s'.
Proof. unfold phase, aside. intros (<- & <- & <- & <-) (-> & -> & -> & -> & _). done. Qed.

Abbreviation main_at Q p s := (guarded telling aside (fun _ _ => True) Q p s).
Abbreviation handler_at Q p s := (guarded telling (fun _ _ => True) aside Q p s).

(** One report, before it is sent and after. *)
Definition report (state accepted hint code check : Z) : serviceStatus :=
  mkServiceStatus serviceWin32OwnProcess state (if state =? svcRunning then accepted else 0) code 0 check hint.

Lemma report_is_ok state accepted hint code s : report_ok (report state accepted hint code (next_check state s)).
Proof.
  unfold report_ok, report, next_check. cbn [st_ControlsAccepted st_CurrentState st_CheckPoint].
  destruct (Z.eqb_spec state svcRunning), (Z.eqb_spec state svcStartPending), (Z.eqb_spec state svcStopPending); cbn [orb];
    split; intros; tauto.
Qed.

Lemma stopped_codes_report st s :
  stopped_codes (SetServiceStatus st s)
  = stopped_codes s ++ (if st_CurrentState st =? svcStopped then [st_Win32ExitCode st] else []).
Proof.
  unfold stopped_codes. cbn [sv_reports SetServiceStatus]. rewrite filter_app, fmap_app. f_equal.
  destruct (Z.eqb_spec (st_CurrentState st) svcStopped) as [E|E].
  - by rewrite filter_cons_True.
  - by rewrite filter_cons_False.
Qed.

Lemma telling_set_check n s : telling s -> telling (set_check n s).
Proof. intros [H1 H2 H3]. by split. Qed.

Lemma telling_report state accepted hint code s0 s :
  telling s -> (state =? svcStopped) = false ->
  telling (SetServiceStatus (report state accepted hint code (next_check state s0)) s).
Proof.
  intros [H1 H2 H3] Hs.
  assert (stopped_codes (SetServiceStatus (report state accepted hint code (next_check state s0)) s) = stopped_codes s)
    as E by (rewrite stopped_codes_report; cbn [st_CurrentState report]; by rewrite Hs, app_nil_r).
  split; [|by rewrite E | by rewrite E]. apply Forall_app. split; [done|].
  constructor; [apply report_is_ok | done].
Qed.

Lemma aside_report state accepted hint code n s :
  (state =? svcStopped) = false -> aside s (SetServiceStatus (report state accepted hint code n) s).
Proof.
  intros Hs. unfold aside. rewrite stopped_codes_report. cbn [st_CurrentState report]. by rewrite Hs, app_nil_r.
Qed.

(** A report other than STOPPED, by either thread. *)
Lemma handler_report state accepted hint code s0 :
  (state =? svcStopped) = false ->
  handler_at (fun _ _ => True) (reportStatusExit state accepted hint code) s0.
Proof.
  intros Hs. unfold reportStatusExit. apply (guarded_bind _ _ _ (fun x _ => exists s, x.2 = next_check state s)).
  { apply guarded_act. intros s _ HI. cbn. split; [by apply telling_set_check|]. split; [done | by exists s]. }
  intros [h' n] s1 [s2 E]. cbn [fst snd] in *. subst n. destruct (h' =? 0); [done|].
  apply guarded_act. intros s _ HI. cbn. split; [by apply telling_report|]. split; [by apply aside_report | done].
Qed.

Lemma main_report e codes state accepted hint code s0 :
  (state =? svcStopped) = false -> phase e codes s0 ->
  main_at (fun _ s => phase e codes s) (reportStatusExit state accepted hint code) s0.
Proof.
  intros Hs Hp. unfold reportStatusExit.
  apply (guarded_bind _ _ _ (fun x s => phase e codes s /\ exists s', x.2 = next_check state s')).
  { apply guarded_act. intros s HR HI. cbn. split; [by apply telling_set_check|]. split; [done|].
    split; [exact (phase_aside _ _ _ _ Hp HR) | by exists s]. }
  intros [h' n] s1 [Hp1 [s2 E]]. cbn [fst snd] in *. subst n. destruct (h' =? 0); [done|].
  apply guarded_act. intros s HR HI. cbn. split; [by apply telling_report|]. split; [done|].
  pose proof (phase_aside _ _ _ _ Hp1 HR) as Hp2. eapply phase_aside; [exact Hp2 | by apply aside_report].
Qed.

(** The STOPPED report is sent: the handle is set. *)
Lemma main_stopped s0 :
  h <> 0 -> phase (failure (fn_result fn)) [] s0 ->
  main_at (fun _ s => phase (failure (fn_result fn)) [exit_code fn] s) (reportStatusExit svcStopped 0 0 (exit_code fn)) s0.
Proof.
  intros Hh Hp. unfold reportStatusExit.
  apply (guarded_bind _ _ _ (fun x s => phase (failure (fn_result fn)) [] s /\ x.1 = h /\ x.2 = 0)).
  { apply guarded_act. intros s HR HI. cbn. split; [by apply telling_set_check|]. split; [done|].
    pose proof (phase_aside _ _ _ _ Hp HR) as Hp1. split; [exact Hp1|]. by destruct Hp1 as (_ & _ & _ & ?). }
  intros [h' n] s1 (Hp1 & -> & ->). destruct (Z.eqb_spec h 0) as [?|_]; [done|].
  apply guarded_act. intros s HR [H1 H2 H3]. cbn [fst snd].
  pose proof (phase_aside _ _ _ _ Hp1 HR) as (P1 & P2 & P3 & P4).
  assert (stopped_codes (SetServiceStatus (report svcStopped 0 0 (exit_code fn) 0) s) = [exit_code fn]) as E
    by (rewrite stopped_codes_report, P2; done).
  split; [split; [| by right | by rewrite P3 in *]|].
  - apply Forall_app. split; [done|]. constructor; [by split; intros ? | done].
  - split; [done|]. by unfold phase.
Qed.

Lemma main_modify e codes (f : serviceState -> serviceState) s0 :
  (forall s, sv_reports (f s) = sv_reports s /\ sv_runErr (f s) = sv_runErr s /\ sv_done (f s) = sv_done s
             /\ sv_statusH (f s) = sv_statusH s) ->
  phase e codes s0 -> main_at (fun _ s => phase e codes s) (modify f) s0.
Proof.
  intros Hf Hp. apply guarded_act. intros s HR [H1 H2 H3]. destruct (Hf s) as (E1 & E2 & E3 & E4).
  assert (stopped_codes (f s) = stopped_codes s) as E by (unfold stopped_codes; by rewrite E1).
  cbn [snd fst]. split; [split; [by rewrite E1 | by rewrite E | by rewrite E, E2, E3]|]. split; [done|].
  destruct (phase_aside _ _ _ _ Hp HR) as (P1 & P2 & P3 & P4). unfold phase. by rewrite E, E2, E3, E4.
Qed.

Lemma serviceMain_guarded name s0 :
  h <> 0 -> utf16_ok name = true -> sv_name s0 = name -> sv_runErr s0 = None -> stopped_codes s0 = [] -> sv_done s0 = false ->
  main_at (fun _ s => sv_done s = true) (serviceMain h fn) s0.
Proof.
  intros Hh Hn Es0 E1 E2 E3. unfold serviceMain.
  apply (guarded_bind _ _ _ (fun x s => x = name /\ aside s0 s)).
  { apply guarded_act. intros s HR HI. cbn. pose proof HR as (_ & _ & _ & _ & ->). auto. }
  intros ? s1 [-> H01]. rewrite Hn. destruct (Z.eqb_spec h 0) as [?|_]; [done|]. cbn [negb].
  apply (guarded_bind _ _ _ (fun _ s => phase None [] s)).
  { apply guarded_act. intros s HR [H1 H2 H3]. cbn. split; [by split|]. split; [done|].
    assert (aside s0 s) as (A1 & A2 & A3 & _) by (by etrans).
    unfold phase. cbn. rewrite A1, A3. split; [done|]. split; [|done]. change (stopped_codes s = []). by rewrite A2. }
  intros _ s2 Hp. apply (guarded_bind _ _ _ (fun _ s => phase None [] s)); [by apply main_report|].
  intros _ s3 Hp3. apply (guarded_bind _ _ _ (fun _ s => phase None [] s)); [by apply main_report|].
  intros _ s4 Hp4. apply (guarded_bind _ _ _ (fun err s => err = fn_result fn /\ phase None [] s)).
  { intros s HR HI. cbn. destruct (fn_alone fn || sv_cancelled s); [|done].
    split; [done|]. split; [done|]. split; [done | exact (phase_aside _ _ _ _ Hp4 HR)]. }
  intros ? s5 [-> Hp5]. apply (guarded_bind _ _ _ (fun _ s => phase (failure (fn_result fn)) [] s)).
  { apply guarded_act. intros s HR HI. destruct (phase_aside _ _ _ _ Hp5 HR) as (P1 & P2 & P3 & P4).
    pose proof HI as [H1 H2 H3]. cbn [fst snd].
    destruct (failure (fn_result fn)) as [e|] eqn:Ef; [|done].
    split; [|done]. split; [done | done|]. cbn. by rewrite P3. }
  intros _ s6 Hp6. apply (guarded_bind _ _ _ (fun x s => x = failure (fn_result fn) /\ phase (failure (fn_result fn)) [] s)).
  { apply guarded_act. intros s HR HI. pose proof (phase_aside _ _ _ _ Hp6 HR) as Hpp. cbn.
    split; [done|]. split; [done|]. split; [by destruct Hpp as (? & _) | exact Hpp]. }
  intros ? s7 [-> Hp7]. apply (guarded_bind _ _ _ (fun _ s => phase (failure (fn_result fn)) [exit_code fn] s)).
  { by apply main_stopped. }
  intros _ s8 Hp8. apply (guarded_bind _ _ _ (fun _ s => phase (failure (fn_result fn)) [exit_code fn] s)).
  { by apply main_modify. }
  intros _ s9 Hp9. apply guarded_act. intros s HR [H1 H2 H3].
  destruct (phase_aside _ _ _ _ Hp9 HR) as (P1 & P2 & P3 & P4). cbn. split; [by split | done].
Qed.

Lemma serviceHandler_guarded c s0 : handler_at (fun _ _ => True) (serviceHandler c) s0.
Proof.
  unfold serviceHandler, reportStatus. repeat case_match; try done.
  - apply (guarded_bind _ _ _ (fun _ _ => True)); [by apply handler_report|]. intros _ s1 _.
    apply (guarded_bind _ _ _ (fun _ _ => True)); [by apply guarded_act|]. intros [] s2 _; [|done].
    apply (guarded_bind _ _ _ (fun _ _ => True)); [|done].
    apply guarded_act. intros s _ [H1 H2 H3]. by split.
  - apply (guarded_bind _ _ _ (fun _ _ => True)); [by apply guarded_act|]. intros h' s1 _.
    apply (guarded_bind _ _ _ (fun _ _ => True)); [|done].
    destruct (h' =? 0); [done | by apply handler_report].
Qed.

Lemma handle_controls_guarded controls s0 : handler_at (fun _ _ => True) (handle_controls controls) s0.
Proof.
  revert s0. induction controls as [|c controls IH]; intros s0; [done|].
  apply (guarded_bind _ _ _ (fun _ _ => True)); [apply serviceHandler_guarded | by intros].
Qed.
End Service.

(** C30.  What the service control manager learns: while the service's main
    callback and its control handler interleave in any way, controls are only
    ever offered in a RUNNING report and only pending reports carry a check
    point; STOPPED is reported at most once, with exit code 1 exactly when the
    service's function failed for a reason other than cancellation; and when
    the callback has finished, STOPPED has been reported and [run] returns
    that failure. *)
Theorem service_exit name h fn controls s' p q :
  utf16_ok name = true -> h <> 0 ->
  rtc (pool_step (fun _ => False)) (begin name svc_init, [serviceMain h fn; handle_controls controls]) (s', [p; q]) ->
  Forall report_ok (sv_reports s')
  /\ (stopped_codes s' = [] \/ stopped_codes s' = [exit_code fn])
  /\ (p = Ret tt ->
      stopped_codes s' = [exit_code fn]
      /\ run (dispatch DispatcherReturns None) s' = Some (failure (fn_result fn), set_isService 1 s')).
Proof.
  intros Hn Hh Hr.
  edestruct (guarded_pair (telling fn) aside (fun _ _ => True) (fun _ _ => True) aside
    (fun _ s => sv_done s = true) (fun _ _ => True)) as (HI & p' & q' & E & Hp & _); [.. | exact Hr |].
  - done.
  - done.
  - by intros [] x y Hx (_ & _ & -> & _).
  - done.
  - by split; [constructor | left | ].
  - by apply (serviceMain_guarded h fn name).
  - apply handle_controls_guarded.
  - injection E as <- <-. destruct HI as [H1 H2 H3]. split; [done|]. split; [done|].
    intros ->. cbn in Hp. destruct (H3 Hp) as [H4 H5]. split; [done|].
    cbn [dispatch]. rewrite run_bind, run_modify, run_bind, run_await. cbn [sv_done set_isService]. rewrite Hp.
    rewrite run_gets. cbn. by rewrite H5.
Qed.

Lemma controls_not_done controls : keeps (fun s => sv_done s = false) (handle_controls controls).
Proof.
  assert (forall state a b c, keeps (fun s => sv_done s = false) (reportStatusExit state a b c)) as Hrep.
  { intros. unfold reportStatusExit. apply keeps_bind; [by apply keeps_act|]. intros x.
    destruct (x.1 =? 0); [done | by apply keeps_modify]. }
  induction controls as [|c controls IH]; [done|]. cbn [handle_controls].
  apply keeps_bind; [|done]. unfold serviceHandler, reportStatus.
  repeat (keeps_step || apply Hrep || by apply keeps_modify).
Qed.

(** Two ways the callbacks mislead.  When the control handler could not be
    registered the main callback returns without closing [done], so [run] waits
    for ever, whatever controls arrive.  And an interrogation after a stop
    request reports RUNNING, offering controls again, although the service is
    on its way down. *)
Theorem service_misreports :
  (forall name controls s' ps',
     rtc (pool_step (fun _ => False)) (begin name svc_init, [serviceMain 0 (mkServiceFn None true); handle_controls controls]) (s', ps') ->
     run (dispatch DispatcherReturns None) s' = None)
  /\ exists s st,
       run (handle_controls [controlStop; controlInterrogate]) (set_handle 7 (begin "agent" svc_init)) = Some (tt, s)
       /\ sv_cancelled s = true /\ last (sv_reports s) = Some st
       /\ st_CurrentState st = svcRunning /\ st_ControlsAccepted st <> 0.
Proof.
  split.
  - intros name controls s' ps' Hr.
    set (I := fun s : serviceState => sv_done s = false).
    assert (I s' /\ Forall (keeps I) ps') as [H _].
    { eapply keeps_pool; [|exact Hr | done |]; [done|]. constructor; [|constructor; [|done]].
      - unfold serviceMain. apply keeps_bind; [apply keeps_gets|]. intros n. by destruct (negb (utf16_ok n)).
      - apply controls_not_done. }
    cbn [dispatch]. rewrite run_bind, run_modify, run_bind, run_await. cbn. by rewrite H.
  - eexists _, _. do 4 (split; [reflexivity|]). vm_compute. discriminate.
Qed.

Definition ws_procs : list (svcM unit) :=
  [serviceMain 7 (mkServiceFn (Some (ESentinel CtxCanceled)) false); handle_controls [controlStop]].

(** Start, stop request, end. *)
Definition ws_order : list nat := repeat 0%nat 6 ++ repeat 1%nat 4 ++ repeat 0%nat 7.

Lemma service_exit_witness :
  exists s', sv_done s' = true /\ stopped_codes s' = [0]
    /\ run (dispatch DispatcherReturns None) s' = Some (None, set_isService 1 s').
Proof.
  destruct (sched ws_order (begin "agent" svc_init) ws_procs) as [[s' ps']|] eqn:E.
  2: { exfalso. assert (option_map (fun _ => tt) (sched ws_order (begin "agent" svc_init) ws_procs) = Some tt) as H
         by (vm_compute; reflexivity). rewrite E in H. discriminate H. }
  assert (option_map snd (sched ws_order (begin "agent" svc_init) ws_procs) = Some [Ret tt; Ret tt]) as Hps
    by (vm_compute; reflexivity).
  assert (option_map (fun x => sv_done x.1) (sched ws_order (begin "agent" svc_init) ws_procs) = Some true) as Hd
    by (vm_compute; reflexivity).
  rewrite E in Hps, Hd. injection Hps as ->. injection Hd as Hd.
  destruct (service_exit "agent" 7 (mkServiceFn (Some (ESentinel CtxCanceled)) false) [controlStop] s' (Ret tt) (Ret tt))
    as (_ & _ & H); [reflexivity | lia | exact (sched_steps _ _ _ _ _ E)|].
  destruct (H eq_refl) as [H1 H2]. exists s'. split; [exact Hd|]. split; [exact H1 | exact H2].
Defined.
