(* ===== verification/SvcManager.v ===== *)
(** * Registering and controlling the service

    [src/internal/winsvc/manager_windows.go]: the calls an administrator's
    commands make to the service control manager.  The manager is outside; what
    it answers to the n-th call, and how long the call takes, is a function of
    [n].  The calls made so far, with the value each returned, are the state. *)

From S2P Require Import Prelude GoErrors GoTime Proc CommandLine WinSvc.
Open Scope proc_scope.

(** ** Calls *)

Inductive service_config :=
| Description (text : string)
| DelayedAutoStart (on : bool)
| FailureActions (resetPeriod : Z) (restartDelays : list Z).

Inductive scm_call :=
| OpenSCManager
| OpenService (scm : Z) (name : string)
| CreateService (scm : Z) (name display cmdline : string)
| ChangeServiceConfig2 (svc : Z) (c : service_config)
| DeleteService (svc : Z)
| StartService (svc : Z)
| ControlService (svc control : Z)
| QueryServiceStatus (svc : Z)
| CloseServiceHandle (h : Z).

Record answer := mkAnswer {
  an_r : Z;                       (* 0 is failure *)
  an_errno : Z;
  an_state : Z;                   (* CurrentState, for a query *)
  an_elapsed : duration
}.

Record Scm := mkScm { sm_now : time; sm_log : list (scm_call * Z) }.

Definition scmM := proc Scm.

Definition errServiceDoesNotExist : Z := 1060.
Definition errServiceExists : Z := 1073.
Definition errServiceMarkedForDelete : Z := 1072.
Definition errAccessDenied : Z := 5.
Definition errServiceNotActive : Z := 1062.

(** [wrapErr] on the error a call returns, which is always an [Errno]. *)
Definition wrapErr (op : string) (errno : Z) : error :=
  if errno =? errServiceDoesNotExist then ESentinel ErrNotInstalled
  else if (errno =? errServiceExists) || (errno =? errServiceMarkedForDelete) then ESentinel ErrAlreadyInstalled
  else if errno =? errAccessDenied then ESentinel ErrAccessDenied
  else EWrap ("winsvc: " +:+ op) (EMsg "errno").

(** [filepath.IsAbs] on Windows: a drive or a share, and a path from its root. *)
Definition path_sep (c : byte) : bool := Byte.eqb c x5c || Byte.eqb c x2f.

Definition IsAbs (path : string) : bool :=
  match bytes_of_string path with
  | c0 :: c1 :: r =>
      if Byte.eqb c1 x3a then match r with c :: _ => path_sep c | [] => false end
      else if negb (path_sep c0) then false
      else if path_sep c1 then true
      else match r with
           | c2 :: c3 :: r' => Byte.eqb c1 x3f && Byte.eqb c2 x3f && path_sep c3 && existsb path_sep r'
           | _ => false
           end
  | _ => false
  end.

Record Config := mkConfig {
  sc_Name : string;
  sc_DisplayName : string;
  sc_Description : string;
  sc_ExePath : string;
  sc_Args : list string;
  sc_DelayedAutoStart : bool;
  sc_RestartOnFailure : bool
}.

Definition cmdline_of (cfg : Config) : string :=
  string_of_bytes (service_cmdline (bytes_of_string (sc_ExePath cfg)) (bytes_of_string <$> sc_Args cfg)).

Section Manager.
Context (env : nat -> answer).

Definition call (c : scm_call) : scmM answer :=
  act (fun w =>
    let a := env (length (sm_log w)) in
    (a, mkScm (sm_now w + Z.max 0 (an_elapsed a)) (sm_log w ++ [(c, an_r a)]))).

Definition Sleep (d : duration) : scmM unit := modify (fun w => mkScm (sm_now w + d) (sm_log w)).

Definition close (h : Z) : scmM unit :=
  if h =? 0 then Ret tt else do _ <- call (CloseServiceHandle h); Ret tt.

(** [defer h.close()] around the rest of a function. *)
Definition deferred {A} (h : Z) (p : scmM A) : scmM A :=
  do r <- p;
  do _ <- close h;
  Ret r.

Definition openSCM : scmM (res Z) :=
  do a <- call OpenSCManager;
  Ret (if an_r a =? 0 then Err (wrapErr "OpenSCManager" (an_errno a)) else Ok (an_r a)).

Definition openService (scm : Z) (name : string) : scmM (res Z) :=
  if negb (utf16_ok name) then Ret (Err (EMsg "EINVAL"))
  else
    do a <- call (OpenService scm name);
    Ret (if an_r a =? 0 then Err (wrapErr "OpenService" (an_errno a)) else Ok (an_r a)).

(** The opening lines of [uninstall], [start], [stop] and [status]. *)
Definition with_service {A} (name : string) (failed : error -> A) (body : Z -> scmM A) : scmM A :=
  do scm <- openSCM;
  match scm with
  | Err e => Ret (failed e)
  | Ok scm =>
      deferred scm
        (do svc <- openService scm name;
         match svc with
         | Err e => Ret (failed e)
         | Ok svc => deferred svc (body svc)
         end)
  end.

Definition setConfig (msg : string) (svc : Z) (c : service_config) : scmM (res unit) :=
  do a <- call (ChangeServiceConfig2 svc c);
  Ret (if an_r a =? 0 then Err (EWrap msg (EMsg "errno")) else Ok tt).

Definition setDescription (svc : Z) (description : string) : scmM (res unit) :=
  if negb (utf16_ok description) then Ret (Err (EMsg "EINVAL"))
  else setConfig "winsvc: set description" svc (Description description).

Definition setDelayedAutoStart (svc : Z) (delayed : bool) : scmM (res unit) :=
  setConfig "winsvc: set delayed auto start" svc (DelayedAutoStart delayed).

Definition setRestartOnFailure (svc : Z) : scmM (res unit) :=
  setConfig "winsvc: set failure actions" svc (FailureActions 86400 [5000; 30000; 60000]).

(** Do [p] when [cond], and go on unless it fails. *)
Definition when_ok (cond : bool) (p : scmM (res unit)) (k : scmM (res unit)) : scmM (res unit) :=
  if cond then
    do r <- p;
    match r with Err e => Ret (Err e) | Ok _ => k end
  else k.

Definition install (cfg : Config) : scmM (res unit) :=
  if bool_decide (sc_Name cfg = "") then Ret (Err (EMsg "winsvc: service name is required"))
  else if negb (IsAbs (sc_ExePath cfg)) then Ret (Err (EMsg "winsvc: executable path must be absolute"))
  else
    do scm <- openSCM;
    match scm with
    | Err e => Ret (Err e)
    | Ok scm =>
        deferred scm
          (let cmdline := cmdline_of cfg in
           let display := if bool_decide (sc_DisplayName cfg = "") then sc_Name cfg else sc_DisplayName cfg in
           if negb (utf16_ok (sc_Name cfg) && utf16_ok display && utf16_ok cmdline) then Ret (Err (EMsg "EINVAL"))
           else
             do a <- call (CreateService scm (sc_Name cfg) display cmdline);
             if an_r a =? 0 then Ret (Err (wrapErr "CreateService" (an_errno a)))
             else
               deferred (an_r a)
                 (when_ok (negb (bool_decide (sc_Description cfg = ""))) (setDescription (an_r a) (sc_Description cfg))
                   (when_ok (sc_DelayedAutoStart cfg) (setDelayedAutoStart (an_r a) true)
                     (when_ok (sc_RestartOnFailure cfg) (setRestartOnFailure (an_r a))
                       (Ret (Ok tt))))))
    end.

Definition uninstall (name : string) : scmM (res unit) :=
  with_service name Err (fun svc =>
    do a <- call (DeleteService svc);
    Ret (if an_r a =? 0 then Err (wrapErr "DeleteService" (an_errno a)) else Ok tt)).

Definition start (name : string) : scmM (res unit) :=
  with_service name Err (fun svc =>
    do a <- call (StartService svc);
    Ret (if an_r a =? 0 then Err (wrapErr "StartService" (an_errno a)) else Ok tt)).

Definition queryStatus (svc : Z) : scmM (res Z) :=
  do a <- call (QueryServiceStatus svc);
  Ret (if an_r a =? 0 then Err (wrapErr "QueryServiceStatus" (an_errno a)) else Ok (an_state a)).

Definition poll_interval : duration := 200 * Millisecond.

(** The loop of [stop]; [None] when the fuel runs out. *)
Fixpoint stop_loop (fuel : nat) (svc : Z) (deadline : time) : scmM (option (res unit)) :=
  match fuel with
  | O => Ret None
  | S fuel =>
      do now <- gets sm_now;
      if negb (Before now deadline) then Ret (Some (Err (EMsg "winsvc: did not stop in time")))
      else
        do q <- queryStatus svc;
        match q with
        | Err e => Ret (Some (Err e))
        | Ok state =>
            if state =? svcStopped then Ret (Some (Ok tt))
            else
              do _ <- Sleep poll_interval;
              stop_loop fuel svc deadline
        end
  end.

(** One more poll than fits before the deadline. *)
Definition polls (now deadline : time) : nat := S (S (Z.to_nat ((deadline - now) / poll_interval))).

Definition stop (name : string) (timeout : duration) : scmM (option (res unit)) :=
  with_service name (fun e => Some (Err e)) (fun svc =>
    do a <- call (ControlService svc controlStop);
    if an_r a =? 0 then
      Ret (Some (if an_errno a =? errServiceNotActive then Ok tt
                 else Err (wrapErr "ControlService" (an_errno a))))
    else
      do now <- gets sm_now;
      let deadline := Add now timeout in
      stop_loop (polls now deadline) svc deadline).

Inductive State := StateStopped | StateStartPending | StateStopPending | StateRunning | StateUnknown.

Definition status (name : string) : scmM (State * option error) :=
  with_service name (fun e => (StateUnknown, Some e)) (fun svc =>
    do q <- queryStatus svc;
    Ret (match q with
         | Err e => (StateUnknown, Some e)
         | Ok raw =>
             (if raw =? svcStopped then StateStopped
              else if raw =? svcStartPending then StateStartPending
              else if raw =? svcStopPending then StateStopPending
              else if raw =? svcRunning then StateRunning
              else StateUnknown, None)
         end)).
End Manager.

(** ** Handles

    Replaying a log: the handles that are open after it, the most recent first;
    [None] when a call used a handle that was not open, or closed one other than
    the most recent. *)

Definition opens (r : Z) (open : list Z) : list Z := if r =? 0 then open else r :: open.

Definition replay_call (open : list Z) (x : scm_call * Z) : option (list Z) :=
  let on h (after : list Z) := if bool_decide (h ∈ open) then Some after else None in
  match x.1 with
  | OpenSCManager => Some (opens x.2 open)
  | OpenService scm _ | CreateService scm _ _ _ => on scm (opens x.2 open)
  | ChangeServiceConfig2 svc _ | DeleteService svc | StartService svc | ControlService svc _
  | QueryServiceStatus svc => on svc open
  | CloseServiceHandle h =>
      match open with
      | h' :: open' => if h =? h' then Some open' else None
      | [] => None
      end
  end.

Definition replay (log : list (scm_call * Z)) : option (list Z) :=
  foldl (fun o x => match o with Some open => replay_call open x | None => None end) (Some []) log.

Lemma replay_snoc log x open : replay log = Some open -> replay (log ++ [x]) = replay_call open x.
Proof. intros H. unfold replay. rewrite foldl_app. cbn. fold (replay log). by rewrite H. Qed.

(** [p] comes to an end, and from the handles [open] leaves [after]. *)
Definition takes {A} (open : list Z) (after : A -> list Z) (p : scmM A) : Prop :=
  forall w, replay (sm_log w) = Some open ->
    exists r w', run p w = Some (r, w') /\ replay (sm_log w') = Some (after r).

Section Handles.
Context (env : nat -> answer).

Lemma takes_ret {A} open (r : A) : takes open (fun _ => open) (Ret r).
Proof. intros w H. by exists r, w. Qed.

Lemma takes_bind {A B} open (mid : A -> list Z) (after : B -> list Z) (p : scmM A) (k : A -> scmM B) :
  takes open mid p -> (forall a, takes (mid a) after (k a)) -> takes open after (proc_bind p k).
Proof.
  intros Hp Hk w Hw. destruct (Hp w Hw) as (a & w1 & E1 & Hw1). destruct (Hk a w1 Hw1) as (b & w2 & E2 & Hw2).
  exists b, w2. by rewrite run_bind, E1.
Qed.

Lemma takes_call open c :
  (forall r, exists after, replay_call open (c, r) = Some after) ->
  takes open (fun a => default [] (replay_call open (c, an_r a))) (call env c).
Proof.
  intros H w Hw. unfold call. rewrite run_act. eexists _, _. split; [reflexivity|]. cbn [sm_log].
  rewrite (replay_snoc _ _ _ Hw). by destruct (H (an_r (env (length (sm_log w))))) as [after ->].
Qed.

(** A call on an open handle, and its answer. *)
Lemma takes_use {A} open svc c (k : answer -> A) :
  svc ∈ open -> (forall r, replay_call open (c, r) = if bool_decide (svc ∈ open) then Some open else None) ->
  takes open (fun _ => open) (do a <- call env c; Ret (k a)).
Proof.
  intros Hin Hc. assert (forall r, replay_call open (c, r) = Some open) as Hc'
    by (intros r; by rewrite Hc, bool_decide_true).
  eapply takes_bind; [apply takes_call; intros r; eexists; apply Hc'|]. intros a. cbn. rewrite Hc'. apply takes_ret.
Qed.

Lemma takes_modify_now open d : takes open (fun _ => open) (Sleep d).
Proof. intros w Hw. by eexists _, _. Qed.

Lemma takes_gets {A} open (f : Scm -> A) : takes open (fun _ => open) (gets f).
Proof. intros w Hw. by eexists _, _. Qed.

(** A call that opens a handle, and what is done with it. *)
Lemma takes_opens {B} open (after : B -> list Z) c (wrap : Z -> error) (k : res Z -> scmM B) :
  (forall r, replay_call open (c, r) = Some (opens r open)) ->
  (forall e, takes open after (k (Err e))) -> (forall h, h <> 0 -> takes (h :: open) after (k (Ok h))) ->
  takes open after
    (do x <- (do a <- call env c; Ret (if an_r a =? 0 then Err (wrap (an_errno a)) else Ok (an_r a))); k x).
Proof.
  intros Hc Herr Hok w Hw. rewrite run_bind, run_bind. unfold call at 1. rewrite run_act. cbn [run].
  set (a := env (length (sm_log w))). pose proof (replay_snoc _ (c, an_r a) _ Hw) as Hr. rewrite Hc in Hr.
  unfold opens in Hr. destruct (Z.eqb_spec (an_r a) 0) as [E|E]; [by apply Herr | by apply Hok].
Qed.

(** [defer]: the handle on top is closed. *)
Lemma takes_deferred {A} open h (p : scmM A) :
  h <> 0 -> takes (h :: open) (fun _ => h :: open) p -> takes (h :: open) (fun _ => open) (deferred env h p).
Proof.
  intros Hh Hp. unfold deferred. eapply takes_bind; [exact Hp|]. intros r. unfold close.
  destruct (Z.eqb_spec h 0) as [?|E]; [done|].
  assert (forall r0, replay_call (h :: open) (CloseServiceHandle h, r0) = Some open) as Hc
    by (intros; cbn; by rewrite Z.eqb_refl).
  eapply (takes_bind _ (fun _ => open)); [|intros; apply takes_ret].
  eapply takes_bind; [apply takes_call; intros; eexists; apply Hc|]. intros a. cbn beta. rewrite Hc. apply takes_ret.
Qed.

Lemma takes_openService {B} open scm name (after : B -> list Z) (k : res Z -> scmM B) :
  scm ∈ open ->
  (forall e, takes open after (k (Err e))) -> (forall h, h <> 0 -> takes (h :: open) after (k (Ok h))) ->
  takes open after (do svc <- openService env scm name; k svc).
Proof.
  intros Hin Herr Hok. unfold openService. destruct (utf16_ok name); cbn [negb]; [|apply Herr].
  apply takes_opens; [|done..]. intros r. cbn. by rewrite bool_decide_true.
Qed.

Lemma takes_with_service {A} name (failed : error -> A) body :
  (forall open svc, svc ∈ open -> takes open (fun _ => open) (body svc)) ->
  forall open, takes open (fun _ => open) (with_service env name failed body).
Proof.
  intros Hb open. unfold with_service, openSCM. apply takes_opens; [done | intros; apply takes_ret|].
  intros scm Hscm. apply takes_deferred; [done|].
  apply takes_openService; [left | intros; apply takes_ret|]. intros svc Hsvc.
  apply takes_deferred; [done|]. apply Hb. left.
Qed.

Lemma takes_when_ok open cond p k :
  takes open (fun _ => open) p -> takes open (fun _ => open) k -> takes open (fun _ => open) (when_ok cond p k).
Proof.
  intros Hp Hk. unfold when_ok. destruct cond; [|done]. eapply takes_bind; [exact Hp|].
  intros [[]|e]; [done | apply takes_ret].
Qed.

Lemma takes_setConfig open msg svc c : svc ∈ open -> takes open (fun _ => open) (setConfig env msg svc c).
Proof. intros H. by apply (takes_use _ svc). Qed.

Lemma takes_queryStatus open svc : svc ∈ open -> takes open (fun _ => open) (queryStatus env svc).
Proof. intros H. by apply (takes_use _ svc). Qed.

Lemma takes_stop_loop fuel svc deadline open :
  svc ∈ open -> takes open (fun _ => open) (stop_loop env fuel svc deadline).
Proof.
  intros H. induction fuel as [|fuel IH]; [apply takes_ret|]. cbn [stop_loop].
  eapply takes_bind; [apply takes_gets|]. intros now. destruct (negb (Before now deadline)); [apply takes_ret|].
  eapply takes_bind; [by apply takes_queryStatus|]. intros [st|e]; [|apply takes_ret].
  destruct (st =? svcStopped); [apply takes_ret|].
  eapply takes_bind; [apply takes_modify_now|]. intros []. exact IH.
Qed.

Lemma takes_install open cfg : takes open (fun _ => open) (install env cfg).
Proof.
  unfold install. destruct (bool_decide (sc_Name cfg = "")); [apply takes_ret|].
  destruct (negb (IsAbs (sc_ExePath cfg))); [apply takes_ret|]. unfold openSCM.
  apply takes_opens; [done | intros; apply takes_ret|]. intros scm Hscm. apply takes_deferred; [done|].
  cbv zeta. case_match; [apply takes_ret|].
  intros w Hw. rewrite run_bind. unfold call at 1. rewrite run_act. cbn [fst snd].
  set (a := env (length (sm_log w))).
  match goal with |- context [CreateService scm ?n ?d ?l] =>
    pose proof (replay_snoc _ (CreateService scm n d l, an_r a) _ Hw) as Hr end.
  cbn [replay_call fst snd] in Hr. rewrite (bool_decide_true (scm ∈ scm :: open)) in Hr by left. unfold opens in Hr.
  destruct (Z.eqb_spec (an_r a) 0) as [E|E]; [by eexists _, _|].
  refine (takes_deferred (scm :: open) (an_r a) _ E _ (mkScm _ _) Hr).
  assert (an_r a ∈ an_r a :: scm :: open) as Hin by left.
  apply takes_when_ok.
  { unfold setDescription. destruct (negb (utf16_ok (sc_Description cfg))); [apply takes_ret | by apply takes_setConfig]. }
  apply takes_when_ok; [by apply takes_setConfig|].
  apply takes_when_ok; [by apply takes_setConfig | apply takes_ret].
Qed.
End Handles.

(** Time only passes. *)
Lemma call_run env c w :
  run (call env c) w
  = Some (env (length (sm_log w)),
          mkScm (sm_now w + Z.max 0 (an_elapsed (env (length (sm_log w))))) (sm_log w ++ [(c, an_r (env (length (sm_log w))))])).
Proof. unfold call. by rewrite run_act. Qed.

(** The polling loop ends before its fuel does. *)
Lemma stop_loop_ends env fuel svc deadline w :
  deadline - sm_now w <= Z.of_nat fuel * poll_interval ->
  exists r w', run (stop_loop env (S fuel) svc deadline) w = Some (Some r, w').
Proof.
  revert w. induction fuel as [|fuel IH]; intros w Hf;
    cbn [stop_loop]; rewrite run_bind, run_gets; unfold Before;
    destruct (Z.ltb_spec (sm_now w) deadline) as [Hlt|Hge]; try by eexists _, _.
  { exfalso. cbn in Hf. lia. }
  cbn [negb]. unfold queryStatus. rewrite !run_bind, call_run. cbn [run].
  destruct (an_r (env (length (sm_log w))) =? 0); [by eexists _, _|].
  destruct (an_state (env (length (sm_log w))) =? svcStopped); [by eexists _, _|].
  rewrite run_bind. unfold Sleep. rewrite run_modify. apply IH. cbn [sm_now].
  unfold poll_interval, Millisecond in *. lia.
Qed.

Lemma polls_enough now deadline : exists fuel,
  polls now deadline = S fuel /\ deadline - now <= Z.of_nat fuel * poll_interval.
Proof.
  eexists. split; [reflexivity|]. rewrite Nat2Z.inj_succ.
  pose proof (Z.mul_succ_div_gt (deadline - now) poll_interval eq_refl).
  unfold poll_interval, Millisecond in *. lia.
Qed.

(** What an answered query or control says about the service. *)
Definition says_stopped (env : nat -> answer) (log : list (scm_call * Z)) : Prop :=
  exists n svc,
    (log.*1 !! n = Some (QueryServiceStatus svc) /\ an_r (env n) <> 0 /\ an_state (env n) = svcStopped)
    \/ (log.*1 !! n = Some (ControlService svc controlStop) /\ an_r (env n) = 0 /\ an_errno (env n) = errServiceNotActive).

Lemma says_stopped_app env log log' : says_stopped env log -> says_stopped env (log ++ log').
Proof.
  intros (n & svc & H). exists n, svc. rewrite fmap_app.
  destruct H as [(H & ?)|(H & ?)]; [left | right]; (split; [by apply lookup_app_l_Some | done]).
Qed.

(** Every way [p] can end is as [Q] says. *)
Definition ends {A} (Q : A -> Scm -> Prop) (p : scmM A) : Prop := forall w a w', run p w = Some (a, w') -> Q a w'.

Lemma ends_ret {A} (Q : A -> Scm -> Prop) a : (forall w, Q a w) -> ends Q (Ret a).
Proof. intros H w b w' [= <- <-]. apply H. Qed.

Lemma ends_bind {A B} (Q : B -> Scm -> Prop) (p : scmM A) k : (forall a, ends Q (k a)) -> ends Q (proc_bind p k).
Proof.
  intros H w b w' Hr. rewrite run_bind in Hr. destruct (run p w) as [[a w1]|]; [|done]. exact (H a _ _ _ Hr).
Qed.

Section Stopping.
Context (env : nat -> answer).

Definition stop_ok (r : option (res unit)) (w : Scm) : Prop := r = Some (Ok tt) -> says_stopped env (sm_log w).

Lemma ends_deferred h p : ends stop_ok p -> ends stop_ok (deferred env h p).
Proof.
  intros Hp w r w' Hr. unfold deferred in Hr. rewrite run_bind in Hr.
  destruct (run p w) as [[r1 w1]|] eqn:E; [|done]. specialize (Hp _ _ _ E).
  unfold close in Hr. destruct (h =? 0); [by injection Hr as <- <-|].
  rewrite !run_bind, call_run in Hr. injection Hr as <- <-.
  intros Hok. apply says_stopped_app. exact (Hp Hok).
Qed.

Lemma ends_with_service name body :
  (forall svc, ends stop_ok (body svc)) -> ends stop_ok (with_service env name (fun e => Some (Err e)) body).
Proof.
  intros Hb. apply ends_bind. intros [scm|e]; [|by apply ends_ret]. apply ends_deferred.
  apply ends_bind. intros [svc|e]; [|by apply ends_ret]. by apply ends_deferred.
Qed.

Lemma says_now (log : list (scm_call * Z)) c r : (log ++ [(c, r)]).*1 !! length log = Some c.
Proof. rewrite fmap_app, lookup_app_r, length_fmap, Nat.sub_diag; [done | by rewrite length_fmap]. Qed.

Lemma ends_stop_loop fuel svc deadline : ends stop_ok (stop_loop env fuel svc deadline).
Proof.
  induction fuel as [|fuel IH]; [by apply ends_ret|]. cbn [stop_loop].
  apply ends_bind. intros now. destruct (negb (Before now deadline)); [by apply ends_ret|].
  intros w r w' Hr. unfold queryStatus in Hr. rewrite !run_bind, call_run in Hr. cbn [run] in Hr.
  destruct (Z.eqb_spec (an_r (env (length (sm_log w)))) 0) as [|Hn]; [by injection Hr as <- <-|].
  destruct (Z.eqb_spec (an_state (env (length (sm_log w)))) svcStopped) as [Hs|].
  - injection Hr as <- <-. intros _. exists (length (sm_log w)), svc. left. split; [|done]. apply says_now.
  - revert Hr. apply ends_bind. intros _. exact IH.
Qed.

Lemma ends_stop name timeout : ends stop_ok (stop env name timeout).
Proof.
  apply ends_with_service. intros svc w r w' Hr. rewrite run_bind, call_run in Hr.
  destruct (Z.eqb_spec (an_r (env (length (sm_log w)))) 0) as [H0|Hn].
  - injection Hr as <- <-. destruct (Z.eqb_spec (an_errno (env (length (sm_log w)))) errServiceNotActive) as [He|]; [|done].
    intros _. exists (length (sm_log w)), svc. right. split; [|done]. apply says_now.
  - revert Hr. apply ends_bind. intros now. apply ends_stop_loop.
Qed.
End Stopping.

Lemma takes_stop env name timeout open : takes open (fun _ => open) (stop env name timeout).
Proof.
  apply takes_with_service. intros open' svc Hin w Hw.
  rewrite run_bind, call_run.
  pose proof (replay_snoc _ (ControlService svc controlStop, an_r (env (length (sm_log w)))) _ Hw) as Hr.
  cbn [replay_call fst snd] in Hr. rewrite bool_decide_true in Hr by done.
  destruct (an_r (env (length (sm_log w))) =? 0); [by eexists _, _|].
  rewrite run_bind, run_gets. by apply takes_stop_loop.
Qed.

(** Where [None] could come from. *)
Definition answered {A} (r : option A) (w : Scm) : Prop := r <> None.

Lemma answered_deferred {A} env h (p : scmM (option A)) : ends answered p -> ends answered (deferred env h p).
Proof.
  intros Hp w r w' Hr. unfold deferred in Hr. rewrite run_bind in Hr.
  destruct (run p w) as [[r1 w1]|] eqn:E; [|done]. specialize (Hp _ _ _ E).
  revert Hr. rewrite run_bind. destruct (run (close env h) w1) as [[? w2]|]; [|done]. by intros [= <- <-].
Qed.

Lemma stop_returns env name timeout w w' : run (stop env name timeout) w <> Some (None, w').
Proof.
  intros Hr. assert (ends answered (stop env name timeout)) as H; [|by apply (H _ _ _ Hr)].
  apply ends_bind. intros [scm|e]; [|by apply ends_ret]. apply answered_deferred.
  apply ends_bind. intros [svc|e]; [|by apply ends_ret]. apply answered_deferred.
  apply ends_bind. intros a. case_match; [by apply ends_ret|].
  clear. intros w r w' Hr. rewrite run_bind, run_gets in Hr. cbv beta iota zeta in Hr.
  destruct (polls_enough (sm_now w) (Add (sm_now w) timeout)) as (fuel & Hf & Hle). rewrite Hf in Hr.
  destruct (stop_loop_ends env fuel svc (Add (sm_now w) timeout) w Hle) as (r' & w1 & E).
  rewrite E in Hr. by injection Hr as <- <-.
Qed.

(** Every management operation comes to an end whatever the service control
    manager answers, uses only handles it has opened, and has closed all of
    them, the most recent first, on every path; in particular the polling loop
    of [stop] is bounded by its timeout.  [stop] succeeds only when the manager
    itself said that the service was stopped. *)
Theorem management_sound env w :
  replay (sm_log w) = Some [] ->
  (forall cfg, exists r w', run (install env cfg) w = Some (r, w') /\ replay (sm_log w') = Some [])
  /\ (forall name, exists r w', run (uninstall env name) w = Some (r, w') /\ replay (sm_log w') = Some [])
  /\ (forall name, exists r w', run (start env name) w = Some (r, w') /\ replay (sm_log w') = Some [])
  /\ (forall name, exists r w', run (status env name) w = Some (r, w') /\ replay (sm_log w') = Some [])
  /\ (forall name timeout, exists r w',
        run (stop env name timeout) w = Some (Some r, w') /\ replay (sm_log w') = Some []
        /\ (r = Ok tt -> says_stopped env (sm_log w'))).
Proof.
  intros Hw. split; [intros; by apply takes_install|].
  split; [intros name; refine (takes_with_service _ _ _ _ _ _ w Hw); intros; by eapply takes_use|].
  split; [intros name; refine (takes_with_service _ _ _ _ _ _ w Hw); intros; by eapply takes_use|].
  split.
  - intros name. refine (takes_with_service _ _ _ _ _ _ w Hw). intros open svc Hin.
    eapply takes_bind; [by apply takes_queryStatus|]. intros. apply takes_ret.
  - intros name timeout.
    assert (takes [] (fun _ => []) (stop env name timeout)) as Ht by (apply takes_stop).
    destruct (Ht w Hw) as (r & w' & Hr & Hw'). pose proof (ends_stop env name timeout _ _ _ Hr) as Hok.
    destruct r as [r|]; [|by destruct (stop_returns env name timeout w w')].
    exists r, w'. split; [done|]. split; [done|]. intros ->. by apply Hok.
Qed.

Definition sm_env (n : nat) : answer := mkAnswer 1 0 (if Nat.eqb n 4 then svcStopped else svcStopPending) (30 * Millisecond).

Lemma management_sound_witness :
  exists w', run (stop sm_env "agent" (10 * Second)) (mkScm 0 []) = Some (Some (Ok tt), w')
    /\ replay (sm_log w') = Some [] /\ says_stopped sm_env (sm_log w').
Proof.
  destruct (management_sound sm_env (mkScm 0 []) eq_refl) as (_ & _ & _ & _ & H).
  destruct (H "agent" (10 * Second)) as (r & w' & Hr & Hw & Hs).
  assert (r = Ok tt) as ->.
  { assert (option_map fst (run (stop sm_env "agent" (10 * Second)) (mkScm 0 [])) = Some (Some (Ok tt))) as E
      by (vm_compute; reflexivity).
    rewrite Hr in E. cbn in E. congruence. }
  exists w'. split; [exact Hr|]. split; [exact Hw | exact (Hs eq_refl)].
Defined.

(** ** What install registers *)

(** The settings applied after the service is created. *)
Definition configs (cfg : Config) : list service_config :=
  (if negb (bool_decide (sc_Description cfg = "")) then [Description (sc_Description cfg)] else [])
  ++ (if sc_DelayedAutoStart cfg then [DelayedAutoStart true] else [])
  ++ (if sc_RestartOnFailure cfg then [FailureActions 86400 [5000; 30000; 60000]] else []).

Definition display_of (cfg : Config) : string :=
  if bool_decide (sc_DisplayName cfg = "") then sc_Name cfg else sc_DisplayName cfg.

(** Each setting was applied, in order, and the manager accepted it. *)
Definition applied (svc : Z) (cs : list service_config) (w w' : Scm) : Prop :=
  exists rs, length rs = length cs /\ Forall (fun r => r <> 0) rs
    /\ sm_log w' = sm_log w ++ zip (ChangeServiceConfig2 svc <$> cs) rs.

Section Install.
Context (env : nat -> answer).

Lemma applied_app svc cs cs' w w1 w' : applied svc cs w w1 -> applied svc cs' w1 w' -> applied svc (cs ++ cs') w w'.
Proof.
  intros (rs & L & F & E) (rs' & L' & F' & E'). exists (rs ++ rs'). rewrite !length_app, L, L'. split; [done|].
  split; [by apply Forall_app|]. rewrite E', E, <- app_assoc, fmap_app. f_equal.
  rewrite zip_with_app; [done|]. by rewrite length_fmap.
Qed.

Lemma setConfig_applied msg svc c w w' :
  run (setConfig env msg svc c) w = Some (Ok tt, w') -> applied svc [c] w w'.
Proof.
  unfold setConfig. rewrite run_bind, call_run. cbn [run].
  destruct (Z.eqb_spec (an_r (env (length (sm_log w)))) 0) as [|E]; [done|]. intros [= <-].
  exists [an_r (env (length (sm_log w)))]. auto.
Qed.

Lemma when_ok_applied svc cond cs p k w w' :
  (forall w w1, run p w = Some (Ok tt, w1) -> applied svc cs w w1) ->
  run (when_ok cond p k) w = Some (Ok tt, w') ->
  exists w1, applied svc (if cond then cs else []) w w1 /\ run k w1 = Some (Ok tt, w').
Proof.
  intros Hp. unfold when_ok. destruct cond.
  - rewrite run_bind. destruct (run p w) as [[[[]|e] w1]|] eqn:E; try done. intros H. exists w1. auto.
  - intros H. exists w. split; [|done]. exists []. cbn. by rewrite app_nil_r.
Qed.

Lemma deferred_Ok {A} h (p : scmM (res A)) w a w' :
  h <> 0 -> run (deferred env h p) w = Some (Ok a, w') ->
  exists w1 r, run p w = Some (Ok a, w1) /\ sm_log w' = sm_log w1 ++ [(CloseServiceHandle h, r)].
Proof.
  intros Hh. unfold deferred, close. rewrite run_bind. destruct (run p w) as [[a1 w1]|]; [|done].
  destruct (Z.eqb_spec h 0) as [|_]; [done|]. rewrite !run_bind, call_run. intros [= -> <-].
  by eexists w1, _.
Qed.

Lemma install_Ok cfg w w' :
  run (install env cfg) w = Some (Ok tt, w') ->
  exists scm svc rs r1 r2, scm <> 0 /\ svc <> 0 /\ length rs = length (configs cfg) /\ Forall (fun r => r <> 0) rs
    /\ sm_log w' = sm_log w
         ++ [(OpenSCManager, scm); (CreateService scm (sc_Name cfg) (display_of cfg) (cmdline_of cfg), svc)]
         ++ zip (ChangeServiceConfig2 svc <$> configs cfg) rs
         ++ [(CloseServiceHandle svc, r1); (CloseServiceHandle scm, r2)].
Proof.
  unfold install. case_bool_decide; [done|]. case_match; [done|].
  unfold openSCM. rewrite !run_bind, call_run. cbn [run].
  set (scm := an_r (env (length (sm_log w)))). destruct (Z.eqb_spec scm 0) as [|Hscm]; [done|].
  intros (w1 & r2 & Hr & E2)%deferred_Ok; [|done]. cbv zeta in Hr. revert Hr. case_match; [done|].
  rewrite run_bind, call_run. cbn [sm_log].
  match goal with |- context [an_r ?a =? 0] => set (svc := an_r a) end.
  destruct (Z.eqb_spec svc 0) as [|Hsvc]; [done|].
  intros (w2 & r1 & Hr & E1)%deferred_Ok; [|done].
  apply (when_ok_applied svc _ [Description (sc_Description cfg)]) in Hr as (w3 & A1 & Hr).
  2: { intros ? ?. unfold setDescription. destruct (negb (utf16_ok (sc_Description cfg))); [done | apply setConfig_applied]. }
  apply (when_ok_applied svc _ [DelayedAutoStart true]) in Hr as (w4 & A2 & Hr); [|intros ? ?; apply setConfig_applied].
  apply (when_ok_applied svc _ [FailureActions 86400 [5000; 30000; 60000]]) in Hr as (w5 & A3 & Hr);
    [|intros ? ?; apply setConfig_applied].
  injection Hr as ->.
  destruct (applied_app _ _ _ _ _ _ A1 (applied_app _ _ _ _ _ _ A2 A3)) as (rs & L & F & E).
  exists scm, svc, rs, r1, r2. split; [done|]. split; [done|]. split; [done|]. split; [done|].
  rewrite E2, E1, E. cbn [sm_log]. fold (display_of cfg). by rewrite <- !app_assoc.
Qed.
End Install.
