(* ===== verification/SarAgent.v ===== *)
(** * The agent's command

    [src/cmd/sar-agent]: dispatch on the arguments, [run] up to the running
    agent, and the [service] subcommands.  The command line that [service
    install] registers is the one the service manager later starts the program
    with, so the two halves of this file meet in CommandLine.v. *)

From S2P Require Import Prelude GoErrors GoTime Proc Proto Handshake CommandLine WinSvc SvcManager Keystore Enrollment NetAddr PeerIdentity Agent Backoff OperatorSession AgentLoop.
Open Scope proc_scope.

Definition serviceName : string := "SecureAccessRelayAgent".
Definition serviceDisplayName : string := "Secure Access Relay Agent".
Definition serviceDescription : string :=
  "Provides time-limited, audited access to approved local services through an outbound relay connection. Opens no inbound port.".
Definition stopTimeout : duration := 30 * Second.

(** ** main.go *)

Inductive agent_command :=
| ANoCommand
| AEnroll (args : list string)
| ARun (args : list string)
| AService (args : list string)
| AVersion
| AUnknown (name : string).

(** [run] on os.Args. *)
Definition sar_agent (argv : list string) : agent_command :=
  match argv with
  | _ :: name :: args =>
      if bool_decide (name = "enroll") then AEnroll args
      else if bool_decide (name = "run") then ARun args
      else if bool_decide (name = "service") then AService args
      else if bool_decide (name ∈ ["-version"; "--version"; "version"]) then AVersion
      else AUnknown name
  | _ => ANoCommand
  end.

Record run_flags := mkRunFlags {
  rf_relayAddr : string;
  rf_stateDir : string;
  rf_resources : string;
  rf_target : string;
  rf_resourceID : string;
  rf_maxStreams : Z;
  rf_retry : duration;
  rf_maxRetry : duration;
  rf_controlAddr : string;
  rf_logLevel : string
}.

Definition run_formal : list string :=
  ["relay-addr"; "state-dir"; "resources"; "target"; "resource-id"; "max-streams"; "retry-interval";
   "max-retry-interval"; "control-addr"; "log-level"].

Section Flags.
(** [strconv.ParseUint] and [time.ParseDuration] as package flag calls them. *)
Context (ParseUint ParseDuration : string -> option Z).

(** A numeric option: its default, or its text parsed. *)
Definition numeric (parse : string -> option Z) (set : gmap string string) (name : string) (dflt : Z) : option Z :=
  match set !! name with None => Some dflt | Some text => parse text end.

(** The flags of [cmdRun]; [None] is the process exiting with the usage text. *)
Definition parse_run_flags (args : list string) : option run_flags :=
  match flag_parse run_formal args ∅ with
  | None => None
  | Some set =>
      let text name dflt := default dflt (set !! name) in
      match numeric ParseUint set "max-streams" 16, numeric ParseDuration set "retry-interval" 0,
            numeric ParseDuration set "max-retry-interval" 0 with
      | Some maxStreams, Some retry, Some maxRetry =>
          Some (mkRunFlags (text "relay-addr" "127.0.0.1:17070") (text "state-dir" "agent-state") (text "resources" "")
                  (text "target" "") (text "resource-id" "res_default") maxStreams retry maxRetry
                  (text "control-addr" "") (text "log-level" "info"))
      | _, _, _ => None
      end
  end.
End Flags.

(** [file]: the resource file, read and parsed. *)
Definition resolveResources (path target resourceID : string) (file : option (option (list Resource))) : res Allowlist :=
  if negb (bool_decide (path = "")) && negb (bool_decide (target = "")) then
    Err (EMsg "give either -resources or -target, not both")
  else if negb (bool_decide (path = "")) then LoadAllowlist file
  else if negb (bool_decide (target = "")) then
    if bool_decide (resourceID = "") then Err (EMsg "-resource-id is required with -target")
    else Ok {[resourceID := mkResource resourceID resourceID "tcp" target 0 0]}
  else Err (EMsg "nothing to serve").

Definition self_of (id : PeerID) : Self := mkSelf (p_ID id) (default [] (p_GrantKey id)) (p_ServerName id).

Section Run.
Context `{K : Keyring} `{PC : PeerCrypto}.

(** [cmdRun] up to the call of [winsvc.Run]: the agent it runs. *)
Definition agent_cmdRun (f : run_flags) (file : option (option (list Resource)))
    : fsM (res (AgentConfig * PeerID * Allowlist)) :=
  do loaded <- PeerIdentity.Load (rf_stateDir f);
  Ret (match loaded with
       | Err e =>
           if errors_Is e ErrIdentityNotEnrolled then Err (EMsg "not enrolled: run 'sar-agent enroll -code ...' first")
           else Err e
       | Ok id =>
           match resolveResources (rf_resources f) (rf_target f) (rf_resourceID f) file with
           | Err e => Err e
           | Ok allowlist =>
               match agent_New (Some (self_of id)) allowlist with
               | Err e => Err e
               | Ok _ =>
                   Ok (agent_defaults (mkAgentConfig (rf_relayAddr f) (rf_controlAddr f) (rf_stateDir f)
                         (uwrap 32 (rf_maxStreams f)) (rf_retry f) (rf_maxRetry f) 0 0 0), id, allowlist)
               end
           end
       end).
End Run.

(** [cmdEnroll], the same code as sarctl's. *)
Definition agent_cmdEnroll `{K : Keyring} `{PC : PeerCrypto} `{Base64} (json_dec : string -> option Code)
    (code stateDir : string) (key : option (list byte)) (csr_ok : bool) (srv : enroll_server) : fsM (res PeerID) :=
  if bool_decide (code = "") then Ret (Err (EMsg "an enrollment code is required"))
  else
    match DecodeCode json_dec code with
    | Err e => Ret (Err e)
    | Ok parsed => PeerIdentity.Enroll parsed stateDir key csr_ok srv
    end.

(** The function handed to [winsvc.Run], on how the agent's loop ends: [None]
    while it runs and when it panics. *)
Definition service_body (e : run_end) : option (option error) :=
  match e with
  | RunCancelled =>
      (* a.Run returned ctx.Err(), and so ctx.Err() is not nil *)
      Some None
  | RunContinues | RunPanics => None
  end.

(** ** service.go *)

Record install_flags := mkInstallFlags {
  if_relayAddr : string;
  if_controlAddr : string;
  if_stateDir : string;
  if_target : string;
  if_logLevel : string
}.

Definition run_options (f : install_flags) (dir : string) : list (string * string) :=
  [("relay-addr", if_relayAddr f); ("state-dir", dir); ("target", if_target f); ("log-level", if_logLevel f)]
  ++ (if bool_decide (if_controlAddr f = "") then [] else [("control-addr", if_controlAddr f)]).

Definition runArgs (f : install_flags) (dir : string) : list string := "run" :: flag_args (run_options f dir).

Definition service_config_of (exe : string) (args : list string) : SvcManager.Config :=
  SvcManager.mkConfig serviceName serviceDisplayName serviceDescription exe args true true.

Section Service.
(** [filepath.Abs]; [filepath.Join(filepath.Dir(exe), "agent-state")]. *)
Context (Abs : string -> res string) (beside : string -> string).

(** [executable]: what os.Executable returns. *)
Definition cmdServiceInstall (env : nat -> answer) (supported : bool) (executable : res string) (f : install_flags)
    : scmM (res unit) :=
  if negb supported then Ret (Err (ESentinel ErrUnsupported))
  else
    match executable with
    | Err e => Ret (Err (EWrap "locate executable" e))
    | Ok exe =>
        match Abs exe with
        | Err e => Ret (Err e)
        | Ok exe =>
            let dir := if bool_decide (if_stateDir f = "") then beside exe else if_stateDir f in
            match Abs dir with
            | Err e => Ret (Err e)
            | Ok dir => install env (service_config_of exe (runArgs f dir))
            end
        end
    end.
End Service.

Definition cmdServiceUninstall (env : nat -> answer) (supported : bool) : scmM (res unit) :=
  if negb supported then Ret (Err (ESentinel ErrUnsupported))
  else
    do _ <- stop env serviceName stopTimeout;      (* a failure is printed *)
    uninstall env serviceName.

(** What is printed: [None] is "not installed". *)
Definition cmdServiceStatus (env : nat -> answer) (supported : bool) : scmM (res (option SvcManager.State)) :=
  if negb supported then Ret (Err (ESentinel ErrUnsupported))
  else
    do s <- status env serviceName;
    Ret (match s.2 with
         | Some e => if errors_Is e ErrNotInstalled then Ok None else Err e
         | None => Ok (Some s.1)
         end).

Definition requireWindows {A} (supported : bool) (f : scmM (res A)) : scmM (res A) :=
  if negb supported then Ret (Err (ESentinel ErrUnsupported)) else f.

(** [cmdService]: [ServiceUsage] for a missing or unknown subcommand. *)
Inductive service_outcome :=
| ServiceUsage
| ServiceDone (r : res unit)
| ServiceReports (r : res (option SvcManager.State)).

Definition cmdService (Abs : string -> res string) (beside : string -> string) (env : nat -> answer) (supported : bool)
    (executable : res string) (parse : list string -> option install_flags) (args : list string)
    : option (scmM service_outcome) :=
  let done (p : scmM (res unit)) := Some (do r <- p; Ret (ServiceDone r)) in
  match args with
  | [] => Some (Ret ServiceUsage)
  | name :: args' =>
      if bool_decide (name = "install") then
        match parse args' with
        | None => None                                       (* exits with the usage text *)
        | Some f => done (cmdServiceInstall Abs beside env supported executable f)
        end
      else if bool_decide (name = "uninstall") then done (cmdServiceUninstall env supported)
      else if bool_decide (name = "start") then done (requireWindows supported (start env serviceName))
      else if bool_decide (name = "stop") then
        done (requireWindows supported
          (do r <- stop env serviceName stopTimeout; Ret (default (Err (EMsg "not reached")) r)))
      else if bool_decide (name = "status") then
        Some (do r <- cmdServiceStatus env supported; Ret (ServiceReports r))
      else Some (Ret ServiceUsage)
  end.

(** ** Properties *)

(** The arguments a program started with [cmdline] sees. *)
Definition argv_of (cmdline : string) : list string := string_of_bytes <$> commandLineToArgv (bytes_of_string cmdline).

Lemma argv_of_cmdline cfg :
  exe_quotable (bytes_of_string (sc_ExePath cfg)) = true ->
  Forall (fun a => quotable (bytes_of_string a) = true) (sc_Args cfg) ->
  argv_of (cmdline_of cfg) = sc_ExePath cfg :: sc_Args cfg.
Proof.
  intros He Ha. unfold argv_of, cmdline_of. rewrite bytes_of_string_of_bytes, service_cmdline_split.
  - cbn [fmap list_fmap]. rewrite string_of_bytes_of_string. f_equal.
    rewrite <- list_fmap_compose. rewrite <- (list_fmap_id (sc_Args cfg)) at 2. apply list_fmap_ext.
    intros ? a _. cbn. apply string_of_bytes_of_string.
  - done.
  - by apply Forall_fmap.
Qed.

(** The options written at install, read at start. *)
Lemma parse_run_options ParseUint ParseDuration f dir :
  parse_run_flags ParseUint ParseDuration (flag_args (run_options f dir))
  = Some (mkRunFlags (if_relayAddr f) dir "" (if_target f) "res_default" 16 0 0 (if_controlAddr f) (if_logLevel f)).
Proof.
  unfold parse_run_flags. rewrite flag_parse_args.
  2: { unfold run_options. apply Forall_app. split; [|case_bool_decide; [done|]];
       repeat (constructor; [split; [set_solver | vm_compute; reflexivity]|]); constructor. }
  unfold run_options, numeric. case_bool_decide as E; cbn [foldl app fst snd]; simplify_map_eq; [by rewrite E | done].
Qed.

(** C31.  A service runs as it was installed: when [service install] succeeds,
    the manager has created the service with one command line and set it to
    restart, and the program started with that command line by the rules Go
    splits it runs [run] with exactly the addresses, target, state directory
    (made absolute) and log level given, provided the arguments are ones the
    quoting can carry. *)
Theorem service_runs_as_installed ParseUint ParseDuration Abs beside env exe0 f w w' exe dir :
  Abs exe0 = Ok exe -> Abs (if bool_decide (if_stateDir f = "") then beside exe else if_stateDir f) = Ok dir ->
  exe_quotable (bytes_of_string exe) = true ->
  Forall (fun a => quotable (bytes_of_string a) = true) [if_relayAddr f; dir; if_target f; if_logLevel f; if_controlAddr f] ->
  run (cmdServiceInstall Abs beside env true (Ok exe0) f) w = Some (Ok tt, w') ->
  exists scm svc cmdline args r,
    (CreateService scm serviceName serviceDisplayName cmdline, svc) ∈ sm_log w' /\ svc <> 0
    /\ (ChangeServiceConfig2 svc (FailureActions 86400 [5000; 30000; 60000]), r) ∈ sm_log w' /\ r <> 0
    /\ sar_agent (argv_of cmdline) = ARun args
    /\ parse_run_flags ParseUint ParseDuration args
       = Some (mkRunFlags (if_relayAddr f) dir "" (if_target f) "res_default" 16 0 0 (if_controlAddr f) (if_logLevel f)).
Proof.
  intros HA HD He Hq. unfold cmdServiceInstall. cbn [negb]. rewrite HA. cbv zeta. rewrite HD.
  intros (scm & svc & rs & r1 & r2 & Hscm & Hsvc & Hl & Hrs & E)%install_Ok.
  change (configs (service_config_of exe (runArgs f dir)))
    with [Description serviceDescription; DelayedAutoStart true; FailureActions 86400 [5000; 30000; 60000]] in *.
  destruct rs as [|ra [|rb [|rc []]]]; try done. rewrite !Forall_cons in Hrs. destruct Hrs as (_ & _ & Hrc & _).
  exists scm, svc, (cmdline_of (service_config_of exe (runArgs f dir))), (flag_args (run_options f dir)), rc.
  rewrite E. split; [set_solver|]. split; [done|]. split; [set_solver|]. split; [done|].
  split; [|apply parse_run_options]. rewrite argv_of_cmdline; [done | done|].
  rewrite !Forall_cons in Hq. destruct Hq as (Q1 & Q2 & Q3 & Q4 & Q5 & _).
  cbn [sc_Args service_config_of]. unfold runArgs, run_options, flag_args. constructor; [done|].
  destruct (bool_decide (if_controlAddr f = "")); cbn [app fmap list_fmap concat]; repeat (constructor; [done|]); constructor.
Qed.

(** The [-target] shorthand is the resource file with one entry: for every
    identity the agent starts with the one exactly when it starts with the
    other, and then serves the same resources. *)
Theorem shorthand_is_file target resourceID file id l :
  (resolveResources "" target resourceID file = Ok l /\ agent_New id l = Ok tt)
  <-> (LoadAllowlist (Some (Some [mkResource resourceID resourceID "tcp" target 0 0])) = Ok l /\ agent_New id l = Ok tt).
Proof.
  unfold resolveResources, LoadAllowlist, load_loop, validateResource.
  cbn [rs_ResourceID rs_Protocol rs_Target rs_MaxDuration].
  rewrite (bool_decide_true ("" = "")) by done. rewrite (bool_decide_true ("tcp" = "tcp")) by done. cbn [negb andb].
  rewrite lookup_empty, insert_empty. cbn [Z.ltb Z.compare].
  destruct (bool_decide (resourceID = "")) eqn:Hr; cbn [negb].
  { destruct (negb (bool_decide (target = ""))); by split; intros [? _]. }
  destruct (ValidateTarget target) as [[]|e] eqn:Ev.
  - rewrite (bool_decide_false (target = "")) by (by intros ->). cbn [negb].
    rewrite bool_decide_false; [done|]. apply map_singleton_ne_empty || apply insert_non_empty.
  - split; [|by intros [? _]]. intros [H1 H2]. exfalso. revert H1. destruct (negb (bool_decide (target = ""))); [|done].
    intros [= <-]. revert H2. unfold agent_New. destruct id as [id|]; [|done].
    rewrite map_to_list_singleton. cbn [forallb snd rs_Target]. rewrite Ev. cbn [andb negb].
    clear Hr. by case_bool_decide.
Qed.

(** ** Witnesses *)

Definition sa_flags : install_flags := mkInstallFlags "relay.example:443" "control.example:8443" "" "127.0.0.1:8080" "info".

Definition sa_exe : string := "C:" +:+ string_of_bytes [x5c] +:+ "Program Files" +:+ string_of_bytes [x5c] +:+ "sar-agent.exe".

Definition sa_dir : string := "C:" +:+ string_of_bytes [x5c] +:+ "Program Files" +:+ string_of_bytes [x5c] +:+ "agent-state".

Definition sa_env (n : nat) : answer := mkAnswer 7 0 0 0.

Lemma service_runs_as_installed_witness :
  exists w' scm svc cmdline args,
    run (cmdServiceInstall Ok (fun _ => sa_dir) sa_env true (Ok sa_exe) sa_flags) (mkScm 0 []) = Some (Ok tt, w')
    /\ (CreateService scm serviceName serviceDisplayName cmdline, svc) ∈ sm_log w'
    /\ sar_agent (argv_of cmdline) = ARun args
    /\ parse_run_flags (fun _ => None) (fun _ => None) args
       = Some (mkRunFlags "relay.example:443" sa_dir "" "127.0.0.1:8080" "res_default" 16 0 0 "control.example:8443" "info").
Proof.
  destruct (run (cmdServiceInstall Ok (fun _ => sa_dir) sa_env true (Ok sa_exe) sa_flags) (mkScm 0 [])) as [[r w']|] eqn:E.
  2: { exfalso. assert (option_map (fun _ => tt)
         (run (cmdServiceInstall Ok (fun _ => sa_dir) sa_env true (Ok sa_exe) sa_flags) (mkScm 0 [])) = Some tt) as H
         by (vm_compute; reflexivity). rewrite E in H. discriminate H. }
  assert (option_map fst (run (cmdServiceInstall Ok (fun _ => sa_dir) sa_env true (Ok sa_exe) sa_flags) (mkScm 0 []))
          = Some (Ok tt)) as Hr by (vm_compute; reflexivity).
  rewrite E in Hr. injection Hr as ->.
  destruct (service_runs_as_installed (fun _ => None) (fun _ => None) Ok (fun _ => sa_dir) sa_env sa_exe sa_flags
    (mkScm 0 []) w' sa_exe sa_dir) as (scm & svc & cmdline & args & r & H1 & _ & _ & _ & H2 & H3).
  - reflexivity.
  - reflexivity.
  - vm_compute; reflexivity.
  - repeat constructor; vm_compute; reflexivity.
  - exact E.
  - exists w', scm, svc, cmdline, args. split; [reflexivity|]. split; [exact H1|]. split; [exact H2 | exact H3].
Defined.
