(* ===== verification/NetWatch.v ===== *)
(** * Watching the network

    [src/internal/netwatch]: [Watch] with its lossy one-slot channel, the
    fingerprint of the machine's addresses, the poller, and the Windows watcher
    that adds the system's own notifications.  The watcher's goroutines are the
    steps of one state machine; what the system reports is an argument of a
    step. *)

From stdpp Require Import sorting.
From S2P Require Import Prelude GoErrors GoTime NetAddr.

Definition PollInterval : duration := 10 * Second.

(** ** The fingerprint *)

Definition FlagUp : Z := 1.
Definition FlagLoopback : Z := 4.

Record Interface := mkInterface {
  if_Name : list Z;
  if_Flags : Z;
  if_Addrs : res (list (list Z))        (* [iface.Addrs()], as text *)
}.

(** Go compares strings byte by byte. *)
Fixpoint string_le (a b : list Z) : Prop :=
  match a, b with
  | [], _ => True
  | _ :: _, [] => False
  | x :: a', y :: b' => x < y \/ (x = y /\ string_le a' b')
  end.

#[global] Instance string_le_dec : RelDecision string_le.
Proof.
  intros a. induction a as [|x a IH]; intros [|y b]; cbn; try (left; done); try (right; tauto).
  destruct (decide (x < y)); [left; tauto|]. destruct (decide (x = y)); [|right; tauto].
  destruct (IH b); [left; tauto|right; tauto].
Defined.

(** [iface.Flags&net.FlagUp == 0 || iface.Flags&net.FlagLoopback != 0] skips it;
    so does an error reading its addresses. *)
Definition parts_of (i : Interface) : list (list Z) :=
  if (Z.land (if_Flags i) FlagUp =? 0) || negb (Z.land (if_Flags i) FlagLoopback =? 0) then []
  else match if_Addrs i with
       | Err _ => []
       | Ok addrs => (fun a => if_Name i ++ 61 :: a) <$> addrs
       end.

(** [strings.Join(parts, ",")]. *)
Fixpoint join_comma (parts : list (list Z)) : list Z :=
  match parts with
  | [] => []
  | [p] => p
  | p :: rest => p ++ 44 :: join_comma rest
  end.

(** [net.Interfaces()] fails with a text, or lists the interfaces. *)
Definition addressFingerprint (ifaces : result (list Z) (list Interface)) : list Z :=
  match ifaces with
  | Err text => code "error:" ++ text
  | Ok l => join_comma (merge_sort string_le (l ≫= parts_of))
  end.

(** ** The watchers *)

(** Both at once: [native] says whether this is the Windows watcher, which runs
    the poller beside two goroutines blocked in the system. *)
Record Watcher := mkWatcher {
  wt_native : bool;
  wt_ctx : bool;                 (* the context is done *)
  wt_last : list Z;              (* the poller's last fingerprint *)
  wt_pollDone : bool;            (* the poller has returned *)
  wt_events : nat;               (* the events channel, capacity 2 *)
  wt_addrAlive : bool;
  wt_routeAlive : bool;          (* the goroutines in NotifyAddrChange, NotifyRouteChange *)
  wt_pending : bool;             (* the channel returned by Watch, capacity 1 *)
  wt_returned : bool;            (* watch has returned *)
  wt_closed : bool;              (* the channel is closed *)
  wt_panics : bool               (* a send on a closed channel *)
}.

Definition Watch (native : bool) (first : list Z) : Watcher :=
  mkWatcher native false first false 0 native native false false false false.

(** [notify]: a send that drops the signal when one is pending. *)
Definition notify (w : Watcher) : Watcher :=
  mkWatcher (wt_native w) (wt_ctx w) (wt_last w) (wt_pollDone w) (wt_events w) (wt_addrAlive w) (wt_routeAlive w)
    (wt_pending w || negb (wt_closed w)) (wt_returned w) (wt_closed w) (wt_panics w || wt_closed w).

Definition set_last (l : list Z) (w : Watcher) : Watcher :=
  mkWatcher (wt_native w) (wt_ctx w) l (wt_pollDone w) (wt_events w) (wt_addrAlive w) (wt_routeAlive w)
    (wt_pending w) (wt_returned w) (wt_closed w) (wt_panics w).

Definition set_events (n : nat) (addr route : bool) (w : Watcher) : Watcher :=
  mkWatcher (wt_native w) (wt_ctx w) (wt_last w) (wt_pollDone w) n addr route
    (wt_pending w) (wt_returned w) (wt_closed w) (wt_panics w).

Definition set_end (ctx pollDone returned closed : bool) (w : Watcher) : Watcher :=
  mkWatcher (wt_native w) ctx (wt_last w) pollDone (wt_events w) (wt_addrAlive w) (wt_routeAlive w)
    (wt_pending w) returned closed (wt_panics w).

(** [case <-ticker.C] of [pollAddresses]. *)
Definition poll_tick (current : list Z) (w : Watcher) : option Watcher :=
  if wt_pollDone w then None
  else if bool_decide (current = wt_last w) then Some w else Some (notify (set_last current w)).

(** [case <-ctx.Done()] of [pollAddresses]. *)
Definition poll_stop (w : Watcher) : option Watcher :=
  if wt_ctx w && negb (wt_pollDone w) then Some (set_end true true (wt_returned w) (wt_closed w) w) else None.

(** One round of [blockingNotify]: the call returns [r]; zero is success. *)
Definition blockingNotify (route : bool) (r : Z) (w : Watcher) : option Watcher :=
  if negb (if route then wt_routeAlive w else wt_addrAlive w) then None
  else if negb (r =? 0) then
    Some (set_events (wt_events w) (if route then wt_addrAlive w else false) (if route then false else wt_routeAlive w) w)
  else Some (set_events (if (wt_events w <? 2)%nat then S (wt_events w) else wt_events w) (wt_addrAlive w) (wt_routeAlive w) w).

(** [case <-events] of the Windows [watch]. *)
Definition watch_event (w : Watcher) : option Watcher :=
  match wt_events w with
  | S n => if wt_native w && negb (wt_returned w)
           then Some (notify (set_events n (wt_addrAlive w) (wt_routeAlive w) w)) else None
  | O => None
  end.

(** [watch] returns: when the poller has, which it waits for on Windows and is
    itself elsewhere. *)
Definition watch_return (w : Watcher) : option Watcher :=
  if wt_ctx w && wt_pollDone w && negb (wt_returned w) then Some (set_end true true true (wt_closed w) w) else None.

(** The deferred [close(ch)]. *)
Definition watch_close (w : Watcher) : option Watcher :=
  if wt_returned w && negb (wt_closed w) then Some (set_end (wt_ctx w) (wt_pollDone w) true true w) else None.

(** The consumer takes a pending signal. *)
Definition watch_recv (w : Watcher) : option Watcher :=
  if wt_pending w then
    Some (mkWatcher (wt_native w) (wt_ctx w) (wt_last w) (wt_pollDone w) (wt_events w) (wt_addrAlive w) (wt_routeAlive w)
            false (wt_returned w) (wt_closed w) (wt_panics w))
  else None.

Definition watch_cancel (w : Watcher) : option Watcher :=
  Some (set_end true (wt_pollDone w) (wt_returned w) (wt_closed w) w).

Inductive watch_step :=
| WTick (current : list Z) | WPollStop | WSystem (route : bool) (r : Z) | WEvent | WReturn | WClose | WRecv | WCancel.

Definition wstep (e : watch_step) : Watcher -> option Watcher :=
  match e with
  | WTick current => poll_tick current
  | WPollStop => poll_stop
  | WSystem route r => blockingNotify route r
  | WEvent => watch_event
  | WReturn => watch_return
  | WClose => watch_close
  | WRecv => watch_recv
  | WCancel => watch_cancel
  end.

Fixpoint wsteps (es : list watch_step) (w : Watcher) : option Watcher :=
  match es with
  | [] => Some w
  | e :: es' => match wstep e w with Some w' => wsteps es' w' | None => None end
  end.

(** ** Lemmas: the order of strings *)

#[local] Instance string_le_trans : Transitive string_le.
Proof.
  intros a. induction a as [|x a IH]; intros [|y b] [|z c]; cbn; try tauto.
  intros [|[-> H1]] [|[-> H2]]; [left; lia|left; lia|left; lia|right; eauto].
Qed.

#[local] Instance string_le_total : Total string_le.
Proof.
  intros a. induction a as [|x a IH]; intros [|y b]; cbn; try tauto.
  destruct (Z.lt_trichotomy x y) as [|[->|]]; [left; tauto| |right; tauto]. destruct (IH b); tauto.
Qed.

#[local] Instance string_le_antisymm : AntiSymm (=) string_le.
Proof.
  intros a. induction a as [|x a IH]; intros [|y b]; cbn; try done.
  intros [|[-> H1]] [|[E H2]]; try lia. f_equal. by apply IH.
Qed.

Lemma sort_perm l k : l ≡ₚ k -> merge_sort string_le l = merge_sort string_le k.
Proof.
  intros H. apply (Sorted_unique string_le); [apply (Sorted_merge_sort string_le)..|].
  by rewrite !merge_sort_Permutation.
Qed.

(** A part without a comma: it ends at the next one. *)
Definition plain_part (p : list Z) : Prop := (44 ∉ p) /\ p <> [].

Lemma join_comma_inj l : forall k,
  Forall plain_part l -> Forall plain_part k -> join_comma l = join_comma k -> l = k.
Proof.
  assert (Hsplit : forall p q (r s : list Z), 44 ∉ p -> 44 ∉ q -> p ++ 44 :: r = q ++ 44 :: s -> p = q /\ r = s).
  { induction p as [|x p IH]; intros [|y q] r s Hp Hq E; cbn in E.
    - by injection E as <-.
    - injection E as <- E. set_solver.
    - injection E as -> E. set_solver.
    - injection E as <- E. destruct (IH q r s) as [-> ->]; [set_solver..|done|done]. }
  assert (Hno : forall p q (r : list Z), 44 ∉ p -> p <> q ++ 44 :: r) by (intros p q r Hp ->; set_solver).
  induction l as [|p l IH]; intros k Hl Hk E.
  - destruct k as [|q [|q' k]]; [done| |]; inversion_clear Hk as [|? ? [Hq Hqn] _]; cbn in E; [by subst|by destruct q].
  - inversion_clear Hl as [|? ? [Hp Hpn] Hl']. destruct k as [|q k].
    { destruct l; cbn in E; [by subst|by destruct p]. }
    inversion_clear Hk as [|? ? [Hq Hqn] Hk']. destruct l as [|p' l], k as [|q' k]; cbn in E.
    + by subst.
    + by destruct (Hno p q (join_comma (q' :: k))).
    + by destruct (Hno q p (join_comma (p' :: l))).
    + apply Hsplit in E as [-> E]; [|done|done]. f_equal. apply IH; done.
Qed.

(** ** Lemmas: the watcher *)

Record watch_wf (w : Watcher) : Prop := {
  ww_events : (wt_events w <= 2)%nat;
  ww_returned : wt_returned w = true -> wt_ctx w = true /\ wt_pollDone w = true;
  ww_closed : wt_closed w = true -> wt_returned w = true;
  ww_panics : wt_panics w = false
}.

Lemma Watch_wf native first : watch_wf (Watch native first).
Proof. split; cbn; done || lia. Qed.

(** A send happens only while [watch] has not returned. *)
Lemma notify_wf w : watch_wf w -> wt_closed w = false -> watch_wf (notify w).
Proof. intros [H1 H2 H3 H4] Hc. split; cbn; auto. by rewrite H4, Hc. Qed.

Lemma wstep_wf e w w' : watch_wf w -> wstep e w = Some w' -> watch_wf w'.
Proof.
  intros Hw. pose proof Hw as [H1 H2 H3 H4].
  assert (Hopen : wt_pollDone w = false \/ wt_returned w = false -> wt_closed w = false).
  { intros Ho. destruct (wt_closed w); [|done]. destruct (H2 (H3 eq_refl)) as [_ Hp]. specialize (H3 eq_refl).
    destruct Ho; congruence. }
  destruct e as [cur| |route r| | | | |]; cbn.
  - unfold poll_tick. destruct (wt_pollDone w) eqn:E; [done|]. case_bool_decide; intros [= <-]; [done|].
    apply notify_wf; [by destruct Hw; split|apply Hopen; auto].
  - unfold poll_stop. destruct (wt_ctx w) eqn:E, (wt_pollDone w) eqn:E2; try done. intros [= <-]. split; cbn; auto.
  - unfold blockingNotify. destruct (negb _); [done|]. destruct (negb (r =? 0)); intros [= <-]; split; cbn; auto.
    destruct (Nat.leb_spec (wt_events w) 1); lia.
  - unfold watch_event. destruct (wt_events w) as [|n] eqn:E; [done|]. destruct (wt_native w), (wt_returned w) eqn:Er; try done.
    intros [= <-]. apply notify_wf; [destruct Hw; split; cbn; auto; lia|apply Hopen; auto].
  - unfold watch_return. destruct (wt_ctx w) eqn:E1, (wt_pollDone w) eqn:E2, (wt_returned w) eqn:E3; try done.
    intros [= <-]. split; cbn; auto.
  - unfold watch_close. destruct (wt_returned w) eqn:E1, (wt_closed w) eqn:E2; try done. intros [= <-]. split; cbn; auto.
  - unfold watch_recv. destruct (wt_pending w); [|done]. intros [= <-]. split; cbn; auto.
  - intros [= <-]. split; cbn; auto. intros Hr. split; [done|]. by apply H2.
Qed.

Lemma wsteps_wf es : forall w w', watch_wf w -> wsteps es w = Some w' -> watch_wf w'.
Proof.
  induction es as [|e es IH]; intros w w' Hw; cbn; [by intros [= <-]|].
  destruct (wstep e w) as [w1|] eqn:E; [|done]. apply IH. by eapply wstep_wf.
Qed.

(** What the poller saw, one reading after the other, starting from [last]: did
    one differ from the one before? *)
Fixpoint changed (last : list Z) (es : list watch_step) : bool :=
  match es with
  | [] => false
  | WTick c :: es' => negb (bool_decide (c = last)) || changed c es'
  | _ :: es' => changed last es'
  end.

(** The last reading of a history that began with [first]. *)
Fixpoint last_reading (first : list Z) (es : list watch_step) : list Z :=
  match es with
  | [] => first
  | WTick c :: es' => last_reading c es'
  | _ :: es' => last_reading first es'
  end.

Definition is_recv (e : watch_step) : bool := match e with WRecv => true | _ => false end.
Definition is_event (e : watch_step) : bool := match e with WEvent => true | _ => false end.

(** Until the consumer looks, a signal is pending exactly when there was one
    before, a reading changed, or the system's notification was passed on. *)
Lemma pending_exact es : forall w w',
  watch_wf w -> wsteps es w = Some w' -> forallb (fun e => negb (is_recv e)) es = true ->
  wt_pending w' = wt_pending w || changed (wt_last w) es || existsb is_event es.
Proof.
  induction es as [|e es IH]; intros w w' Hw; cbn; [intros [= <-] _; by rewrite !orb_false_r|].
  destruct (wstep e w) as [w1|] eqn:E; [|done]. intros Hs [He Hes]%andb_true_iff.
  pose proof (wstep_wf _ _ _ Hw E) as Hw1. rewrite (IH w1 w' Hw1 Hs Hes). clear IH Hs Hes w'. pose proof Hw as [_ H2 H3 _].
  destruct e as [cur| |route r| | | | |]; cbn in *.
  - unfold poll_tick in E. destruct (wt_pollDone w) eqn:Ep; [done|].
    assert (wt_closed w = false) as Hc.
    { destruct (wt_closed w); [|done]. destruct (H2 (H3 eq_refl)); congruence. }
    case_bool_decide as Hcur; injection E as <-; cbn; [by subst|]. rewrite Hc. by destruct (wt_pending w).
  - unfold poll_stop in E. destruct (wt_ctx w && _); [|done]. by injection E as <-.
  - unfold blockingNotify in E. destruct (negb _); [done|]. destruct (negb (r =? 0)); by injection E as <-.
  - unfold watch_event in E. destruct (wt_events w); [done|]. destruct (wt_native w), (wt_returned w) eqn:Er; try done.
    assert (wt_closed w = false) as Hc by (destruct (wt_closed w); [by specialize (H3 eq_refl)|done]).
    injection E as <-. cbn. rewrite Hc. by destruct (wt_pending w), (changed (wt_last w) es).
  - unfold watch_return in E. destruct (wt_ctx w && _ && _); [|done]. by injection E as <-.
  - unfold watch_close in E. destruct (wt_returned w && _); [|done]. by injection E as <-.
  - done.
  - by injection E as <-.
Qed.

(** The poller compares with the reading before, whether it reported it or not. *)
Lemma last_exact es : forall w w', wsteps es w = Some w' -> wt_last w' = last_reading (wt_last w) es.
Proof.
  induction es as [|e es IH]; intros w w'; cbn; [by intros [= <-]|].
  destruct (wstep e w) as [w1|] eqn:E; [|done]. intros ->%IH.
  assert (wt_last w1 = match e with WTick c => c | _ => wt_last w end) as -> by
    (destruct e as [c| | | | | | |]; cbn in E;
     unfold poll_tick, poll_stop, blockingNotify, watch_event, watch_return, watch_close, watch_recv, watch_cancel in E;
     repeat case_match; simplify_eq/=; by repeat case_bool_decide).
  by destruct e.
Qed.

(** ** Properties *)

(** C33.  A change is never missed and never made up: whatever the poller, the
    system's notifications, the consumer and the shutdown do, no goroutine ever
    sends on the closed channel; from any point the consumer looks at, a signal
    is pending exactly when since then some reading differed from the one
    before or a notification of the system was passed on; and two readings give the same
    fingerprint exactly when the machine has the same usable addresses, in
    whatever order they were listed. *)
Theorem watch_exact native first es1 w :
  wsteps es1 (Watch native first) = Some w ->
  wt_panics w = false
  /\ (wt_pending w = false -> forall es2 w', wsteps es2 w = Some w' -> forallb (fun e => negb (is_recv e)) es2 = true ->
        wt_pending w' = changed (last_reading first es1) es2 || existsb is_event es2)
  /\ (forall l k, Forall plain_part (l ≫= parts_of) -> Forall plain_part (k ≫= parts_of) ->
        addressFingerprint (Ok l) = addressFingerprint (Ok k) <-> (l ≫= parts_of) ≡ₚ (k ≫= parts_of)).
Proof.
  intros Hr. pose proof (wsteps_wf _ _ _ (Watch_wf native first) Hr) as Hw. split_and!.
  - apply Hw.
  - intros Hp es2 w' H2 Hnr. by rewrite (pending_exact es2 w w' Hw H2 Hnr), Hp, (last_exact _ _ _ Hr).
  - intros l k Hl Hk. split; cbn.
    + intros E. apply join_comma_inj in E; [|by rewrite merge_sort_Permutation..].
      by rewrite <- (merge_sort_Permutation string_le (l ≫= parts_of)), E, merge_sort_Permutation.
    + intros E. by rewrite (sort_perm _ _ E).
Qed.

(** Interfaces that are down or loopback are no news. *)
Lemma fingerprint_ignores i l k :
  Z.land (if_Flags i) FlagUp = 0 \/ Z.land (if_Flags i) FlagLoopback <> 0 ->
  addressFingerprint (Ok (l ++ i :: k)) = addressFingerprint (Ok (l ++ k)).
Proof.
  intros Hi. cbn. rewrite !bind_app. cbn. assert (parts_of i = []) as ->; [|done]. unfold parts_of.
  destruct Hi as [->|Hi]; [done|]. by rewrite (proj2 (Z.eqb_neq _ _) Hi), orb_true_r.
Qed.

(** Once cancelled, the watcher can always close its channel: the poller stops,
    [watch] returns, and the channel is closed, which wakes the consumer. *)
Lemma watch_closes native first es w :
  wsteps es (Watch native first) = Some w -> wt_ctx w = true ->
  exists es' w', wsteps es' w = Some w' /\ wt_closed w' = true /\ (length es' <= 3)%nat.
Proof.
  intros Hr Hc. pose proof (wsteps_wf _ _ _ (Watch_wf native first) Hr) as [_ H2 H3 _].
  destruct (wt_closed w) eqn:E1; [exists [], w; cbn; auto with lia|].
  destruct (wt_returned w) eqn:E2.
  { exists [WClose]. cbn. unfold watch_close. rewrite E1, E2. eauto with lia. }
  destruct (wt_pollDone w) eqn:E3.
  { exists [WReturn; WClose]. cbn. unfold watch_return. rewrite Hc, E2, E3. cbn. unfold watch_close. cbn. rewrite E1. eauto with lia. }
  exists [WPollStop; WReturn; WClose]. cbn. unfold poll_stop. rewrite Hc, E3. cbn. unfold watch_return. cbn. rewrite E2. cbn.
  unfold watch_close. cbn. rewrite E1. eauto with lia.
Qed.

(** ** Witnesses *)

Definition demo_iface : Interface := mkInterface (code "eth0") 3 (Ok [code "192.0.2.7/24"]).

Lemma watch_exact_witness :
  exists w w', wsteps [] (Watch true []) = Some w
    /\ wsteps [WSystem false 0; WTick (addressFingerprint (Ok [demo_iface]))] w = Some w'
    /\ wt_pending w' = true.
Proof.
  exists (Watch true []). destruct (watch_exact true [] [] (Watch true [])) as (_ & H & _); [reflexivity|].
  eexists. split; [reflexivity|]. split; [reflexivity|].
  rewrite (H eq_refl [WSystem false 0; WTick (addressFingerprint (Ok [demo_iface]))] _ eq_refl eq_refl).
  vm_compute. reflexivity.
Defined.
