(* ===== verification/Logging.v ===== *)
(** * Logging

    [src/internal/logging]: levels, the handler that mirrors notable records to
    the platform's log (logging.go), the Windows event log with its registry
    entries (eventlog_windows.go), and the platforms without one
    (eventlog_other.go).

    Of log/slog the model has records, attributes with their values as text, and
    the JSON handler as its level and the [WithAttrs] and [WithGroup] calls it
    was derived by.  A call into Windows is an action on the registry and the
    open handles; whether it succeeds is an argument. *)

From S2P Require Import Prelude GoErrors Proc Enrollment.
Open Scope proc_scope.

(** ** Levels *)

Definition LevelDebug : Z := -4.
Definition LevelInfo : Z := 0.
Definition LevelWarn : Z := 4.
Definition LevelError : Z := 8.

(** [strings.ToLower], as far as the result can be an ASCII letter: the capitals,
    and U+0130 (bytes C4 B0), whose lower case is [i].  (U+212A, the Kelvin sign,
    has lower case [k], which no level name contains.) *)
Fixpoint ToLower_bytes (l : list byte) : list byte :=
  match l with
  | [] => []
  | b :: l' =>
      let z := byte_to_Z b in
      if (65 <=? z) && (z <=? 90) then byte_of_Z (z + 32) :: ToLower_bytes l'
      else
        match l' with
        | c :: l'' =>
            if (z =? 196) && (byte_to_Z c =? 176) then byte_of_Z 105 :: ToLower_bytes l''
            else b :: ToLower_bytes l'
        | [] => [b]
        end
  end.

Definition ToLower (s : string) : string := string_of_bytes (ToLower_bytes (bytes_of_string s)).

Definition parseLevel (s : string) : Z :=
  let s := ToLower (TrimSpace s) in
  if bool_decide (s = "debug") then LevelDebug
  else if bool_decide (s = "warn") || bool_decide (s = "warning") then LevelWarn
  else if bool_decide (s = "error") then LevelError
  else LevelInfo.

(** ** Records and handlers *)

Record Attr := mkAttr { at_Key : string; at_Value : string }.

Record LogRecord := mkLogRecord { lr_Level : Z; lr_Message : string; lr_Attrs : list Attr }.

Inductive derivation := DAttrs (l : list Attr) | DGroup (name : string).

Record JSONHandler := mkJSON { jh_Level : Z; jh_With : list derivation }.

(** [New]. *)
Definition New_logger (level : string) : JSONHandler := mkJSON (parseLevel level) [].

Definition json_Enabled (h : JSONHandler) (l : Z) : bool := jh_Level h <=? l.

Definition json_With (d : derivation) (h : JSONHandler) : JSONHandler :=
  mkJSON (jh_Level h) (jh_With h ++ [d]).

(** [teeHandler]; [th_sink] is whether the sink is not nil. *)
Record teeHandler := mkTee {
  th_primary : JSONHandler;
  th_sink : bool;
  th_minLevel : Z;
  th_attrs : list Attr;
  th_group : string
}.

Definition render_attr (a : Attr) : string := " " ++ at_Key a ++ "=" ++ at_Value a.

Fixpoint render_attrs (l : list Attr) : string :=
  match l with
  | [] => ""
  | a :: l' => render_attr a ++ render_attrs l'
  end.

(** [renderEvent]: the message, the handler's attributes, the record's. *)
Definition renderEvent (r : LogRecord) (extra : list Attr) : string :=
  lr_Message r ++ render_attrs extra ++ render_attrs (lr_Attrs r).

Definition Enabled (h : teeHandler) (l : Z) : bool := json_Enabled (th_primary h) l.

Definition WithAttrs (attrs : list Attr) (h : teeHandler) : teeHandler :=
  mkTee (json_With (DAttrs attrs) (th_primary h)) (th_sink h) (th_minLevel h) (th_attrs h ++ attrs) (th_group h).

Definition WithGroup (name : string) (h : teeHandler) : teeHandler :=
  mkTee (json_With (DGroup name) (th_primary h)) (th_sink h) (th_minLevel h) (th_attrs h) name.

(** ** What the handlers work on *)

Inductive reg_value := RegSZ (v : string) | RegExpandSZ (v : string) | RegDWORD (v : Z).

(** The registry under HKEY_LOCAL_MACHINE, the open registry handles, the open
    handles of RegisterEventSource, the last handle given out (zero is never
    one), the process's [eventLogWriter] by its handle, the JSON log and the
    event log (type, event id, text). *)
Record World := mkWorld {
  wd_keys : gmap string (gmap string reg_value);
  wd_handles : gset nat;
  wd_sources : gset nat;
  wd_last : nat;
  wd_writer : nat;
  wd_json : list (JSONHandler * LogRecord);
  wd_events : list (Z * Z * string)
}.

Definition with_keys k (w : World) : World :=
  mkWorld k (wd_handles w) (wd_sources w) (wd_last w) (wd_writer w) (wd_json w) (wd_events w).

Definition with_handles h n (w : World) : World :=
  mkWorld (wd_keys w) h (wd_sources w) n (wd_writer w) (wd_json w) (wd_events w).

Definition with_sources h n wr (w : World) : World :=
  mkWorld (wd_keys w) (wd_handles w) h n wr (wd_json w) (wd_events w).

Definition with_logs j e (w : World) : World :=
  mkWorld (wd_keys w) (wd_handles w) (wd_sources w) (wd_last w) (wd_writer w) j e.

(** ** The event log of Windows *)

Definition eventLogError : Z := 1.
Definition eventLogWarning : Z := 2.
Definition eventLogInformation : Z := 4.
Definition messageFile : string := "%SystemRoot%\System32\EventCreate.exe".
Definition eventTypesSupported : Z := Z.lor eventLogError (Z.lor eventLogWarning eventLogInformation).
Definition genericEventID : Z := 1000.

Definition eventSourceKey (source : string) : string :=
  "SYSTEM\CurrentControlSet\Services\EventLog\Application\" ++ source.

(** [syscall.UTF16FromString] refuses a string with a NUL in it. *)
Definition has_nul (s : string) : bool := existsb (fun b => byte_to_Z b =? 0) (bytes_of_string s).

Definition utf16 (s : string) : res unit := if has_nul s then Err (EMsg "EINVAL") else Ok tt.

(** [RegCreateKeyExW] opens a key, creating it if need be; [RegSetValueExW],
    [RegCloseKey] and [RegDeleteKeyW]. *)
Definition RegCreateKeyEx (ok : bool) (path : string) : proc World (option nat) :=
  act (fun w =>
    if negb ok then (None, w)
    else (Some (S (wd_last w)),
          with_handles ({[S (wd_last w)]} ∪ wd_handles w) (S (wd_last w))
            (with_keys (match wd_keys w !! path with Some _ => wd_keys w | None => <[path := ∅]> (wd_keys w) end) w))).

Definition RegSetValueEx (ok : bool) (path name : string) (v : reg_value) : proc World bool :=
  act (fun w => if negb ok then (false, w) else (true, with_keys (alter (insert name v) path (wd_keys w)) w)).

Definition RegCloseKey (h : nat) : proc World unit :=
  modify (fun w => with_handles (wd_handles w ∖ {[h]}) (wd_last w) w).

Definition RegDeleteKey (ok : bool) (path : string) : proc World bool :=
  act (fun w => if negb ok then (false, w) else (true, with_keys (delete path (wd_keys w)) w)).

(** A key handle stands for the path it was opened with. *)
Definition setStringValue (ok : bool) (key name value : string) (valueType : string -> reg_value) : proc World (option error) :=
  match utf16 name, utf16 value with
  | Err e, _ | Ok _, Err e => Ret (Some e)
  | Ok _, Ok _ =>
      do done <- RegSetValueEx ok key name (valueType value);
      Ret (if (done : bool) then None else Some (EMsg ("logging: set " ++ name)))
  end.

Definition setDWORDValue (ok : bool) (key name : string) (value : Z) : proc World (option error) :=
  match utf16 name with
  | Err e => Ret (Some e)
  | Ok _ =>
      do done <- RegSetValueEx ok key name (RegDWORD value);
      Ret (if (done : bool) then None else Some (EMsg ("logging: set " ++ name)))
  end.

(** [registerEventSource]; [create], [set1] and [set2] are how its calls go. *)
Definition registerEventSource (source : string) (create set1 set2 : bool) : proc World (option error) :=
  match utf16 (eventSourceKey source) with
  | Err e => Ret (Some e)
  | Ok _ =>
      do handle <- RegCreateKeyEx create (eventSourceKey source);
      match handle with
      | None => Ret (Some (EMsg "logging: create event source key"))
      | Some h =>
          do e1 <- setStringValue set1 (eventSourceKey source) "EventMessageFile" messageFile RegExpandSZ;
          do e <- match e1 with
                  | Some e => Ret (Some e)
                  | None => setDWORDValue set2 (eventSourceKey source) "TypesSupported" eventTypesSupported
                  end;
          do _ <- RegCloseKey h;
          Ret e
      end
  end.

Definition deregisterEventSource (source : string) (ok : bool) : proc World (option error) :=
  match utf16 (eventSourceKey source) with
  | Err e => Ret (Some e)
  | Ok _ =>
      do done <- RegDeleteKey ok (eventSourceKey source);
      Ret (if (done : bool) then None else Some (EMsg "logging: delete event source key"))
  end.

(** [openEventLog] ([newEventSink]). *)
Definition openEventLog (source : string) (ok : bool) : proc World (option error) :=
  match utf16 source with
  | Err e => Ret (Some e)
  | Ok _ =>
      act (fun w =>
        if negb ok then (Some (EMsg "logging: register event source"), w)
        else (None, with_sources ({[S (wd_last w)]} ∪ wd_sources w) (S (wd_last w)) (S (wd_last w)) w))
  end.

(** [newEventSink] elsewhere. *)
Definition newEventSink_other (source : string) : proc World (option error) :=
  Ret (Some (EMsg "logging: no event log on this platform")).

(** [eventLogWriter.close] ([Close]). *)
Definition writer_close : proc World unit :=
  modify (fun w =>
    if (wd_writer w =? 0)%nat then w
    else with_sources (wd_sources w ∖ {[wd_writer w]}) (wd_last w) 0 w).

(** [eventLogWriter.write]. *)
Definition writer_write (eventType : Z) (message : string) (ok : bool) : proc World (option error) :=
  act (fun w =>
    if (wd_writer w =? 0)%nat then (None, w)
    else
      match utf16 message with
      | Err e => (Some e, w)
      | Ok _ =>
          if negb ok then (Some (EMsg "logging: report event"), w)
          else (None, with_logs (wd_json w) (wd_events w ++ [(eventType, genericEventID, message)]) w)
      end).

Definition sink_Warn (msg : string) (ok : bool) : proc World (option error) := writer_write eventLogWarning msg ok.
Definition sink_Error (msg : string) (ok : bool) : proc World (option error) := writer_write eventLogError msg ok.

(** ** The logger *)

(** The JSON handler's [Handle]; [ok] is whether stderr takes the line. *)
Definition json_Handle (h : JSONHandler) (r : LogRecord) (ok : bool) : proc World (option error) :=
  act (fun w =>
    if ok then (None, with_logs (wd_json w ++ [(h, r)]) (wd_events w) w)
    else (Some (EMsg "write /dev/stderr"), w)).

(** [teeHandler.Handle]: the error of the sink is dropped. *)
Definition Handle (h : teeHandler) (r : LogRecord) (json_ok report_ok : bool) : proc World (option error) :=
  do err <- json_Handle (th_primary h) r json_ok;
  do _ <- (if (lr_Level r >=? th_minLevel h) && th_sink h then
             if lr_Level r >=? LevelError then sink_Error (renderEvent r (th_attrs h)) report_ok
             else sink_Warn (renderEvent r (th_attrs h)) report_ok
           else Ret None);
  Ret err.

(** [NewWithEventLog]; [newEventSink] is the platform's. *)
Definition NewWithEventLog (newEventSink : string -> proc World (option error)) (level source : string)
    : proc World ((JSONHandler + teeHandler) * option error) :=
  let base := New_logger level in
  do err <- newEventSink source;
  Ret match err with
      | Some e => (inl base, Some e)
      | None => (inr (mkTee base true LevelWarn [] ""), None)
      end.

(** [slog.Logger]: [With] and [WithGroup] derive a handler; a record is handed to
    the handler if it is enabled for the level, and the error is dropped. *)
Definition logger_with (l : JSONHandler + teeHandler) (d : derivation) : JSONHandler + teeHandler :=
  match l, d with
  | inl h, _ => inl (json_With d h)
  | inr h, DAttrs a => inr (WithAttrs a h)
  | inr h, DGroup g => inr (WithGroup g h)
  end.

Definition logger_log (l : JSONHandler + teeHandler) (r : LogRecord) (json_ok report_ok : bool) : proc World (option error) :=
  match l with
  | inl h => if json_Enabled h (lr_Level r) then json_Handle h r json_ok else Ret None
  | inr h => if Enabled h (lr_Level r) then Handle h r json_ok report_ok else Ret None
  end.

(** The function [NewWithEventLog] returns with the logger. *)
Definition closeLog (l : JSONHandler + teeHandler) : proc World unit :=
  match l with inl _ => Ret tt | inr _ => writer_close end.

(** What a program does with its logger. *)
Inductive log_op :=
| LLog (ds : list derivation) (r : LogRecord) (json_ok report_ok : bool)
| LClose.

Fixpoint log_run (l : JSONHandler + teeHandler) (ops : list log_op) : proc World unit :=
  match ops with
  | [] => Ret tt
  | LLog ds r j e :: ops' => do _ <- logger_log (foldl logger_with l ds) r j e; log_run l ops'
  | LClose :: ops' => do _ <- closeLog l; log_run l ops'
  end.

(** ** What the two logs should hold *)

(** The attributes a chain of derivations adds. *)
Definition attrs_of (ds : list derivation) : list Attr :=
  ds ≫= (fun d => match d with DAttrs l => l | DGroup _ => [] end).

(** The line an operation puts into the JSON log of a logger at [level]. *)
Definition json_line (level : Z) (op : log_op) : list (JSONHandler * LogRecord) :=
  match op with
  | LLog ds r true _ => if level <=? lr_Level r then [(mkJSON level ds, r)] else []
  | _ => []
  end.

(** The event it puts into the event log. *)
Definition event_line (level : Z) (op : log_op) : list (Z * Z * string) :=
  match op with
  | LLog ds r _ true =>
      let msg := renderEvent r (attrs_of ds) in
      if (Z.max level LevelWarn <=? lr_Level r) && negb (has_nul msg) then
        [(if LevelError <=? lr_Level r then eventLogError else eventLogWarning, genericEventID, msg)]
      else []
  | _ => []
  end.

Definition is_close (op : log_op) : bool := match op with LClose => true | _ => false end.

Fixpoint before_close (ops : list log_op) : list log_op :=
  match ops with
  | [] => []
  | op :: ops' => if is_close op then [] else op :: before_close ops'
  end.

(** A world in which the handles given out so far are those that may be open. *)
Definition fresh_handles (w : World) : Prop :=
  (forall h, h ∈ wd_handles w -> (h <= wd_last w)%nat) /\ (forall h, h ∈ wd_sources w -> (h <= wd_last w)%nat).

(** ** Lemmas *)

Lemma derive_json ds h : foldl logger_with (inl h) ds = inl (mkJSON (jh_Level h) (jh_With h ++ ds)).
Proof.
  revert h. induction ds as [|d ds IH]; intros [lv ws]; cbn; [by rewrite app_nil_r|].
  rewrite IH. cbn. by rewrite <- app_assoc.
Qed.

(** A derived handler keeps the level, the sink and the threshold, and collects
    the attributes in the order they were added; the last group is its group. *)
Lemma derive_tee ds h : exists g,
  foldl logger_with (inr h) ds
    = inr (mkTee (mkJSON (jh_Level (th_primary h)) (jh_With (th_primary h) ++ ds)) (th_sink h) (th_minLevel h)
             (th_attrs h ++ attrs_of ds) g).
Proof.
  revert h. induction ds as [|d ds IH]; intros [[lv ws] sk mn at_ g]; cbn.
  { exists g. by rewrite !app_nil_r. }
  destruct d as [l|n]; edestruct IH as [g' E]; exists g'; rewrite E; cbn; by rewrite <- ?app_assoc.
Qed.

Definition tee_of (level : Z) : JSONHandler + teeHandler := inr (mkTee (mkJSON level []) true LevelWarn [] "").

(** An event reaches an open event log unless its text has a NUL or the report fails. *)
Lemma write_one ty msg ok w : exists err,
  run (writer_write ty msg ok) w
  = Some (err, with_logs (wd_json w)
            (wd_events w ++ (if (wd_writer w =? 0)%nat || has_nul msg || negb ok then [] else [(ty, genericEventID, msg)])) w).
Proof.
  unfold writer_write, utf16. rewrite run_act. destruct w as [ks hs ss n wr js es]. cbn.
  destruct (wr =? 0)%nat, (has_nul msg), ok; cbn; rewrite ?app_nil_r; eauto.
Qed.

Lemma json_one h r ok w :
  run (json_Handle h r ok) w
  = Some (if ok then None else Some (EMsg "write /dev/stderr"),
          with_logs (wd_json w ++ (if ok then [(h, r)] else [])) (wd_events w) w).
Proof. unfold json_Handle. rewrite run_act. destruct w, ok; cbn; by rewrite ?app_nil_r. Qed.

(** One record through the mirroring logger, the writer open or closed. *)
Lemma log_one level ds r j e w :
  run (logger_log (foldl logger_with (tee_of level) ds) r j e) w
  = Some (if level <=? lr_Level r then (if j then None else Some (EMsg "write /dev/stderr")) else None,
          with_logs (wd_json w ++ json_line level (LLog ds r j e))
            (wd_events w ++ (if (wd_writer w =? 0)%nat then [] else event_line level (LLog ds r j e))) w).
Proof.
  destruct (derive_tee ds (mkTee (mkJSON level []) true LevelWarn [] "")) as [g E].
  unfold tee_of. rewrite E. unfold logger_log, Enabled, json_Enabled. cbn -[writer_write Handle].
  destruct (level <=? lr_Level r) eqn:El.
  2: { assert ((Z.max level LevelWarn <=? lr_Level r) = false) as -> by (unfold LevelWarn; lia).
       destruct w. cbn. by destruct j, e, (_ =? 0)%nat; rewrite ?app_nil_r. }
  assert ((Z.max level LevelWarn <=? lr_Level r) = (lr_Level r >=? LevelWarn)) as -> by (unfold LevelWarn; lia).
  unfold Handle. rewrite run_bind, json_one. cbn -[writer_write]. rewrite andb_true_r, run_bind.
  destruct (lr_Level r >=? LevelWarn); cbn -[writer_write].
  2: { destruct j, e; cbn; destruct (wd_writer w =? 0)%nat; by rewrite ?app_nil_r. }
  rewrite Z.geb_leb. unfold sink_Error, sink_Warn.
  destruct (LevelError <=? lr_Level r);
    match goal with |- context [run (writer_write ?t ?m ?o) ?w1] => destruct (write_one t m o w1) as [er ->] end;
    cbn; destruct (wd_writer w =? 0)%nat, (has_nul _), j, e; done.
Qed.

(** A history of the mirroring logger. *)
Lemma log_run_tee level ops w : exists w',
  run (log_run (tee_of level) ops) w = Some (tt, w')
  /\ wd_json w' = wd_json w ++ (ops ≫= json_line level)
  /\ wd_events w' = wd_events w ++ (if (wd_writer w =? 0)%nat then [] else before_close ops ≫= event_line level)
  /\ wd_sources w' = (if existsb is_close ops && negb (wd_writer w =? 0)%nat then wd_sources w ∖ {[wd_writer w]} else wd_sources w).
Proof.
  revert w. induction ops as [|[ds r j e|] ops IH]; intros w; cbn -[logger_log json_line event_line tee_of].
  - exists w. split_and!; rewrite ?app_nil_r; destruct (wd_writer w =? 0)%nat; by rewrite ?app_nil_r.
  - rewrite run_bind, log_one.
    destruct (IH (with_logs (wd_json w ++ json_line level (LLog ds r j e))
      (wd_events w ++ (if (wd_writer w =? 0)%nat then [] else event_line level (LLog ds r j e))) w)) as (w' & Hr & Hj & He & Hs).
    exists w'. split_and!; [exact Hr| | |exact Hs].
    { rewrite Hj. cbn -[json_line]. by rewrite <- app_assoc. }
    rewrite He. cbn -[event_line]. rewrite <- app_assoc. by destruct (wd_writer w =? 0)%nat.
  - rewrite run_bind. unfold closeLog, tee_of at 1, writer_close. rewrite run_modify.
    destruct (wd_writer w =? 0)%nat eqn:Ew; cbn -[tee_of].
    + destruct (IH w) as (w' & Hr & Hj & He & Hs). exists w'. rewrite Ew, andb_false_r in *. done.
    + destruct (IH (with_sources (wd_sources w ∖ {[wd_writer w]}) (wd_last w) 0 w)) as (w' & Hr & Hj & He & Hs).
      exists w'. cbn -[tee_of] in *. rewrite andb_false_r in Hs. done.
Qed.

(** A history of the JSON logger alone. *)
Lemma log_run_json level ops w : exists w',
  run (log_run (inl (mkJSON level [])) ops) w = Some (tt, w')
  /\ wd_json w' = wd_json w ++ (ops ≫= json_line level)
  /\ wd_events w' = wd_events w /\ wd_sources w' = wd_sources w.
Proof.
  revert w. induction ops as [|[ds r j e|] ops IH]; intros w; cbn -[json_Handle json_line].
  - exists w. by rewrite app_nil_r.
  - rewrite run_bind, derive_json. cbn -[json_Handle]. unfold json_Enabled. cbn -[json_Handle].
    destruct (level <=? lr_Level r).
    + rewrite json_one. destruct (IH (with_logs (wd_json w ++ (if j then [(mkJSON level ds, r)] else [])) (wd_events w) w))
        as (w' & Hr & Hj & He & Hs).
      exists w'. split_and!; [exact Hr| |exact He|exact Hs]. rewrite Hj. cbn. rewrite <- app_assoc. by destruct j.
    + destruct (IH w) as (w' & Hr & Hj & He & Hs). exists w'. split_and!; try done. rewrite Hj. by destruct j.
  - destruct (IH w) as (w' & Hr & Hj & He & Hs). by exists w'.
Qed.

(** ** Properties *)

(** The two logs of a program that logs through [NewWithEventLog], whatever
    it derives, logs and fails to write: the JSON log holds exactly the enabled
    records, with their attributes and groups, in order, whether or not there is
    an event log and whatever happens to it; the event log holds exactly the
    enabled records of level Warn and above logged before it was closed, whose
    text has no NUL byte and which Windows took, as errors from level Error on
    and as warnings below, with every attribute of the logger and then of the
    record, and no group; without an event log the reason is returned with a
    logger that works; and closing, once or more often, gives the handle back. *)
Theorem event_log_mirrors level source ok ops w :
  fresh_handles w ->
  exists l e w1 w',
    run (NewWithEventLog (fun s => openEventLog s ok) level source) w = Some ((l, e), w1)
    /\ run (log_run l ops) w1 = Some (tt, w')
    /\ (e = None <-> has_nul source = false /\ ok = true)
    /\ wd_json w' = wd_json w ++ (ops ≫= json_line (parseLevel level))
    /\ wd_events w' = wd_events w ++ (match e with None => before_close ops ≫= event_line (parseLevel level) | Some _ => [] end)
    /\ (existsb is_close ops = true -> wd_sources w' = wd_sources w).
Proof.
  intros [_ Hf]. unfold NewWithEventLog, openEventLog, utf16. destruct (has_nul source) eqn:En; cbn.
  { destruct (log_run_json (parseLevel level) ops w) as (w' & Hr & Hj & He & Hs).
    eexists _, _, _, w'. split; [reflexivity|]. rewrite app_nil_r. split_and!; try done. intuition congruence. }
  destruct ok; cbn.
  - destruct (log_run_tee (parseLevel level) ops
      (with_sources ({[S (wd_last w)]} ∪ wd_sources w) (S (wd_last w)) (S (wd_last w)) w)) as (w' & Hr & Hj & He & Hs).
    eexists _, _, _, w'. split; [reflexivity|]. split_and!; try done. cbn in Hs. intros Hc. rewrite Hs, Hc. cbn.
    apply leibniz_equiv. assert (S (wd_last w) ∉ wd_sources w) by (intros H; specialize (Hf _ H); lia). set_solver.
  - destruct (log_run_json (parseLevel level) ops w) as (w' & Hr & Hj & He & Hs).
    eexists _, _, _, w'. split; [reflexivity|]. rewrite app_nil_r. split_and!; try done. intuition congruence.
Qed.

(** Registering an event source never leaks the key's handle; it succeeds only
    with both values in place, and removing the source then gives back the
    registry there was, if the source was new.  When it fails after the key was
    created, the key stays. *)
Lemma register_event_source source c s1 s2 w :
  fresh_handles w -> wd_keys w !! eventSourceKey source = None -> has_nul (eventSourceKey source) = false ->
  exists e w', run (registerEventSource source c s1 s2) w = Some (e, w')
    /\ wd_handles w' = wd_handles w
    /\ (e = None -> wd_keys w' !! eventSourceKey source
          = Some (<["TypesSupported" := RegDWORD 7]> (<["EventMessageFile" := RegExpandSZ messageFile]> ∅)))
    /\ (e = None <-> c && s1 && s2 = true)
    /\ (is_Some (wd_keys w' !! eventSourceKey source) <-> c = true)
    /\ exists w'', run (deregisterEventSource source true) w' = Some (None, w'') /\ wd_keys w'' = wd_keys w.
Proof.
  intros [Hf _] Hk Hn.
  assert (({[S (wd_last w)]} ∪ wd_handles w) ∖ {[S (wd_last w)]} = wd_handles w) as E1.
  { assert (S (wd_last w) ∉ wd_handles w) by (intros H; specialize (Hf _ H); lia). apply leibniz_equiv; set_solver. }
  unfold registerEventSource, deregisterEventSource, setStringValue, setDWORDValue, utf16. rewrite Hn.
  generalize dependent (eventSourceKey source). intros k Hk Hn.
  destruct c, s1, s2; cbn; eexists _, _; (split; [reflexivity|]); cbn;
    rewrite ?E1, ?Hk, ?lookup_alter_eq, ?lookup_insert_eq; cbn; split_and!; try done;
    try (intuition (congruence || eauto || by destruct H)).
  all: eexists; split; [reflexivity|]; cbn; apply map_eq; intros i; rewrite ?lookup_delete;
    destruct (decide (k = i)) as [<-|Ni]; [done|];
    rewrite ?lookup_alter_ne, ?lookup_insert_ne by done; done.
Qed.

(** A level that is misspelt is info; case and surrounding space do not matter. *)
Lemma parseLevel_default s :
  ToLower (TrimSpace s) <> "debug" -> ToLower (TrimSpace s) <> "warn" -> ToLower (TrimSpace s) <> "warning" ->
  ToLower (TrimSpace s) <> "error" -> parseLevel s = LevelInfo.
Proof. intros. unfold parseLevel. cbv zeta. by rewrite !bool_decide_eq_false_2. Qed.

(** Where there is no event log, the logger is the JSON logger. *)
Lemma other_platform level source w :
  run (NewWithEventLog newEventSink_other level source) w
  = Some ((inl (New_logger level), Some (EMsg "logging: no event log on this platform")), w).
Proof. done. Qed.

(** ** Witnesses *)

Definition demo_world : World := mkWorld ∅ ∅ ∅ 0 0 [] [].

Definition demo_ops : list log_op :=
  [ LLog [DAttrs [mkAttr "device" "d1"]] (mkLogRecord LevelInfo "up" []) true true;
    LLog [DAttrs [mkAttr "device" "d1"]; DGroup "g"] (mkLogRecord LevelWarn "slow" [mkAttr "ms" "70"]) true true;
    LLog [] (mkLogRecord LevelError "down" []) false true;
    LClose;
    LLog [] (mkLogRecord LevelError "late" []) true true ].

Lemma event_log_mirrors_witness :
  exists l w1 w', run (NewWithEventLog (fun s => openEventLog s true) " Info" "SarAgent") demo_world = Some ((l, None), w1)
    /\ run (log_run l demo_ops) w1 = Some (tt, w')
    /\ length (wd_json w') = 3%nat
    /\ wd_events w' = [(2, 1000, "slow device=d1 ms=70"); (1, 1000, "down")]
    /\ wd_sources w' = ∅.
Proof.
  destruct (event_log_mirrors " Info" "SarAgent" true demo_ops demo_world) as (l & e & w1 & w' & H1 & H2 & H3 & H4 & H5 & H6).
  { split; intros h Hh; by apply elem_of_empty in Hh. }
  destruct e as [e|]; [by destruct (proj2 H3 (conj eq_refl eq_refl))|].
  exists l, w1, w'. split_and!; [exact H1|exact H2| | |].
  - rewrite H4. reflexivity.
  - rewrite H5. reflexivity.
  - apply H6. reflexivity.
Defined.
